(* ===== verification/_CoqProject ===== *)
-Q . S2P
Prelude.v
RustStr.v
Json.v
Policy.v
ApiAuth.v
Capabilities.v
Redaction.v
Sql.v
Runs.v
RunQueue.v
RunProps.v
RunDedupe.v
Scheduler.v
TriggerTables.v
TriggerDispatch.v
TriggerSpec.v
TriggerProps.v
TriggerLedger.v
TriggerClaims.v
Siem.v
SiemProps.v
Action.v
LlmTables.v
MemoryTables.v
MemoryRank.v
Tables.v
PaymentTables.v
PaymentRoutes.v
Paths.v
FileSystem.v
LocalExec.v
FileStore.v
AgentContext.v
AgentContextProps.v
World.v
Memory.v
LlmTableProps.v
LlmText.v
LlmPlan.v
Messages.v
LlmGateway.v
LlmExecutor.v
LlmFrame.v
LlmProps.v
LlmBudgetProps.v
Payments.v
PaymentProps.v
PaymentRouteProps.v
PaymentLedger.v
PaymentBudget.v
Worker.v
WorkerFrame.v
WorkerProps.v
WorkerPayments.v
WorkerCycle.v
ApiRuns.v
ApiRunProps.v
ApiTriggers.v
Upholds.v
MemoryProps.v
ApiContext.v
ApiMemory.v
Api.v
ApiTriggerProps.v
ApiContextProps.v
ApiContextCases.v
ApiMemoryProps.v
Pipeline.v
System.v
