(* ===== verification/Prelude.v ===== *)
(** * A verification development for rust-agent (SecureAgnt)

    SecureAgnt runs "skills" for tenants.  A client asks the HTTP API for a run
    of a recipe; the API decides which capabilities the run is granted and puts
    it in a queue (the [runs] table, on PostgreSQL or SQLite); a worker claims
    it under a lease, starts the skill as a child process, checks every action
    the skill asks for against the grants, executes the allowed ones and records
    everything in an audit log.  This library models that path and proves what
    it promises: nothing is executed that was not granted, runs are not worked
    on twice while a lease is live, what is recorded is redacted, files stay in
    their tenant's directory, and success means that everything was done.

    ** Parts, and where the code is

    - [Prelude], [RustStr], [Json], [Sql]: what the code uses of its language
      and of its databases.  Results and the [?] operator; strings as UTF-8
      bytes with [trim], [split_once], [replace] and the others; [serde_json]
      values, whose objects are sorted association lists (the crate is built
      without [preserve_order]); SQL statements as functions on lists of rows
      ([update_where], [order_by], [limit]), and the two ways an engine compares
      time stamps ([Engine]: PostgreSQL compares microseconds, SQLite's
      [datetime] compares seconds).
    - [Policy]: core/src/policy.rs.  [Redaction]: core/src/redaction.rs.
    - [ApiAuth], [Capabilities]: the header checks of api/src/lib.rs, the
      capabilities it grants, and the grants the worker parses back
      (worker/src/lib.rs).
    - [Runs]: every statement on [runs] (core/src/db.rs, db_dual.rs,
      db_worker_dual.rs).  [RunQueue]: the class [RunStore] of the operations a
      worker uses, with its laws, its PostgreSQL and SQLite instances and the
      dispatcher [dual]; the abstract lease protocol [lease_event].
      [RunProps], [RunDedupe]: their theorems.
    - [Scheduler]: the lease of the trigger scheduler.
    - [TriggerTables], [TriggerDispatch]: triggers, their events and their
      ledger, and the transactions that fire them on both backends (core/src/db.rs,
      db_worker_dual.rs).  [TriggerSpec]: one specification of a dispatch, a
      decision and its writes, to which the transactions of both backends are
      equal.  [TriggerProps], [TriggerLedger], [TriggerClaims]: what follows for
      one dispatch and for histories of the tables.
    - [Siem], [SiemProps]: the outbox of the SIEM export, its statements and the
      worker's pass over it.
    - [Action]: normalisation, contract validation and the policy request of an
      action (worker/src/lib.rs, skillrunner/src/protocol.rs).
    - [Tables]: steps, action requests and results, audit events, artifacts.
    - [PaymentTables], [PaymentRoutes]: the payment ledger, and the routes of
      wallets and mints with their health.
    - [Paths]: path components and the artifact sanitizer.
    - [World]: the effects of the worker.  A program is a function from a world
      (tables, journal, tick) to a result and a world; [env] gives the
      clocks, the identifiers, the faults and what other processes do to the
      database between two statements.  The journal records what leaves the
      process: rows written, files written, messages posted, actions executed.
    - [Messages]: object.write, message.send, message.receive.
    - [FileSystem], [LocalExec]: files, directories and links with
      [fs::canonicalize], and the local.exec executor over them
      (worker/src/local_exec.rs).
    - [LlmTables], [LlmTableProps]: token usage, admission leases and cached
      completions in the database, the response cache and the admission counters
      of the process.
    - [LlmText], [LlmPlan], [LlmGateway], [LlmExecutor]: llm.infer (worker/src/llm.rs
      and [execute_llm_infer_action]): cutting and ranking texts; the arguments, the
      plan of the prompt, the route, the model and the endpoint; egress, caches,
      requests, admission, verifier, escalations; budgets and usage.
      [LlmFrame]: one walk through the executor, for every predicate closed under
      its steps.  [LlmProps], [LlmBudgetProps]: its theorems.
    - [Payments]: payment.send, with both rails.  [PaymentProps],
      [PaymentRouteProps], [PaymentLedger], [PaymentBudget]: its limits, its routes,
      its idempotency and the budgets of a tenant.
    - [MemoryTables], [Memory], [MemoryProps]: the memory records of agents and their
      compactions (core/src/db.rs, db_worker_dual.rs and the SQLite statements of
      api/src/lib.rs): constraints, listings with SQL's [LIKE], purge, statistics,
      and the compaction of old records, which is a sequence of statements and no
      transaction.  [MemoryRank]: the score of a retrieval in IEEE doubles and the
      order it gives.  [ApiMemory], [ApiMemoryProps]: the seven endpoints, written
      once over a record of the statements of a backend ([MemoryBackend]).
    - [Worker], [WorkerProps], [WorkerPayments]: [process_claimed_run] and
      everything it calls, and what one execution of a run pays.
    - [WorkerCycle]: [process_once_dual], with the compaction of memory and the
      dispatch of triggers.
    - [ApiRuns], [ApiRunProps]: creating and reading runs over HTTP
      (api/src/lib.rs), as programs of [World].
    - [ApiTriggers], [ApiTriggerProps]: the endpoints of triggers and their events
      on both backends, with the SQLite statements the handlers make themselves
      ([insert_trigger_sqlite], [write_trigger_config_sqlite],
      [requeue_event_sqlite], [fire_manually_sqlite] of [TriggerDispatch]).
      [Api]: the router, which answers a request of those kinds.
    - [FileStore]: files with their contents over [FileSystem].  [AgentContext],
      [AgentContextProps]: core/src/agent_context.rs, the context files of an agent,
      their snapshots, and HEARTBEAT.md.  [ApiContext], [ApiContextProps]: the
      endpoints of agent contexts (api/src/lib.rs) over a class [FileHost] of states
      that hold files; [ApiContextCases]: their theorems on concrete requests, and what
      the code allows that it should not.
    - [WorkerFrame]: what processing a run leaves alone.  [Upholds]: triples on the
      database and the journal, with a tactic that walks through a handler; the
      theorems on the endpoints of memory and on the system are proved with it.
    - [Pipeline]: the queue between API and worker, from the role of the creator of
      a run or a trigger to the actions that a cycle executes for the run.
    - [System]: served requests and worker cycles as steps on one database, with the
      history of requests.

    The names are those of the Rust code; a function of SQLite has the suffix
    [_sqlite] and a dispatcher [_dual], as in the code.

    ** What the theorems show

    - Authorisation: [policy_allows_iff_some_grant_permits] compares the engine
      with the meaning of grants; [granted_actions_respect_role_and_bundle]
      follows the grants from the API to the worker;
      [no_action_without_authorization] and [cycle_executes_only_under_claim]
      show that the worker executes nothing else, whatever fails and whatever
      other workers do meanwhile; [executed_actions_stay_within_the_callers_role]
      puts the API, the queue and the cycle together.
    - Run creation: [created_runs_carry_authorised_grants], [create_run_exact],
      [repeated_creation_returns_the_same_run], [dedupe_key_identifies_request].
    - Runs: [run_store_refines_lease_protocol] refines the statements of both
      backends to the lease protocol; exclusivity, fencing, caps, order of the
      queue and absence of starvation follow, and
      [concurrent_claims_can_exceed_cap] shows where interleaving breaks the
      caps.
    - Confinement: [artifact_path_confined], [object_write_is_confined],
      [message_send_respects_allowlist], [local_exec_runs_only_granted_commands];
      [touch_follows_a_final_link] shows where a link escapes.
    - Redaction: [redact_text_no_nsec], [redact_json_clean],
      [audit_log_is_redacted].
    - Outcomes: [success_outcome_is_faithful], [refusal_stops_the_run],
      [actions_run_in_order_at_most_once].
    - Payments: [payments_stay_within_limits], [run_payments_stay_within_budget] and
      [tenant_budget_is_invariant] bound what is paid, [idempotency_key_is_paid_once]
      that it is paid once; [routes_are_tried_in_order] and
      [quarantine_needs_a_threshold_of_one] are about the routes.
    - Language models: [llm_requests_obey_the_egress_policy] says where prompts go,
      [llm_requests_stay_in_the_checked_scope] that the policy engine was asked about
      it - and [channel_of_the_run_escapes_the_checked_scope] and
      [escalation_ignores_scope_mode_and_budget] where it was not;
      [remote_calls_stay_within_the_budgets] and [llm_usage_is_recorded] are about the
      tokens, [lanes_admit_up_to_their_limit], [acquire_release_keeps_the_live_leases],
      [concurrent_acquisitions_can_collide] and [llm_infer_restores_the_counters] about
      admission, [pruning_bounds_a_namespace], [process_cache_is_bounded],
      [cached_completion_roundtrip] and [cache_keys_do_not_determine_the_request] about
      the caches, [chunks_rebuild_the_prompt] about the prompt.
    - Triggers: [dispatch_equals_its_specification] makes the backends one;
      [fired_run_carries_the_triggers_authority], [firing_respects_the_caps] and
      [interval_triggers_move_forward] are about one dispatch,
      [each_key_fires_at_most_once], [manual_firing_is_idempotent] and
      [stored_triggers_are_well_formed] about histories;
      [oversized_event_stops_the_dispatch] and [manual_key_stops_the_dispatch] show
      where the ledger's key blocks it.  [created_triggers_carry_authorised_grants],
      [trigger_changes_are_authorised] and [events_enter_through_live_webhooks] are
      about who may create, change, fire and feed a trigger over HTTP.
    - Agent contexts: [snapshots_stay_within_the_limits] and
      [heartbeat_candidates_are_acceptable] about the loader and the compiler;
      [context_mutations_follow_the_classification] says who may change which file and
      [context_mutations_change_one_file] that nothing else changes;
      [materialized_triggers_are_approved], [materialization_is_idempotent] and
      [heartbeats_pass_the_trigger_checks] are about heartbeats;
      [flat_agent_directories_ignore_the_tenant], [a_tenant_identifier_can_leave_the_root],
      [operators_can_forge_a_bootstrap_completion] and
      [a_bootstrap_completion_can_be_forgotten] show where tenants and roles are not
      kept apart.
    - Memory: [memory_record_is_confined] and [handoff_packet_reads_back] say what a
      creation records, for whom and how redacted; [memory_stays_with_its_tenant] that
      records keep to the runs of their tenant; [memory_listing_is_exact] and
      [memory_retrieval_is_ranked] what the queries answer, [rank_memory_spec] being
      about the order; [purge_deletes_exactly_the_expired] what a purge deletes.
      [compaction_marks_whole_groups] describes a pass without interference,
      [compactions_record_each_memory_once] what is true of every pass;
      [compaction_can_lose_its_record], [sqlite_compaction_can_hide_a_record],
      [handoff_listing_is_all_or_nothing] with [senderless_record_blocks_the_listing]
      and [scope_prefix_is_a_pattern] show where the code surprises.
    - Outbox: [outbox_pass_refines_steps] and [siem_outbox_invariant].

    ** Bounds and fuel

    Loops of the code over a list are structural.  The loops that are not carry
    fuel: [replace_loop] and the two redaction loops the length of the text,
    [slack_loop] the number of attempts, [claim_retry_sqlite] the number of
    tries of the code, [chunks_loop] and the trimming loops the length of the text.
    The theorems about these functions hold with the fuel
    the definitions start with, so no result is lost.  Integers are [Z] with the
    saturation, clamping or wrap-around of the code written out; time is in
    microseconds.

    ** What is not modelled

    Network transports, child processes, signing, hashing, time zones and cron
    expressions are arguments of the definitions that use them.  A transaction is
    one atomic function: what the isolation level of PostgreSQL would let another
    transaction see of it is not modelled, rows locked by others are
    ([FOR UPDATE SKIP LOCKED]).  Of the LLM executor, the HTTP client, the URL
    parser, the hash of cache keys, floats and the monotonic clock are arguments; a
    panic (a mock endpoint that cuts a character, a budget window before the year
    -9999) is an error that unwinds like the others; rows of equal [updated_at] are
    pruned in the order of the table.  A snapshot of an agent context reads the files
    as they are at one moment; file names are valid UTF-8, a link to nothing is not
    followed when a file is made, and what a failed write left behind is what other
    processes did ([fe_other]).  The texts of UUIDs and time stamps are arguments; characters in a
    [LIKE] pattern are UTF-8 sequences, and an invalid one does not occur.
    Left out are: environment variables; the reports of payments, usage, operations
    and compliance, which only read; the HTTP routing, a library; the operator's
    command-line tool, a client of the API; the resolution of secret references, which
    calls the clients of external vaults and whose result is an argument here; the
    choice and opening of the database pool; and the example skills. *)
From stdpp Require Export base tactics option list strings gmap numbers sorting.
From Stdlib Require Export ZArith Lia.
From Stdlib Require Ascii.
Export Stdlib.Strings.Ascii (ascii(..), N_of_ascii, ascii_of_N).

#[global] Open Scope Z_scope.

(** * Results of fallible Rust functions *)

Inductive result (A E : Type) : Type :=
| Ok (a : A)
| Err (e : E).
Arguments Ok {A E} a.
Arguments Err {A E} e.

Definition is_ok {A E} (r : result A E) : bool :=
  match r with Ok _ => true | Err _ => false end.

Definition ok_or {A E} (o : option A) (e : E) : result A E :=
  match o with Some a => Ok a | None => Err e end.

Definition map_err {A E F} (f : E -> F) (r : result A E) : result A F :=
  match r with Ok a => Ok a | Err e => Err (f e) end.

Declare Scope rust_scope.
Delimit Scope rust_scope with rust.

(** The [?] operator. *)
Notation "'let?' x ':=' c 'in' k" :=
  (match c with Ok x => k | Err e => Err e end)
  (at level 10, x pattern, c at level 100, k at level 200) : rust_scope.
#[global] Open Scope rust_scope.

(** * Machine widths *)

Definition i32_max : Z := 2 ^ 31 - 1.
Definition i64_max : Z := 2 ^ 63 - 1.
Definition u64_modulus : Z := 2 ^ 64.
Definition u64_max : Z := 2 ^ 64 - 1.

Definition wrap_u64 (z : Z) : Z := z `mod` u64_modulus.

(** [i64::saturating_add]. *)
Definition saturating_add_i64 (a b : Z) : Z :=
  Z.max (- 2 ^ 63) (Z.min i64_max (a + b)).

(** * Tactics *)

(** Split the first [match] or [if] of the goal or of a hypothesis. *)
Ltac split_match :=
  match goal with
  | |- context [match ?x with _ => _ end] => destruct x eqn:?
  | H : context [match ?x with _ => _ end] |- _ => destruct x eqn:?
  end.

Ltac split_matches := repeat (split_match; simplify_eq/=; try done).

(** Turn boolean tests in the context into propositions. *)
Ltac bool_hyps :=
  repeat match goal with
  | H : (_ && _)%bool = true |- _ => apply andb_true_iff in H as [? ?]
  | H : (_ || _)%bool = false |- _ => apply orb_false_iff in H as [? ?]
  | H : negb _ = true |- _ => apply negb_true_iff in H
  | H : negb _ = false |- _ => apply negb_false_iff in H
  | H : bool_decide _ = true |- _ => apply bool_decide_eq_true in H
  | H : bool_decide _ = false |- _ => apply bool_decide_eq_false in H
  | H : (_ =? _) = true |- _ => apply Z.eqb_eq in H
  | H : (_ =? _) = false |- _ => apply Z.eqb_neq in H
  | H : (_ <? _) = true |- _ => apply Z.ltb_lt in H
  | H : (_ <? _) = false |- _ => apply Z.ltb_ge in H
  | H : (_ <=? _) = true |- _ => apply Z.leb_le in H
  | H : (_ <=? _) = false |- _ => apply Z.leb_gt in H
  end.

Create HintDb agnt.
Create Rewrite HintDb agnt.

(** * Lists *)

Section lists.
Context {A B : Type}.
Implicit Types (f g : A -> bool) (l : list A).

Lemma existsb_elem_of f l :
  existsb f l = true <-> exists x, x ∈ l /\ f x = true.
Proof.
  rewrite existsb_exists. by setoid_rewrite list_elem_of_In.
Qed.

Lemma existsb_not_elem_of f l :
  existsb f l = false <-> forall x, x ∈ l -> f x = false.
Proof.
  split.
  - intros H x Hx. destruct (f x) eqn:E; [|done].
    assert (existsb f l = true) by (apply existsb_elem_of; eauto). congruence.
  - intros H. destruct (existsb f l) eqn:E; [|done].
    apply existsb_elem_of in E as (x & Hx & E). by rewrite H in E.
Qed.

Lemma elem_of_filterb f l x :
  x ∈ List.filter f l <-> x ∈ l /\ f x = true.
Proof. rewrite !list_elem_of_In. apply filter_In. Qed.

Lemma filterb_nil f l :
  List.filter f l = [] <-> forall x, x ∈ l -> f x = false.
Proof.
  split.
  - intros H x Hx. destruct (f x) eqn:E; [|done].
    assert (x ∈ List.filter f l) as Hin by (by apply elem_of_filterb).
    rewrite H in Hin. inv Hin.
  - intros H. destruct (List.filter f l) as [|y k] eqn:E; [done|].
    assert (y ∈ List.filter f l) as Hin by (rewrite E; left).
    apply elem_of_filterb in Hin as [? Hy]. by rewrite H in Hy.
Qed.

Lemma filterb_filterb f g l : List.filter f (List.filter g l) = List.filter (fun x => f x && g x) l.
Proof.
  induction l as [|x l IH]; simpl; [done|]. destruct (g x); simpl; rewrite ?andb_true_r, ?andb_false_r; [|done].
  destruct (f x); by rewrite IH.
Qed.

Lemma filterb_perm f l k : l ≡ₚ k -> List.filter f l ≡ₚ List.filter f k.
Proof.
  induction 1 as [|x l k _ IH|x y l|l k m _ IH1 _ IH2]; simpl; [done|destruct (f x); by rewrite IH| |by rewrite IH1].
  destruct (f x), (f y); [apply perm_swap|done..].
Qed.

Lemma length_filterb_le f l : (length (List.filter f l) <= length l)%nat.
Proof. induction l; simpl; [lia|]. destruct (f a); simpl; lia. Qed.

Lemma length_filterb_mono f g l :
  (forall x, x ∈ l -> f x = true -> g x = true) ->
  (length (List.filter f l) <= length (List.filter g l))%nat.
Proof.
  induction l as [|a l IH]; intros H; simpl; [lia|].
  assert (forall x, x ∈ l -> f x = true -> g x = true) as H'.
  { intros x Hx. apply H. by right. }
  specialize (IH H'). destruct (f a) eqn:E.
  - rewrite (H a); [simpl; lia|left|done].
  - destruct (g a); simpl; lia.
Qed.

Lemma length_filterb_ext f g l :
  (forall x, x ∈ l -> f x = g x) ->
  length (List.filter f l) = length (List.filter g l).
Proof.
  intros H. apply Nat.le_antisymm; apply length_filterb_mono;
    intros x Hx; rewrite H by done; done.
Qed.
End lists.

(** [COUNT] as a 64-bit integer. *)
Definition countb {A} (f : A -> bool) (l : list A) : Z := Z.of_nat (length (List.filter f l)).

Lemma countb_nonneg {A} (f : A -> bool) l : 0 <= countb f l.
Proof. unfold countb. lia. Qed.
#[export] Hint Resolve countb_nonneg : agnt.

Lemma countb_cons {A} (f : A -> bool) x l :
  countb f (x :: l) = (if f x then 1 else 0) + countb f l.
Proof. unfold countb. simpl. destruct (f x); simpl; lia. Qed.

Lemma countb_app {A} (f : A -> bool) l k :
  countb f (l ++ k) = countb f l + countb f k.
Proof. unfold countb. rewrite List.filter_app, length_app. lia. Qed.

Lemma countb_pos {A} (f : A -> bool) l x : x ∈ l -> f x = true -> 1 <= countb f l.
Proof.
  induction 1 as [y l|y z l _ IH]; intros Hf; rewrite countb_cons.
  - rewrite Hf. pose proof (countb_nonneg f l). lia.
  - apply IH in Hf. destruct (f z); lia.
Qed.

Lemma countb_mono {A} (f g : A -> bool) l :
  (forall x, x ∈ l -> f x = true -> g x = true) -> countb f l <= countb g l.
Proof. intros H. unfold countb. apply inj_le, length_filterb_mono, H. Qed.
