(* ===== verification/RustStr.v ===== *)
(** The string operations of the Rust standard library that the program uses,
    on byte strings ([string] of [ascii], one character per UTF-8 byte):
    [starts_with], [strip_suffix], [contains], [find], [split_once], [split],
    [to_ascii_lowercase], [trim] and the ASCII classes, each with the lemma
    that characterises it.  On valid UTF-8 these byte-level definitions agree
    with the character-level ones, since a UTF-8 sequence is self-delimiting. *)
From S2P Require Import Prelude.

(** * Appending *)

Lemma sapp_nil_l (s : string) : "" +:+ s = s.
Proof. done. Qed.

Lemma sapp_cons c (s t : string) : String c s +:+ t = String c (s +:+ t).
Proof. done. Qed.

Lemma sapp_nil_r (s : string) : s +:+ "" = s.
Proof. induction s as [|c s IH]; [done|]. by rewrite sapp_cons, IH. Qed.

Lemma sapp_assoc (s t u : string) : s +:+ t +:+ u = (s +:+ t) +:+ u.
Proof. induction s as [|c s IH]; [done|]. by rewrite !sapp_cons, IH. Qed.

Lemma sapp_length (s t : string) :
  String.length (s +:+ t) = (String.length s + String.length t)%nat.
Proof. induction s as [|c s IH]; [done|]. rewrite sapp_cons. simpl. by rewrite IH. Qed.

Lemma sapp_inv_l (s t u : string) : s +:+ t = s +:+ u -> t = u.
Proof. induction s as [|c s IH]; rewrite ?sapp_cons; intros; simplify_eq; eauto. Qed.

#[export] Hint Rewrite sapp_cons sapp_nil_l sapp_nil_r sapp_length : agnt.

(** * Prefixes and suffixes *)

(** [s.starts_with(p)] *)
Fixpoint starts_with (p s : string) : bool :=
  match p, s with
  | EmptyString, _ => true
  | String a p', String b s' => Ascii.eqb a b && starts_with p' s'
  | _, _ => false
  end.

Lemma starts_with_spec p s :
  starts_with p s = true <-> exists r, s = p +:+ r.
Proof.
  revert s. induction p as [|a p IH]; intros s; simpl.
  - split; eauto.
  - destruct s as [|b s]; simpl.
    + split; [done|]. intros [r Hr]. by rewrite sapp_cons in Hr.
    + rewrite andb_true_iff, Ascii.eqb_eq, IH. split.
      * intros [-> [r ->]]. by exists r.
      * intros [r Hr]. rewrite sapp_cons in Hr. simplify_eq. eauto.
Qed.

Lemma starts_with_app p r : starts_with p (p +:+ r) = true.
Proof. apply starts_with_spec. eauto. Qed.

Lemma starts_with_trans p q s :
  starts_with p q = true -> starts_with q s = true -> starts_with p s = true.
Proof.
  rewrite !starts_with_spec. intros [r ->] [r' ->].
  exists (r +:+ r'). by rewrite sapp_assoc.
Qed.

Lemma starts_with_app_inv p q s :
  starts_with (p +:+ q) s = true -> starts_with p s = true.
Proof. apply starts_with_trans, starts_with_app. Qed.

#[export] Hint Resolve starts_with_app : agnt.

(** [s.strip_suffix(suf)] *)
Fixpoint strip_suffix (suf s : string) : option string :=
  if String.eqb s suf then Some ""
  else match s with
       | EmptyString => None
       | String c s' => String c <$> strip_suffix suf s'
       end.

Lemma strip_suffix_app suf r : strip_suffix suf (r +:+ suf) = Some r.
Proof.
  induction r as [|c r IH].
  - rewrite sapp_nil_l. destruct suf; simpl; [done|].
    by rewrite Ascii.eqb_refl, String.eqb_refl.
  - rewrite sapp_cons. cbn [strip_suffix].
    case_match eqn:E; [|by rewrite IH].
    apply String.eqb_eq in E.
    assert (String.length suf = String.length (String c (r +:+ suf))) as Hl by (by rewrite E).
    simpl in Hl. rewrite sapp_length in Hl. lia.
Qed.

Lemma strip_suffix_spec suf s r :
  strip_suffix suf s = Some r <-> s = r +:+ suf.
Proof.
  split; [|intros ->; apply strip_suffix_app].
  revert r. induction s as [|c s IH]; intros r; cbn [strip_suffix].
  - destruct suf; simpl; intros; by simplify_eq.
  - destruct (String.eqb _ suf) eqn:E.
    + intros. simplify_eq. apply String.eqb_eq in E. by subst.
    + intros H. apply fmap_Some in H as (r' & H & ->).
      apply IH in H. by rewrite sapp_cons, <- H.
Qed.

Lemma strip_suffix_None suf s r : strip_suffix suf s = None -> s <> r +:+ suf.
Proof. intros H ->. by rewrite strip_suffix_app in H. Qed.

(** * Searching *)

(** [s.contains(needle)] *)
Fixpoint contains (needle s : string) : bool :=
  starts_with needle s ||
  match s with
  | EmptyString => false
  | String _ s' => contains needle s'
  end.

Lemma contains_spec needle s :
  contains needle s = true <-> exists a b, s = a +:+ needle +:+ b.
Proof.
  split.
  - induction s as [|c s IH]; simpl; rewrite orb_true_iff, starts_with_spec.
    + intros [[r H]|?]; [|done]. by exists "", r.
    + intros [[r H]|H]; [by exists "", r|].
      destruct (IH H) as (a & b & ->). by exists (String c a), b.
  - intros (a & b & ->). induction a as [|c a IH].
    + rewrite sapp_nil_l. destruct (needle +:+ b) eqn:E; simpl; rewrite <- E;
        by rewrite starts_with_app.
    + rewrite sapp_cons. simpl. rewrite IH. by rewrite orb_true_r.
Qed.

(** [s.find(needle)], as the pair of the text before the first occurrence and
    the text from it on. *)
Fixpoint find_split (needle s : string) : option (string * string) :=
  if starts_with needle s then Some ("", s)
  else match s with
       | EmptyString => None
       | String c s' =>
           match find_split needle s' with
           | Some (a, b) => Some (String c a, b)
           | None => None
           end
       end.

Lemma find_split_Some needle s a b :
  find_split needle s = Some (a, b) -> s = a +:+ b /\ starts_with needle b = true.
Proof.
  revert a b. induction s as [|c s IH]; intros a b; simpl.
  - destruct (starts_with needle "") eqn:E; intros; by simplify_eq.
  - destruct (starts_with needle (String c s)) eqn:E; [intros; by simplify_eq|].
    destruct (find_split needle s) as [[a' b']|] eqn:F; intros; simplify_eq.
    destruct (IH _ _ eq_refl) as [-> ?]. done.
Qed.

Lemma find_split_None needle s :
  find_split needle s = None <-> contains needle s = false.
Proof.
  induction s as [|c s IH]; simpl; destruct (starts_with needle _) eqn:E; simpl; try done.
  rewrite <- IH. destruct (find_split needle s) as [[??]|]; done.
Qed.

Lemma find_split_first needle s a b c d :
  find_split needle s = Some (a, b) ->
  s = c +:+ d -> starts_with needle d = true ->
  (String.length a <= String.length c)%nat.
Proof.
  revert a c. induction s as [|x s IH]; intros a c; simpl.
  - destruct (starts_with needle "") eqn:E; intros; simplify_eq. simpl. lia.
  - destruct (starts_with needle (String x s)) eqn:E.
    { intros; simplify_eq. simpl. lia. }
    destruct (find_split needle s) as [[a' b']|] eqn:F; [|done].
    intros Heq Hs Hd. simplify_eq. destruct c as [|y c].
    { rewrite sapp_nil_l in Hs. subst. congruence. }
    rewrite sapp_cons in Hs. simplify_eq. simpl.
    specialize (IH a' c eq_refl eq_refl Hd). lia.
Qed.

(** [s.split_once(pat)] *)
Definition split_once (pat s : string) : option (string * string) :=
  match find_split pat s with
  | Some (a, b) => Some (a, String.substring (String.length pat) (String.length b) b)
  | None => None
  end.

(** [s.replace(pat, by)] for a non-empty pattern: left to right, not
    overlapping.  Each round consumes at least the pattern, so the length is
    enough fuel. *)
Fixpoint replace_loop (fuel : nat) (pat by_ s : string) : string :=
  match fuel with
  | O => s
  | S n => match split_once pat s with
           | Some (a, b) => a +:+ by_ +:+ replace_loop n pat by_ b
           | None => s
           end
  end.

Definition replace (pat by_ s : string) : string := replace_loop (S (String.length s)) pat by_ s.

(** [s.split(c)]: always at least one piece. *)
Fixpoint split_char (c : ascii) (s : string) : list string :=
  match s with
  | EmptyString => [""]
  | String a s' =>
      if Ascii.eqb a c then "" :: split_char c s'
      else match split_char c s' with
           | [] => [String a ""]
           | h :: t => String a h :: t
           end
  end.

Lemma split_char_nonempty c s : split_char c s <> [].
Proof. destruct s; simpl; [done|]. destruct (Ascii.eqb _ _); [done|]. by destruct (split_char c s). Qed.

(** * ASCII classes and case *)

Definition byte_of (c : ascii) : Z := Z.of_N (N_of_ascii c).

Definition is_ascii_lowercase (c : ascii) : bool := (97 <=? byte_of c) && (byte_of c <=? 122).
Definition is_ascii_uppercase (c : ascii) : bool := (65 <=? byte_of c) && (byte_of c <=? 90).
Definition is_ascii_digit (c : ascii) : bool := (48 <=? byte_of c) && (byte_of c <=? 57).
Definition is_ascii_alphanumeric (c : ascii) : bool :=
  is_ascii_lowercase c || is_ascii_uppercase c || is_ascii_digit c.
(** [u8::is_ascii_whitespace]: space, tab, line feed, form feed, carriage return. *)
Definition is_ascii_whitespace (c : ascii) : bool :=
  let n := byte_of c in
  (n =? 32) || (n =? 9) || (n =? 10) || (n =? 12) || (n =? 13).

Definition ascii_lower (c : ascii) : ascii :=
  if is_ascii_uppercase c then ascii_of_N (N_of_ascii c + 32) else c.

Fixpoint to_ascii_lowercase (s : string) : string :=
  match s with
  | EmptyString => ""
  | String c s' => String (ascii_lower c) (to_ascii_lowercase s')
  end.

Definition eq_ignore_ascii_case (a b : string) : bool :=
  String.eqb (to_ascii_lowercase a) (to_ascii_lowercase b).

Lemma ascii_lower_idemp c : ascii_lower (ascii_lower c) = ascii_lower c.
Proof. by destruct c as [[] [] [] [] [] [] [] []]. Qed.

Lemma to_ascii_lowercase_idemp s :
  to_ascii_lowercase (to_ascii_lowercase s) = to_ascii_lowercase s.
Proof. induction s as [|c s IH]; simpl; [done|]. by rewrite ascii_lower_idemp, IH. Qed.

Lemma to_ascii_lowercase_app s t :
  to_ascii_lowercase (s +:+ t) = to_ascii_lowercase s +:+ to_ascii_lowercase t.
Proof. induction s as [|c s IH]; [done|]. rewrite sapp_cons. simpl. by rewrite IH. Qed.

(** * Trimming *)

(** The UTF-8 encodings of the characters with the Unicode property
    [White_Space], which is what [char::is_whitespace] tests. *)
Definition utf8 (l : list Z) : string :=
  foldr (fun z s => String (ascii_of_N (Z.to_N z)) s) "" l.

Definition whitespace_seqs : list string :=
  map utf8
    ([[9]; [10]; [11]; [12]; [13]; [32]; [194; 133]; [194; 160]; [225; 154; 128]] ++
     map (fun k => [226; 128; k])
       [128; 129; 130; 131; 132; 133; 134; 135; 136; 137; 138; 168; 169; 175] ++
     [[226; 129; 159]; [227; 128; 128]]).

#[global] Arguments whitespace_seqs : simpl never.

Fixpoint strip_prefix (p s : string) : option string :=
  match p, s with
  | EmptyString, _ => Some s
  | String a p', String b s' => if Ascii.eqb a b then strip_prefix p' s' else None
  | _, _ => None
  end.

Lemma strip_prefix_spec p s r : strip_prefix p s = Some r <-> s = p +:+ r.
Proof.
  revert s. induction p as [|a p IH]; intros s; simpl.
  - split; intros; by simplify_eq.
  - destruct s as [|b s].
    + split; [done|]. intros H. by rewrite sapp_cons in H.
    + rewrite sapp_cons. destruct (Ascii.eqb a b) eqn:E.
      * apply Ascii.eqb_eq in E. subst. rewrite IH. split; intros; by simplify_eq.
      * split; [done|]. intros H. simplify_eq. by rewrite Ascii.eqb_refl in E.
Qed.

(** One step of trimming: the first (last) character when it is white space. *)
Fixpoint strip_one (strip : string -> string -> option string) (seqs : list string)
    (s : string) : option string :=
  match seqs with
  | [] => None
  | w :: ws => match strip w s with Some r => Some r | None => strip_one strip ws s end
  end.

(** [fuel] bounds the number of characters removed; the length is enough. *)
Fixpoint strip_many (strip : string -> string -> option string) (fuel : nat) (s : string) : string :=
  match fuel with
  | O => s
  | S n => match strip_one strip whitespace_seqs s with
           | Some r => strip_many strip n r
           | None => s
           end
  end.

Definition trim_start (s : string) : string := strip_many strip_prefix (String.length s) s.
Definition trim_end (s : string) : string := strip_many strip_suffix (String.length s) s.
Definition trim (s : string) : string := trim_end (trim_start s).

Definition len (s : string) : Z := Z.of_nat (String.length s).

Definition is_empty (s : string) : bool := String.eqb s "".

Lemma is_empty_spec s : is_empty s = true <-> s = "".
Proof. apply String.eqb_eq. Qed.

Example trim_example : trim "  shownotes/ep1.md
 " = "shownotes/ep1.md".
Proof. by vm_compute. Qed.

(** * Trimming is idempotent *)

Definition trimmed_by (strip : string -> string -> option string) (s : string) : Prop :=
  strip_one strip whitespace_seqs s = None.

(** What the two strippers have in common: the result is shorter by the length
    of the (non-empty) white-space sequence. *)
Class Stripper (strip : string -> string -> option string) : Prop :=
  strip_length w s r :
    strip w s = Some r -> String.length s = (String.length w + String.length r)%nat.

#[export] Instance strip_prefix_Stripper : Stripper strip_prefix.
Proof. intros w s r. rewrite strip_prefix_spec. intros ->. apply sapp_length. Qed.

#[export] Instance strip_suffix_Stripper : Stripper strip_suffix.
Proof. intros w s r. rewrite strip_suffix_spec. intros ->. rewrite sapp_length. lia. Qed.

Lemma strip_one_Some strip ws s r :
  strip_one strip ws s = Some r -> exists w, w ∈ ws /\ strip w s = Some r.
Proof.
  induction ws as [|w ws IH]; simpl; [done|].
  destruct (strip w s) eqn:E.
  - intros. simplify_eq. exists w. split; [left|done].
  - intros H. destruct (IH H) as (w' & ? & ?). exists w'. split; [by right|done].
Qed.

Lemma strip_one_None strip ws s :
  strip_one strip ws s = None <-> forall w, w ∈ ws -> strip w s = None.
Proof.
  induction ws as [|w ws IH]; simpl.
  - split; [|done]. intros _ w Hw. inv Hw.
  - destruct (strip w s) eqn:E.
    + split; [done|]. intros H. rewrite H in E; [done|left].
    + rewrite IH. split; intros H w' Hw'; [|apply H; by right].
      apply elem_of_cons in Hw' as [->|?]; auto.
Qed.

Lemma whitespace_seqs_nonempty w : w ∈ whitespace_seqs -> (0 < String.length w)%nat.
Proof.
  assert (forallb (fun w => negb (is_empty w)) whitespace_seqs = true) as HF by done.
  intros Hw%list_elem_of_In. rewrite forallb_forall in HF. specialize (HF _ Hw).
  destruct w; [done|]. simpl. lia.
Qed.

Section strip_many.
Context (strip : string -> string -> option string) `{!Stripper strip}.

Lemma strip_many_trimmed n s :
  (String.length s <= n)%nat -> trimmed_by strip (strip_many strip n s).
Proof.
  revert s. induction n as [|n IH]; intros s Hn; cbn [strip_many].
  - unfold trimmed_by. destruct (strip_one strip whitespace_seqs s) eqn:E; [|done].
    apply strip_one_Some in E as (w & Hw & E).
    apply strip_length in E. apply whitespace_seqs_nonempty in Hw. lia.
  - destruct (strip_one strip whitespace_seqs s) eqn:E; [|exact E].
    apply IH. apply strip_one_Some in E as (w & Hw & E).
    apply strip_length in E. apply whitespace_seqs_nonempty in Hw. lia.
Qed.

Lemma strip_many_id n s : trimmed_by strip s -> strip_many strip n s = s.
Proof. intros H. destruct n; cbn [strip_many]; [done|]. by rewrite H. Qed.

Lemma strip_many_ind (P : string -> Prop) n s :
  P s -> (forall w u v, P u -> strip w u = Some v -> P v) -> P (strip_many strip n s).
Proof.
  intros Hs Hstep. revert s Hs. induction n as [|n IH]; intros s Hs; cbn [strip_many]; [done|].
  destruct (strip_one strip whitespace_seqs s) eqn:E; [|done].
  apply strip_one_Some in E as (w & _ & E). eauto.
Qed.
End strip_many.

Lemma trim_end_prefix s : exists r, s = trim_end s +:+ r.
Proof.
  apply (strip_many_ind strip_suffix (fun u => exists r, s = u +:+ r)).
  - exists "". by rewrite sapp_nil_r.
  - intros w u v [r ->] H. apply strip_suffix_spec in H as ->.
    exists (w +:+ r). by rewrite sapp_assoc.
Qed.

Lemma trim_start_suffix s : exists r, s = r +:+ trim_start s.
Proof.
  apply (strip_many_ind strip_prefix (fun u => exists r, s = r +:+ u)).
  - by exists "".
  - intros w u v [r ->] H. apply strip_prefix_spec in H as ->.
    exists (r +:+ w). by rewrite sapp_assoc.
Qed.

(** A trimmed string is a contiguous part of the original. *)
Lemma trim_infix s : exists a b, s = a +:+ trim s +:+ b.
Proof.
  destruct (trim_start_suffix s) as [a Ha]. destruct (trim_end_prefix (trim_start s)) as [b Hb].
  exists a, b. unfold trim. by rewrite <- Hb.
Qed.

Lemma trim_start_trimmed s : trimmed_by strip_prefix (trim_start s).
Proof. apply strip_many_trimmed; [apply _|lia]. Qed.

Lemma trim_end_trimmed s : trimmed_by strip_suffix (trim_end s).
Proof. apply strip_many_trimmed; [apply _|lia]. Qed.

Lemma trim_trimmed_start s : trimmed_by strip_prefix (trim s).
Proof.
  apply strip_one_None. intros w Hw.
  destruct (strip_prefix w (trim s)) eqn:E; [|done].
  apply strip_prefix_spec in E.
  pose proof (trim_start_trimmed s) as Ht. unfold trimmed_by in Ht.
  rewrite strip_one_None in Ht. specialize (Ht w Hw).
  destruct (trim_end_prefix (trim_start s)) as [r Hr]. fold (trim s) in Hr.
  assert (strip_prefix w (trim_start s) = Some (s0 +:+ r)); [|congruence].
  apply strip_prefix_spec. by rewrite Hr, E, sapp_assoc.
Qed.

Lemma trim_idemp s : trim (trim s) = trim s.
Proof.
  assert (trim_start (trim s) = trim s) as H.
  { by apply strip_many_id, trim_trimmed_start. }
  unfold trim at 1. rewrite H. apply strip_many_id. unfold trim. apply trim_end_trimmed.
Qed.

(** Lower-casing keeps a trimmed string trimmed: no white space has a letter. *)
Lemma ascii_lower_nonletter c : is_ascii_lowercase (ascii_lower c) = false -> ascii_lower c = c.
Proof. destruct c as [[] [] [] [] [] [] [] []]; vm_compute; intros; congruence. Qed.

Fixpoint no_lowercase (s : string) : bool :=
  match s with
  | EmptyString => true
  | String c s' => negb (is_ascii_lowercase c) && no_lowercase s'
  end.

Lemma lower_app_inv s a b : to_ascii_lowercase s = a +:+ b ->
  exists a' b', s = a' +:+ b' /\ to_ascii_lowercase a' = a /\ to_ascii_lowercase b' = b.
Proof.
  revert s. induction a as [|c a IH]; intros s H; [by exists "", s|].
  destruct s as [|d s]; [done|]. rewrite sapp_cons in H. simpl in H. simplify_eq.
  destruct (IH s) as (a' & b' & -> & <- & <-); [done|]. by exists (String d a'), b'.
Qed.

Lemma lower_no_lowercase s w :
  no_lowercase w = true -> to_ascii_lowercase s = w -> s = w.
Proof.
  revert s. induction w as [|c w IH]; intros [|d s] Hw H; simpl in *; simplify_eq; [done|].
  apply andb_true_iff in Hw as [H1 H2]. apply negb_true_iff in H1.
  rewrite (ascii_lower_nonletter d H1). f_equal. by apply IH.
Qed.

Lemma whitespace_no_lowercase w : w ∈ whitespace_seqs -> no_lowercase w = true.
Proof.
  assert (forallb no_lowercase whitespace_seqs = true) as HF by by vm_compute.
  intros Hw%list_elem_of_In. rewrite forallb_forall in HF. by apply HF.
Qed.

Lemma trimmed_lower s : trim s = s -> trim (to_ascii_lowercase s) = to_ascii_lowercase s.
Proof.
  intros Hs. pose proof (trim_trimmed_start s) as H1. rewrite Hs in H1.
  assert (trimmed_by strip_suffix s) as H2 by (rewrite <- Hs; apply trim_end_trimmed).
  unfold trimmed_by in H1, H2. rewrite strip_one_None in H1, H2.
  assert (trimmed_by strip_prefix (to_ascii_lowercase s)) as H3.
  { apply strip_one_None. intros w Hw. destruct (strip_prefix w _) eqn:E; [|done].
    apply strip_prefix_spec, lower_app_inv in E as (a & b & -> & Ha & _).
    apply lower_no_lowercase in Ha as ->; [|by apply whitespace_no_lowercase].
    specialize (H1 w Hw). assert (strip_prefix w (w +:+ b) = Some b) by by apply strip_prefix_spec.
    congruence. }
  assert (trimmed_by strip_suffix (to_ascii_lowercase s)) as H4.
  { apply strip_one_None. intros w Hw. destruct (strip_suffix w _) eqn:E; [|done].
    apply strip_suffix_spec, lower_app_inv in E as (a & b & -> & _ & Hb).
    apply lower_no_lowercase in Hb as ->; [|by apply whitespace_no_lowercase].
    specialize (H2 w Hw). by rewrite strip_suffix_app in H2. }
  unfold trim, trim_start, trim_end. rewrite (strip_many_id strip_prefix _ _ H3).
  by rewrite (strip_many_id strip_suffix _ _ H4).
Qed.

(** [non_empty_trimmed], which several files of the program define. *)
Definition non_empty_trimmed (value : string) : option string :=
  let trimmed := trim value in if is_empty trimmed then None else Some trimmed.

Lemma non_empty_trimmed_Some v t :
  non_empty_trimmed v = Some t -> t = trim v /\ t <> "" /\ trim t = t.
Proof.
  unfold non_empty_trimmed. destruct (is_empty (trim v)) eqn:E; intros; [discriminate|].
  simplify_eq. rewrite trim_idemp. split_and!; [done| |done].
  intros H. by rewrite H in E.
Qed.

(** * String patterns *)

(** A [match] on a string with literal (or-)patterns: the first arm one of
    whose literals is the scrutinee; [None] is the wildcard. *)
Fixpoint str_match {A} (s : string) (arms : list (list string * A)) : option A :=
  match arms with
  | [] => None
  | (pats, a) :: rest => if existsb (String.eqb s) pats then Some a else str_match s rest
  end.

Lemma str_match_Some {A} s (arms : list (list string * A)) a :
  str_match s arms = Some a -> exists pats, (pats, a) ∈ arms /\ s ∈ pats.
Proof.
  induction arms as [|[pats b] arms IH]; simpl; [done|].
  destruct (existsb (String.eqb s) pats) eqn:E.
  - intros. simplify_eq. apply existsb_elem_of in E as (x & Hx & E%String.eqb_eq). subst.
    exists pats. split; [left|done].
  - intros H. destruct (IH H) as (p & ? & ?). exists p. split; [by right|done].
Qed.

(** Case analysis on a successful [str_match]: one goal per arm. *)
Ltac str_match_cases H :=
  let pats := fresh "pats" in let Hin := fresh "Hin" in let Hs := fresh "Hs" in
  apply str_match_Some in H as (pats & Hin & Hs);
  repeat (apply elem_of_cons in Hin as [Hin|Hin]; [injection Hin as -> ->|]);
  [..|by inv Hin].

Definition str_in (s : string) (l : list string) : bool := existsb (String.eqb s) l.

Lemma str_in_spec s l : str_in s l = true <-> s ∈ l.
Proof.
  unfold str_in. rewrite existsb_elem_of. setoid_rewrite String.eqb_eq. naive_solver.
Qed.

(** * Numbers and characters *)

(** [str::parse::<u64>()] *)
Fixpoint parse_digits (s : string) (acc : Z) : option Z :=
  match s with
  | EmptyString => Some acc
  | String c s' =>
      if is_ascii_digit c then parse_digits s' (acc * 10 + (byte_of c - 48)) else None
  end.

Definition parse_u64 (s : string) : option Z :=
  let digits := match strip_prefix "+" s with Some rest => rest | None => s end in
  if is_empty digits then None
  else match parse_digits digits 0 with
       | Some n => if n <=? u64_max then Some n else None
       | None => None
       end.

(** [s.chars().take(n).collect()] on UTF-8: a character starts at a byte that is
    not a continuation byte. *)
Fixpoint take_chars (n : nat) (s : string) : string :=
  match s with
  | EmptyString => ""
  | String c s' =>
      if (128 <=? byte_of c) && (byte_of c <? 192) then String c (take_chars n s')
      else match n with
           | O => ""
           | S m => String c (take_chars m s')
           end
  end.

(** [v.join(sep)] *)
Definition join (sep : string) (l : list string) : string := String.concat sep l.
