(* ===== verification/Json.v ===== *)
(** [serde_json::Value] as the program uses it.  The crate is built without the
    [preserve_order] feature, so [Map] is a [BTreeMap]: an association list
    sorted by key bytes, without duplicates.  Numbers keep the three internal
    representations ([u64], negative [i64], [f64] as its bit pattern). *)
From S2P Require Import Prelude RustStr.

Inductive number :=
| PosInt (n : Z)
| NegInt (n : Z)
| Float (bits : Z).

#[export] Instance number_eq_dec : EqDecision number.
Proof. solve_decision. Defined.

Unset Elimination Schemes.
Inductive json :=
| JNull
| JBool (b : bool)
| JNum (n : number)
| JStr (s : string)
| JArr (items : list json)
| JObj (fields : list (string * json)).
Set Elimination Schemes.

(** Induction that reaches the elements of arrays and the values of objects. *)
Section json_ind.
Context (P : json -> Prop).
Context (HNull : P JNull) (HBool : forall b, P (JBool b)) (HNum : forall n, P (JNum n))
        (HStr : forall s, P (JStr s))
        (HArr : forall l, Forall P l -> P (JArr l))
        (HObj : forall m, Forall (fun kv => P kv.2) m -> P (JObj m)).

Fixpoint json_ind (v : json) : P v :=
  match v with
  | JNull => HNull
  | JBool b => HBool b
  | JNum n => HNum n
  | JStr s => HStr s
  | JArr l =>
      HArr l ((fix go l : Forall P l := match l return Forall P l with
                           | [] => Forall_nil_2 _
                           | x :: l' => Forall_cons_2 _ _ _ (json_ind x) (go l')
                           end) l)
  | JObj m =>
      HObj m ((fix go m : Forall (fun kv => P kv.2) m := match m return Forall (fun kv => P kv.2) m with
                           | [] => Forall_nil_2 _
                           | kv :: m' => Forall_cons_2 _ _ _ (json_ind kv.2) (go m')
                           end) m)
  end.
End json_ind.

(** * Maps *)

Abbreviation jmap := (list (string * json)).

Fixpoint map_get (k : string) (m : jmap) : option json :=
  match m with
  | [] => None
  | (k', v) :: m' => if String.eqb k k' then Some v else map_get k m'
  end.

(** [BTreeMap::insert]: replaces the value of a present key, keeps the order. *)
Fixpoint map_insert (k : string) (v : json) (m : jmap) : jmap :=
  match m with
  | [] => [(k, v)]
  | (k', v') :: m' =>
      match String.compare k k' with
      | Eq => (k, v) :: m'
      | Lt => (k, v) :: (k', v') :: m'
      | Gt => (k', v') :: map_insert k v m'
      end
  end.

Fixpoint map_remove (k : string) (m : jmap) : jmap :=
  match m with
  | [] => []
  | (k', v') :: m' => if String.eqb k k' then map_remove k m' else (k', v') :: map_remove k m'
  end.

(** The [json!] object literal and the loops that fill a fresh [Map]. *)
Definition map_of (l : list (string * json)) : jmap :=
  fold_left (fun m kv => map_insert kv.1 kv.2 m) l [].

Definition jobject (l : list (string * json)) : json := JObj (map_of l).

(** An unsigned integer. *)
Definition jint (n : Z) : json := JNum (PosInt n).

(** * Accessors *)

(** [Value::get] with a string index. *)
Definition get (k : string) (v : json) : option json :=
  match v with JObj m => map_get k m | _ => None end.

Definition as_str (v : json) : option string :=
  match v with JStr s => Some s | _ => None end.
Definition as_bool (v : json) : option bool :=
  match v with JBool b => Some b | _ => None end.
Definition as_array (v : json) : option (list json) :=
  match v with JArr l => Some l | _ => None end.
Definition as_object (v : json) : option jmap :=
  match v with JObj m => Some m | _ => None end.
Definition as_u64 (v : json) : option Z :=
  match v with JNum (PosInt n) => Some n | _ => None end.
Definition as_i64 (v : json) : option Z :=
  match v with
  | JNum (PosInt n) => if n <=? i64_max then Some n else None
  | JNum (NegInt n) => Some n
  | _ => None
  end.

(** [v.get(k).and_then(|w| w.get(l))] *)
Definition get2 (k l : string) (v : json) : option json := get k v ≫= get l.

Definition get_str (k : string) (v : json) : option string := get k v ≫= as_str.

(** * Equality *)

Fixpoint json_eqb (a b : json) {struct a} : bool :=
  match a, b with
  | JNull, JNull => true
  | JBool x, JBool y => Bool.eqb x y
  | JNum x, JNum y => bool_decide (x = y)
  | JStr x, JStr y => String.eqb x y
  | JArr x, JArr y =>
      (fix go x y := match x, y with
                     | [], [] => true
                     | u :: x', v :: y' => json_eqb u v && go x' y'
                     | _, _ => false
                     end) x y
  | JObj x, JObj y =>
      (fix go x y := match x, y with
                     | [], [] => true
                     | (k, u) :: x', (l, v) :: y' =>
                         String.eqb k l && json_eqb u v && go x' y'
                     | _, _ => false
                     end) x y
  | _, _ => false
  end.

Lemma json_eqb_eq a b : json_eqb a b = true <-> a = b.
Proof.
  revert b. induction a as [|x|x|x|x IH|x IH] using json_ind;
    intros [|y|y|y|y|y]; simpl; try (by split; intros; simplify_eq).
  - rewrite Bool.eqb_true_iff. split; congruence.
  - rewrite bool_decide_eq_true. split; congruence.
  - rewrite String.eqb_eq. split; congruence.
  - trans (x = y); [|split; congruence].
    revert y. induction IH as [|u x Hu _ IH]; intros [|v y]; try (by split; intros).
    rewrite andb_true_iff, Hu, IH. split; [intros [-> ->]|intros; simplify_eq]; done.
  - trans (x = y); [|split; congruence].
    revert y. induction IH as [|[k u] x Hu _ IH]; intros [|[l v] y]; try (by split; intros).
    simpl in Hu. rewrite !andb_true_iff, String.eqb_eq, Hu, IH.
    split; [intros [[-> ->] ->]|intros; simplify_eq]; done.
Qed.

#[export] Instance json_eq_dec : EqDecision json.
Proof.
  intros a b. destruct (json_eqb a b) eqn:E.
  - left. by apply json_eqb_eq.
  - right. intros H. apply json_eqb_eq in H. congruence.
Defined.

(** * Lemmas on maps *)

Lemma string_eqb_neq (a b : string) : a <> b -> String.eqb a b = false.
Proof. apply String.eqb_neq. Qed.

Lemma string_compare_refl (a : string) : String.compare a a = Eq.
Proof.
  induction a as [|c a IH]; simpl; [done|].
  unfold Ascii.compare. by rewrite N.compare_refl.
Qed.

Lemma map_get_insert_eq k v m : map_get k (map_insert k v m) = Some v.
Proof.
  induction m as [|[k' v'] m IH]; simpl; [by rewrite String.eqb_refl|].
  destruct (String.compare k k') eqn:E; simpl; rewrite ?String.eqb_refl; try done.
  destruct (String.eqb k k') eqn:E'; [|done].
  apply String.eqb_eq in E'. subst. by rewrite string_compare_refl in E.
Qed.

Lemma map_get_insert_ne k k' v m :
  k <> k' -> map_get k' (map_insert k v m) = map_get k' m.
Proof.
  intros Hne. induction m as [|[j w] m IH]; simpl.
  - by rewrite string_eqb_neq by congruence.
  - destruct (String.compare k j) eqn:E; simpl.
    + apply String.compare_eq_iff in E. subst.
      by rewrite (string_eqb_neq k' j) by congruence.
    + by rewrite (string_eqb_neq k' k) by congruence.
    + by rewrite IH.
Qed.

Lemma map_get_remove_eq k m : map_get k (map_remove k m) = None.
Proof.
  induction m as [|[j w] m IH]; simpl; [done|].
  destruct (String.eqb k j) eqn:E; simpl; [done|]. by rewrite E.
Qed.

Lemma map_get_remove_ne k k' m : k <> k' -> map_get k' (map_remove k m) = map_get k' m.
Proof.
  intros Hne. induction m as [|[j w] m IH]; simpl; [done|].
  destruct (String.eqb k j) eqn:E; simpl.
  - apply String.eqb_eq in E. subst. by rewrite (string_eqb_neq k' j) by congruence.
  - by rewrite IH.
Qed.

Lemma map_get_insert k k' v m :
  map_get k' (map_insert k v m) = if String.eqb k k' then Some v else map_get k' m.
Proof.
  destruct (String.eqb k k') eqn:E.
  - apply String.eqb_eq in E as ->. apply map_get_insert_eq.
  - apply map_get_insert_ne. by apply String.eqb_neq.
Qed.

#[export] Hint Rewrite map_get_insert_eq map_get_remove_eq : agnt.

Lemma Forall_map_insert (P : string * json -> Prop) k v m :
  P (k, v) -> Forall P m -> Forall P (map_insert k v m).
Proof.
  intros Hkv Hm. induction Hm as [|[k' v'] m Hk Hm IH]; simpl; [by constructor|].
  destruct (String.compare k k'); by repeat constructor.
Qed.

Lemma Forall_map_of (P : string * json -> Prop) l : Forall P l -> Forall P (map_of l).
Proof.
  unfold map_of. intros Hl. assert (Forall P []) as Hacc by constructor.
  revert Hacc. generalize (@nil (string * json)).
  induction Hl as [|[k v] l Hkv Hl IH]; intros acc Hacc; simpl; [done|].
  by apply IH, Forall_map_insert.
Qed.

(** Objects as [BTreeMap]s hold them: strictly increasing keys. *)
Definition sorted_keys (m : jmap) : Prop :=
  StronglySorted (fun a b => String.compare a.1 b.1 = Lt) m.

Lemma map_insert_last k v m :
  Forall (fun kv => String.compare kv.1 k = Lt) m -> map_insert k v m = m ++ [(k, v)].
Proof.
  induction 1 as [|[k' v'] m Hk Hm IH]; simpl; [done|].
  simpl in Hk. rewrite String.compare_antisym, Hk. simpl. by rewrite IH.
Qed.

Lemma map_of_sorted m : sorted_keys m -> map_of m = m.
Proof.
  unfold map_of. intros Hm.
  assert (forall acc, sorted_keys (acc ++ m) ->
    fold_left (fun m kv => map_insert kv.1 kv.2 m) m acc = acc ++ m) as H.
  { clear Hm. induction m as [|[k v] m IH]; intros acc Hs; simpl.
    - by rewrite app_nil_r.
    - rewrite map_insert_last.
      + rewrite IH, <- app_assoc; [done|]. by rewrite <- app_assoc.
      + apply Forall_forall. intros kv Hkv.
        clear IH. induction acc as [|a acc IHa]; [by inv Hkv|].
        inv Hs. apply elem_of_cons in Hkv as [->|Hkv]; [|by apply IHa].
        rewrite Forall_forall in H2. apply (H2 (k, v)). apply elem_of_app. right. left. }
  by rewrite (H [] Hm).
Qed.


(** Sorted maps are determined by their lookups. *)
Lemma string_compare_lt_trans (a b c : string) :
  String.compare a b = Lt -> String.compare b c = Lt -> String.compare a c = Lt.
Proof.
  revert b c. induction a as [|x a IH]; intros [|y b] [|z c]; simpl; try done.
  unfold Ascii.compare.
  destruct (N_of_ascii x ?= N_of_ascii y)%N eqn:E1; try done;
  destruct (N_of_ascii y ?= N_of_ascii z)%N eqn:E2; try done; intros H1 H2;
  rewrite ?N.compare_eq_iff, ?N.compare_lt_iff in *.
  - rewrite E1, E2, N.compare_refl. by apply (IH b).
  - rewrite E1. by apply N.compare_lt_iff in E2 as ->.
  - rewrite <- E2. by apply N.compare_lt_iff in E1 as ->.
  - assert (N_of_ascii x < N_of_ascii z)%N as E by lia. by apply N.compare_lt_iff in E as ->.
Qed.

Lemma map_get_below k m :
  Forall (fun kv => String.compare k kv.1 = Lt) m -> map_get k m = None.
Proof.
  induction 1 as [|[k' v] m Hk _ IH]; simpl; [done|].
  destruct (String.eqb k k') eqn:E; [|done].
  apply String.eqb_eq in E as ->. simpl in Hk. by rewrite string_compare_refl in Hk.
Qed.

Lemma sorted_map_ext m m' :
  sorted_keys m -> sorted_keys m' -> (forall k, map_get k m = map_get k m') -> m = m'.
Proof.
  intros Hm. revert m'. induction Hm as [|[k v] m Hm IH Hk]; intros m' Hm' Hget.
  - destruct m' as [|[k' v'] m']; [done|]. specialize (Hget k'). simpl in Hget.
    by rewrite String.eqb_refl in Hget.
  - destruct Hm' as [|[k' v'] m' Hm' Hk'].
    { specialize (Hget k). simpl in Hget. by rewrite String.eqb_refl in Hget. }
    simpl in Hk, Hk'.
    assert (k = k') as <-.
    { destruct (String.compare k k') eqn:C.
      - by apply String.compare_eq_iff.
      - assert (map_get k ((k', v') :: m') = None) as Hn.
        { apply map_get_below. constructor; [done|].
          eapply Forall_impl; [exact Hk'|]. intros kv H. by eapply string_compare_lt_trans. }
        specialize (Hget k). rewrite Hn in Hget. simpl in Hget.
        by rewrite String.eqb_refl in Hget.
      - rewrite String.compare_antisym in C. apply CompOpp_iff in C. simpl in C.
        assert (map_get k' ((k, v) :: m) = None) as Hn.
        { apply map_get_below. constructor; [done|].
          eapply Forall_impl; [exact Hk|]. intros kv H. by eapply string_compare_lt_trans. }
        specialize (Hget k'). rewrite Hn in Hget. simpl in Hget.
        by rewrite String.eqb_refl in Hget. }
    pose proof (Hget k) as Hv. simpl in Hv. rewrite String.eqb_refl in Hv. simplify_eq.
    f_equal. apply IH; [done|]. intros j. specialize (Hget j). simpl in Hget.
    destruct (String.eqb j k) eqn:E; [|done]. apply String.eqb_eq in E as ->.
    rewrite (map_get_below k m Hk). by rewrite (map_get_below k m' Hk').
Qed.

Lemma sorted_insert k v m : sorted_keys m -> sorted_keys (map_insert k v m).
Proof.
  induction 1 as [|[k' v'] m Hm IH Hk]; simpl; [by repeat constructor|].
  destruct (String.compare k k') eqn:C.
  - apply String.compare_eq_iff in C as ->. by constructor.
  - constructor; [by constructor|]. constructor; [done|].
    eapply Forall_impl; [exact Hk|]. intros kv H. by eapply string_compare_lt_trans.
  - constructor; [done|]. apply Forall_map_insert; [|done]. simpl.
    by rewrite String.compare_antisym, C.
Qed.

Lemma sorted_remove k m : sorted_keys m -> sorted_keys (map_remove k m).
Proof.
  induction 1 as [|[k' v'] m Hm IH Hk]; simpl; [constructor|].
  destruct (String.eqb k k'); [done|]. constructor; [done|].
  clear -Hk. induction Hk as [|[j w] m Hj _ IH]; simpl; [constructor|].
  destruct (String.eqb k j); [done|]. by constructor.
Qed.

Lemma map_get_remove k k' m :
  map_get k' (map_remove k m) = if String.eqb k k' then None else map_get k' m.
Proof.
  destruct (String.eqb k k') eqn:E.
  - apply String.eqb_eq in E as ->. apply map_get_remove_eq.
  - apply map_get_remove_ne. by apply String.eqb_neq.
Qed.

(** [if let Some(w) = map.get_mut(k) { *w = f(w) }] *)
Definition map_update (f : json -> json) (k : string) (m : jmap) : jmap :=
  map (fun kv => if String.eqb kv.1 k then (kv.1, f kv.2) else kv) m.

Lemma map_get_update f k k' m :
  map_get k' (map_update f k m) = if String.eqb k k' then f <$> map_get k' m else map_get k' m.
Proof.
  induction m as [|[j w] m IH]; simpl; [by destruct (String.eqb k k')|].
  destruct (String.eqb j k) eqn:E; simpl.
  - apply String.eqb_eq in E as ->. rewrite (String.eqb_sym k' k) in *.
    by destruct (String.eqb k k').
  - destruct (String.eqb k' j) eqn:E'; [|done]. apply String.eqb_eq in E' as ->.
    rewrite String.eqb_sym in E. by rewrite E.
Qed.

Lemma sorted_update f k m : sorted_keys m -> sorted_keys (map_update f k m).
Proof.
  induction 1 as [|kv m Hm IH Hk]; simpl; constructor; [done|].
  apply Forall_map. eapply Forall_impl; [exact Hk|]. intros kv' H. simpl.
  by destruct (String.eqb kv.1 k), (String.eqb kv'.1 k).
Qed.

#[export] Hint Resolve sorted_insert sorted_remove sorted_update : agnt.
