(* ===== verification/Policy.v ===== *)
(** The capability policy engine, core/src/policy.rs: grants, action requests,
    the decision procedure and its abstract specification. *)
From S2P Require Import Prelude RustStr.

(** * Data *)

Inductive CapabilityKind :=
| ObjectRead | ObjectWrite | MemoryRead | MemoryWrite | MessageSend
| MessageReceive | PaymentSend | LlmInfer | LocalExec | DbQuery | HttpRequest.

#[export] Instance CapabilityKind_eq_dec : EqDecision CapabilityKind.
Proof. solve_decision. Defined.

Definition from_action_type (action_type : string) : option CapabilityKind :=
  match action_type with
  | "object.read" => Some ObjectRead
  | "object.write" => Some ObjectWrite
  | "memory.read" => Some MemoryRead
  | "memory.write" => Some MemoryWrite
  | "message.send" => Some MessageSend
  | "message.receive" => Some MessageReceive
  | "payment.send" => Some PaymentSend
  | "llm.infer" => Some LlmInfer
  | "local.exec" => Some LocalExec
  | "db.query" => Some DbQuery
  | "http.request" => Some HttpRequest
  | _ => None
  end.

Record CapabilityLimits := { max_payload_bytes : option Z }.

Record CapabilityGrant := {
  kind : CapabilityKind;
  scope : string;
  limits : CapabilityLimits;
}.

(** [CapabilityGrant::new]: no limits. *)
Definition CapabilityGrant_new (k : CapabilityKind) (s : string) : CapabilityGrant :=
  {| kind := k; scope := s; limits := {| max_payload_bytes := None |} |}.

Definition with_max_payload_bytes (g : CapabilityGrant) (n : Z) : CapabilityGrant :=
  {| kind := kind g; scope := scope g; limits := {| max_payload_bytes := Some n |} |}.

Record GrantSet := { grants : list CapabilityGrant }.

Record ActionRequest := {
  action_type : string;
  req_scope : string;
  payload_bytes : Z;
}.

Inductive DenyReason :=
| UnknownActionType | CapabilityMissing | ScopeMismatch | PayloadTooLarge
| InvalidActionContract.

Definition DenyReason_as_str (r : DenyReason) : string :=
  match r with
  | UnknownActionType => "unknown_action_type"
  | CapabilityMissing => "capability_missing"
  | ScopeMismatch => "scope_mismatch"
  | PayloadTooLarge => "payload_too_large"
  | InvalidActionContract => "invalid_action_contract"
  end.

Inductive PolicyDecision :=
| Allow
| Deny (reason : DenyReason).

#[export] Instance DenyReason_eq_dec : EqDecision DenyReason.
Proof. solve_decision. Defined.
#[export] Instance PolicyDecision_eq_dec : EqDecision PolicyDecision.
Proof. solve_decision. Defined.

(** * The decision procedure *)

Definition scope_matches (grant_scope requested_scope : string) : bool :=
  match strip_suffix "*" grant_scope with
  | Some prefix => starts_with prefix requested_scope
  | None => String.eqb grant_scope requested_scope
  end.

Definition within_limit (request : ActionRequest) (g : CapabilityGrant) : bool :=
  match max_payload_bytes (limits g) with
  | None => true
  | Some m => payload_bytes request <=? m
  end.

Definition is_action_allowed (gs : GrantSet) (request : ActionRequest) : PolicyDecision :=
  match from_action_type (action_type request) with
  | None => Deny UnknownActionType
  | Some k =>
      let kind_grants := List.filter (fun g => bool_decide (kind g = k)) (grants gs) in
      match kind_grants with
      | [] => Deny CapabilityMissing
      | _ =>
          let scoped_grants :=
            List.filter (fun g => scope_matches (scope g) (req_scope request)) kind_grants in
          match scoped_grants with
          | [] => Deny ScopeMismatch
          | _ => if existsb (within_limit request) scoped_grants then Allow
                 else Deny PayloadTooLarge
          end
      end
  end.

(** * Abstract specification *)

(** The set of scopes a grant covers: everything with the prefix before a
    trailing star, or the scope itself. *)
Definition scope_covers (g r : string) : Prop :=
  (exists p, g = p +:+ "*" /\ exists t, r = p +:+ t) \/
  ((forall p, g <> p +:+ "*") /\ g = r).

Definition permits (g : CapabilityGrant) (request : ActionRequest) : Prop :=
  from_action_type (action_type request) = Some (kind g) /\
  scope_covers (scope g) (req_scope request) /\
  (forall m, max_payload_bytes (limits g) = Some m -> payload_bytes request <= m).

(** * Lemmas *)

Lemma scope_matches_spec g r : scope_matches g r = true <-> scope_covers g r.
Proof.
  unfold scope_matches, scope_covers. destruct (strip_suffix "*" g) as [p|] eqn:E.
  - apply strip_suffix_spec in E. rewrite starts_with_spec. split.
    + intros [t ->]. left. eauto.
    + intros [(p' & Hp & t & ->)|[Hn _]].
      * rewrite Hp in E.
        assert (Some p' = Some p) as ?; [|simplify_eq; eauto].
        by rewrite <- (strip_suffix_app "*" p'), E, strip_suffix_app.
      * by destruct (Hn p).
  - rewrite String.eqb_eq. split.
    + intros ->. right. split; [|done]. intros p Hp. by apply (strip_suffix_None _ _ p) in E.
    + intros [(p & Hp & _)|[_ ->]]; [|done]. by apply (strip_suffix_None _ _ p) in E.
Qed.

Lemma within_limit_spec request g :
  within_limit request g = true <->
  (forall m, max_payload_bytes (limits g) = Some m -> payload_bytes request <= m).
Proof.
  unfold within_limit. destruct (max_payload_bytes (limits g)) as [m|].
  - rewrite Z.leb_le. split; [intros ? ? [= <-]; done|auto].
  - split; [done|done].
Qed.

Section decision.
Context (gs : GrantSet) (request : ActionRequest).
Implicit Types g : CapabilityGrant.

Definition kind_ok g := from_action_type (action_type request) = Some (kind g).
Definition scope_ok g := scope_covers (scope g) (req_scope request).

(** The decision as a case analysis on which grants survive each filter. *)
Lemma is_action_allowed_cases :
  match is_action_allowed gs request with
  | Allow => exists g, g ∈ grants gs /\ permits g request
  | Deny UnknownActionType => from_action_type (action_type request) = None
  | Deny CapabilityMissing =>
      from_action_type (action_type request) <> None /\
      forall g, g ∈ grants gs -> ~ kind_ok g
  | Deny ScopeMismatch =>
      (exists g, g ∈ grants gs /\ kind_ok g) /\
      forall g, g ∈ grants gs -> kind_ok g -> ~ scope_ok g
  | Deny PayloadTooLarge =>
      (exists g, g ∈ grants gs /\ kind_ok g /\ scope_ok g) /\
      forall g, g ∈ grants gs -> ~ permits g request
  | Deny InvalidActionContract => False
  end.
Proof.
  unfold is_action_allowed, permits, kind_ok, scope_ok.
  destruct (from_action_type _) as [k|]; [|done].
  set (kg := List.filter (fun g => bool_decide (kind g = k)) (grants gs)).
  assert (forall g, g ∈ kg <-> g ∈ grants gs /\ kind g = k) as Hkg.
  { intros g. unfold kg. by rewrite elem_of_filterb, bool_decide_eq_true. }
  destruct kg as [|g0 kg'] eqn:Ekg.
  { split; [done|]. intros g Hg [= ->]. assert (g ∈ []) as Hin by (by apply Hkg). inv Hin. }
  rewrite <- Ekg in Hkg |- *.
  set (sg := List.filter _ kg).
  assert (forall g, g ∈ sg <-> g ∈ grants gs /\ kind g = k /\ scope_covers (scope g) (req_scope request)) as Hsg.
  { intros g. unfold sg. rewrite elem_of_filterb, scope_matches_spec, Hkg. tauto. }
  destruct sg as [|g1 sg'] eqn:Esg.
  { assert (g0 ∈ kg) as H0 by (rewrite Ekg; left). apply Hkg in H0 as [? Hk0].
    split; [exists g0; by rewrite Hk0|]. intros g Hg [= ->] Hs.
    assert (g ∈ []) as Hin by (by apply Hsg). inv Hin. }
  rewrite <- Esg in Hsg |- *.
  destruct (existsb (within_limit request) sg) eqn:E.
  - apply existsb_elem_of in E as (g & Hg & Hl). apply Hsg in Hg as (? & <- & ?).
    exists g. by rewrite within_limit_spec in Hl.
  - rewrite existsb_not_elem_of in E.
    assert (g1 ∈ sg) as H1 by (rewrite Esg; left). apply Hsg in H1 as (? & Hk1 & ?).
    split; [exists g1; by rewrite Hk1|]. intros g Hg ([= ->] & Hs & Hl).
    assert (within_limit request g = false) as Hf by (by apply E, Hsg).
    apply within_limit_spec in Hl. congruence.
Qed.

Lemma is_action_allowed_Allow :
  is_action_allowed gs request = Allow <-> exists g, g ∈ grants gs /\ permits g request.
Proof.
  pose proof is_action_allowed_cases as H. split.
  - intros E. by rewrite E in H.
  - intros (g & Hg & Hp). destruct (is_action_allowed gs request) as [|[]]; [done| | | | |].
    + destruct Hp as [Hp _]. congruence.
    + destruct H as [_ H]. by destruct (H g Hg); destruct Hp.
    + destruct H as [_ H]. by destruct (H g Hg); destruct Hp as (? & ? & ?).
    + destruct H as [_ H]. by destruct (H g Hg).
    + done.
Qed.
End decision.

(** C27: the policy engine refines its abstract specification: a request is
    allowed exactly when some grant permits it, that is, has its capability
    kind, a scope that covers the requested one, and a limit not exceeded. *)
Theorem policy_allows_iff_some_grant_permits gs request :
  is_action_allowed gs request = Allow <-> exists g, g ∈ grants gs /\ permits g request.
Proof. apply is_action_allowed_Allow. Qed.

(** Every denial carries the reason of the first filter that leaves no
    grant: unknown type, then missing capability, then scope, then payload size;
    the policy engine never reports an invalid contract. *)
Theorem policy_deny_reason_exact gs request :
  match is_action_allowed gs request with
  | Allow => True
  | Deny UnknownActionType => from_action_type (action_type request) = None
  | Deny CapabilityMissing =>
      from_action_type (action_type request) <> None /\
      forall g, g ∈ grants gs -> from_action_type (action_type request) <> Some (kind g)
  | Deny ScopeMismatch =>
      (exists g, g ∈ grants gs /\ from_action_type (action_type request) = Some (kind g)) /\
      forall g, g ∈ grants gs -> from_action_type (action_type request) = Some (kind g) ->
        ~ scope_covers (scope g) (req_scope request)
  | Deny PayloadTooLarge =>
      (exists g, g ∈ grants gs /\ from_action_type (action_type request) = Some (kind g) /\
                 scope_covers (scope g) (req_scope request)) /\
      forall g, g ∈ grants gs -> ~ permits g request
  | Deny InvalidActionContract => False
  end.
Proof.
  pose proof (is_action_allowed_cases gs request) as H.
  by destruct (is_action_allowed gs request) as [|[]].
Qed.

(** Adding grants never revokes a permission. *)
Lemma policy_monotone gs gs' request :
  grants gs ⊆ grants gs' ->
  is_action_allowed gs request = Allow -> is_action_allowed gs' request = Allow.
Proof. rewrite !is_action_allowed_Allow. intros H (g & Hg & Hp). eauto. Qed.
