(* ===== verification/ApiAuth.v ===== *)
(** Request authentication of the HTTP API, api/src/lib.rs: the error type,
    role presets, and the functions that read the tenant, the proxy token and
    the role from the request headers. *)
From S2P Require Import Prelude RustStr.

Record ApiError := { api_status : Z; api_code : string; api_message : string }.

Definition bad_request (m : string) : ApiError := {| api_status := 400; api_code := "BAD_REQUEST"; api_message := m |}.
Definition unauthorized (m : string) : ApiError := {| api_status := 401; api_code := "UNAUTHORIZED"; api_message := m |}.
Definition forbidden (m : string) : ApiError := {| api_status := 403; api_code := "FORBIDDEN"; api_message := m |}.
Definition conflict (m : string) : ApiError := {| api_status := 409; api_code := "CONFLICT"; api_message := m |}.
Definition not_found (m : string) : ApiError := {| api_status := 404; api_code := "NOT_FOUND"; api_message := m |}.
Definition internal (m : string) : ApiError := {| api_status := 500; api_code := "INTERNAL"; api_message := m |}.

Abbreviation ApiResult A := (result A ApiError).

(** * Headers *)

(** A header map: names are compared without case, the first value of a name
    is the one [get] returns. *)
Abbreviation HeaderMap := (list (string * string)).

Fixpoint header_get (h : HeaderMap) (name : string) : option string :=
  match h with
  | [] => None
  | (k, v) :: h' => if eq_ignore_ascii_case k name then Some v else header_get h' name
  end.

(** [HeaderValue::to_str]: only visible ASCII (and tab) converts. *)
Fixpoint visible_ascii (s : string) : bool :=
  match s with
  | EmptyString => true
  | String c s' =>
      (((32 <=? byte_of c) && (byte_of c <? 127)) || (byte_of c =? 9)) && visible_ascii s'
  end.

Definition to_str (v : string) : option string := if visible_ascii v then Some v else None.

Definition TENANT_HEADER : string := "x-tenant-id".
Definition ROLE_HEADER : string := "x-user-role".
Definition AUTH_PROXY_TOKEN_HEADER : string := "x-auth-proxy-token".

Definition tenant_from_headers (headers : HeaderMap) : ApiResult string :=
  let? raw := ok_or (header_get headers TENANT_HEADER)
                    (bad_request "missing x-tenant-id header") in
  let? value := ok_or (to_str raw)
                    (bad_request "x-tenant-id header is not valid UTF-8") in
  let value := trim value in
  if is_empty value then Err (bad_request "x-tenant-id header must not be empty")
  else Ok value.

(** * Roles *)

Inductive RolePreset := Owner | Operator | Viewer.

#[export] Instance RolePreset_eq_dec : EqDecision RolePreset.
Proof. solve_decision. Defined.

Definition RolePreset_parse (raw : string) : option RolePreset :=
  str_match (to_ascii_lowercase (trim raw))
    [(["owner"], Owner); (["operator"], Operator); (["viewer"], Viewer)].

Definition RolePreset_as_str (r : RolePreset) : string :=
  match r with Owner => "owner" | Operator => "operator" | Viewer => "viewer" end.

(** The part of [AppState] and of [SqliteAppState] that authentication reads. *)
Record AuthState := {
  trusted_proxy_auth_enabled : bool;
  trusted_proxy_auth_secret : option string;
  trusted_proxy_auth_error : option string;
}.

Definition enforce_trusted_proxy_auth (state : AuthState) (headers : HeaderMap) : ApiResult unit :=
  if negb (trusted_proxy_auth_enabled state) then Ok tt else
  match trusted_proxy_auth_error state with
  | Some error =>
      Err (internal ("trusted proxy auth is enabled but secret resolution failed: " +:+ error))
  | None =>
      let? expected :=
        ok_or (trusted_proxy_auth_secret state ≫= fun v =>
                 if is_empty (trim v) then None else Some v)
          (internal "trusted proxy auth is enabled but no shared secret is configured") in
      let? raw := ok_or (header_get headers AUTH_PROXY_TOKEN_HEADER)
                    (unauthorized "missing x-auth-proxy-token header") in
      let? provided := ok_or (to_str raw)
                    (bad_request "x-auth-proxy-token header is not valid UTF-8") in
      if negb (String.eqb provided expected)
      then Err (unauthorized "trusted proxy token validation failed")
      else Ok tt
  end.

Definition role_from_headers (state : AuthState) (headers : HeaderMap) : ApiResult RolePreset :=
  let? _ := enforce_trusted_proxy_auth state headers in
  match header_get headers ROLE_HEADER with
  | None => Ok Owner
  | Some raw =>
      let? value := ok_or (to_str raw) (bad_request "x-user-role header is not valid UTF-8") in
      ok_or (RolePreset_parse value)
        (bad_request "x-user-role must be one of: owner, operator, viewer")
  end.

(** * Properties *)

Lemma enforce_trusted_proxy_auth_Ok state headers :
  enforce_trusted_proxy_auth state headers = Ok tt <->
  trusted_proxy_auth_enabled state = false \/
  (trusted_proxy_auth_error state = None /\
   exists secret, trusted_proxy_auth_secret state = Some secret /\ trim secret <> "" /\
     header_get headers AUTH_PROXY_TOKEN_HEADER = Some secret /\ visible_ascii secret = true).
Proof.
  unfold enforce_trusted_proxy_auth, to_str.
  destruct (trusted_proxy_auth_enabled state); simpl; [|by split; [left|]].
  destruct (trusted_proxy_auth_error state); simpl.
  { split; [done|]. by intros [?|[? _]]. }
  destruct (trusted_proxy_auth_secret state) as [secret|]; simpl.
  2: { split; [done|]. by intros [?|(_ & s & ? & _)]. }
  destruct (is_empty (trim secret)) eqn:E; simpl.
  { apply is_empty_spec in E. split; [done|]. by intros [?|(_ & s & [= <-] & ? & _)]. }
  assert (trim secret <> "") as Hne by (intros H; by rewrite H in E).
  destruct (header_get headers AUTH_PROXY_TOKEN_HEADER) as [raw|]; simpl.
  2: { split; [done|]. by intros [?|(_ & s & _ & _ & ? & _)]. }
  destruct (visible_ascii raw) eqn:V; simpl.
  2: { split; [done|]. intros [?|(_ & s & _ & _ & [= ->] & ?)]; congruence. }
  destruct (String.eqb raw secret) eqn:Eq; simpl.
  - apply String.eqb_eq in Eq as ->. split; [|done]. intros _. right. eauto 10.
  - apply String.eqb_neq in Eq. split; [done|].
    intros [?|(_ & s & [= ->] & _ & [= ->] & _)]; done.
Qed.

(** With trusted-proxy authentication on, a role is only ever obtained by a
    request that carries the configured (non-blank) shared secret, whatever its
    role header says. *)
Theorem role_requires_proxy_secret state headers role
    (Hon : trusted_proxy_auth_enabled state = true)
    (Hrole : role_from_headers state headers = Ok role) :
  exists secret, trusted_proxy_auth_secret state = Some secret /\ trim secret <> "" /\
    header_get headers AUTH_PROXY_TOKEN_HEADER = Some secret.
Proof.
  unfold role_from_headers in Hrole.
  destruct (enforce_trusted_proxy_auth state headers) as [[]|] eqn:E; [|done].
  apply enforce_trusted_proxy_auth_Ok in E as [E|(_ & s & ? & ? & ? & _)]; [congruence|eauto].
Qed.

Lemma role_requires_proxy_secret_witness :
  exists secret, Some "s3cret" = Some secret /\ trim secret <> "" /\
    header_get [("X-Auth-Proxy-Token", "s3cret"); ("x-user-role", "viewer")]
      AUTH_PROXY_TOKEN_HEADER = Some secret.
Proof.
  exact (role_requires_proxy_secret
    {| trusted_proxy_auth_enabled := true; trusted_proxy_auth_secret := Some "s3cret";
       trusted_proxy_auth_error := None |}
    [("X-Auth-Proxy-Token", "s3cret"); ("x-user-role", "viewer")] Viewer
    eq_refl ltac:(vm_compute; reflexivity)).
Defined.
