(* ===== verification/Capabilities.v ===== *)
(** Capability resolution, end to end: the API turns the requested capabilities
    of a run into granted ones (api/src/lib.rs, [resolve_granted_capabilities]
    and its helpers), stores them as JSON in the run, and the worker parses them
    back into the grant set of the policy engine (worker/src/lib.rs,
    [parse_grant_set]).  The theorems relate what the policy engine allows to the
    role of the caller and to the recipe's bundle. *)
From S2P Require Import Prelude RustStr Json Policy ApiAuth.

(** * Constants of the API *)

Definition MAX_OBJECT_WRITE_PAYLOAD_BYTES : Z := 500000.
Definition MAX_MESSAGE_SEND_PAYLOAD_BYTES : Z := 20000.
Definition MAX_OBJECT_READ_PAYLOAD_BYTES : Z := 128000.
Definition MAX_LOCAL_EXEC_PAYLOAD_BYTES : Z := 4096.
Definition MAX_LLM_INFER_PAYLOAD_BYTES : Z := 32000.
Definition MAX_PAYMENT_SEND_PAYLOAD_BYTES : Z := 16000.
Definition MAX_MEMORY_READ_PAYLOAD_BYTES : Z := 64000.
Definition MAX_MEMORY_WRITE_PAYLOAD_BYTES : Z := 64000.

Record RequestedCapability := {
  rc_capability : string;
  rc_scope : string;
  requested_max_payload_bytes : option Z;
}.

Record BundleCapability := {
  bc_capability : string;
  bc_scope : string;
  bc_max_payload_bytes : option Z;
}.

(** * The API side *)

Definition normalize_capability (raw : string) : option string :=
  str_match (to_ascii_lowercase (trim raw))
    [(["object.read"; "object_read"], "object.read");
     (["object.write"; "object_write"], "object.write");
     (["memory.read"; "memory_read"], "memory.read");
     (["memory.write"; "memory_write"], "memory.write");
     (["message.send"; "message_send"], "message.send");
     (["message.receive"; "message_receive"], "message.receive");
     (["payment.send"; "payment_send"], "payment.send");
     (["llm.infer"; "llm_infer"], "llm.infer");
     (["local.exec"; "local_exec"], "local.exec");
     (["db.query"; "db_query"], "db.query");
     (["http.request"; "http_request"], "http.request")].

(** The arms of [is_scope_allowed_for_capability]: the prefixes a capability's
    scope may start with (none for the disabled and the unknown ones). *)
Definition scope_prefixes (capability : string) : list string :=
  default []
    (str_match capability
       [(["object.read"], ["podcasts/"]);
        (["object.write"], ["shownotes/"]);
        (["memory.read"; "memory.write"], ["memory:"]);
        (["message.send"; "message.receive"], ["whitenoise:"; "slack:"]);
        (["payment.send"], ["nwc:"; "cashu:"]);
        (["llm.infer"], ["local:"; "remote:"]);
        (["local.exec"], ["local.exec:"]);
        (["db.query"; "http.request"], [])]).

Definition is_scope_allowed_for_capability (capability scope : string) : bool :=
  if contains ".." scope || contains (String (ascii_of_N 0) "") scope then false
  else existsb (fun p => starts_with p scope) (scope_prefixes capability).

Definition resolve_max_payload_bytes (capability : string) (lim : option json) : Z :=
  let hard_max :=
    default 0
      (str_match capability
         [(["object.read"], MAX_OBJECT_READ_PAYLOAD_BYTES);
          (["object.write"], MAX_OBJECT_WRITE_PAYLOAD_BYTES);
          (["memory.read"], MAX_MEMORY_READ_PAYLOAD_BYTES);
          (["memory.write"], MAX_MEMORY_WRITE_PAYLOAD_BYTES);
          (["message.send"; "message.receive"], MAX_MESSAGE_SEND_PAYLOAD_BYTES);
          (["payment.send"], MAX_PAYMENT_SEND_PAYLOAD_BYTES);
          (["llm.infer"], MAX_LLM_INFER_PAYLOAD_BYTES);
          (["local.exec"], MAX_LOCAL_EXEC_PAYLOAD_BYTES)]) in
  match lim ≫= as_u64 with
  | Some value => if 0 <? value then Z.min value hard_max else hard_max
  | None => hard_max
  end.

Definition capability_json (capability scope : string)
    (requested_max bundle_max : option Z) : json :=
  let hard_max := resolve_max_payload_bytes capability None in
  let bundle_cap := match bundle_max with Some m => Z.min m hard_max | None => hard_max end in
  let capped_max :=
    match requested_max with
    | Some value => if 0 <? value then Z.min value bundle_cap else bundle_cap
    | None => bundle_cap
    end in
  jobject [("capability", JStr capability); ("scope", JStr scope);
           ("limits", jobject [("max_payload_bytes", JNum (PosInt capped_max))])].

Definition scope_within (grant_scope requested_scope : string) : bool :=
  match strip_suffix "*" grant_scope with
  | Some prefix => starts_with prefix requested_scope
  | None => String.eqb grant_scope requested_scope
  end.

Definition role_allows_capability (role : RolePreset) (capability scope : string) : bool :=
  match role with
  | Owner => true
  | Operator => negb (String.eqb capability "local.exec")
  | Viewer =>
      String.eqb capability "object.read" ||
      (String.eqb capability "llm.infer" && starts_with "local:" scope)
  end.

Definition bundle_entry (c s : string) (m : Z) : BundleCapability :=
  {| bc_capability := c; bc_scope := s; bc_max_payload_bytes := Some m |}.

Definition resolve_recipe_capability_bundle (recipe_id : string)
    : option (list BundleCapability) :=
  str_match recipe_id
    [(["show_notes_v1"],
      [bundle_entry "object.read" "podcasts/*" MAX_OBJECT_READ_PAYLOAD_BYTES;
       bundle_entry "object.write" "shownotes/*" MAX_OBJECT_WRITE_PAYLOAD_BYTES;
       bundle_entry "message.send" "whitenoise:*" MAX_MESSAGE_SEND_PAYLOAD_BYTES;
       bundle_entry "llm.infer" "local:*" MAX_LLM_INFER_PAYLOAD_BYTES;
       bundle_entry "local.exec" "local.exec:file.head" MAX_LOCAL_EXEC_PAYLOAD_BYTES]);
     (["notify_v1"],
      [bundle_entry "message.send" "whitenoise:*" MAX_MESSAGE_SEND_PAYLOAD_BYTES;
       bundle_entry "message.send" "slack:*" MAX_MESSAGE_SEND_PAYLOAD_BYTES;
       bundle_entry "llm.infer" "local:*" MAX_LLM_INFER_PAYLOAD_BYTES]);
     (["operator_reply_v1"],
      [bundle_entry "message.send" "whitenoise:*" MAX_MESSAGE_SEND_PAYLOAD_BYTES]);
     (["operator_chat_v1"],
      [bundle_entry "message.send" "whitenoise:*" MAX_MESSAGE_SEND_PAYLOAD_BYTES;
       bundle_entry "message.send" "slack:*" MAX_MESSAGE_SEND_PAYLOAD_BYTES;
       bundle_entry "llm.infer" "local:*" MAX_LLM_INFER_PAYLOAD_BYTES;
       bundle_entry "llm.infer" "remote:*" MAX_LLM_INFER_PAYLOAD_BYTES]);
     (["payments_v1"],
      [bundle_entry "payment.send" "nwc:*" MAX_PAYMENT_SEND_PAYLOAD_BYTES]);
     (["payments_cashu_v1"],
      [bundle_entry "payment.send" "cashu:*" MAX_PAYMENT_SEND_PAYLOAD_BYTES]);
     (["memory_v1"],
      [bundle_entry "memory.read" "memory:*" MAX_MEMORY_READ_PAYLOAD_BYTES;
       bundle_entry "memory.write" "memory:*" MAX_MEMORY_WRITE_PAYLOAD_BYTES]);
     (["llm_local_v1"],
      [bundle_entry "llm.infer" "local:*" MAX_LLM_INFER_PAYLOAD_BYTES]);
     (["llm_remote_v1"],
      [bundle_entry "llm.infer" "remote:*" MAX_LLM_INFER_PAYLOAD_BYTES]);
     (["local_exec_v1"],
      [bundle_entry "local.exec" "local.exec:file.head" MAX_LOCAL_EXEC_PAYLOAD_BYTES;
       bundle_entry "local.exec" "local.exec:file.word_count" MAX_LOCAL_EXEC_PAYLOAD_BYTES])].

(** One iteration of the loop of [parse_requested_capabilities]: an error, a
    skipped entry, or a parsed one. *)
Definition parse_requested_item (item : json) : ApiResult (option RequestedCapability) :=
  let? capability_raw := ok_or (get_str "capability" item)
      (bad_request "capability entry missing string `capability`") in
  let? scope := ok_or (trim <$> get_str "scope" item)
      (bad_request "capability entry missing string `scope`") in
  if is_empty scope then Err (bad_request "capability scope must not be empty") else
  match normalize_capability capability_raw with
  | None => Ok None
  | Some capability =>
      if negb (is_scope_allowed_for_capability capability scope) then Ok None
      else Ok (Some {| rc_capability := capability; rc_scope := scope;
                       requested_max_payload_bytes :=
                         get2 "limits" "max_payload_bytes" item ≫= as_u64 |})
  end.

Fixpoint parse_requested_items (items : list json) : ApiResult (list RequestedCapability) :=
  match items with
  | [] => Ok []
  | item :: rest =>
      let? r := parse_requested_item item in
      let? parsed := parse_requested_items rest in
      Ok (match r with Some c => c :: parsed | None => parsed end)
  end.

Definition parse_requested_capabilities (requested : json)
    : ApiResult (list RequestedCapability) :=
  let? items := ok_or (as_array requested)
                  (bad_request "requested_capabilities must be an array") in
  parse_requested_items items.

(** The body of the last loop of [resolve_granted_capabilities]: the entry a
    requested item is granted under, if any. *)
Definition grant_from_bundle (bundle : list BundleCapability) (item : RequestedCapability)
    : option json :=
  match List.find (fun entry =>
          String.eqb (bc_capability entry) (rc_capability item) &&
          scope_within (bc_scope entry) (rc_scope item)) bundle with
  | Some entry =>
      Some (capability_json (rc_capability item) (rc_scope item)
              (requested_max_payload_bytes item) (bc_max_payload_bytes entry))
  | None => None
  end.

Definition resolve_granted_capabilities (recipe_id : string) (role : RolePreset)
    (requested_capabilities : json) : ApiResult json :=
  let? requested := parse_requested_capabilities requested_capabilities in
  match resolve_recipe_capability_bundle recipe_id with
  | None =>
      Ok (JArr (map (fun item => capability_json (rc_capability item) (rc_scope item)
                                   (requested_max_payload_bytes item) None)
                  (List.filter (fun item =>
                     role_allows_capability role (rc_capability item) (rc_scope item)) requested)))
  | Some bundle0 =>
      let bundle := List.filter (fun item =>
                      role_allows_capability role (bc_capability item) (bc_scope item)) bundle0 in
      match requested with
      | [] =>
          Ok (JArr (map (fun item => capability_json (bc_capability item) (bc_scope item)
                                       None (bc_max_payload_bytes item)) bundle))
      | _ =>
          Ok (JArr (omap (grant_from_bundle bundle) requested))
      end
  end.

(** * The worker side *)

Definition parse_capability_kind (value : string) : option CapabilityKind :=
  str_match value
    [(["object.read"; "object_read"], ObjectRead);
     (["object.write"; "object_write"], ObjectWrite);
     (["memory.read"; "memory_read"], MemoryRead);
     (["memory.write"; "memory_write"], MemoryWrite);
     (["message.send"; "message_send"], MessageSend);
     (["message.receive"; "message_receive"], MessageReceive);
     (["payment.send"; "payment_send"], PaymentSend);
     (["llm.infer"; "llm_infer"], LlmInfer);
     (["local.exec"; "local_exec"], LocalExec);
     (["db.query"; "db_query"], DbQuery);
     (["http.request"; "http_request"], HttpRequest)].

Definition capability_kind_to_action_type (k : CapabilityKind) : string :=
  match k with
  | ObjectRead => "object.read"
  | ObjectWrite => "object.write"
  | MemoryRead => "memory.read"
  | MemoryWrite => "memory.write"
  | MessageSend => "message.send"
  | MessageReceive => "message.receive"
  | PaymentSend => "payment.send"
  | LlmInfer => "llm.infer"
  | LocalExec => "local.exec"
  | DbQuery => "db.query"
  | HttpRequest => "http.request"
  end.

Definition parse_capability_grant (value : json) : option CapabilityGrant :=
  capability ← get_str "capability" value;
  scope ← get_str "scope" value;
  k ← parse_capability_kind capability;
  let grant := CapabilityGrant_new k scope in
  Some (match get2 "limits" "max_payload_bytes" value ≫= as_u64 with
        | Some m => with_max_payload_bytes grant m
        | None => grant
        end).

Definition parse_grant_set (raw : json) : GrantSet :=
  match as_array raw with
  | None => {| grants := [] |}
  | Some items => {| grants := omap parse_capability_grant items |}
  end.

(** * Lemmas *)

(** The capability strings the API can put in a grant. *)
Definition canonical_capabilities : list string :=
  map capability_kind_to_action_type
    [ObjectRead; ObjectWrite; MemoryRead; MemoryWrite; MessageSend; MessageReceive;
     PaymentSend; LlmInfer; LocalExec; DbQuery; HttpRequest].

Lemma from_action_type_to k : from_action_type (capability_kind_to_action_type k) = Some k.
Proof. by destruct k. Qed.

Lemma parse_capability_kind_to k :
  parse_capability_kind (capability_kind_to_action_type k) = Some k.
Proof. by destruct k. Qed.

Lemma from_action_type_inv t k :
  from_action_type t = Some k -> t = capability_kind_to_action_type k.
Proof.
  unfold from_action_type. intros H.
  repeat (match type of H with
          | match ?x with _ => _ end = Some _ => destruct x; try discriminate H
          end).
  all: by injection H as <-.
Qed.

Lemma normalize_capability_canonical raw c :
  normalize_capability raw = Some c -> exists k, c = capability_kind_to_action_type k.
Proof.
  intros H. unfold normalize_capability in H. str_match_cases H;
    [by exists ObjectRead|by exists ObjectWrite|by exists MemoryRead|by exists MemoryWrite
    |by exists MessageSend|by exists MessageReceive|by exists PaymentSend|by exists LlmInfer
    |by exists LocalExec|by exists DbQuery|by exists HttpRequest].
Qed.

Lemma scope_within_matches : scope_within = scope_matches.
Proof. done. Qed.

(** A prefix that does not end in a star and that a grant scope starts with is
    inherited by every scope the grant covers. *)
Lemma scope_matches_prefix q g r :
  strip_suffix "*" q = None -> starts_with q g = true -> scope_matches g r = true ->
  starts_with q r = true.
Proof.
  intros Hq Hg Hm. unfold scope_matches in Hm.
  destruct (strip_suffix "*" g) as [p|] eqn:E.
  - apply strip_suffix_spec in E. subst g.
    apply (starts_with_trans _ p); [|done].
    clear Hm r. revert p Hg Hq. induction q as [|a q IH]; intros p Hg Hq; [done|].
    destruct p as [|b p].
    + rewrite sapp_nil_l in Hg. cbn [starts_with] in Hg. bool_hyps.
      destruct q as [|c q]; [|done]. apply Ascii.eqb_eq in H as ->. done.
    + rewrite sapp_cons in Hg. cbn [starts_with] in Hg |- *. bool_hyps.
      rewrite H. simpl. apply IH; [done|].
      cbn [strip_suffix] in Hq. case_match; [done|].
      by destruct (strip_suffix "*" q).
  - apply String.eqb_eq in Hm. by subst.
Qed.

Lemma scope_matches_trans e s r :
  match strip_suffix "*" e with Some p => strip_suffix "*" p = None | None => True end ->
  scope_matches e s = true -> scope_matches s r = true -> scope_matches e r = true.
Proof.
  intros He Hes Hsr. unfold scope_matches in Hes |- *.
  destruct (strip_suffix "*" e) as [p|] eqn:E.
  - by apply (scope_matches_prefix p s).
  - apply String.eqb_eq in Hes as ->. unfold scope_matches in Hsr. by rewrite E in Hsr.
Qed.

Definition scope_in_family (capability scope : string) : bool :=
  existsb (fun p => starts_with p scope) (scope_prefixes capability).

Lemma scope_prefixes_no_star c p : p ∈ scope_prefixes c -> strip_suffix "*" p = None.
Proof.
  unfold scope_prefixes. intros Hp.
  destruct (str_match c _) as [ps|] eqn:E; [simpl in Hp|by inv Hp].
  str_match_cases E; repeat (apply elem_of_cons in Hp as [->|Hp]; [done|]); by inv Hp.
Qed.

Lemma scope_in_family_matches c s r :
  scope_in_family c s = true -> scope_matches s r = true -> scope_in_family c r = true.
Proof.
  unfold scope_in_family. rewrite !existsb_elem_of. intros (p & Hp & Hs) Hm.
  exists p. split; [done|]. apply (scope_matches_prefix p s); [|done..].
  by apply (scope_prefixes_no_star c).
Qed.

Lemma is_scope_allowed_family c s :
  is_scope_allowed_for_capability c s = true -> scope_in_family c s = true.
Proof. unfold is_scope_allowed_for_capability. by case_match. Qed.

Lemma role_allows_matches role c s r :
  role_allows_capability role c s = true -> scope_matches s r = true ->
  role_allows_capability role c r = true.
Proof.
  destruct role; cbn [role_allows_capability]; [done|done|]. intros H Hm.
  apply orb_true_iff in H as [->|H]; [done|]. bool_hyps. rewrite H.
  rewrite (scope_matches_prefix "local:" s r); [by rewrite orb_true_r|done..].
Qed.

(** What each role may obtain, stated without the code. *)
Definition role_permits (role : RolePreset) (capability scope : string) : Prop :=
  match role with
  | Owner => True
  | Operator => capability <> "local.exec"
  | Viewer => capability = "object.read" \/
              (capability = "llm.infer" /\ exists model, scope = "local:" +:+ model)
  end.

Lemma role_allows_spec role c s : role_allows_capability role c s = true <-> role_permits role c s.
Proof.
  destruct role; cbn [role_allows_capability role_permits]; [done| |].
  - by rewrite negb_true_iff, String.eqb_neq.
  - by rewrite orb_true_iff, andb_true_iff, !String.eqb_eq, starts_with_spec.
Qed.

(** A bundle entry that is as restrictive as a checked request. *)
Definition good_entry (e : BundleCapability) : bool :=
  str_in (bc_capability e) canonical_capabilities &&
  scope_in_family (bc_capability e) (bc_scope e) &&
  match strip_suffix "*" (bc_scope e) with
  | Some p => match strip_suffix "*" p with None => true | Some _ => false end
  | None => true
  end.

Lemma recipe_bundles_good recipe b e :
  resolve_recipe_capability_bundle recipe = Some b -> e ∈ b -> good_entry e = true.
Proof.
  unfold resolve_recipe_capability_bundle. intros H He.
  assert (forallb good_entry b = true) as HF by (str_match_cases H; done).
  rewrite forallb_forall in HF. by apply HF, list_elem_of_In.
Qed.

Lemma str_in_canonical c :
  str_in c canonical_capabilities = true -> exists k, c = capability_kind_to_action_type k.
Proof.
  rewrite str_in_spec. unfold canonical_capabilities. rewrite list_elem_of_fmap.
  intros (k & -> & _). by exists k.
Qed.

(** The cap [capability_json] writes into the grant. *)
Definition capped_max (capability : string) (requested_max bundle_max : option Z) : Z :=
  let hard_max := resolve_max_payload_bytes capability None in
  let bundle_cap := match bundle_max with Some m => Z.min m hard_max | None => hard_max end in
  match requested_max with
  | Some value => if 0 <? value then Z.min value bundle_cap else bundle_cap
  | None => bundle_cap
  end.

Lemma capped_max_le c rm bm : capped_max c rm bm <= resolve_max_payload_bytes c None.
Proof. unfold capped_max. destruct rm, bm; try case_match; lia. Qed.

Lemma parse_capability_json k s rm bm :
  parse_capability_grant (capability_json (capability_kind_to_action_type k) s rm bm) =
  Some {| kind := k; scope := s;
          limits := {| max_payload_bytes :=
                         Some (capped_max (capability_kind_to_action_type k) rm bm) |} |}.
Proof.
  unfold parse_capability_grant, capability_json. fold (capped_max (capability_kind_to_action_type k) rm bm).
  change (get_str "capability" _) with (Some (capability_kind_to_action_type k)).
  change (get_str "scope" _) with (Some s).
  change (get2 "limits" "max_payload_bytes" _ ≫= as_u64)
    with (Some (capped_max (capability_kind_to_action_type k) rm bm)).
  simpl. by rewrite parse_capability_kind_to.
Qed.

(** What the API guarantees of one granted entry. *)
Definition granted_ok (recipe : string) (role : RolePreset) (v : json) : Prop :=
  exists k s rm bm,
    v = capability_json (capability_kind_to_action_type k) s rm bm /\
    scope_in_family (capability_kind_to_action_type k) s = true /\
    role_allows_capability role (capability_kind_to_action_type k) s = true /\
    forall b, resolve_recipe_capability_bundle recipe = Some b ->
      exists e, e ∈ b /\ bc_capability e = capability_kind_to_action_type k /\
                scope_matches (bc_scope e) s = true.

Lemma parse_requested_item_ok item c :
  parse_requested_item item = Ok (Some c) ->
  (exists k, rc_capability c = capability_kind_to_action_type k) /\
  scope_in_family (rc_capability c) (rc_scope c) = true.
Proof.
  unfold parse_requested_item. intros H.
  destruct (get_str "capability" item) as [raw|]; simpl in H; [|done].
  destruct (get_str "scope" item) as [s|]; simpl in H; [|done].
  destruct (is_empty (trim s)); [done|].
  destruct (normalize_capability raw) as [cap|] eqn:N; [|done].
  destruct (is_scope_allowed_for_capability cap (trim s)) eqn:A; simplify_eq/=.
  split; [by apply (normalize_capability_canonical raw)|]. by apply is_scope_allowed_family.
Qed.

Lemma parse_requested_items_ok items l c :
  parse_requested_items items = Ok l -> c ∈ l ->
  (exists k, rc_capability c = capability_kind_to_action_type k) /\
  scope_in_family (rc_capability c) (rc_scope c) = true.
Proof.
  revert l. induction items as [|item items IH]; intros l; simpl.
  - intros [= <-] H. inv H.
  - destruct (parse_requested_item item) as [[c'|]|] eqn:E; [| |done];
      destruct (parse_requested_items items) as [l'|]; try done; intros [= <-] Hc; [|by eapply IH].
    apply elem_of_cons in Hc as [->|Hc]; [by eapply parse_requested_item_ok|by eapply IH].
Qed.

Lemma bundle_find_ok bundle c s e :
  List.find (fun entry => String.eqb (bc_capability entry) c && scope_within (bc_scope entry) s)
    bundle = Some e ->
  e ∈ bundle /\ bc_capability e = c /\ scope_matches (bc_scope e) s = true.
Proof.
  intros H. apply find_some in H as [Hin H]. bool_hyps.
  split_and!; [by apply list_elem_of_In|by apply String.eqb_eq|done].
Qed.

Lemma resolve_granted_ok recipe role requested granted :
  resolve_granted_capabilities recipe role requested = Ok granted ->
  exists l, granted = JArr l /\ Forall (granted_ok recipe role) l.
Proof.
  unfold resolve_granted_capabilities, parse_requested_capabilities. intros H.
  destruct (as_array requested) as [items|]; simpl in H; [|done].
  destruct (parse_requested_items items) as [reqs|] eqn:R; [|done].
  pose proof (fun c => parse_requested_items_ok items reqs c R) as Hreq.
  destruct (resolve_recipe_capability_bundle recipe) as [b0|] eqn:B.
  - set (b := List.filter _ b0) in H.
    assert (forall e, e ∈ b -> e ∈ b0 /\ role_allows_capability role (bc_capability e) (bc_scope e) = true) as Hb.
    { intros e He. by apply elem_of_filterb in He. }
    destruct reqs as [|c0 reqs'] eqn:Er; rewrite <- ?Er in *;
      (assert (Heq := H); injection Heq as <-; clear H);
      eexists; (split; [done|]); apply Forall_forall.
    + intros v Hv. apply list_elem_of_In, in_map_iff in Hv as (e & <- & He%list_elem_of_In).
      apply Hb in He as [He Hrole]. pose proof (recipe_bundles_good _ _ _ B He) as Hg.
      unfold good_entry in Hg. apply andb_true_iff in Hg as [[Hc Hf]%andb_true_iff _].
      destruct (str_in_canonical _ Hc) as [k Hk]. rewrite Hk in *.
      exists k, (bc_scope e), None, (bc_max_payload_bytes e). split_and!; try done.
      intros b1 Hb1. assert (b1 = b0) as -> by congruence.
      exists e. split_and!; [done..|]. apply scope_matches_spec. unfold scope_covers.
      destruct (strip_suffix "*" (bc_scope e)) as [p|] eqn:S.
      * apply strip_suffix_spec in S. left. exists p. split; [done|]. eauto.
      * right. split; [|done]. intros p. by apply strip_suffix_None.
    + intros v Hv. apply list_elem_of_omap in Hv as (c & Hc & Hv).
      unfold grant_from_bundle in Hv. destruct (List.find _ b) as [e|] eqn:F; [|done].
      injection Hv as <-.
      apply bundle_find_ok in F as (He & Hec & Hes). apply Hb in He as [He Hrole].
      destruct (Hreq c Hc) as [[k Hk] Hfam]. rewrite Hk in *.
      eexists k, (rc_scope c), _, _. split_and!; [done|done| |].
      * rewrite Hec in Hrole. by apply (role_allows_matches _ _ (bc_scope e)).
      * intros b1 Hb1. assert (b1 = b0) as -> by congruence. by exists e.
  - simplify_eq. eexists. split; [done|]. apply Forall_forall. intros v Hv.
    apply list_elem_of_In, in_map_iff in Hv as (c & <- & Hc%list_elem_of_In).
    apply elem_of_filterb in Hc as [Hc Hrole]. destruct (Hreq c Hc) as [[k Hk] Hfam].
    rewrite Hk in *. eexists k, (rc_scope c), _, _. split_and!; [done..|congruence].
Qed.

(** * Properties *)

Lemma parse_grant_set_granted recipe role l g :
  Forall (granted_ok recipe role) l -> g ∈ grants (parse_grant_set (JArr l)) ->
  exists k, kind g = k /\
    scope_in_family (capability_kind_to_action_type k) (scope g) = true /\
    role_allows_capability role (capability_kind_to_action_type k) (scope g) = true /\
    (exists m, max_payload_bytes (limits g) = Some m /\
               m <= resolve_max_payload_bytes (capability_kind_to_action_type k) None) /\
    forall b, resolve_recipe_capability_bundle recipe = Some b ->
      exists e, e ∈ b /\ bc_capability e = capability_kind_to_action_type k /\
                scope_matches (bc_scope e) (scope g) = true.
Proof.
  intros Hl Hg. simpl in Hg. apply list_elem_of_omap in Hg as (v & Hv & Hp).
  rewrite Forall_forall in Hl.
  destruct (Hl v Hv) as (k & s & rm & bm & -> & Hfam & Hrole & Hb).
  rewrite parse_capability_json in Hp. injection Hp as <-. exists k.
  split_and!; [done..| |done]. eexists. split; [done|]. apply capped_max_le.
Qed.

Lemma granted_actions_bounded recipe role requested granted request
    (Hgranted : resolve_granted_capabilities recipe role requested = Ok granted)
    (Hallow : is_action_allowed (parse_grant_set granted) request = Allow) :
  role_permits role (action_type request) (req_scope request) /\
  scope_in_family (action_type request) (req_scope request) = true /\
  payload_bytes request <= resolve_max_payload_bytes (action_type request) None /\
  forall b, resolve_recipe_capability_bundle recipe = Some b ->
    exists e, e ∈ b /\ bc_capability e = action_type request /\
              scope_matches (bc_scope e) (req_scope request) = true.
Proof.
  apply resolve_granted_ok in Hgranted as (l & -> & Hl).
  apply is_action_allowed_Allow in Hallow as (g & Hg & Hkind & Hscope & Hlim).
  destruct (parse_grant_set_granted _ _ _ _ Hl Hg) as (k & Hk & Hfam & Hrole & (m & Hm & Hle) & Hb).
  rewrite Hk in Hkind. apply from_action_type_inv in Hkind. rewrite Hkind.
  apply scope_matches_spec in Hscope.
  split_and!; [by apply role_allows_spec, (role_allows_matches _ _ (scope g))
              |by apply (scope_in_family_matches _ (scope g))
              |by specialize (Hlim m Hm); lia|].
  intros b Eb. destruct (Hb b Eb) as (e & He & Hec & Hes). exists e. split_and!; [done..|].
  apply (scope_matches_trans _ (scope g)); [|done..].
  pose proof (recipe_bundles_good _ _ _ Eb He) as Hgood. unfold good_entry in Hgood.
  apply andb_true_iff in Hgood as [_ Hgood].
  destruct (strip_suffix "*" (bc_scope e)) as [p|]; [|done]. by destruct (strip_suffix "*" p).
Qed.

(** C28: end to end, an action that the worker's policy engine allows under the
    capabilities the API granted to a run is one the caller's role allows on the
    requested scope, lies in the scope family of its capability (so never a
    database query or HTTP request), is within the hard payload limit, and, when
    the recipe has a bundle, is covered by an entry of it. *)
Theorem granted_actions_respect_role_and_bundle recipe role requested granted request
    (Hgranted : resolve_granted_capabilities recipe role requested = Ok granted)
    (Hallow : is_action_allowed (parse_grant_set granted) request = Allow) :
  role_permits role (action_type request) (req_scope request) /\
  scope_in_family (action_type request) (req_scope request) = true /\
  payload_bytes request <= resolve_max_payload_bytes (action_type request) None /\
  forall b, resolve_recipe_capability_bundle recipe = Some b ->
    exists e, e ∈ b /\ bc_capability e = action_type request /\
              scope_matches (bc_scope e) (req_scope request) = true.
Proof. exact (granted_actions_bounded recipe role requested granted request Hgranted Hallow). Qed.

Definition example_request : ActionRequest :=
  {| action_type := "llm.infer"; req_scope := "local:qwen"; payload_bytes := 512 |}.

Lemma granted_actions_respect_role_and_bundle_witness :
  role_permits Viewer "llm.infer" "local:qwen" /\
  scope_in_family "llm.infer" "local:qwen" = true /\
  512 <= resolve_max_payload_bytes "llm.infer" None /\
  forall b, resolve_recipe_capability_bundle "show_notes_v1" = Some b ->
    exists e, e ∈ b /\ bc_capability e = "llm.infer" /\
              scope_matches (bc_scope e) "local:qwen" = true.
Proof.
  exact (granted_actions_respect_role_and_bundle "show_notes_v1" Viewer (JArr [])
    (JArr [capability_json "object.read" "podcasts/*" None (Some 128000);
           capability_json "llm.infer" "local:*" None (Some 32000)])
    example_request ltac:(vm_compute; reflexivity) ltac:(vm_compute; reflexivity)).
Defined.

(** The grant JSON round-trips: what [capability_json] writes for a known
    capability, [parse_capability_grant] reads back as a grant of that kind and
    scope, whose limit never exceeds the capability's hard maximum, the bundle's
    limit, or a positive requested limit. *)
Theorem capability_json_roundtrip k s requested_max bundle_max :
  exists m,
    parse_capability_grant
      (capability_json (capability_kind_to_action_type k) s requested_max bundle_max) =
    Some {| kind := k; scope := s; limits := {| max_payload_bytes := Some m |} |} /\
    m <= resolve_max_payload_bytes (capability_kind_to_action_type k) None /\
    (forall b, bundle_max = Some b -> m <= b) /\
    (forall r, requested_max = Some r -> 0 < r -> m <= r).
Proof.
  exists (capped_max (capability_kind_to_action_type k) requested_max bundle_max).
  split; [apply parse_capability_json|]. split; [apply capped_max_le|].
  unfold capped_max.
  split; intros x ->; [destruct requested_max|]; destruct bundle_max || idtac;
    repeat case_match; bool_hyps; lia.
Qed.

(** The two scope predicates of the program are the same relation, so the API
    and the worker agree on what a scope covers. *)
Lemma api_and_worker_scopes_agree g r : scope_within g r = scope_matches g r.
Proof. done. Qed.
