(* ===== verification/Redaction.v ===== *)
(** Secret redaction, core/src/redaction.rs: the JSON walker and the two text
    passes, with the proof that no Nostr secret key and no unmasked bearer
    token survives. *)
From S2P Require Import Prelude RustStr Json.

Definition REDACTED : string := "[REDACTED]".

Definition SENSITIVE_KEY_PATTERNS : list string :=
  ["password"; "passwd"; "secret"; "token"; "api_key"; "apikey"; "authorization";
   "cookie"; "private_key"; "nsec"].

Definition is_sensitive_key (key : string) : bool :=
  let key := to_ascii_lowercase key in
  existsb (fun pattern => contains pattern key) SENSITIVE_KEY_PATTERNS.

Definition is_token_char (b : ascii) : bool := is_ascii_lowercase b || is_ascii_digit b.

(** White space, double quote, quote, comma, semicolon, closing parenthesis and
    bracket. *)
Definition is_terminator (b : ascii) : bool :=
  is_ascii_whitespace b || existsb (Z.eqb (byte_of b)) [34; 39; 44; 59; 41; 93].

Fixpoint sdrop (n : nat) (s : string) : string :=
  match n, s with
  | O, _ => s
  | S n', String _ s' => sdrop n' s'
  | S _, EmptyString => ""
  end.

(** The inner [while] loops: the longest run of bytes satisfying [p], and the rest. *)
Fixpoint span (p : ascii -> bool) (s : string) : string * string :=
  match s with
  | EmptyString => ("", "")
  | String c s' =>
      if p c then let '(a, b) := span p s' in (String c a, b) else ("", s)
  end.

(** [redact_prefixed_token]: [rest] is the input from [idx] on.  Every round
    consumes the prefix at least, so the length of the input is enough fuel. *)
Fixpoint redact_prefixed_token_loop (fuel : nat) (prefix rest : string) : string :=
  match fuel with
  | O => rest
  | S n =>
      if is_empty rest then "" else
      match find_split prefix rest with
      | None => rest
      | Some (before, from_start) =>
          let '(token, rest') := span is_token_char (sdrop (String.length prefix) from_start) in
          before +:+
          (if (String.length prefix + 16 <=? String.length (prefix +:+ token))%nat
           then REDACTED
           else prefix +:+ token) +:+
          redact_prefixed_token_loop n prefix rest'
      end
  end.

Definition redact_prefixed_token (input prefix : string) : string :=
  redact_prefixed_token_loop (S (String.length input)) prefix input.

(** [find_case_insensitive], as the split of the haystack at the position found
    in its lowercased copy. *)
Fixpoint find_case_insensitive (haystack needle : string) : option (string * string) :=
  if starts_with (to_ascii_lowercase needle) (to_ascii_lowercase haystack)
  then Some ("", haystack)
  else match haystack with
       | EmptyString => None
       | String c h =>
           match find_case_insensitive h needle with
           | Some (a, b) => Some (String c a, b)
           | None => None
           end
       end.

Fixpoint redact_bearer_tokens_loop (fuel : nat) (rest : string) : string :=
  match fuel with
  | O => rest
  | S n =>
      if is_empty rest then "" else
      match find_case_insensitive rest "bearer " with
      | None => rest
      | Some (before, from_marker) =>
          let marker := String.substring 0 7 from_marker in
          let '(_, rest') := span (fun b => negb (is_terminator b)) (sdrop 7 from_marker) in
          before +:+ marker +:+ REDACTED +:+ redact_bearer_tokens_loop n rest'
      end
  end.

Definition redact_bearer_tokens (input : string) : string :=
  redact_bearer_tokens_loop (S (String.length input)) input.

Definition redact_text (text : string) : string :=
  redact_bearer_tokens (redact_prefixed_token text "nsec1").

Fixpoint redact_json (value : json) : json :=
  match value with
  | JObj m =>
      JObj (map_of
        ((fix go m := match m with
                      | [] => []
                      | (key, val) :: m' =>
                          (key, if is_sensitive_key key then JStr REDACTED else redact_json val)
                            :: go m'
                      end) m))
  | JArr items =>
      JArr ((fix go l := match l with [] => [] | x :: l' => redact_json x :: go l' end) items)
  | JStr text => JStr (redact_text text)
  | v => v
  end.

Definition redact_memory_content (content_json : json) (summary_text : option string)
    : json * option string * bool :=
  let redacted_content := redact_json content_json in
  let redacted_summary := redact_text <$> summary_text in
  let content_changed := negb (json_eqb redacted_content content_json) in
  let summary_changed :=
    match summary_text, redacted_summary with
    | Some original, Some redacted => negb (String.eqb original redacted)
    | _, _ => false
    end in
  (redacted_content, redacted_summary, content_changed || summary_changed).

(** * Strings again *)

Fixpoint sforall (p : ascii -> bool) (s : string) : bool :=
  match s with EmptyString => true | String c s' => p c && sforall p s' end.

Lemma sforall_app p a b : sforall p (a +:+ b) = sforall p a && sforall p b.
Proof. induction a as [|c a IH]; [done|]. rewrite sapp_cons. simpl. by rewrite IH, andb_assoc. Qed.

Lemma sdrop_app a b : sdrop (String.length a) (a +:+ b) = b.
Proof. induction a; [done|]. by rewrite sapp_cons. Qed.

(** The first byte of a string satisfies [p], or there is none. *)
Definition head_ok (p : ascii -> bool) (s : string) : Prop :=
  match s with EmptyString => True | String c _ => p c = true end.

Lemma span_spec p s a b :
  span p s = (a, b) -> s = a +:+ b /\ sforall p a = true /\ head_ok (fun c => negb (p c)) b.
Proof.
  revert a b. induction s as [|c s IH]; intros a b; simpl; [by intros [= <- <-]|].
  destruct (p c) eqn:E.
  - destruct (span p s) as [a' b']. destruct (IH _ _ eq_refl) as (-> & Ha & Hb).
    intros [= <- <-]. simpl. by rewrite E.
  - intros [= <- <-]. simpl. by rewrite E.
Qed.

Lemma sapp_split (a b c d : string) :
  a +:+ b = c +:+ d ->
  (exists m, c = a +:+ m /\ b = m +:+ d) \/
  (exists m, m <> "" /\ a = c +:+ m /\ d = m +:+ b).
Proof.
  revert c. induction a as [|x a IH]; intros c H.
  - left. by exists c.
  - destruct c as [|y c].
    + right. exists (String x a). by split_and!.
    + rewrite !sapp_cons in H. simplify_eq. destruct (IH c) as [(m & -> & ->)|(m & ? & -> & ->)];
        [done|left; by exists m|right; by exists m].
Qed.

(** * No secret key survives *)

(** An occurrence of a redactable token: the prefix followed by sixteen token
    characters. *)
Definition has_secret (prefix s : string) : Prop :=
  exists a t b, s = a +:+ (prefix +:+ t) +:+ b /\ String.length t = 16%nat /\
                sforall is_token_char t = true.

Definition non_token (c : ascii) : bool := negb (is_token_char c).

Definition last_non_token (s : string) : Prop := exists a c, s = a +:+ String c "" /\ is_token_char c = false.

Section prefixed.
Context (prefix : string) (Hne : prefix <> "") (Htok : sforall is_token_char prefix = true).

Lemma has_secret_sub a s b : has_secret prefix s -> has_secret prefix (a +:+ s +:+ b).
Proof.
  intros (x & t & y & -> & Hl & Ht). exists (a +:+ x), t, (y +:+ b).
  split; [by rewrite <- !sapp_assoc|done].
Qed.

Lemma no_secret_sub a s b : ~ has_secret prefix (a +:+ s +:+ b) -> ~ has_secret prefix s.
Proof. intros H Hs. by apply H, has_secret_sub. Qed.

(** A secret is one run of token characters, so it cannot span a boundary next
    to another character. *)
Lemma no_secret_app u v :
  ~ has_secret prefix u -> ~ has_secret prefix v ->
  last_non_token u \/ head_ok non_token v -> ~ has_secret prefix (u +:+ v).
Proof.
  intros Hu Hv Hb (a & t & b & E & Hl & Ht).
  assert (sforall is_token_char (prefix +:+ t) = true) as Hw.
  { by rewrite sforall_app, Htok, Ht. }
  apply sapp_split in E as [(m & -> & ->)|(m & Hm & -> & E)].
  { apply Hv. exists m, t, b. done. }
  apply sapp_split in E as [(m' & -> & ->)|(m' & Hm' & E' & ->)].
  { apply Hu. exists a, t, m'. done. }
  rewrite E', sforall_app in Hw. apply andb_true_iff in Hw as [Hwm Hwm'].
  destruct Hb as [(x & c & Hx & Hc)|Hb].
  - assert (exists y, m = y +:+ String c "") as [y ->].
    { apply sapp_split in Hx as [(z & _ & Hz)|(z & Hz & _ & Hz')]; [by exists z|].
      destruct z as [|z0 [|z1 z]]; [done| |].
      - rewrite sapp_cons in Hz'. by simplify_eq.
      - by rewrite !sapp_cons in Hz'. }
    rewrite sforall_app in Hwm. simpl in Hwm. rewrite Hc in Hwm. by rewrite andb_false_r in Hwm.
  - destruct m' as [|c m']; [done|]. rewrite sapp_cons in Hb. simpl in Hb, Hwm'.
    unfold non_token in Hb. by destruct (is_token_char c).
Qed.

Lemma no_secret_redacted : ~ has_secret prefix REDACTED.
Proof.
  intros (a & t & b & E & Hl & Ht).
  destruct t as [|c t]; [done|]. simpl in Ht. apply andb_true_iff in Ht as [Hc _].
  assert (sforall non_token REDACTED = true) as Hr by done.
  rewrite E, !sforall_app in Hr. bool_hyps. simpl in *. bool_hyps.
  unfold non_token in *. by destruct (is_token_char c).
Qed.

Lemma redacted_last : last_non_token REDACTED.
Proof. exists "[REDACTED", (ascii_of_N 93). by vm_compute. Qed.

Lemma no_secret_masked u v :
  ~ has_secret prefix u -> ~ has_secret prefix v ->
  ~ has_secret prefix (u +:+ REDACTED +:+ v).
Proof.
  intros Hu Hv. apply no_secret_app; [done| |by right].
  apply no_secret_app; [apply no_secret_redacted|done|left; apply redacted_last].
Qed.

(** Text up to the first occurrence of the prefix, with a short token after it. *)
Lemma no_secret_short rest before tail token :
  find_split prefix rest = Some (before, prefix +:+ token +:+ tail) ->
  (String.length token < 16)%nat ->
  ~ has_secret prefix (before +:+ prefix +:+ token).
Proof.
  intros F Hlen (a & t & b & E & Hl & _).
  pose proof (find_split_Some _ _ _ _ F) as [Hrest _].
  assert (String.length before <= String.length a)%nat as Hfirst.
  { eapply (find_split_first _ _ _ _ a (prefix +:+ t +:+ b +:+ tail) F).
    - rewrite Hrest, !sapp_assoc, <- (sapp_assoc before), E. by rewrite <- !sapp_assoc.
    - apply starts_with_app. }
  apply (f_equal String.length) in E. rewrite !sapp_length in E. lia.
Qed.

Lemma no_secret_before rest before from_start :
  find_split prefix rest = Some (before, from_start) -> ~ has_secret prefix before.
Proof.
  intros F (a & t & b & E & Hl & _).
  pose proof (find_split_Some _ _ _ _ F) as [Hrest _].
  assert (String.length before <= String.length a)%nat as Hfirst.
  { eapply (find_split_first _ _ _ _ a ((prefix +:+ t) +:+ b +:+ from_start) F).
    - by rewrite Hrest, E, <- !sapp_assoc.
    - rewrite <- sapp_assoc. apply starts_with_app. }
  apply (f_equal String.length) in E. rewrite !sapp_length in E. lia.
Qed.

Lemma loop_head n rest :
  head_ok non_token rest -> head_ok non_token (redact_prefixed_token_loop n prefix rest).
Proof.
  intros H. destruct n as [|n]; cbn [redact_prefixed_token_loop]; [done|].
  destruct rest as [|c rest]; [done|]. cbn [is_empty].
  destruct (find_split prefix (String c rest)) as [[before from]|] eqn:F; [|done].
  destruct (span _ _) as [tok rest'].
  apply find_split_Some in F as [E Hs].
  destruct before as [|c' before].
  - exfalso. rewrite sapp_nil_l in E. subst from.
    destruct prefix as [|p0 p]; [done|]. simpl in Hs, Htok. bool_hyps.
    apply Ascii.eqb_eq in H0 as ->. simpl in H. unfold non_token in H.
    by destruct (is_token_char c).
  - rewrite sapp_cons in E |- *. by simplify_eq.
Qed.

Lemma prefixed_loop_no_secret n rest :
  (String.length rest < n)%nat ->
  ~ has_secret prefix (redact_prefixed_token_loop n prefix rest).
Proof.
  revert rest. induction n as [|n IH]; intros rest Hn; [lia|].
  cbn [redact_prefixed_token_loop]. destruct (is_empty rest) eqn:Ee.
  { intros (a & t & b & E & Hl & _). apply (f_equal String.length) in E.
    rewrite !sapp_length in E. simpl in E. lia. }
  destruct (find_split prefix rest) as [[before from]|] eqn:F.
  2: { intros (a & t & b & E & _). apply find_split_None in F.
       assert (contains prefix rest = true); [|congruence].
       apply contains_spec. exists a, (t +:+ b). by rewrite E, <- sapp_assoc. }
  pose proof (find_split_Some _ _ _ _ F) as [Hrest Hs].
  apply starts_with_spec in Hs as [after ->]. rewrite sdrop_app.
  destruct (span is_token_char after) as [tok rest'] eqn:S.
  apply span_spec in S as (-> & Htk & Hhead).
  assert (String.length rest' < n)%nat as Hn'.
  { rewrite Hrest, !sapp_length in Hn. destruct prefix; [done|]. simpl in Hn. lia. }
  specialize (IH rest' Hn').
  destruct (Nat.leb_spec (String.length prefix + 16) (String.length (prefix +:+ tok))).
  - apply no_secret_masked; [by apply (no_secret_before rest _ (prefix +:+ tok +:+ rest'))|done].
  - rewrite sapp_length in H. rewrite sapp_assoc. apply no_secret_app; [|done|].
    + apply (no_secret_short rest _ rest'); [done|lia].
    + right. by apply loop_head.
Qed.
End prefixed.

(** * Every bearer marker is masked *)

Definition ci_starts (needle s : string) : bool :=
  starts_with (to_ascii_lowercase needle) (to_ascii_lowercase s).

Lemma find_ci_Some needle s a b :
  find_case_insensitive s needle = Some (a, b) ->
  s = a +:+ b /\ ci_starts needle b = true /\
  forall x y, y <> "" -> a = x +:+ y -> ci_starts needle (y +:+ b) = false.
Proof.
  revert a b. induction s as [|c s IH]; intros a b; cbn [find_case_insensitive].
  - destruct (starts_with _ _) eqn:E; [|done]. intros [= <- <-]. split_and!; [done..|].
    intros x y Hy E'. by destruct x, y.
  - destruct (starts_with _ _) eqn:E.
    + intros [= <- <-]. split_and!; [done..|]. intros x y Hy E'. by destruct x, y.
    + destruct (find_case_insensitive s needle) as [[a' b']|] eqn:F; [|done].
      intros [= <- <-]. destruct (IH _ _ eq_refl) as (-> & Hb & Hmin). split_and!; [done..|].
      intros x y Hy E'. destruct x as [|x0 x].
      * rewrite sapp_nil_l in E'. subst y. rewrite sapp_cons. apply E.
      * rewrite sapp_cons in E'. simplify_eq. by apply (Hmin x y).
Qed.

Lemma find_ci_None needle s :
  find_case_insensitive s needle = None ->
  forall x y, s = x +:+ y -> ci_starts needle y = false.
Proof.
  induction s as [|c s IH]; cbn [find_case_insensitive]; intros H x y E.
  - destruct (starts_with _ _) eqn:S; [done|]. destruct x, y; by simplify_eq.
  - destruct (starts_with _ _) eqn:S; [done|].
    destruct (find_case_insensitive s needle) as [[??]|]; [done|].
    destruct x as [|x0 x].
    + rewrite sapp_nil_l in E. by subst y.
    + rewrite sapp_cons in E. simplify_eq. by apply (IH eq_refl x).
Qed.

(** Only the first [length needle] bytes matter. *)
Lemma starts_with_local p u x y :
  (String.length p <= String.length u)%nat ->
  starts_with p (u +:+ x) = starts_with p (u +:+ y).
Proof.
  revert u. induction p as [|c p IH]; intros u H; [done|].
  destruct u as [|d u]; [simpl in H; lia|]. rewrite !sapp_cons. simpl.
  f_equal. apply IH. simpl in H. lia.
Qed.

Lemma lower_length s : String.length (to_ascii_lowercase s) = String.length s.
Proof. induction s; simpl; auto. Qed.

Lemma ci_starts_local needle u x y :
  (String.length needle <= String.length u)%nat ->
  ci_starts needle (u +:+ x) = ci_starts needle (u +:+ y).
Proof.
  intros H. unfold ci_starts. rewrite !to_ascii_lowercase_app.
  apply starts_with_local. by rewrite !lower_length.
Qed.

(** Every occurrence of the marker, in any case, is followed by the mask. *)
Definition bearer_masked (s : string) : Prop :=
  forall x y, s = x +:+ y -> ci_starts "bearer " y = true ->
    starts_with REDACTED (sdrop 7 y) = true.

Lemma bearer_masked_nil : bearer_masked "".
Proof. intros x y E. by destruct x, y. Qed.

Lemma bearer_masked_cons c s :
  (ci_starts "bearer " (String c s) = true -> starts_with REDACTED (sdrop 7 (String c s)) = true) ->
  bearer_masked s -> bearer_masked (String c s).
Proof.
  intros Hc Hs x y E. destruct x as [|x0 x].
  - rewrite sapp_nil_l in E. by subst y.
  - rewrite sapp_cons in E. simplify_eq. by apply (Hs x).
Qed.

Lemma bearer_masked_app u v :
  (forall x y, y <> "" -> u = x +:+ y -> ci_starts "bearer " (y +:+ v) = true ->
     starts_with REDACTED (sdrop 7 (y +:+ v)) = true) ->
  bearer_masked v -> bearer_masked (u +:+ v).
Proof.
  intros Hu Hv. induction u as [|c u IH]; [done|].
  rewrite sapp_cons. apply bearer_masked_cons.
  - rewrite <- sapp_cons. by apply (Hu "").
  - apply IH. intros x y Hy ->. by apply (Hu (String c x)).
Qed.

Lemma bearer_masked_redacted v : bearer_masked v -> bearer_masked (REDACTED +:+ v).
Proof.
  intros H. unfold REDACTED. rewrite !sapp_cons, sapp_nil_l.
  repeat (apply bearer_masked_cons; [by intros Hc; vm_compute in Hc|]). done.
Qed.

(** A marker splits off as its seven bytes. *)
Lemma ci_marker_inv s :
  ci_starts "bearer " s = true ->
  exists m r, s = m +:+ r /\ String.length m = 7%nat /\ to_ascii_lowercase m = "bearer ".
Proof.
  unfold ci_starts. rewrite starts_with_spec. intros [r Hr].
  do 7 (destruct s as [|? s]; [done|]).
  eexists (String a (String a0 (String a1 (String a2 (String a3 (String a4 (String a5 ""))))))), s.
  split_and!; [done..|]. change (to_ascii_lowercase "bearer ") with "bearer " in Hr.
  cbn [to_ascii_lowercase] in Hr |- *. rewrite !sapp_cons in Hr.
  injection Hr as E0 E1 E2 E3 E4 E5 E6 _. by rewrite E0, E1, E2, E3, E4, E5, E6.
Qed.

Lemma bearer_masked_marker m v :
  String.length m = 7%nat -> to_ascii_lowercase m = "bearer " ->
  bearer_masked (REDACTED +:+ v) -> bearer_masked (m +:+ REDACTED +:+ v).
Proof.
  intros Hl Hm Hv. do 8 (destruct m as [|? m]; [try done|]); [|done].
  cbn [to_ascii_lowercase] in Hm. injection Hm as H0 H1 H2 H3 H4 H5 H6.
  rewrite !sapp_cons, sapp_nil_l. apply bearer_masked_cons.
  { intros _. cbn [sdrop]. apply starts_with_app. }
  do 6 (apply bearer_masked_cons;
    [unfold ci_starts; cbn [to_ascii_lowercase starts_with];
     rewrite ?H1, ?H2, ?H3, ?H4, ?H5, ?H6; by intros Hc; vm_compute in Hc|]).
  done.
Qed.

Lemma substring_0_app m r : String.substring 0 (String.length m) (m +:+ r) = m.
Proof. induction m as [|c m IH]; [by destruct r|]. rewrite sapp_cons. simpl. by rewrite IH. Qed.

(** One round of the loop, with the pieces named. *)
Lemma bearer_round n rest :
  (String.length rest < S n)%nat ->
  redact_bearer_tokens_loop (S n) rest = rest /\
    (forall x y, rest = x +:+ y -> ci_starts "bearer " y = false) \/
  exists before m tail rest',
    rest = before +:+ m +:+ tail +:+ rest' /\
    String.length m = 7%nat /\ to_ascii_lowercase m = "bearer " /\
    (forall x y, y <> "" -> before = x +:+ y ->
       ci_starts "bearer " (y +:+ m +:+ tail +:+ rest') = false) /\
    (String.length rest' < n)%nat /\ head_ok is_terminator rest' /\
    redact_bearer_tokens_loop (S n) rest =
      before +:+ m +:+ REDACTED +:+ redact_bearer_tokens_loop n rest'.
Proof.
  intros Hn. cbn [redact_bearer_tokens_loop].
  destruct (is_empty rest) eqn:Ee.
  { apply is_empty_spec in Ee as ->. left. split; [done|]. intros x y E. by destruct x, y. }
  destruct (find_case_insensitive rest "bearer ") as [[before from]|] eqn:F.
  2: { left. split; [done|]. by apply find_ci_None. }
  right. apply find_ci_Some in F as (-> & Hs & Hmin).
  apply ci_marker_inv in Hs as (m & r & -> & Hl & Hm).
  assert (String.substring 0 7 (m +:+ r) = m) as -> by (rewrite <- Hl; apply substring_0_app).
  assert (sdrop 7 (m +:+ r) = r) as -> by (rewrite <- Hl; apply sdrop_app).
  destruct (span _ r) as [tail rest'] eqn:S. apply span_spec in S as (-> & _ & Hh).
  exists before, m, tail, rest'. rewrite !sapp_length in Hn. split_and!; try done; [lia|].
  destruct rest'; simpl in *; [done|]. by destruct (is_terminator a).
Qed.

Lemma bearer_loop_masked n rest :
  (String.length rest < n)%nat -> bearer_masked (redact_bearer_tokens_loop n rest).
Proof.
  revert rest. induction n as [|n IH]; intros rest Hn; [lia|].
  destruct (bearer_round n rest Hn)
    as [[-> Hno]|(before & m & tail & rest' & -> & Hl & Hm & Hmin & Hn' & _ & ->)].
  { intros x y E Hs. by rewrite (Hno x y E) in Hs. }
  apply bearer_masked_app.
  - intros x y Hy E Hs. rewrite sapp_assoc in Hs.
    rewrite (ci_starts_local _ (y +:+ m) _ (tail +:+ rest')) in Hs.
    + rewrite <- sapp_assoc, (Hmin x y Hy E) in Hs. done.
    + rewrite sapp_length, Hl. simpl. lia.
  - apply bearer_masked_marker; [done..|]. by apply bearer_masked_redacted, IH.
Qed.

Lemma bearer_loop_no_secret n rest :
  ~ has_secret "nsec1" rest -> (String.length rest < n)%nat ->
  ~ has_secret "nsec1" (redact_bearer_tokens_loop n rest).
Proof.
  revert rest. induction n as [|n IH]; intros rest Hs Hn; [lia|].
  destruct (bearer_round n rest Hn)
    as [[-> _]|(before & m & tail & rest' & -> & _ & _ & _ & Hn' & _ & ->)]; [done|].
  rewrite sapp_assoc. apply no_secret_masked; [done| |].
  - apply (no_secret_sub _ "" _ (tail +:+ rest')). by rewrite sapp_nil_l, <- sapp_assoc.
  - apply IH; [|done]. apply (no_secret_sub _ (before +:+ m +:+ tail) _ "").
    by rewrite sapp_nil_r, <- !sapp_assoc.
Qed.

(** * JSON *)

(** A redacted text: no secret key, no unmasked bearer token. *)
Definition clean_text (s : string) : Prop := ~ has_secret "nsec1" s /\ bearer_masked s.

Lemma redact_text_is_clean text : clean_text (redact_text text).
Proof.
  split.
  - apply bearer_loop_no_secret; [|lia]. by apply prefixed_loop_no_secret; [| |lia].
  - apply bearer_loop_masked. lia.
Qed.

Inductive clean_json : json -> Prop :=
| clean_null : clean_json JNull
| clean_bool b : clean_json (JBool b)
| clean_num n : clean_json (JNum n)
| clean_str s : clean_text s -> clean_json (JStr s)
| clean_arr l : Forall clean_json l -> clean_json (JArr l)
| clean_obj m :
    Forall (fun kv => clean_json kv.2 /\
                      (is_sensitive_key kv.1 = true -> kv.2 = JStr REDACTED)) m ->
    clean_json (JObj m).

Definition redact_field (kv : string * json) : string * json :=
  (kv.1, if is_sensitive_key kv.1 then JStr REDACTED else redact_json kv.2).

Lemma redact_json_obj m : redact_json (JObj m) = JObj (map_of (map redact_field m)).
Proof.
  cbn [redact_json]. f_equal. f_equal.
  induction m as [|[k v] m IH]; simpl; [done|]. by rewrite IH.
Qed.

Lemma redact_json_arr l : redact_json (JArr l) = JArr (map redact_json l).
Proof. done. Qed.

Lemma clean_redacted : clean_text REDACTED.
Proof.
  split; [by apply no_secret_redacted|].
  change REDACTED with (REDACTED +:+ ""). apply bearer_masked_redacted, bearer_masked_nil.
Qed.

Lemma redact_json_is_clean v : clean_json (redact_json v).
Proof.
  induction v as [|b|n|s|l IH|m IH] using json_ind; try by constructor.
  - constructor. apply redact_text_is_clean.
  - rewrite redact_json_arr. constructor. by apply Forall_map.
  - rewrite redact_json_obj. constructor. apply Forall_map_of, Forall_map.
    eapply Forall_impl; [exact IH|]. intros [k v] Hv. simpl in *.
    destruct (is_sensitive_key k); split; try done. constructor. apply clean_redacted.
Qed.

Lemma sorted_keys_map_field m : sorted_keys m -> sorted_keys (map redact_field m).
Proof.
  induction 1 as [|kv m Hs IH Hf]; simpl; constructor; [done|].
  apply Forall_map. eapply Forall_impl; [exact Hf|]. done.
Qed.

(** * Properties *)

(** No redacted text contains a Nostr secret key, that is, [nsec1] followed
    by sixteen lowercase letters or digits, whatever the input: not inside a
    longer token, not across a mask, not after the bearer pass. *)
Theorem redact_text_no_nsec text : ~ has_secret "nsec1" (redact_text text).
Proof. apply redact_text_is_clean. Qed.

(** In a redacted text every occurrence of the marker [bearer ], in any
    letter case, is directly followed by the mask. *)
Theorem redact_text_bearer_followed_by_mask text x y
    (Hsplit : redact_text text = x +:+ y)
    (Hmarker : ci_starts "bearer " y = true) :
  starts_with REDACTED (sdrop 7 y) = true.
Proof. by apply (proj2 (redact_text_is_clean text) x y). Qed.

Lemma redact_text_bearer_followed_by_mask_witness :
  starts_with REDACTED (sdrop 7 "BEARER [REDACTED], nsec1short") = true.
Proof.
  exact (redact_text_bearer_followed_by_mask "auth BEARER very-secret, nsec1short" "auth "
    "BEARER [REDACTED], nsec1short" ltac:(vm_compute; reflexivity) ltac:(vm_compute; reflexivity)).
Defined.

(** C33: a redacted JSON value is clean at every depth: each string value is a
    redacted text and the value of every sensitive key, of any object inside it,
    is the mask. *)
Theorem redact_json_clean v : clean_json (redact_json v).
Proof. apply redact_json_is_clean. Qed.

(** On an object as [serde_json] holds it (strictly increasing keys)
    redaction keeps the keys and their order, masks the sensitive fields, and
    redacts the others in place. *)
Theorem redact_json_object_fields m (Hm : sorted_keys m) :
  redact_json (JObj m) =
  JObj (map (fun kv => (kv.1, if is_sensitive_key kv.1 then JStr REDACTED
                              else redact_json kv.2)) m).
Proof.
  rewrite redact_json_obj, map_of_sorted; [done|]. by apply sorted_keys_map_field.
Qed.

Lemma redact_json_object_fields_witness :
  redact_json (JObj [("notes", JStr "ok"); ("token", JNum (PosInt 7))]) =
  JObj [("notes", JStr "ok"); ("token", JStr REDACTED)].
Proof.
  rewrite redact_json_object_fields; [by vm_compute|].
  repeat constructor.
Defined.

(** The [redaction_applied] flag of a memory record is exact: it is false
    precisely when both the content and the summary are stored unchanged. *)
Theorem redact_memory_content_flag content summary :
  (redact_memory_content content summary).2 = false <->
  (redact_memory_content content summary).1 = (content, summary).
Proof.
  unfold redact_memory_content. simpl. rewrite orb_false_iff, negb_false_iff, json_eqb_eq.
  destruct summary as [s|]; simpl.
  - rewrite negb_false_iff, String.eqb_eq. split; [by intros [-> <-]|by intros [= -> ->]].
  - split; [by intros [-> _]|by intros [= ->]].
Qed.

(** Masking is not idempotent: the closing bracket of the mask is itself a
    terminator, so a second pass over a masked text replaces the mask up to that
    bracket and leaves the bracket behind.  The worker redacts run and step
    errors twice. *)
Theorem redact_text_not_idempotent :
  redact_text "Bearer abc" = "Bearer [REDACTED]" /\
  redact_text (redact_text "Bearer abc") = "Bearer [REDACTED]]".
Proof. by vm_compute. Qed.

(** A token separated from the marker by more than one white-space character
    is not removed: the mask is inserted before it and the token stays. *)
Theorem redact_text_double_space_leaks :
  redact_text "Authorization: Bearer  s3cr3t" = "Authorization: Bearer [REDACTED] s3cr3t".
Proof. by vm_compute. Qed.
