(* ===== verification/Sql.v ===== *)
(** What the persistence code uses of SQL: tables as lists of rows (their order
    is the scan order of the engine, which SQL leaves open), [UPDATE ... WHERE],
    [ORDER BY ... LIMIT], and timestamps.

    Instants are microseconds in [Z].  PostgreSQL compares them directly; the
    SQLite statements compare [datetime(t)], whose resolution is coarser, so the
    statements are written against a key function: the identity for
    PostgreSQL and [datetime] for SQLite. *)
From S2P Require Import Prelude RustStr Json.

Abbreviation Uuid := Z.

Inductive db_error :=
| UniqueViolation | ForeignKeyViolation | CheckViolation | OutOfRange | RowNotFound
| ColumnDecode | Protocol (message : string).

(** * Engines *)

(** The comparable form of an instant, and the text of a JSON value that is not
    a string, are the engine's; the program only relies on the former being
    monotone. *)
Class Engine := {
  ts_key : Z -> Z;
  ts_key_mono a b : a <= b -> ts_key a <= ts_key b;
  json_text : json -> string;
  ts_max : Z;
}.

Definition PgEngine (text : json -> string) (tmax : Z) : Engine :=
  {| ts_key := fun t => t; ts_key_mono := fun a b H => H; json_text := text; ts_max := tmax |}.

Definition ts_lt `{Engine} (a b : Z) : bool := ts_key a <? ts_key b.
Definition ts_le `{Engine} (a b : Z) : bool := ts_key a <=? ts_key b.

Lemma ts_lt_true `{Engine} a b : ts_lt a b = true -> a < b.
Proof.
  unfold ts_lt. intros H1. bool_hyps. destruct (Z.lt_ge_cases a b) as [|Hge]; [done|].
  apply ts_key_mono in Hge. lia.
Qed.

Lemma ts_lt_trans_le `{Engine} a b c : ts_lt a b = true -> b <= c -> ts_lt a c = true.
Proof.
  unfold ts_lt. intros H1 H2%ts_key_mono. bool_hyps. apply Z.ltb_lt. lia.
Qed.

(** [CURRENT_TIMESTAMP] of SQLite has a resolution of one second. *)
Definition current_timestamp (now : Z) : Z := now / 1000000 * 1000000.

(** [v->>'k'] of PostgreSQL, [json_extract(v, '$.k')] of SQLite. *)
Definition json_field_text `{Engine} (k : string) (v : json) : option string :=
  match get k v with
  | None | Some JNull => None
  | Some (JStr s) => Some s
  | Some w => Some (json_text w)
  end.

(** * ORDER BY *)

Section sort.
Context {A : Type} (le : A -> A -> bool).

Fixpoint insert_by (x : A) (l : list A) : list A :=
  match l with
  | [] => [x]
  | y :: l' => if le x y then x :: l else y :: insert_by x l'
  end.

(** Stable: rows that compare equal keep their order. *)
Fixpoint order_by (l : list A) : list A :=
  match l with
  | [] => []
  | x :: l' => insert_by x (order_by l')
  end.

Lemma insert_by_perm x l : insert_by x l ≡ₚ x :: l.
Proof.
  induction l as [|y l IH]; simpl; [done|].
  destruct (le x y); [done|]. rewrite IH. constructor.
Qed.

Lemma order_by_perm l : order_by l ≡ₚ l.
Proof. induction l as [|x l IH]; simpl; [done|]. by rewrite insert_by_perm, IH. Qed.

Lemma elem_of_order_by x l : x ∈ order_by l <-> x ∈ l.
Proof. by rewrite order_by_perm. Qed.

Lemma length_order_by l : length (order_by l) = length l.
Proof. by rewrite order_by_perm. Qed.

Lemma insert_by_sorted_on (P : A -> Prop) x l :
  (forall x y, P x -> P y -> le x y = false -> le y x = true) ->
  (forall x y z, P x -> P y -> P z -> le x y = true -> le y z = true -> le x z = true) ->
  P x -> Forall P l ->
  StronglySorted (fun a b => le a b = true) l ->
  StronglySorted (fun a b => le a b = true) (insert_by x l).
Proof.
  intros Htotal Htrans Hx Hl Hs. revert Hl. induction Hs as [|y l Hs IH Hf]; intros Hl; simpl; [repeat constructor|].
  inv Hl. destruct (le x y) eqn:E.
  - constructor; [by constructor|]. constructor; [done|].
    rewrite Forall_forall in *. intros z Hz. apply (Htrans _ y); auto.
  - constructor; [by apply IH|]. rewrite insert_by_perm. constructor; [by apply Htotal|done].
Qed.

(** Sorted when the order is total and transitive on the rows. *)
Lemma order_by_sorted_on (P : A -> Prop) l :
  (forall x y, P x -> P y -> le x y = false -> le y x = true) ->
  (forall x y z, P x -> P y -> P z -> le x y = true -> le y z = true -> le x z = true) ->
  Forall P l -> StronglySorted (fun a b => le a b = true) (order_by l).
Proof.
  intros Htotal Htrans. induction 1 as [|x l Hx Hl IH]; simpl; [constructor|].
  apply (insert_by_sorted_on P); try done. by rewrite order_by_perm.
Qed.

Context (le_total : forall x y, le x y = false -> le y x = true)
        (le_trans : forall x y z, le x y = true -> le y z = true -> le x z = true).

Lemma order_by_sorted l : StronglySorted (fun a b => le a b = true) (order_by l).
Proof. apply (order_by_sorted_on (fun _ => True)); eauto. by apply Forall_true. Qed.

(** A row that [LIMIT] cuts off does not come before one that it keeps. *)
Lemma order_by_take_least n l x y :
  x ∈ take n (order_by l) -> y ∈ drop n (order_by l) -> le x y = true.
Proof.
  pose proof (order_by_sorted l) as Hs. revert Hs.
  generalize (order_by l). clear l. intros l. revert n.
  induction l as [|z l IH]; intros n Hs Hx Hy.
  - rewrite take_nil in Hx. inv Hx.
  - destruct n as [|n]; simpl in *; [by inv Hx|]. inv Hs.
    apply elem_of_cons in Hx as [->|Hx]; [|by eapply IH].
    rewrite Forall_forall in H2. apply H2.
    apply list_elem_of_In in Hy. rewrite list_elem_of_In.
    rewrite <- (take_drop n l). apply in_or_app. by right.
Qed.
End sort.

(** [fields.sort_by(|(left, _), (right, _)| left.cmp(right))] *)
Definition key_le (a b : string * json) : bool :=
  match String.compare a.1 b.1 with Gt => false | _ => true end.

(** [LIMIT n] *)
Definition limit {A} (n : Z) (l : list A) : list A := take (Z.to_nat n) l.

Lemma limit_length {A} n (l : list A) : Z.of_nat (length (limit n l)) <= Z.max 0 n.
Proof. unfold limit. rewrite length_take. lia. Qed.

Lemma elem_of_limit {A} n (l : list A) x : x ∈ limit n l -> x ∈ l.
Proof.
  unfold limit. intros H. apply list_elem_of_lookup in H as [i Hi].
  apply lookup_take_Some in Hi as [Hi _]. apply list_elem_of_lookup. eauto.
Qed.

(** * UPDATE *)

Section update.
Context {A : Type}.

(** [UPDATE t SET f WHERE p]: the new table and [rows_affected]. *)
Definition update_where (p : A -> bool) (f : A -> A) (rows : list A) : list A * Z :=
  (map (fun r => if p r then f r else r) rows, countb p rows).

Lemma elem_of_update p f rows r' :
  r' ∈ (update_where p f rows).1 <->
  exists r, r ∈ rows /\ r' = if p r then f r else r.
Proof. simpl. rewrite list_elem_of_fmap. naive_solver. Qed.

Lemma update_where_none p f rows :
  (forall r, r ∈ rows -> p r = false) -> update_where p f rows = (rows, 0).
Proof.
  intros H. unfold update_where. f_equal.
  - induction rows as [|r rows IH]; simpl; [done|].
    rewrite H by left. rewrite IH; [done|]. intros r' Hr'. apply H. by right.
  - unfold countb. by rewrite (proj2 (filterb_nil p rows) H).
Qed.
End update.

(** Rows with distinct identifiers: an identifier selects at most one row. *)
Section by_id.
Context {A K : Type} (row_id : A -> K).

Definition ids_distinct (rows : list A) : Prop := NoDup (map row_id rows).

Lemma ids_distinct_inj rows r r' :
  ids_distinct rows -> r ∈ rows -> r' ∈ rows -> row_id r = row_id r' -> r = r'.
Proof.
  unfold ids_distinct. intros Hnd Hr Hr' E.
  apply list_elem_of_lookup in Hr as [i Hi]. apply list_elem_of_lookup in Hr' as [j Hj].
  assert (i = j) as ->; [|congruence].
  eapply NoDup_lookup; [exact Hnd| |];
    rewrite list_lookup_fmap; [by rewrite Hi|]. rewrite Hj. simpl. by rewrite E.
Qed.

Lemma ids_distinct_count rows p :
  ids_distinct rows ->
  (forall r r', r ∈ rows -> r' ∈ rows -> p r = true -> p r' = true -> row_id r = row_id r') ->
  countb p rows <= 1.
Proof.
  unfold ids_distinct. induction rows as [|r rows IH]; intros Hnd Hp; [done|].
  simpl in Hnd. apply NoDup_cons in Hnd as [Hr Hnd]. rewrite countb_cons.
  assert (countb p rows <= 1) as Hle.
  { apply IH; [done|]. intros a b Ha Hb. apply Hp; by right. }
  destruct (p r) eqn:E; [|lia].
  assert (countb p rows = 0); [|lia].
  unfold countb. rewrite (proj2 (filterb_nil p rows)); [done|].
  intros r' Hr'. destruct (p r') eqn:E'; [|done]. exfalso. apply Hr.
  apply list_elem_of_fmap. exists r'. split; [|done].
  apply Hp; [left|by right|done|done].
Qed.

Lemma ids_distinct_filter p rows : ids_distinct rows -> ids_distinct (List.filter p rows).
Proof.
  unfold ids_distinct. induction rows as [|r rows IH]; simpl; [done|].
  intros [Hr Hd]%NoDup_cons. destruct (p r); [|by apply IH]. simpl. constructor; [|by apply IH].
  intros Hin. apply Hr. apply list_elem_of_fmap in Hin as (x & Hx & Hin).
  apply list_elem_of_fmap. exists x. split; [done|]. by apply elem_of_filterb in Hin as [? _].
Qed.

Lemma update_ids p f rows :
  (forall r, row_id (f r) = row_id r) ->
  map row_id (update_where p f rows).1 = map row_id rows.
Proof.
  intros H. simpl. rewrite map_map. apply map_ext. intros r. by destruct (p r).
Qed.
End by_id.

Lemma Forall_map_in {A} (P : A -> Prop) (f : A -> A) l :
  Forall P l -> (forall x, x ∈ l -> P x -> P (f x)) -> Forall P (map f l).
Proof.
  induction 1 as [|x l Hx _ IH]; intros Hf; constructor; [apply Hf; [left|done]|].
  apply IH. intros y Hy. apply Hf. by right.
Qed.

Lemma Forall2_map_r {A B} (R : A -> B -> Prop) (f : A -> B) l :
  (forall x, x ∈ l -> R x (f x)) -> Forall2 R l (map f l).
Proof.
  induction l as [|x l IH]; intros H; constructor; [apply H; left|].
  apply IH. intros y Hy. apply H. by right.
Qed.
