(* ===== verification/Runs.v ===== *)
(** The [runs] table and its lease protocol, for both storage backends:
    core/src/db.rs (PostgreSQL), core/src/db_dual.rs and
    core/src/db_worker_dual.rs (SQLite and the dispatch between the two).

    One definition per database function; the SQL fragments the two backends
    share are written once, against the engine's timestamp key (see Sql).  Every
    statement commits on its own and reads the time at which it runs, so a
    function of several statements takes a clock. *)
From S2P Require Import Prelude RustStr Json Sql.

(** * Data *)

Inductive run_status := queued | running | succeeded | failed | canceled.

#[export] Instance run_status_eq_dec : EqDecision run_status.
Proof. solve_decision. Defined.

(** The [CHECK] constraint on [runs.status]. *)
Definition run_status_of (s : string) : option run_status :=
  str_match s [(["queued"], queued); (["running"], running); (["succeeded"], succeeded);
               (["failed"], failed); (["canceled"], canceled)].

Record run := mkRun {
  r_id : Uuid;
  r_tenant_id : string;
  r_agent_id : Uuid;
  r_triggered_by_user_id : option Uuid;
  r_recipe_id : string;
  r_status : run_status;
  r_input_json : json;
  r_requested_capabilities : json;
  r_granted_capabilities : json;
  r_created_at : Z;
  r_started_at : option Z;
  r_finished_at : option Z;
  r_error_json : option json;
  r_attempts : Z;
  r_lease_owner : option string;
  r_lease_expires_at : option Z;
  r_semantic_dedupe_key : option string;
}.

#[export] Instance run_eq_dec : EqDecision run.
Proof. solve_decision. Defined.

Record NewRun := {
  n_id : Uuid;
  n_tenant_id : string;
  n_agent_id : Uuid;
  n_triggered_by_user_id : option Uuid;
  n_recipe_id : string;
  n_input_json : json;
  n_requested_capabilities : json;
  n_granted_capabilities : json;
  n_status : string;
  n_error_json : option json;
}.

Record RunRecord := {
  rr_id : Uuid;
  rr_tenant_id : string;
  rr_agent_id : Uuid;
  rr_triggered_by_user_id : option Uuid;
  rr_recipe_id : string;
  rr_status : run_status;
  rr_created_at : Z;
}.

Record RunLeaseRecord := {
  l_id : Uuid;
  l_tenant_id : string;
  l_agent_id : Uuid;
  l_triggered_by_user_id : option Uuid;
  l_recipe_id : string;
  l_status : run_status;
  l_input_json : json;
  l_granted_capabilities : json;
  l_attempts : Z;
  l_lease_owner : option string;
  l_lease_expires_at : option Z;
  l_created_at : Z;
  l_started_at : option Z;
}.

Definition run_record (r : run) : RunRecord :=
  {| rr_id := r_id r; rr_tenant_id := r_tenant_id r; rr_agent_id := r_agent_id r;
     rr_triggered_by_user_id := r_triggered_by_user_id r; rr_recipe_id := r_recipe_id r;
     rr_status := r_status r; rr_created_at := r_created_at r |}.

Definition lease_record (r : run) : RunLeaseRecord :=
  {| l_id := r_id r; l_tenant_id := r_tenant_id r; l_agent_id := r_agent_id r;
     l_triggered_by_user_id := r_triggered_by_user_id r; l_recipe_id := r_recipe_id r;
     l_status := r_status r; l_input_json := r_input_json r;
     l_granted_capabilities := r_granted_capabilities r; l_attempts := r_attempts r;
     l_lease_owner := r_lease_owner r; l_lease_expires_at := r_lease_expires_at r;
     l_created_at := r_created_at r; l_started_at := r_started_at r |}.

(** The tables the run functions touch: [runs], and the keys of [agents] and
    [users] that its foreign keys refer to. *)
Record run_db := { db_agents : list Uuid; db_users : list Uuid; db_runs : list run }.

Definition is_status (s : run_status) (r : run) : bool := bool_decide (r_status r = s).
Definition is_active (r : run) : bool := is_status queued r || is_status running r.
Definition has_tenant (t : string) (r : run) : bool := String.eqb (r_tenant_id r) t.

(** * Creating runs *)

Definition row_of_new (n : NewRun) (st : run_status) (key : option string) (now : Z) : run :=
  {| r_id := n_id n; r_tenant_id := n_tenant_id n; r_agent_id := n_agent_id n;
     r_triggered_by_user_id := n_triggered_by_user_id n; r_recipe_id := n_recipe_id n;
     r_status := st; r_input_json := n_input_json n;
     r_requested_capabilities := n_requested_capabilities n;
     r_granted_capabilities := n_granted_capabilities n; r_created_at := now;
     r_started_at := None; r_finished_at := None; r_error_json := n_error_json n;
     r_attempts := 0; r_lease_owner := None; r_lease_expires_at := None;
     r_semantic_dedupe_key := key |}.

(** Primary key, then foreign keys. *)
Definition insert_run (row : run) (db : run_db) : result run_db db_error :=
  if existsb (fun r => r_id r =? r_id row) (db_runs db) then Err UniqueViolation
  else if negb (bool_decide (r_agent_id row ∈ db_agents db)) then Err ForeignKeyViolation
  else match r_triggered_by_user_id row with
       | Some u => if bool_decide (u ∈ db_users db)
                   then Ok {| db_agents := db_agents db; db_users := db_users db;
                              db_runs := db_runs db ++ [row] |}
                   else Err ForeignKeyViolation
       | None => Ok {| db_agents := db_agents db; db_users := db_users db;
                       db_runs := db_runs db ++ [row] |}
       end.

Definition create_run (now : Z) (n : NewRun) (db : run_db)
    : result (run_db * RunRecord) db_error :=
  let? st := ok_or (run_status_of (n_status n)) CheckViolation in
  let row := row_of_new n st None now in
  let? db' := insert_run row db in
  Ok (db', run_record row).

(** Two active rows of one tenant with the same key: the partial unique index
    [idx_runs_tenant_semantic_dedupe_active]. *)
Definition same_dedupe (a b : run) : bool :=
  is_active a && is_active b && String.eqb (r_tenant_id a) (r_tenant_id b) &&
  match r_semantic_dedupe_key a, r_semantic_dedupe_key b with
  | Some k, Some k' => String.eqb k k'
  | _, _ => false
  end.

Definition create_run_with_semantic_dedupe_key (now : Z) (n : NewRun) (key : string) (db : run_db)
    : result (run_db * option RunRecord) db_error :=
  let? st := ok_or (run_status_of (n_status n)) CheckViolation in
  let row := row_of_new n st (Some key) now in
  if existsb (same_dedupe row) (db_runs db) then Ok (db, None)
  else let? db' := insert_run row db in Ok (db', Some (run_record row)).

Definition active_with_key (tenant key : string) (r : run) : bool :=
  has_tenant tenant r && bool_decide (r_semantic_dedupe_key r = Some key) && is_active r.

(** [ORDER BY created_at DESC, id DESC] *)
Definition newest_first (a b : run) : bool :=
  (r_created_at b <? r_created_at a) ||
  ((r_created_at b =? r_created_at a) && (r_id b <=? r_id a)).

Definition get_active_run_id_by_semantic_dedupe_key (tenant key : string) (db : run_db)
    : option Uuid :=
  r_id <$> head (order_by newest_first (List.filter (active_with_key tenant key) (db_runs db))).

Definition get_run_status (tenant : string) (id : Uuid) (db : run_db) : option run :=
  List.find (fun r => has_tenant tenant r && (r_id r =? id)) (db_runs db).

Definition count_tenant_inflight_runs (tenant : string) (db : run_db) : Z :=
  countb (fun r => has_tenant tenant r && is_active r) (db_runs db).

Definition count_inflight_runs (db : run_db) : Z := countb is_active (db_runs db).

(** * SQL fragments shared by the backends *)

Definition minutes_15 : Z := 15 * 60 * 1000000.

Section fragments.
Context `{Engine}.

(** [status = 'queued' AND (lease_expires_at IS NULL OR lease_expires_at < now())] *)
Definition claimable (now : Z) (r : run) : bool :=
  is_status queued r &&
  match r_lease_expires_at r with None => true | Some e => ts_lt e now end.

(** [lower(COALESCE(queue_class, llm_queue_class, 'interactive'))] *)
Definition queue_class (input_json : json) : string :=
  to_ascii_lowercase
    (match json_field_text "queue_class" input_json with
     | Some c => c
     | None => match json_field_text "llm_queue_class" input_json with
               | Some c => c
               | None => "interactive"
               end
     end).

(** Waiting work of class batch is promoted after a quarter of an hour. *)
Definition class_rank (now since : Z) (class : string) : Z :=
  if String.eqb class "batch" && ts_le since (now - minutes_15) then 0
  else if String.eqb class "interactive" then 0
  else if String.eqb class "batch" then 1
  else 0.

Definition queue_rank (now : Z) (r : run) : Z :=
  class_rank now (r_created_at r) (queue_class (r_input_json r)).

Definition claim_order (now : Z) (a b : run) : bool :=
  (queue_rank now a <? queue_rank now b) ||
  ((queue_rank now a =? queue_rank now b) && ts_le (r_created_at a) (r_created_at b)).

Definition candidates (n : Z) (now : Z) (rows : list run) : list run :=
  limit n (order_by (claim_order now) (List.filter (claimable now) rows)).

(** The [SET] of the claim: [started] and [expires] are computed by the
    statement on PostgreSQL and by the process on SQLite. *)
Definition set_claimed (started expires : Z) (worker : string) (r : run) : run :=
  {| r_id := r_id r; r_tenant_id := r_tenant_id r; r_agent_id := r_agent_id r;
     r_triggered_by_user_id := r_triggered_by_user_id r; r_recipe_id := r_recipe_id r;
     r_status := running; r_input_json := r_input_json r;
     r_requested_capabilities := r_requested_capabilities r;
     r_granted_capabilities := r_granted_capabilities r; r_created_at := r_created_at r;
     r_started_at := match r_started_at r with Some s => Some s | None => Some started end;
     r_finished_at := r_finished_at r; r_error_json := r_error_json r;
     r_attempts := r_attempts r + 1; r_lease_owner := Some worker;
     r_lease_expires_at := Some expires;
     r_semantic_dedupe_key := r_semantic_dedupe_key r |}.

(** [SET status, finished_at, error_json, lease_owner = NULL, lease_expires_at = NULL] *)
Definition set_finished (st : run_status) (now : Z) (err : option json) (r : run) : run :=
  {| r_id := r_id r; r_tenant_id := r_tenant_id r; r_agent_id := r_agent_id r;
     r_triggered_by_user_id := r_triggered_by_user_id r; r_recipe_id := r_recipe_id r;
     r_status := st; r_input_json := r_input_json r;
     r_requested_capabilities := r_requested_capabilities r;
     r_granted_capabilities := r_granted_capabilities r; r_created_at := r_created_at r;
     r_started_at := r_started_at r; r_finished_at := Some now; r_error_json := err;
     r_attempts := r_attempts r; r_lease_owner := None; r_lease_expires_at := None;
     r_semantic_dedupe_key := r_semantic_dedupe_key r |}.

Definition set_expiry (expires : Z) (r : run) : run :=
  {| r_id := r_id r; r_tenant_id := r_tenant_id r; r_agent_id := r_agent_id r;
     r_triggered_by_user_id := r_triggered_by_user_id r; r_recipe_id := r_recipe_id r;
     r_status := r_status r; r_input_json := r_input_json r;
     r_requested_capabilities := r_requested_capabilities r;
     r_granted_capabilities := r_granted_capabilities r; r_created_at := r_created_at r;
     r_started_at := r_started_at r; r_finished_at := r_finished_at r;
     r_error_json := r_error_json r; r_attempts := r_attempts r;
     r_lease_owner := r_lease_owner r; r_lease_expires_at := Some expires;
     r_semantic_dedupe_key := r_semantic_dedupe_key r |}.

Definition set_requeued (r : run) : run :=
  {| r_id := r_id r; r_tenant_id := r_tenant_id r; r_agent_id := r_agent_id r;
     r_triggered_by_user_id := r_triggered_by_user_id r; r_recipe_id := r_recipe_id r;
     r_status := queued; r_input_json := r_input_json r;
     r_requested_capabilities := r_requested_capabilities r;
     r_granted_capabilities := r_granted_capabilities r; r_created_at := r_created_at r;
     r_started_at := r_started_at r; r_finished_at := r_finished_at r;
     r_error_json := r_error_json r; r_attempts := r_attempts r;
     r_lease_owner := None; r_lease_expires_at := None;
     r_semantic_dedupe_key := r_semantic_dedupe_key r |}.

Definition owned_by (worker : string) (r : run) : bool :=
  bool_decide (r_lease_owner r = Some worker).

(** [status = 'running' AND lease_owner = w AND lease_expires_at IS NOT NULL AND
     lease_expires_at > now()] *)
Definition renewable (now : Z) (id : Uuid) (worker : string) (r : run) : bool :=
  (r_id r =? id) && is_status running r && owned_by worker r &&
  match r_lease_expires_at r with Some e => ts_lt now e | None => false end.

(** [status = 'running' AND lease_expires_at IS NOT NULL AND lease_expires_at < now()] *)
Definition lease_expired (now : Z) (r : run) : bool :=
  is_status running r &&
  match r_lease_expires_at r with Some e => ts_lt e now | None => false end.

(** [ORDER BY lease_expires_at] among rows where it is not null. *)
Definition expiry_order (a b : run) : bool :=
  match r_lease_expires_at a, r_lease_expires_at b with
  | Some x, Some y => ts_le x y
  | Some _, None => true
  | None, Some _ => false
  | None, None => true
  end.
End fragments.

Definition running_of (t : string) (r : run) : bool := has_tenant t r && is_status running r.

(** The loop over the candidates, which the two backends share: skip tenants at
    their cap, else try the guarded [UPDATE] ([upd], at the time of the [i]-th
    round) and return the row it claimed. *)
Fixpoint claim_loop (upd : nat -> Uuid -> list run -> list run * result (option run) db_error)
    (i : nat) (tenant_cap : Z) (cands : list run) (rows : list run)
    : list run * result (option RunLeaseRecord) db_error :=
  match cands with
  | [] => (rows, Ok None)
  | c :: cs =>
      if tenant_cap <=? countb (running_of (r_tenant_id c)) rows
      then claim_loop upd (S i) tenant_cap cs rows
      else match upd i (r_id c) rows with
           | (rows', Ok (Some r)) => (rows', Ok (Some (lease_record r)))
           | (rows', Ok None) => claim_loop upd (S i) tenant_cap cs rows'
           | (rows', Err e) => (rows', Err e)
           end
  end.

(** [clamp_lease_ms], from the milliseconds of a [Duration] (a [u128]). *)
Definition clamp_lease_ms (millis : Z) : Z := Z.min i64_max (Z.max 1 millis).

(** * PostgreSQL *)

Section postgres.
Context (text : json -> string) (pg_ts_max : Z).
#[local] Instance pg : Engine := PgEngine text pg_ts_max.

(** The [UPDATE ... RETURNING] of the claim. *)
Definition claim_update (now : Z) (worker : string) (lease_ms : Z) (id : Uuid)
    (rows : list run) : list run * result (option run) db_error :=
  let p r := (r_id r =? id) && claimable now r in
  let expires := now + lease_ms * 1000 in
  match List.find p rows with
  | None => (rows, Ok None)
  | Some r =>
      if (i32_max <? r_attempts r + 1) || (ts_max <? expires) then (rows, Err OutOfRange)
      else ((update_where p (set_claimed now expires worker) rows).1,
            Ok (Some (set_claimed now expires worker r)))
  end.

Definition claim_next_queued_run_with_limits (clock : nat -> Z) (worker : string)
    (lease_for global_max tenant_max : Z) (rows : list run)
    : list run * result (option RunLeaseRecord) db_error :=
  let lease_ms := clamp_lease_ms lease_for in
  let cands := candidates 64 (clock 0%nat) rows in
  let global_cap := Z.max global_max 1 in
  let tenant_cap := Z.max tenant_max 1 in
  match cands with
  | [] => (rows, Ok None)
  | _ =>
      if global_cap <=? countb (is_status running) rows then (rows, Ok None)
      else claim_loop (fun i => claim_update (clock i) worker lease_ms) 1 tenant_cap cands rows
  end.

Definition claim_next_queued_run (clock : nat -> Z) (worker : string) (lease_for : Z)
    (rows : list run) : list run * result (option RunLeaseRecord) db_error :=
  claim_next_queued_run_with_limits clock worker lease_for i64_max i64_max rows.

Definition renew_run_lease (now : Z) (id : Uuid) (worker : string) (lease_for : Z)
    (rows : list run) : list run * result bool db_error :=
  let expires := now + clamp_lease_ms lease_for * 1000 in
  if existsb (renewable now id worker) rows && (ts_max <? expires)
  then (rows, Err OutOfRange)
  else let '(rows', n) := update_where (renewable now id worker) (set_expiry expires) rows in
       (rows', Ok (n =? 1)).

Definition owned_running (id : Uuid) (worker : string) (r : run) : bool :=
  (r_id r =? id) && is_status running r && owned_by worker r.

Definition mark_run_succeeded (now : Z) (id : Uuid) (worker : string) (rows : list run)
    : list run * bool :=
  let '(rows', n) :=
    update_where (owned_running id worker)
      (fun r => set_finished succeeded now (r_error_json r) r) rows in
  (rows', n =? 1).

Definition mark_run_failed (now : Z) (id : Uuid) (worker : string) (error_json : json)
    (rows : list run) : list run * bool :=
  let '(rows', n) :=
    update_where (owned_running id worker) (set_finished failed now (Some error_json)) rows in
  (rows', n =? 1).

Definition requeue_expired_runs (now : Z) (lim : Z) (rows : list run) : list run * Z :=
  let expired := map r_id
    (limit (Z.max lim 0) (order_by expiry_order (List.filter (lease_expired now) rows))) in
  update_where (fun r => bool_decide (r_id r ∈ expired)) set_requeued rows.
End postgres.

(** * SQLite *)

Section sqlite.
Context `{Engine}.

(** The claim of one candidate: [UPDATE], then [SELECT] by id and decoding of
    the [i32] column, which fails for a value that does not fit. *)
Definition claim_update_sqlite (now started expires : Z) (worker : string) (id : Uuid)
    (rows : list run) : list run * result (option run) db_error :=
  let p r := (r_id r =? id) && claimable now r in
  let '(rows', n) := update_where p (set_claimed started expires worker) rows in
  if negb (n =? 1) then (rows', Ok None)
  else match List.find (fun r => r_id r =? id) rows' with
       | None => (rows', Err RowNotFound)
       | Some r => if i32_max <? r_attempts r then (rows', Err ColumnDecode)
                   else (rows', Ok (Some r))
       end.

(** [t0] is the process clock at entry; an expiry past the last representable
    instant fails before any statement. *)
Definition claim_next_queued_run_with_limits_sqlite (t0 : Z) (clock : nat -> Z)
    (worker : string) (lease_for global_max tenant_max : Z) (rows : list run)
    : list run * result (option RunLeaseRecord) db_error :=
  let expires := t0 + clamp_lease_ms lease_for * 1000 in
  if ts_max <? expires then (rows, Err OutOfRange) else
  let global_cap := Z.max global_max 1 in
  let tenant_cap := Z.max tenant_max 1 in
  let cands := candidates 64 (clock 0%nat) rows in
  match cands with
  | [] => (rows, Ok None)
  | _ =>
      if global_cap <=? countb (is_status running) rows then (rows, Ok None)
      else claim_loop (fun i => claim_update_sqlite (clock i) t0 expires worker) 1 tenant_cap
             cands rows
  end.

(** [for _ in 0..3]: select the head of the queue, try to claim it. *)
Fixpoint claim_retry_sqlite (tries : nat) (clock : nat -> Z) (i : nat) (started expires : Z)
    (worker : string) (rows : list run)
    : list run * result (option RunLeaseRecord) db_error :=
  match tries with
  | O => (rows, Ok None)
  | S n =>
      match candidates 1 (clock i) rows with
      | [] => (rows, Ok None)
      | c :: _ =>
          match claim_update_sqlite (clock (S i)) started expires worker (r_id c) rows with
          | (rows', Ok (Some r)) => (rows', Ok (Some (lease_record r)))
          | (rows', Ok None) =>
              claim_retry_sqlite n clock (S (S i)) started expires worker rows'
          | (rows', Err e) => (rows', Err e)
          end
      end
  end.

Definition claim_next_queued_run_sqlite (t0 : Z) (clock : nat -> Z) (worker : string)
    (lease_for : Z) (rows : list run)
    : list run * result (option RunLeaseRecord) db_error :=
  let expires := t0 + clamp_lease_ms lease_for * 1000 in
  if ts_max <? expires then (rows, Err OutOfRange)
  else claim_retry_sqlite 3 clock 0 t0 expires worker rows.

Definition renew_run_lease_sqlite (t0 now : Z) (id : Uuid) (worker : string) (lease_for : Z)
    (rows : list run) : list run * result bool db_error :=
  let expires := t0 + clamp_lease_ms lease_for * 1000 in
  if ts_max <? expires then (rows, Err OutOfRange)
  else let '(rows', n) := update_where (renewable now id worker) (set_expiry expires) rows in
       (rows', Ok (n =? 1)).

(** [status = 'running' AND (lease_owner = w OR lease_owner IS NULL)] *)
Definition owned_or_free_running (id : Uuid) (worker : string) (r : run) : bool :=
  (r_id r =? id) && is_status running r &&
  (owned_by worker r || bool_decide (r_lease_owner r = None)).

Definition mark_run_succeeded_sqlite (t0 : Z) (id : Uuid) (worker : string) (rows : list run)
    : list run * bool :=
  let '(rows', n) :=
    update_where (owned_or_free_running id worker)
      (fun r => set_finished succeeded t0 (r_error_json r) r) rows in
  (rows', n =? 1).

Definition mark_run_failed_sqlite (t0 : Z) (id : Uuid) (worker : string) (error_json : json)
    (rows : list run) : list run * bool :=
  let '(rows', n) :=
    update_where (owned_or_free_running id worker)
      (set_finished failed t0 (Some error_json)) rows in
  (rows', n =? 1).

Definition requeue_expired_runs_sqlite (now : Z) (lim : Z) (rows : list run) : list run * Z :=
  let expired := map r_id
    (limit (Z.max lim 0) (order_by expiry_order (List.filter (lease_expired now) rows))) in
  update_where (fun r => bool_decide (r_id r ∈ expired)) set_requeued rows.
End sqlite.
