(* ===== verification/RunQueue.v ===== *)
(** The run queue as a state machine.  An abstract lease protocol (events on one
    row, with their guards) is the specification; every database function of
    Runs, on both backends, refines it; invariants of all histories follow by
    induction on the abstract steps.  The [RunStore] class is the interface the
    worker is verified against, with one instance per backend. *)
From S2P Require Import Prelude RustStr Json Sql Runs.

(** * The abstract lease protocol *)

Inductive lease_event :=
| EvClaim (worker : string) (now expires : Z)
| EvRenew (worker : string) (now expires : Z)
| EvFinish (worker : string) (st : run_status)
| EvRequeue (now : Z).

Section protocol.
Context `{Engine}.

Inductive lease_step : lease_event -> run -> run -> Prop :=
| step_claim w now e started r :
    claimable now r = true ->
    lease_step (EvClaim w now e) r (set_claimed started e w r)
| step_renew w now e x r :
    r_status r = running -> r_lease_owner r = Some w ->
    r_lease_expires_at r = Some x -> ts_lt now x = true ->
    lease_step (EvRenew w now e) r (set_expiry e r)
| step_finish w st t err r :
    r_status r = running -> r_lease_owner r = Some w ->
    st = succeeded \/ st = failed ->
    lease_step (EvFinish w st) r (set_finished st t err r)
| step_requeue now x r :
    r_status r = running -> r_lease_expires_at r = Some x -> ts_lt x now = true ->
    lease_step (EvRequeue now) r (set_requeued r).

(** A row keeps its value or takes one step of the protocol. *)
Definition row_step (r r' : run) : Prop := r' = r \/ exists ev, lease_step ev r r'.

(** One database operation: a step of each row. *)
Definition rows_step (rows rows' : list run) : Prop := Forall2 row_step rows rows'.

Definition history : list run -> list run -> Prop := rtc rows_step.
End protocol.

(** * Invariants of the protocol *)

(** A running row has an owner and an expiry; no other row has either. *)
Definition run_wf (r : run) : Prop :=
  0 <= r_attempts r /\
  match r_status r with
  | running => is_Some (r_lease_owner r) /\ is_Some (r_lease_expires_at r)
  | _ => r_lease_owner r = None /\ r_lease_expires_at r = None
  end.

Definition terminal (r : run) : bool := is_status succeeded r || is_status failed r.

Section invariants.
Context `{Engine}.

Lemma lease_step_wf ev r r' : lease_step ev r r' -> run_wf r -> run_wf r'.
Proof.
  unfold run_wf. intros Hs [Ha Hr]. destruct Hs; simpl in *.
  - split; [lia|]. by split.
  - split; [lia|]. rewrite H0 in *. naive_solver.
  - split; [lia|]. by destruct H2 as [->| ->].
  - done.
Qed.

Lemma lease_step_id ev r r' : lease_step ev r r' -> r_id r' = r_id r.
Proof. by destruct 1. Qed.

Lemma lease_step_attempts ev r r' :
  lease_step ev r r' ->
  r_attempts r' = r_attempts r + match ev with EvClaim _ _ _ => 1 | _ => 0 end.
Proof. destruct 1; simpl; lia. Qed.

Lemma lease_step_terminal ev r r' : lease_step ev r r' -> terminal r = false.
Proof.
  destruct 1; unfold terminal, claimable, is_status in *; bool_hyps; simplify_eq;
    repeat case_bool_decide; simpl in *; congruence.
Qed.

Lemma row_step_refl r : row_step r r.
Proof. by left. Qed.

Lemma rows_step_refl rows : rows_step rows rows.
Proof. apply Forall2_same_length_lookup_2; [done|]. intros. simplify_eq. apply row_step_refl. Qed.

Lemma rows_step_ids rows rows' : rows_step rows rows' -> map r_id rows' = map r_id rows.
Proof.
  induction 1 as [|r r' l l' Hr _ IH]; simpl; [done|]. rewrite IH. f_equal.
  destruct Hr as [->|[ev Hev]]; [done|]. by eapply lease_step_id.
Qed.

Lemma rows_step_wf rows rows' : rows_step rows rows' -> Forall run_wf rows -> Forall run_wf rows'.
Proof.
  induction 1 as [|r r' l l' Hr _ IH]; intros Hwf; [constructor|].
  inv Hwf. constructor; [|auto]. destruct Hr as [->|[ev Hev]]; [done|]. by eapply lease_step_wf.
Qed.

Lemma history_wf rows rows' : history rows rows' -> Forall run_wf rows -> Forall run_wf rows'.
Proof. induction 1; eauto using rows_step_wf. Qed.

Lemma history_ids rows rows' : history rows rows' -> map r_id rows' = map r_id rows.
Proof.
  induction 1 as [|x y z Hxy _ IH]; [done|]. by rewrite IH, (rows_step_ids x y).
Qed.

(** Follow one row, by position, through a history. *)
Lemma history_lookup rows rows' i r :
  history rows rows' -> rows !! i = Some r ->
  exists r', rows' !! i = Some r' /\ rtc row_step r r'.
Proof.
  intros Hh. revert r. induction Hh as [rows|x y z Hxy _ IH]; intros r Hr; [by exists r|].
  destruct (Forall2_lookup_l _ _ _ _ _ Hxy Hr) as (r1 & Hr1 & Hs).
  destruct (IH r1 Hr1) as (r' & Hr' & Hrtc). exists r'. split; [done|].
  by eapply rtc_l.
Qed.

Lemma row_history_terminal r r' : rtc row_step r r' -> terminal r = true -> r' = r.
Proof.
  induction 1 as [|x y z Hxy _ IH]; [done|]. intros Ht.
  destruct Hxy as [->|[ev Hev]]; [auto|]. apply lease_step_terminal in Hev. congruence.
Qed.

Lemma row_history_attempts r r' : rtc row_step r r' -> r_attempts r <= r_attempts r'.
Proof.
  induction 1 as [|x y z Hxy _ IH]; [lia|].
  destruct Hxy as [->|[ev Hev]]; [done|].
  apply lease_step_attempts in Hev. destruct ev; lia.
Qed.
End invariants.

(** * Refinement: updates are protocol steps *)

Section refinement.
Context `{Engine}.

Lemma update_rows_step p f rows :
  (forall r, r ∈ rows -> p r = true -> exists ev, lease_step ev r (f r)) ->
  rows_step rows (update_where p f rows).1.
Proof.
  simpl. induction rows as [|r rows IH]; intros Hp; simpl; constructor.
  - destruct (p r) eqn:E; [|by left]. right. apply Hp; [left|done].
  - apply IH. intros r' Hr'. apply Hp. by right.
Qed.

(** The claim [UPDATE] as a function on rows. *)
Definition claimed_rows (now started e : Z) (w : string) (id : Uuid) (rows : list run)
    : list run :=
  map (fun x => if (r_id x =? id) && claimable now x then set_claimed started e w x else x) rows.

(** What a claim [UPDATE] promises to the loop. *)
Definition claim_upd_ok (w : string)
    (upd : nat -> Uuid -> list run -> list run * result (option run) db_error) : Prop :=
  forall i id rows rows' res, upd i id rows = (rows', res) ->
    rows_step rows rows' /\
         (ids_distinct r_id rows ->
     match res with
     | Ok (Some r') =>
         exists r now started e, r ∈ rows /\ r_id r = id /\ claimable now r = true /\
           r' = set_claimed started e w r /\ rows' = claimed_rows now started e w id rows
     | Ok None => rows' = rows
     | Err _ => rows' = rows \/ exists now started e, rows' = claimed_rows now started e w id rows
     end).

Lemma claim_rows_step now started e w id rows :
  rows_step rows (claimed_rows now started e w id rows).
Proof.
  apply (update_rows_step (fun x => (r_id x =? id) && claimable now x)).
  intros r _ Hp. bool_hyps. exists (EvClaim w now e). by constructor.
Qed.

Lemma claim_update_sqlite_ok clock started e w :
  claim_upd_ok w (fun i => claim_update_sqlite (clock i) started e w).
Proof.
  intros i id rows rows' res E. unfold claim_update_sqlite, update_where in E.
  fold (claimed_rows (clock i) started e w id rows) in E.
  pose proof (claim_rows_step (clock i) started e w id rows) as Hstep.
  set (p := fun x => (r_id x =? id) && claimable (clock i) x) in E.
  destruct (countb p rows =? 1) eqn:N; simpl in E.
  - destruct (List.find _ _) as [r'|] eqn:F; [|simplify_eq; split; [done|eauto]].
    destruct (i32_max <? r_attempts r'); simplify_eq; (split; [done|]); [eauto|]. intros Hd.
    apply find_some in F as [Hin Hid]. bool_hyps.
    assert (exists r, r ∈ rows /\ p r = true) as (r & Hr & Hpr).
    { destruct (List.filter p rows) as [|r l] eqn:El.
      - unfold countb in N. by rewrite El in N.
      - exists r. apply elem_of_filterb. rewrite El. left. }
    apply list_elem_of_In, list_elem_of_fmap in Hin as (r0 & -> & Hr0).
    assert (r_id r = id) as Hrid by (unfold p in Hpr; by bool_hyps).
    assert (r0 = r) as ->.
    { apply (ids_distinct_inj r_id rows); [done..|].
      rewrite Hrid, <- Hid. by case_match. }
    unfold p in Hpr. rewrite Hpr in *. bool_hyps.
    by exists r, (clock i), started, e.
  - simplify_eq. split; [done|]. intros Hd.
    assert (countb p rows <= 1) as Hle.
    { apply (ids_distinct_count r_id); [done|]. unfold p. intros. bool_hyps. congruence. }
    bool_hyps. pose proof (countb_nonneg p rows).
    assert (forall r, r ∈ rows -> p r = false) as Hnone.
    { apply filterb_nil. unfold countb in *. destruct (List.filter p rows); [done|]. simpl in *. lia. }
    pose proof (update_where_none p (set_claimed started e w) rows Hnone) as Hu.
    unfold update_where in Hu. by injection Hu.
Qed.

(** The loop inherits the promise; it only claims tenants under their cap. *)
Lemma claim_loop_ok w upd i cap cands rows rows' res :
  claim_upd_ok w upd -> claim_loop upd i cap cands rows = (rows', res) ->
  rtc rows_step rows rows' /\
         (ids_distinct r_id rows ->
   match res with
   | Ok (Some rec) =>
       exists c r now started e, c ∈ cands /\ r ∈ rows /\ r_id r = r_id c /\
         claimable now r = true /\ rec = lease_record (set_claimed started e w r) /\
         rows' = claimed_rows now started e w (r_id c) rows /\
         countb (running_of (r_tenant_id c)) rows < cap
   | Ok None => rows' = rows
   | Err _ => rows' = rows \/ exists now started e id, rows' = claimed_rows now started e w id rows
   end).
Proof.
  intros Hupd. revert i rows. induction cands as [|c cands IH]; intros i rows E; simpl in E.
  { simplify_eq. split; [apply rtc_refl|done]. }
  destruct (cap <=? countb (running_of (r_tenant_id c)) rows) eqn:Hcap.
  { destruct (IH _ _ E) as [Hh Hr]. split; [done|]. intros Hd. specialize (Hr Hd).
    destruct res as [[rec|]|]; [|done..].
    destruct Hr as (c' & r & now & s & e & Hc' & Hrest).
    exists c', r, now, s, e. split; [by right|done]. }
  destruct (upd i (r_id c) rows) as [rows1 res1] eqn:U.
  destruct (Hupd _ _ _ _ _ U) as [Hs Hres]. bool_hyps.
  destruct res1 as [[r1|]|]; simplify_eq.
  - split; [by apply rtc_once|]. intros Hd.
    destruct (Hres Hd) as (r & now & s & e & Hr & Hid & Hcl & -> & ->).
    exists c, r, now, s, e. split_and!; try done. left.
  - destruct (IH _ _ E) as [Hh Hr]. split; [by eapply rtc_l|]. intros Hd.
    pose proof (Hres Hd) as ->. specialize (Hr Hd). destruct res as [[rec|]|]; [|done..].
    destruct Hr as (c' & r & now & s & e & Hc' & Hrest).
    exists c', r, now, s, e. split; [by right|done].
  - split; [by apply rtc_once|]. intros Hd.
    destruct (Hres Hd) as [->|(now & s & e' & ->)]; [by left|right; eauto].
Qed.
End refinement.

Section refinement_pg.
Context (text : json -> string) (pg_ts_max : Z).
#[local] Instance pgE : Engine := PgEngine text pg_ts_max.

Lemma claim_update_ok clock lease_ms w :
  claim_upd_ok w (fun i => claim_update text pg_ts_max (clock i) w lease_ms).
Proof.
  intros i id rows rows' res E. unfold claim_update in E.
  destruct (List.find _ rows) as [r|] eqn:F.
  - apply find_some in F as [Hr Hp]. bool_hyps. apply list_elem_of_In in Hr.
    destruct ((i32_max <? r_attempts r + 1) || _); simplify_eq.
    { split; [apply rows_step_refl|by left]. }
    split; [apply (claim_rows_step (clock i))|]. intros _. by eexists r, (clock i), _, _.
  - simplify_eq. split; [apply rows_step_refl|done].
Qed.
End refinement_pg.

(** * The store interface *)

(** The operations of the run table that the worker calls.  Each takes the clock
    of its statements. *)
Class RunStore := {
  rs_engine :: Engine;
  rs_claim : (nat -> Z) -> string -> Z -> Z -> Z -> list run ->
             list run * result (option RunLeaseRecord) db_error;
  rs_renew : (nat -> Z) -> Uuid -> string -> Z -> list run -> list run * result bool db_error;
  rs_succeed : (nat -> Z) -> Uuid -> string -> list run -> list run * bool;
  rs_fail : (nat -> Z) -> Uuid -> string -> json -> list run -> list run * bool;
  rs_requeue : (nat -> Z) -> Z -> list run -> list run * Z;
}.

(** What the store promises: every operation is a history of protocol steps, and
    its result says which. *)
Class RunStoreLaws (S : RunStore) : Prop := {
  claim_law clock w lease g t rows rows' res :
    rs_claim clock w lease g t rows = (rows', res) ->
    history rows rows' /\
    (ids_distinct r_id rows ->
     match res with
     | Ok (Some rec) =>
         exists r now started e, r ∈ rows /\ claimable now r = true /\
           rec = lease_record (set_claimed started e w r) /\
           rows' = claimed_rows now started e w (r_id r) rows /\
           countb (is_status running) rows < Z.max g 1 /\
           countb (running_of (r_tenant_id r)) rows < Z.max t 1
     | Ok None => rows' = rows
     | Err _ => rows' = rows \/ exists now started e id, rows' = claimed_rows now started e w id rows
     end);
  renew_law clock id w lease rows rows' res :
    rs_renew clock id w lease rows = (rows', res) -> rows_step rows rows';
  succeed_law clock id w rows rows' b :
    Forall run_wf rows -> ids_distinct r_id rows ->
    rs_succeed clock id w rows = (rows', b) ->
    exists t, rows' = map (fun r => if owned_running id w r
                                    then set_finished succeeded t (r_error_json r) r else r) rows /\
      (b = true <-> exists r, r ∈ rows /\ owned_running id w r = true);
  fail_law clock id w err rows rows' b :
    Forall run_wf rows -> ids_distinct r_id rows ->
    rs_fail clock id w err rows = (rows', b) ->
    exists t, rows' = map (fun r => if owned_running id w r
                                    then set_finished failed t (Some err) r else r) rows /\
      (b = true <-> exists r, r ∈ rows /\ owned_running id w r = true);
  requeue_law clock lim rows rows' n :
    rs_requeue clock lim rows = (rows', n) -> ids_distinct r_id rows ->
    rows_step rows rows' /\ n <= Z.max lim 0 /\
    forall r, r ∈ rows -> ~ r ∈ rows' -> lease_expired (clock 0%nat) r = true;
}.

Section shared_laws.
Context `{Engine}.

Lemma renew_rows_step now id w e rows :
  rows_step rows (update_where (renewable now id w) (set_expiry e) rows).1.
Proof.
  apply update_rows_step. intros r _ Hp. unfold renewable, is_status, owned_by in Hp. bool_hyps.
  destruct (r_lease_expires_at r) as [x|] eqn:Ex; [|done].
  exists (EvRenew w now e). by eapply step_renew.
Qed.

Lemma owned_or_free_wf id w r :
  run_wf r -> owned_or_free_running id w r = owned_running id w r.
Proof.
  intros [_ Hwf]. unfold owned_or_free_running, owned_running, is_status.
  destruct (r_id r =? id); simpl; [|done].
  case_bool_decide as Hs; simpl; [|done]. rewrite Hs in Hwf. destruct Hwf as [[o Ho] _].
  rewrite (bool_decide_eq_false_2 (r_lease_owner r = None)) by congruence.
  by rewrite orb_false_r.
Qed.

Lemma finish_count id w rows :
  ids_distinct r_id rows ->
  (countb (owned_running id w) rows =? 1) = true <->
  exists r, r ∈ rows /\ owned_running id w r = true.
Proof.
  intros Hd. assert (countb (owned_running id w) rows <= 1) as Hle.
  { apply (ids_distinct_count r_id); [done|]. unfold owned_running. intros. bool_hyps. congruence. }
  rewrite Z.eqb_eq. unfold countb in *. split.
  - intros E. destruct (List.filter _ rows) as [|r l] eqn:El; [done|].
    exists r. apply elem_of_filterb. rewrite El. left.
  - intros (r & Hr & Hp).
    assert (r ∈ List.filter (owned_running id w) rows) as Hin by (by apply elem_of_filterb).
    destruct (List.filter _ rows); [inv Hin|]. simpl in *. lia.
Qed.

Lemma map_owned_wf id w f rows :
  Forall run_wf rows ->
  map (fun r => if owned_or_free_running id w r then f r else r) rows =
  map (fun r => if owned_running id w r then f r else r) rows.
Proof.
  intros Hwf. apply map_ext_Forall. eapply Forall_impl; [exact Hwf|].
  intros r Hr. by rewrite owned_or_free_wf.
Qed.

Lemma countb_owned_wf id w rows :
  Forall run_wf rows -> countb (owned_or_free_running id w) rows = countb (owned_running id w) rows.
Proof.
  intros Hwf. unfold countb. f_equal. apply length_filterb_ext.
  rewrite Forall_forall in Hwf. intros r Hr. by apply owned_or_free_wf, Hwf.
Qed.

(** The identifiers the requeue statement selects. *)
Definition expired_ids (now lim : Z) (rows : list run) : list Uuid :=
  map r_id (limit (Z.max lim 0) (order_by expiry_order (List.filter (lease_expired now) rows))).

Lemma expired_ids_expired now lim rows id :
  id ∈ expired_ids now lim rows ->
  exists r, r ∈ rows /\ r_id r = id /\ lease_expired now r = true.
Proof.
  intros Hin. apply list_elem_of_fmap in Hin as (r & -> & Hr%elem_of_limit).
  apply elem_of_order_by, elem_of_filterb in Hr as [??]. by exists r.
Qed.

Lemma requeue_rows_step now lim rows :
  ids_distinct r_id rows ->
  rows_step rows (update_where (fun r => bool_decide (r_id r ∈ expired_ids now lim rows))
                    set_requeued rows).1.
Proof.
  intros Hd. apply update_rows_step. intros r Hr Hp. bool_hyps.
  apply expired_ids_expired in Hp as (r' & Hr' & Hid & He).
  assert (r' = r) as -> by (by apply (ids_distinct_inj r_id rows)).
  unfold lease_expired, is_status in He. bool_hyps.
  destruct (r_lease_expires_at r) as [x|] eqn:Ex; [|done].
  exists (EvRequeue now). by eapply step_requeue.
Qed.

(** Rows with distinct ids whose id is in a list are at most as many as it. *)
Lemma countb_ids_le rows (l : list Uuid) :
  ids_distinct r_id rows ->
  countb (fun r => bool_decide (r_id r ∈ l)) rows <= Z.of_nat (length l).
Proof.
  intros Hd. unfold countb. apply inj_le.
  assert (NoDup (map r_id (List.filter (fun r => bool_decide (r_id r ∈ l)) rows))) as Hnd.
  { unfold ids_distinct in Hd. clear -Hd. induction rows as [|r rows IH]; simpl; [constructor|].
    simpl in Hd. apply NoDup_cons in Hd as [Hn Hd]. specialize (IH Hd).
    case_bool_decide; simpl; [|done]. constructor; [|done]. intros Hin. apply Hn.
    apply list_elem_of_fmap in Hin as (r' & E & Hr'). apply elem_of_filterb in Hr' as [Hr' _].
    apply list_elem_of_fmap. eauto. }
  rewrite <- (length_map r_id).
  apply submseteq_length, NoDup_submseteq; [done|].
  intros id Hid. apply list_elem_of_fmap in Hid as (r & -> & Hr).
  apply elem_of_filterb in Hr as [_ Hr]. by bool_hyps.
Qed.

Lemma requeue_spec now lim rows rows' n :
  update_where (fun r => bool_decide (r_id r ∈ expired_ids now lim rows)) set_requeued rows
    = (rows', n) ->
  ids_distinct r_id rows ->
  rows_step rows rows' /\ n <= Z.max lim 0 /\
  forall r, r ∈ rows -> ~ r ∈ rows' -> lease_expired now r = true.
Proof.
  intros E Hd. pose proof (requeue_rows_step now lim rows Hd) as Hs. rewrite E in Hs.
  split; [done|]. unfold update_where in E. simplify_eq. split.
  - etrans; [by apply countb_ids_le|]. unfold expired_ids. rewrite length_map.
    etrans; [apply limit_length|]. lia.
  - intros r Hr Hn. destruct (decide (r_id r ∈ expired_ids now lim rows)) as [Hin|Hnin].
    + apply expired_ids_expired in Hin as (r' & Hr' & Hid & He).
      by rewrite <- (ids_distinct_inj r_id rows r' r).
    + exfalso. apply Hn. apply list_elem_of_fmap. exists r. by rewrite bool_decide_eq_false_2.
Qed.

Lemma elem_of_candidates n now rows c :
  c ∈ candidates n now rows -> c ∈ rows /\ claimable now c = true.
Proof. intros Hc%elem_of_limit. by apply elem_of_order_by, elem_of_filterb in Hc. Qed.

(** The claim functions of both backends share this shape. *)
Lemma claim_shape_ok w upd now g t rows rows' res :
  claim_upd_ok w upd ->
  match candidates 64 now rows with
  | [] => (rows, Ok None)
  | _ => if Z.max g 1 <=? countb (is_status running) rows then (rows, Ok None)
         else claim_loop upd 1 (Z.max t 1) (candidates 64 now rows) rows
  end = (rows', res) ->
  history rows rows' /\
  (ids_distinct r_id rows ->
   match res with
   | Ok (Some rec) =>
       exists r now started e, r ∈ rows /\ claimable now r = true /\
         rec = lease_record (set_claimed started e w r) /\
         rows' = claimed_rows now started e w (r_id r) rows /\
         countb (is_status running) rows < Z.max g 1 /\
         countb (running_of (r_tenant_id r)) rows < Z.max t 1
   | Ok None => rows' = rows
   | Err _ => rows' = rows \/ exists now started e id, rows' = claimed_rows now started e w id rows
   end).
Proof.
  intros Hupd E. destruct (candidates 64 now rows) as [|c0 cs] eqn:Ec.
  { simplify_eq. split; [apply rtc_refl|done]. }
  rewrite <- Ec in E.
  destruct (Z.max g 1 <=? countb (is_status running) rows) eqn:G; bool_hyps.
  { simplify_eq. split; [apply rtc_refl|done]. }
  destruct (claim_loop_ok w upd 1 _ _ _ _ _ Hupd E) as [Hh Hres]. split; [done|].
  intros Hd. specialize (Hres Hd). destruct res as [[rec|]|]; [|done..].
  destruct Hres as (c & r & now' & s & e & Hc & Hr & Hid & Hcl & -> & -> & Hcap).
  apply elem_of_candidates in Hc as [Hc _].
  rewrite (ids_distinct_inj r_id rows r c) in * by done.
  exists c, now', s, e. split_and!; done.
Qed.
End shared_laws.

(** * The two backends implement the interface *)

(** [DbPool::Postgres]: one clock reading per statement. *)
Definition PgStore (text : json -> string) (tmax : Z) : RunStore := {|
  rs_engine := PgEngine text tmax;
  rs_claim := claim_next_queued_run_with_limits text tmax;
  rs_renew clock := renew_run_lease text tmax (clock 0%nat);
  rs_succeed clock := mark_run_succeeded (clock 0%nat);
  rs_fail clock := mark_run_failed (clock 0%nat);
  rs_requeue clock := requeue_expired_runs text tmax (clock 0%nat);
|}.

(** [DbPool::Sqlite]: the process clock is read first, then one reading per statement. *)
Definition SqliteStore (E : Engine) : RunStore := {|
  rs_engine := E;
  rs_claim clock := claim_next_queued_run_with_limits_sqlite (clock 0%nat) (fun n => clock (S n));
  rs_renew clock := renew_run_lease_sqlite (clock 0%nat) (clock 1%nat);
  rs_succeed clock := mark_run_succeeded_sqlite (clock 0%nat);
  rs_fail clock := mark_run_failed_sqlite (clock 0%nat);
  rs_requeue clock := requeue_expired_runs_sqlite (clock 0%nat);
|}.

(** The [_dual] functions dispatch on the pool. *)
Inductive DbPool :=
| Postgres (text : json -> string) (tmax : Z)
| Sqlite (E : Engine).

Definition dual (pool : DbPool) : RunStore :=
  match pool with Postgres text tmax => PgStore text tmax | Sqlite E => SqliteStore E end.

#[export] Instance PgStore_laws text tmax : RunStoreLaws (PgStore text tmax).
Proof.
  constructor.
  - intros clock w lease g t rows rows' res E.
    eapply (@claim_shape_ok (PgEngine text tmax) w
              (fun i => claim_update text tmax (clock i) w (clamp_lease_ms lease))
              (clock 0%nat)); [by apply claim_update_ok|exact E].
  - intros clock id w lease rows rows' res E. simpl in E. unfold renew_run_lease in E.
    destruct (_ && _); [simplify_eq; apply rows_step_refl|].
    rewrite (surjective_pairing (update_where _ _ _)) in E. simplify_eq.
    apply (@renew_rows_step (PgEngine text tmax)).
  - intros clock id w rows rows' b _ Hd E. simpl in E. unfold mark_run_succeeded, update_where in E.
    simplify_eq/=.
    eexists. split; [done|]. by apply finish_count.
  - intros clock id w err rows rows' b _ Hd E. simpl in E. unfold mark_run_failed, update_where in E.
    simplify_eq/=.
    eexists. split; [done|]. by apply finish_count.
  - intros clock lim rows rows' n E. exact (@requeue_spec (PgEngine text tmax) _ lim _ _ _ E).
Qed.

#[export] Instance SqliteStore_laws E : RunStoreLaws (SqliteStore E).
Proof.
  constructor.
  - intros clock w lease g t rows rows' res Eq. simpl in Eq.
    unfold claim_next_queued_run_with_limits_sqlite in Eq.
    destruct (ts_max <? _); [simplify_eq; split; [apply rtc_refl|by left]|].
    eapply claim_shape_ok; [|exact Eq]. apply claim_update_sqlite_ok.
  - intros clock id w lease rows rows' res Eq. simpl in Eq. unfold renew_run_lease_sqlite in Eq.
    destruct (ts_max <? _); [simplify_eq; apply rows_step_refl|].
    rewrite (surjective_pairing (update_where _ _ _)) in Eq. simplify_eq. apply renew_rows_step.
  - intros clock id w rows rows' b Hwf Hd Eq. simpl in Eq. unfold mark_run_succeeded_sqlite, update_where in Eq.
    simplify_eq/=. rewrite map_owned_wf, countb_owned_wf by done.
    eexists. split; [done|]. by apply finish_count.
  - intros clock id w err rows rows' b Hwf Hd Eq. simpl in Eq. unfold mark_run_failed_sqlite, update_where in Eq.
    simplify_eq/=. rewrite map_owned_wf, countb_owned_wf by done.
    eexists. split; [done|]. by apply finish_count.
  - intros clock lim rows rows' n Eq. exact (requeue_spec _ lim _ _ _ Eq).
Qed.

#[export] Instance dual_laws pool : RunStoreLaws (dual pool).
Proof. destruct pool; apply _. Qed.

(** * Histories of store operations *)

Section store.
Context (S : RunStore) `{!RunStoreLaws S}.

(** One call of any operation, by any worker, at any time; its result is
    dropped. *)
Inductive store_call : list run -> list run -> Prop :=
| call_claim clock w lease g t rows :
    store_call rows (rs_claim clock w lease g t rows).1
| call_renew clock id w lease rows : store_call rows (rs_renew clock id w lease rows).1
| call_succeed clock id w rows : store_call rows (rs_succeed clock id w rows).1
| call_fail clock id w err rows : store_call rows (rs_fail clock id w err rows).1
| call_requeue clock lim rows : store_call rows (rs_requeue clock lim rows).1.

Definition store_inv (rows : list run) : Prop := ids_distinct r_id rows /\ Forall run_wf rows.

Lemma finish_rows_step id w f rows st :
  st = succeeded \/ st = failed ->
  (forall r, exists t err, f r = set_finished st t err r) ->
  rows_step rows (map (fun r => if owned_running id w r then f r else r) rows).
Proof.
  intros Hst Hf. apply (update_rows_step (owned_running id w) f).
  intros r _ Hp. unfold owned_running, is_status, owned_by in Hp. bool_hyps.
  destruct (Hf r) as (t & err & ->). exists (EvFinish w st). by constructor.
Qed.

(** Refinement: from a state satisfying the invariant, every call is a history
    of protocol steps. *)
Lemma store_call_refines rows rows' :
  store_call rows rows' -> store_inv rows -> history rows rows'.
Proof.
  intros Hc [Hd Hwf]. destruct Hc.
  - destruct (rs_claim clock w lease g t rows) as [rows' res] eqn:E.
    by apply claim_law in E as [??].
  - destruct (rs_renew clock id w lease rows) as [rows' res] eqn:E.
    apply renew_law in E. by apply rtc_once.
  - destruct (rs_succeed clock id w rows) as [rows' b] eqn:E.
    apply succeed_law in E as (t & -> & _); [|done..]. apply rtc_once.
    eapply finish_rows_step; [by left|]. intros r. by exists t, (r_error_json r).
  - destruct (rs_fail clock id w err rows) as [rows' b] eqn:E.
    apply fail_law in E as (t & -> & _); [|done..]. apply rtc_once.
    eapply finish_rows_step; [by right|]. intros r. by exists t, (Some err).
  - destruct (rs_requeue clock lim rows) as [rows' n] eqn:E.
    apply requeue_law in E as (? & _); [|done]. by apply rtc_once.
Qed.

Lemma history_inv rows rows' : history rows rows' -> store_inv rows -> store_inv rows'.
Proof.
  intros Hh [Hd Hwf]. split; [|by eapply history_wf].
  unfold ids_distinct. by rewrite (history_ids rows rows').
Qed.

Lemma store_calls_refine rows rows' :
  rtc store_call rows rows' -> store_inv rows -> history rows rows'.
Proof.
  induction 1 as [|x y z Hxy _ IH]; intros Hi; [apply rtc_refl|].
  pose proof (store_call_refines x y Hxy Hi) as Hh.
  etrans; [exact Hh|]. apply IH. by eapply history_inv.
Qed.

Lemma store_calls_inv rows rows' :
  rtc store_call rows rows' -> store_inv rows -> store_inv rows'.
Proof. intros Hc Hi. by eapply history_inv; [apply store_calls_refine|]. Qed.
End store.
