(* ===== verification/RunProps.v ===== *)
(** Properties of the run queue: the lease invariant, exclusivity, fencing, caps,
    fairness of the claim order, requeueing, and semantic de-duplication.  They
    are proved against the [RunStore] interface where they hold for both
    backends, and against one backend's functions otherwise. *)
From S2P Require Import Prelude RustStr Json Sql Runs RunQueue.

(** * A concrete table for witnesses *)

Definition demo_run (id : Uuid) (st : run_status) (owner : option string) (exp : option Z) : run :=
  {| r_id := id; r_tenant_id := "t1"; r_agent_id := 7; r_triggered_by_user_id := None;
     r_recipe_id := "notify_v1"; r_status := st; r_input_json := JObj [];
     r_requested_capabilities := JArr []; r_granted_capabilities := JArr [];
     r_created_at := id; r_started_at := None; r_finished_at := None; r_error_json := None;
     r_attempts := 0; r_lease_owner := owner; r_lease_expires_at := exp;
     r_semantic_dedupe_key := None |}.

Definition demo_text (_ : json) : string := "".
Definition demo_pool : DbPool := Postgres demo_text (2 ^ 62).

Definition demo_rows : list run :=
  [demo_run 1 queued None None; demo_run 2 running (Some "w1") (Some 500);
   demo_run 3 succeeded None None].

Lemma demo_rows_inv : store_inv demo_rows.
Proof.
  split; [|repeat constructor; by try (eexists)].
  apply NoDup_ListNoDup. repeat constructor; simpl; lia.
Qed.

(** * Invariant and refinement *)



(** A run that has succeeded or failed is never modified again by any sequence
    of calls of the run operations, on either backend. *)
Theorem finished_runs_never_change pool rows rows' i r
    (Hinv : store_inv rows) (Hcalls : rtc (store_call (dual pool)) rows rows')
    (Hr : rows !! i = Some r) (Hterm : terminal r = true) :
  rows' !! i = Some r.
Proof.
  pose proof (store_calls_refine (dual pool) rows rows' Hcalls Hinv) as Hh.
  destruct (history_lookup _ _ i r Hh Hr) as (r' & Hr' & Hrow).
  by rewrite (row_history_terminal _ _ Hrow Hterm) in Hr'.
Qed.

Lemma finished_runs_never_change_witness :
  (@rs_fail (dual demo_pool) (fun _ => 501) 3 "w1" JNull demo_rows).1 !! 2%nat =
  Some (demo_run 3 succeeded None None).
Proof.
  exact (finished_runs_never_change demo_pool demo_rows _ 2%nat _ demo_rows_inv
           (rtc_once _ _ (call_fail (dual demo_pool) (fun _ => 501) 3 "w1" JNull demo_rows))
           eq_refl eq_refl).
Defined.

(** * Exclusivity and fencing *)

Section exclusivity.
Context (S : RunStore) `{!RunStoreLaws S}.

Lemma claimed_rows_keep now started e w id rows r :
  r ∈ rows -> r_status r <> queued -> r ∈ claimed_rows now started e w id rows.
Proof.
  intros Hr Hq. apply list_elem_of_fmap. exists r. split; [|done].
  unfold claimable, is_status. rewrite (bool_decide_eq_false_2 (r_status r = queued)) by done.
  by rewrite andb_false_r.
Qed.

Lemma claim_keeps_others clock w lease g t rows r :
  store_inv rows -> r ∈ rows -> r_status r <> queued ->
  r ∈ (rs_claim clock w lease g t rows).1.
Proof.
  intros [Hd _] Hr Hq. destruct (rs_claim clock w lease g t rows) as [rows' res] eqn:E.
  apply claim_law in E as [_ E]. specialize (E Hd). simpl.
  destruct res as [[rec|]|?].
  - destruct E as (r' & now & s & e & _ & _ & _ & -> & _). by apply claimed_rows_keep.
  - by subst.
  - destruct E as [->|(now & s & x & id & ->)]; [done|]. by apply claimed_rows_keep.
Qed.

Lemma finish_keeps_others id w f rows r :
  r ∈ rows -> r_lease_owner r <> Some w ->
  r ∈ map (fun r => if owned_running id w r then f r else r) rows.
Proof.
  intros Hr Ho. apply list_elem_of_fmap. exists r. split; [|done].
  unfold owned_running, owned_by. rewrite (bool_decide_eq_false_2 (r_lease_owner r = Some w)) by done.
  by rewrite andb_false_r.
Qed.

Lemma requeue_keeps_live clock lim rows r e :
  store_inv rows -> r ∈ rows -> r_lease_expires_at r = Some e -> clock 0%nat <= e ->
  r ∈ (rs_requeue clock lim rows).1.
Proof.
  intros [Hd _] Hr He Hle. destruct (rs_requeue clock lim rows) as [rows' n] eqn:E. simpl.
  apply requeue_law in E as (_ & _ & E); [|done].
  destruct (decide (r ∈ rows')) as [|Hn]; [done|]. specialize (E r Hr Hn).
  unfold lease_expired in E. rewrite He in E. bool_hyps. apply ts_lt_true in H0. lia.
Qed.
End exclusivity.

(** A live lease is exclusive.  While a row is running under worker [w] with
    expiry [e], no claim touches it, no other worker can finish it, and no
    requeue at a time up to [e] takes it back; on both backends. *)
Theorem live_lease_is_exclusive pool rows r w e
    (Hinv : store_inv rows) (Hr : r ∈ rows) (Hrun : r_status r = running)
    (Hown : r_lease_owner r = Some w) (Hexp : r_lease_expires_at r = Some e) :
  (forall clock w' lease g t, r ∈ (@rs_claim (dual pool) clock w' lease g t rows).1) /\
  (forall clock id w', w' <> w -> r ∈ (@rs_succeed (dual pool) clock id w' rows).1) /\
  (forall clock id w' err, w' <> w -> r ∈ (@rs_fail (dual pool) clock id w' err rows).1) /\
  (forall clock lim, clock 0%nat <= e -> r ∈ (@rs_requeue (dual pool) clock lim rows).1).
Proof.
  pose proof Hinv as [Hd Hwf]. split_and!.
  - intros. apply (claim_keeps_others (dual pool)); [done..|congruence].
  - intros clock id w' Hne. destruct (rs_succeed clock id w' rows) as [rows' b] eqn:E.
    apply succeed_law in E as (t & -> & _); [|done..]. apply finish_keeps_others; [done|congruence].
  - intros clock id w' err Hne. destruct (rs_fail clock id w' err rows) as [rows' b] eqn:E.
    apply fail_law in E as (t & -> & _); [|done..]. apply finish_keeps_others; [done|congruence].
  - intros. by eapply (requeue_keeps_live (dual pool)).
Qed.

Lemma live_lease_is_exclusive_witness :
  demo_run 2 running (Some "w1") (Some 500) ∈
    (@rs_claim (dual demo_pool) (fun _ => 400) "w2" 1000 5 5 demo_rows).1.
Proof.
  exact (proj1 (live_lease_is_exclusive demo_pool demo_rows
    (demo_run 2 running (Some "w1") (Some 500)) "w1" 500 demo_rows_inv
    ltac:(right; left) eq_refl eq_refl eq_refl) (fun _ => 400) "w2" 1000 5 5).
Defined.

(** The attempt counter is a fencing token: two claims of the same run, with
    any calls in between, return strictly increasing attempt numbers, so no
    (run, attempt) pair is ever handed out twice. *)
Theorem claim_attempts_are_fencing_tokens pool rows0 rows1 rows2 rows3 rec1 rec2
    clock1 w1 lease1 g1 t1 clock2 w2 lease2 g2 t2
    (Hinv : store_inv rows0)
    (Hclaim1 : @rs_claim (dual pool) clock1 w1 lease1 g1 t1 rows0 = (rows1, Ok (Some rec1)))
    (Hcalls : rtc (store_call (dual pool)) rows1 rows2)
    (Hclaim2 : @rs_claim (dual pool) clock2 w2 lease2 g2 t2 rows2 = (rows3, Ok (Some rec2)))
    (Hsame : l_id rec1 = l_id rec2) :
  l_attempts rec1 < l_attempts rec2.
Proof.
  pose proof Hinv as [Hd0 Hwf0].
  apply claim_law in Hclaim1 as [Hh1 Hres1].
  destruct (Hres1 Hd0) as (r1 & now1 & s1 & e1 & Hr1 & Hcl1 & -> & Hrows1 & _).
  pose proof (history_inv (dual pool) _ _ Hh1 Hinv) as Hinv1.
  pose proof (store_calls_refine (dual pool) rows1 rows2 Hcalls Hinv1) as Hh2.
  pose proof (history_inv (dual pool) _ _ Hh2 Hinv1) as [Hd2 _].
  apply claim_law in Hclaim2 as [_ Hres2].
  destruct (Hres2 Hd2) as (r2 & now2 & s2 & e2 & Hr2 & _ & -> & _). simpl in *.
  assert (set_claimed s1 e1 w1 r1 ∈ rows1) as Hin1.
  { rewrite Hrows1. apply list_elem_of_fmap. exists r1. by rewrite Z.eqb_refl, Hcl1. }
  apply list_elem_of_lookup in Hin1 as [i Hi].
  destruct (history_lookup _ _ i _ Hh2 Hi) as (r' & Hr' & Hrow).
  assert (r' = r2) as ->.
  { apply (ids_distinct_inj r_id rows2); [done| |done|].
    - apply list_elem_of_lookup. eauto.
    - rewrite <- Hsame. clear -Hrow.
      assert (r_id r' = r_id (set_claimed s1 e1 w1 r1)) as ->; [|done].
      induction Hrow as [|x y z Hxy _ IH]; [done|]. rewrite IH.
      destruct Hxy as [->|[ev Hev]]; [done|]. by eapply lease_step_id. }
  apply row_history_attempts in Hrow. simpl in Hrow. lia.
Qed.

Definition demo_reclaimed : list run * result (option RunLeaseRecord) db_error :=
  @rs_claim (dual demo_pool) (fun _ => 100) "w1" 1 9 9 demo_rows.

Lemma claim_attempts_are_fencing_tokens_witness :
  exists rec1 rec2, demo_reclaimed.2 = Ok (Some rec1) /\
  (@rs_claim (dual demo_pool) (fun _ => 5000) "w2" 1 9 9
     (@rs_requeue (dual demo_pool) (fun _ => 4000) 5 demo_reclaimed.1).1).2 = Ok (Some rec2) /\
  l_attempts rec1 < l_attempts rec2.
Proof.
  eexists _, _. split; [vm_compute; reflexivity|]. split; [vm_compute; reflexivity|].
  eapply (claim_attempts_are_fencing_tokens demo_pool demo_rows demo_reclaimed.1
    (@rs_requeue (dual demo_pool) (fun _ => 4000) 5 demo_reclaimed.1).1 _ _ _
    (fun _ => 100) "w1" 1 9 9 (fun _ => 5000) "w2" 1 9 9 demo_rows_inv);
    [vm_compute; reflexivity| |vm_compute; reflexivity|vm_compute; reflexivity].
  apply rtc_once. apply (call_requeue (dual demo_pool) (fun _ => 4000)).
Defined.

(** * Concurrency caps *)

Section caps.
Context `{Engine}.

(** A claim turns exactly one row into a running one. *)
Lemma countb_claimed (q : run -> bool) now started e w rows r :
  ids_distinct r_id rows -> r ∈ rows -> claimable now r = true ->
  (forall x, q x = true -> r_status x = running) ->
  countb q (claimed_rows now started e w (r_id r) rows) =
  countb q rows + (if q (set_claimed started e w r) then 1 else 0).
Proof.
  intros Hd Hr Hcl Hq. unfold ids_distinct in Hd.
  induction rows as [|x rows IH]; [by inv Hr|].
  simpl in Hd. apply NoDup_cons in Hd as [Hnx Hd].
  unfold claimed_rows in *. simpl. rewrite !countb_cons.
  apply elem_of_cons in Hr as [->|Hr].
  - rewrite Z.eqb_refl, Hcl. simpl.
    assert (q x = false) as ->.
    { destruct (q x) eqn:E; [|done]. apply Hq in E. unfold claimable, is_status in Hcl.
      rewrite E in Hcl. done. }
    assert (map (fun y => if (r_id y =? r_id x) && claimable now y
                          then set_claimed started e w y else y) rows = rows) as ->; [|lia].
    rewrite <- (map_id rows) at 2. apply map_ext_in. intros y Hy%list_elem_of_In.
    destruct (r_id y =? r_id x) eqn:E; [|done]. bool_hyps. exfalso. apply Hnx.
    apply list_elem_of_fmap. by exists y.
  - rewrite IH by done.
    assert ((r_id x =? r_id r) = false) as ->.
    { apply Z.eqb_neq. intros E. apply Hnx. apply list_elem_of_fmap. by exists r. }
    simpl. lia.
Qed.
End caps.

(** A claim that is not interfered with respects both caps: the claimed run is
    one more running row, and afterwards neither the number of running rows nor
    that of the run's tenant exceeds its cap (at least one); on both backends. *)
Theorem claim_respects_caps pool clock w lease g t rows rows' rec
    (Hinv : store_inv rows)
    (Hclaim : @rs_claim (dual pool) clock w lease g t rows = (rows', Ok (Some rec))) :
  countb (is_status running) rows' = countb (is_status running) rows + 1 /\
  countb (is_status running) rows' <= Z.max g 1 /\
  countb (running_of (l_tenant_id rec)) rows' <= Z.max t 1.
Proof.
  destruct Hinv as [Hd _]. apply claim_law in Hclaim as [_ Hres].
  destruct (Hres Hd) as (r & now & s & e & Hr & Hcl & -> & -> & Hg & Ht).
  rewrite (countb_claimed (is_status running)) by (try done; unfold is_status; intros; by bool_hyps).
  rewrite (countb_claimed (running_of _))
    by (try done; unfold running_of, is_status; intros; by bool_hyps).
  simpl. repeat case_match; lia.
Qed.

Lemma claim_respects_caps_witness :
  exists rec, demo_reclaimed.2 = Ok (Some rec) /\
  countb (is_status running) demo_reclaimed.1 = 2 /\
  countb (is_status running) demo_reclaimed.1 <= Z.max 9 1 /\
  countb (running_of (l_tenant_id rec)) demo_reclaimed.1 <= Z.max 9 1.
Proof.
  eexists. split; [vm_compute; reflexivity|].
  eapply (claim_respects_caps demo_pool (fun _ => 100) "w1" 1 9 9 demo_rows);
    [exact demo_rows_inv|vm_compute; reflexivity].
Defined.

(** * Claim order *)

Section order.
Context `{Engine}.

Lemma queue_rank_nonneg now r : 0 <= queue_rank now r.
Proof. unfold queue_rank, class_rank. repeat case_match; lia. Qed.

Lemma queue_rank_aged now r :
  ts_le (r_created_at r) (now - minutes_15) = true -> queue_rank now r = 0.
Proof. intros E. unfold queue_rank, class_rank. rewrite E. by destruct (String.eqb _ "batch"), (String.eqb _ _). Qed.

Lemma claim_order_total now a b : claim_order now a b = false -> claim_order now b a = true.
Proof.
  unfold claim_order, ts_le. intros E. bool_hyps.
  destruct (Z.lt_trichotomy (queue_rank now a) (queue_rank now b)) as [?|[Eq|?]]; [lia| |].
  - rewrite Eq, Z.eqb_refl, Z.ltb_irrefl in *. simpl in *. bool_hyps. apply Z.leb_le. lia.
  - by rewrite (proj2 (Z.ltb_lt _ _)).
Qed.

Lemma claim_order_trans now a b c :
  claim_order now a b = true -> claim_order now b c = true -> claim_order now a c = true.
Proof.
  unfold claim_order, ts_le. rewrite !orb_true_iff, !andb_true_iff, !Z.ltb_lt, !Z.eqb_eq, !Z.leb_le.
  lia.
Qed.
End order.

(** Batch runs do not starve: a run of any class that has waited at least
    fifteen minutes comes before every run created after it in the claim order. *)
Theorem aged_runs_precede_later_ones `{Engine} now a b
    (Hold : ts_le (r_created_at a) (now - minutes_15) = true)
    (Hlater : r_created_at a <= r_created_at b) :
  claim_order now a b = true.
Proof.
  unfold claim_order. rewrite (queue_rank_aged now a Hold).
  pose proof (queue_rank_nonneg now b). unfold ts_le.
  rewrite orb_true_iff, andb_true_iff, Z.ltb_lt, Z.eqb_eq, Z.leb_le.
  apply ts_key_mono in Hlater. lia.
Qed.

Lemma aged_runs_precede_later_ones_witness :
  @claim_order (PgEngine demo_text 0) (minutes_15 + 2)
    (demo_run 1 queued None None) (demo_run 2 queued None None) = true.
Proof.
  exact (@aged_runs_precede_later_ones (PgEngine demo_text 0) (minutes_15 + 2)
    (demo_run 1 queued None None) (demo_run 2 queued None None)
    ltac:(vm_compute; reflexivity) ltac:(vm_compute; discriminate)).
Defined.

(** A claim on PostgreSQL makes progress and takes the head of the queue: when
    some run is claimable, the caps leave room for its tenant, and the attempt
    counter and the expiry are in range, the call returns the claimable run that
    comes first in the claim order. *)
Theorem claim_takes_queue_head text tmax clock w lease g t rows c cs
    (Hinv : store_inv rows)
    (Hhead : @candidates (PgEngine text tmax) 64 (clock 0%nat) rows = c :: cs)
    (Hglobal : countb (is_status running) rows < Z.max g 1)
    (Htenant : countb (running_of (r_tenant_id c)) rows < Z.max t 1)
    (Hattempts : r_attempts c < i32_max)
    (Hexpires : clock 1%nat + clamp_lease_ms lease * 1000 <= tmax)
    (Hclock : clock 0%nat <= clock 1%nat) :
  (claim_next_queued_run_with_limits text tmax clock w lease g t rows).2 =
    Ok (Some (lease_record (set_claimed (clock 1%nat)
                (clock 1%nat + clamp_lease_ms lease * 1000) w c))) /\
  forall r, r ∈ rows -> @claimable (PgEngine text tmax) (clock 0%nat) r = true ->
    @claim_order (PgEngine text tmax) (clock 0%nat) c r = true.
Proof.
  pose proof Hinv as [Hd Hwf].
  assert (c ∈ rows /\ @claimable (PgEngine text tmax) (clock 0%nat) c = true) as [Hc Hcl].
  { apply (elem_of_candidates 64). rewrite Hhead. left. }
  split.
  - unfold claim_next_queued_run_with_limits, claim_update, pg. rewrite Hhead, (proj2 (Z.leb_gt _ _)) by done.
    cbn [claim_loop]. rewrite (proj2 (Z.leb_gt _ _)) by done.
    destruct (List.find _ rows) as [r|] eqn:F.
    + apply find_some in F as [Hr%list_elem_of_In Hp]. bool_hyps.
      assert (r = c) as -> by (by apply (ids_distinct_inj r_id rows)).
      rewrite (proj2 (Z.ltb_ge _ _)), (proj2 (Z.ltb_ge _ _)) by (simpl; lia). done.
    + pose proof (find_none _ _ F c (proj1 (list_elem_of_In _ _) Hc)) as Hn. simpl in Hn.
      rewrite Z.eqb_refl in Hn. unfold claimable in Hcl, Hn. bool_hyps.
      rewrite H in Hn. destruct (r_lease_expires_at c) as [x|]; [|done].
      by rewrite (ts_lt_trans_le x _ (clock 1%nat) H0 Hclock) in Hn.
  - intros r Hr Hclr. unfold candidates, limit in Hhead.
    set (l := List.filter _ rows) in Hhead.
    assert (r ∈ order_by (@claim_order (PgEngine text tmax) (clock 0%nat)) l) as Hin.
    { by apply elem_of_order_by, elem_of_filterb. }
    pose proof (order_by_sorted _ (@claim_order_total (PgEngine text tmax) (clock 0%nat))
                  (@claim_order_trans (PgEngine text tmax) (clock 0%nat)) l) as Hs.
    destruct (order_by _ l) as [|c0 l']; [inv Hin|]. simpl in Hhead. simplify_eq. inv Hs.
    apply elem_of_cons in Hin as [->|Hin].
    + unfold claim_order, ts_le. by rewrite Z.eqb_refl, Z.leb_refl, orb_true_r.
    + by rewrite Forall_forall in H2; apply H2.
Qed.

Lemma claim_takes_queue_head_witness :
  demo_reclaimed.2 = Ok (Some (lease_record (set_claimed 100 1100 "w1" (demo_run 1 queued None None)))) /\
  forall r, r ∈ demo_rows -> @claimable (PgEngine demo_text (2 ^ 62)) 100 r = true ->
    @claim_order (PgEngine demo_text (2 ^ 62)) 100 (demo_run 1 queued None None) r = true.
Proof.
  exact (claim_takes_queue_head demo_text (2 ^ 62) (fun _ => 100) "w1" 1 9 9 demo_rows
    (demo_run 1 queued None None) [] demo_rows_inv ltac:(vm_compute; reflexivity)
    ltac:(vm_compute; reflexivity) ltac:(vm_compute; reflexivity) ltac:(vm_compute; reflexivity)
    ltac:(vm_compute; discriminate) ltac:(vm_compute; discriminate)).
Defined.

(** * Requeueing *)

Section requeue.
Context `{Engine}.

Lemma expiry_order_total a b : expiry_order a b = false -> expiry_order b a = true.
Proof.
  unfold expiry_order, ts_le. destruct (r_lease_expires_at a), (r_lease_expires_at b); try done.
  intros. bool_hyps. apply Z.leb_le. lia.
Qed.

Lemma expiry_order_trans a b c :
  expiry_order a b = true -> expiry_order b c = true -> expiry_order a c = true.
Proof.
  unfold expiry_order, ts_le.
  destruct (r_lease_expires_at a), (r_lease_expires_at b), (r_lease_expires_at c); try done.
  rewrite !Z.leb_le. lia.
Qed.
End requeue.

(** Requeueing takes back at most [limit] runs, only running ones whose lease
    has expired, oldest expiry first: a run it takes never expired after one that
    it leaves. *)
Theorem requeue_takes_oldest_expired `{Engine} now lim rows rows' n
    (Hd : ids_distinct r_id rows)
    (Hrun : requeue_expired_runs_sqlite now lim rows = (rows', n)) :
  n <= Z.max lim 0 /\
  (forall r, r ∈ rows -> ~ r ∈ rows' -> lease_expired now r = true) /\
  forall a b, a ∈ rows -> b ∈ rows -> ~ a ∈ rows' ->
    lease_expired now b = true -> b ∈ rows' -> expiry_order a b = true.
Proof.
  pose proof (requeue_spec now lim rows rows' n Hrun Hd) as (_ & Hn & Hexp).
  split_and!; [done..|]. intros a b Ha Hb Hna Heb Hb'.
  unfold requeue_expired_runs_sqlite, update_where in Hrun. injection Hrun as <- <-.
  set (l := order_by expiry_order (List.filter (lease_expired now) rows)) in *.
  apply (order_by_take_least expiry_order expiry_order_total expiry_order_trans
           (Z.to_nat (Z.max lim 0)) (List.filter (lease_expired now) rows)).
  - destruct (decide (r_id a ∈ map r_id (limit (Z.max lim 0) l))) as [Hin|Hnin].
    + apply list_elem_of_fmap in Hin as (a' & E & Ha').
      assert (a' = a) as ->; [|done].
      apply (ids_distinct_inj r_id rows); [done| |done|done].
      apply elem_of_limit, elem_of_order_by, elem_of_filterb in Ha'. by destruct Ha'.
    + exfalso. apply Hna. apply list_elem_of_fmap. exists a. by rewrite bool_decide_eq_false_2.
  - assert (b ∈ l) as Hbl by (by apply elem_of_order_by, elem_of_filterb).
    rewrite <- (take_drop (Z.to_nat (Z.max lim 0)) l) in Hbl.
    apply elem_of_app in Hbl as [Hbt|]; [|done]. exfalso.
    apply list_elem_of_fmap in Hb' as (x & Hx & Hxr).
    case_bool_decide as Hxin.
    + apply (f_equal r_status) in Hx. simpl in Hx. unfold lease_expired, is_status in Heb.
      bool_hyps. congruence.
    + subst x. apply Hxin. apply list_elem_of_fmap. by exists b.
Qed.

Lemma requeue_takes_oldest_expired_witness :
  1 <= Z.max 10 0 /\
  (forall r, r ∈ demo_rows ->
     ~ r ∈ (@requeue_expired_runs_sqlite (PgEngine demo_text 0) 501 10 demo_rows).1 ->
     @lease_expired (PgEngine demo_text 0) 501 r = true) /\
  forall a b, a ∈ demo_rows -> b ∈ demo_rows ->
    ~ a ∈ (@requeue_expired_runs_sqlite (PgEngine demo_text 0) 501 10 demo_rows).1 ->
    @lease_expired (PgEngine demo_text 0) 501 b = true ->
    b ∈ (@requeue_expired_runs_sqlite (PgEngine demo_text 0) 501 10 demo_rows).1 ->
    @expiry_order (PgEngine demo_text 0) a b = true.
Proof.
  exact (@requeue_takes_oldest_expired (PgEngine demo_text 0) 501 10 demo_rows _ 1
    (proj1 demo_rows_inv) ltac:(vm_compute; reflexivity)).
Defined.
