(* ===== verification/RunDedupe.v ===== *)
(** Run creation with semantic de-duplication, and the claim as interleaved
    statements.

    First part: [create_run_with_semantic_dedupe_key] together with the lease
    operations keeps at most one active run per tenant and key.  Second part:
    the PostgreSQL claim is several autocommitted statements; run alone they are
    the function of Runs, interleaved with another worker's they can exceed the
    caps that the function checks. *)
From S2P Require Import Prelude RustStr Json Sql Runs RunQueue RunProps.

(** * At most one active run per key *)

Definition dedupe_unique (rows : list run) : Prop :=
  forall i j a b, rows !! i = Some a -> rows !! j = Some b -> same_dedupe a b = true -> i = j.

(** Every way the program changes the [runs] table. *)
Inductive db_call (pool : DbPool) : run_db -> run_db -> Prop :=
| db_create now n db db' rec :
    create_run now n db = Ok (db', rec) -> db_call pool db db'
| db_create_dedupe now n key db db' rec :
    create_run_with_semantic_dedupe_key now n key db = Ok (db', rec) -> db_call pool db db'
| db_store db rows' :
    store_call (dual pool) (db_runs db) rows' ->
    db_call pool db {| db_agents := db_agents db; db_users := db_users db; db_runs := rows' |}.

(** New rows are well formed when they are created queued. *)
Definition db_inv (db : run_db) : Prop :=
  ids_distinct r_id (db_runs db) /\ dedupe_unique (db_runs db).

Lemma same_dedupe_sym a b : same_dedupe a b = same_dedupe b a.
Proof.
  unfold same_dedupe. rewrite (String.eqb_sym (r_tenant_id a)).
  destruct (is_active a), (is_active b), (String.eqb _ _); try done;
    destruct (r_semantic_dedupe_key a), (r_semantic_dedupe_key b); simpl; try done.
  apply String.eqb_sym.
Qed.

Section steps.
Context `{Engine}.

(** A step starts from an active row and keeps tenant and key. *)
Lemma lease_step_dedupe ev r r' :
  lease_step ev r r' ->
  is_active r = true /\ r_tenant_id r' = r_tenant_id r /\
  r_semantic_dedupe_key r' = r_semantic_dedupe_key r.
Proof.
  intros Hs. unfold is_active, is_status.
  destruct Hs; simpl; split_and!; try done;
    try (unfold claimable, is_status in *; bool_hyps); repeat case_bool_decide; simpl; congruence.
Qed.

Lemma row_step_dedupe a a' b b' :
  row_step a a' -> row_step b b' -> same_dedupe a' b' = true -> same_dedupe a b = true.
Proof.
  assert (forall a a', row_step a a' ->
    (is_active a' = true -> is_active a = true) /\ r_tenant_id a' = r_tenant_id a /\
    r_semantic_dedupe_key a' = r_semantic_dedupe_key a) as Hrow.
  { intros x x' [->|[ev Hev]]; [done|]. by apply lease_step_dedupe in Hev as (? & ? & ?). }
  intros (Ha & Hat & Hak)%Hrow (Hb & Hbt & Hbk)%Hrow. unfold same_dedupe.
  rewrite Hat, Hbt, Hak, Hbk, !andb_true_iff. naive_solver.
Qed.

Lemma rows_step_dedupe rows rows' :
  rows_step rows rows' -> dedupe_unique rows -> dedupe_unique rows'.
Proof.
  intros Hs Hu i j a' b' Ha' Hb' Hsame.
  destruct (Forall2_lookup_r _ _ _ _ _ Hs Ha') as (a & Ha & Hra).
  destruct (Forall2_lookup_r _ _ _ _ _ Hs Hb') as (b & Hb & Hrb).
  apply (Hu i j a b Ha Hb). by apply (row_step_dedupe a a' b b').
Qed.

Lemma history_dedupe rows rows' :
  history rows rows' -> dedupe_unique rows -> dedupe_unique rows'.
Proof. induction 1; eauto using rows_step_dedupe. Qed.
End steps.

Lemma insert_run_Ok row db db' :
  insert_run row db = Ok db' ->
  db_runs db' = db_runs db ++ [row] /\ forall r, r ∈ db_runs db -> r_id r <> r_id row.
Proof.
  unfold insert_run. destruct (existsb _ _) eqn:E; [done|].
  rewrite existsb_not_elem_of in E. intros H. split.
  - by split_matches.
  - intros r Hr Hid. specialize (E r Hr). bool_hyps. done.
Qed.

Lemma dedupe_unique_snoc rows row :
  dedupe_unique rows -> (forall r, r ∈ rows -> same_dedupe row r = false) ->
  dedupe_unique (rows ++ [row]).
Proof.
  intros Hu Hno i j a b Ha Hb Hs.
  apply lookup_app_Some in Ha as [Ha|[Hia Ha]], Hb as [Hb|[Hjb Hb]].
  - by apply (Hu i j a b).
  - apply list_lookup_singleton_Some in Hb as [Hj <-].
    rewrite same_dedupe_sym, Hno in Hs; [done|]. apply list_elem_of_lookup. eauto.
  - apply list_lookup_singleton_Some in Ha as [Hi <-].
    rewrite Hno in Hs; [done|]. apply list_elem_of_lookup. eauto.
  - apply list_lookup_singleton_Some in Ha as [Hi _], Hb as [Hj _]. lia.
Qed.

Lemma insert_run_inv row db db' :
  insert_run row db = Ok db' -> db_inv db ->
  (forall r, r ∈ db_runs db -> same_dedupe row r = false) -> db_inv db'.
Proof.
  intros Hi [Hd Hu] Hno. apply insert_run_Ok in Hi as [E Hid]. unfold db_inv. rewrite E. split.
  - unfold ids_distinct in *. rewrite map_app. simpl. apply NoDup_app. split; [done|].
    split; [|apply NoDup_singleton]. intros id Hin Hid'.
    apply list_elem_of_singleton in Hid' as ->. apply list_elem_of_fmap in Hin as (r & Er & Hr).
    by apply (Hid r).
  - by apply dedupe_unique_snoc.
Qed.

(** C36: on both backends, whatever runs are created and however they are claimed,
    renewed, finished and requeued, a tenant never has two active (queued or
    running) runs with the same semantic de-duplication key. *)
Theorem active_runs_have_distinct_dedupe_keys pool db db'
    (Hinv : db_inv db) (Hwf : Forall run_wf (db_runs db))
    (Hcall : db_call pool db db') :
  db_inv db'.
Proof.
  destruct Hcall as [now n db db' rec Hc|now n key db db' rec Hc|db rows' Hc].
  - unfold create_run in Hc. destruct (run_status_of _) as [st|]; simpl in Hc; [|done].
    destruct (insert_run _ db) as [db1|] eqn:Hi; [|done]. simplify_eq.
    apply (insert_run_inv _ _ _ Hi Hinv). intros r Hr. unfold same_dedupe.
    simpl. by rewrite andb_false_r.
  - unfold create_run_with_semantic_dedupe_key in Hc.
    destruct (run_status_of _) as [st|]; simpl in Hc; [|done].
    destruct (existsb _ _) eqn:E; [by simplify_eq|].
    destruct (insert_run _ db) as [db1|] eqn:Hi; [|done]. simplify_eq.
    rewrite existsb_not_elem_of in E. by apply (insert_run_inv _ _ _ Hi Hinv).
  - destruct Hinv as [Hd Hu].
    pose proof (store_call_refines (dual pool) _ _ Hc (conj Hd Hwf)) as Hh. split; simpl.
    + unfold ids_distinct. by rewrite (history_ids _ _ Hh).
    + by eapply history_dedupe.
Qed.

Definition demo_db : run_db := {| db_agents := [7]; db_users := []; db_runs := [] |}.

Definition demo_new (id : Uuid) : NewRun :=
  {| n_id := id; n_tenant_id := "t1"; n_agent_id := 7; n_triggered_by_user_id := None;
     n_recipe_id := "notify_v1"; n_input_json := JObj []; n_requested_capabilities := JArr [];
     n_granted_capabilities := JArr []; n_status := "queued"; n_error_json := None |}.

Lemma active_runs_have_distinct_dedupe_keys_witness :
  exists db', create_run_with_semantic_dedupe_key 5 (demo_new 1) "k" demo_db =
    Ok (db', Some (run_record (row_of_new (demo_new 1) queued (Some "k") 5))) /\ db_inv db'.
Proof.
  eexists. split; [vm_compute; reflexivity|].
  eapply (active_runs_have_distinct_dedupe_keys demo_pool demo_db).
  - split; [constructor|]. intros i j a b Ha. by destruct i.
  - constructor.
  - eapply db_create_dedupe with (now := 5) (n := demo_new 1) (key := "k"). vm_compute. reflexivity.
Defined.

(** A creation that is suppressed as a duplicate changes nothing, and the
    lookup that the API then makes finds the one active run that holds the key. *)
Theorem duplicate_creation_finds_existing now n key db db'
    (Hinv : db_inv db)
    (Hdup : create_run_with_semantic_dedupe_key now n key db = Ok (db', None)) :
  db' = db /\
  exists r, r ∈ db_runs db /\ active_with_key (n_tenant_id n) key r = true /\
    get_active_run_id_by_semantic_dedupe_key (n_tenant_id n) key db = Some (r_id r) /\
    forall r', r' ∈ db_runs db -> active_with_key (n_tenant_id n) key r' = true -> r' = r.
Proof.
  unfold create_run_with_semantic_dedupe_key in Hdup.
  destruct (run_status_of _) as [st|]; simpl in Hdup; [|done].
  destruct (existsb _ _) eqn:E; [|by destruct (insert_run _ db)]. simplify_eq. split; [done|].
  apply existsb_elem_of in E as (r & Hr & Hs).
  assert (forall x, active_with_key (n_tenant_id n) key x = true <->
    is_active x = true /\ r_tenant_id x = n_tenant_id n /\ r_semantic_dedupe_key x = Some key) as Hk.
  { intros x. unfold active_with_key, has_tenant.
    rewrite !andb_true_iff, String.eqb_eq, bool_decide_eq_true. tauto. }
  assert (active_with_key (n_tenant_id n) key r = true) as Hak.
  { apply Hk. unfold same_dedupe in Hs. simpl in Hs. bool_hyps.
    destruct (r_semantic_dedupe_key r); [|done].
    apply String.eqb_eq in H0, H1. by subst. }
  assert (forall r', r' ∈ db_runs db' -> active_with_key (n_tenant_id n) key r' = true -> r' = r) as Huniq.
  { intros r' Hr' Hak'. destruct Hinv as [_ Hu].
    apply list_elem_of_lookup in Hr as [i Hi]. apply list_elem_of_lookup in Hr' as [j Hj].
    assert (j = i) as ->; [|congruence]. apply (Hu j i r' r Hj Hi).
    apply Hk in Hak as (Ha & Ht & Hkk). apply Hk in Hak' as (Ha' & Ht' & Hkk').
    unfold same_dedupe. by rewrite Ha, Ha', Ht, Ht', Hkk, Hkk', !String.eqb_refl. }
  exists r. split_and!; try done. unfold get_active_run_id_by_semantic_dedupe_key.
  assert (forall x, x ∈ order_by newest_first (List.filter (active_with_key (n_tenant_id n) key) (db_runs db')) <->
    x ∈ db_runs db' /\ active_with_key (n_tenant_id n) key x = true) as Hmem.
  { intros x. by rewrite elem_of_order_by, elem_of_filterb. }
  destruct (order_by newest_first _) as [|x l].
  - assert (r ∈ []) as Hin by (by apply Hmem). inv Hin.
  - simpl. rewrite (Huniq x); [done|apply Hmem; left..].
Qed.

Definition demo_db1 : run_db :=
  {| db_agents := [7]; db_users := [];
     db_runs := [row_of_new (demo_new 1) queued (Some "k") 5] |}.

Lemma demo_db1_inv : db_inv demo_db1.
Proof.
  split; [apply NoDup_singleton|]. intros i j a b Ha Hb _.
  apply list_lookup_singleton_Some in Ha as [-> _], Hb as [-> _]. done.
Qed.

Lemma duplicate_creation_finds_existing_witness :
  exists r, r ∈ db_runs demo_db1 /\ active_with_key "t1" "k" r = true /\
    get_active_run_id_by_semantic_dedupe_key "t1" "k" demo_db1 = Some (r_id r) /\
    forall r', r' ∈ db_runs demo_db1 -> active_with_key "t1" "k" r' = true -> r' = r.
Proof.
  exact (proj2 (duplicate_creation_finds_existing 9 (demo_new 2) "k" demo_db1 demo_db1
    demo_db1_inv ltac:(vm_compute; reflexivity))).
Defined.

(** * The claim, statement by statement *)

(** Where a worker is between two statements of
    [claim_next_queued_run_with_limits]. *)
Inductive claim_pc :=
| PcStart
| PcSelected (cands : list run)
| PcCounted (cands : list run)
| PcTenantOk (c : run) (cands : list run)
| PcDone (res : result (option RunLeaseRecord) db_error).

Record claim_args := { ca_worker : string; ca_lease_for : Z; ca_global : Z; ca_tenant : Z }.

Section statements.
Context (text : json -> string) (tmax : Z).

(** One autocommitted statement, at the time it runs. *)
Definition claim_stmt (a : claim_args) (now : Z) (pc : claim_pc) (rows : list run)
    : claim_pc * list run :=
  match pc with
  | PcStart =>
      match @candidates (PgEngine text tmax) 64 now rows with
      | [] => (PcDone (Ok None), rows)
      | cands => (PcSelected cands, rows)
      end
  | PcSelected cands =>
      if Z.max (ca_global a) 1 <=? countb (is_status running) rows
      then (PcDone (Ok None), rows) else (PcCounted cands, rows)
  | PcCounted [] => (PcDone (Ok None), rows)
  | PcCounted (c :: cands) =>
      if Z.max (ca_tenant a) 1 <=? countb (running_of (r_tenant_id c)) rows
      then (PcCounted cands, rows) else (PcTenantOk c cands, rows)
  | PcTenantOk c cands =>
      match claim_update text tmax now (ca_worker a) (clamp_lease_ms (ca_lease_for a))
              (r_id c) rows with
      | (rows', Ok (Some r)) => (PcDone (Ok (Some (lease_record r))), rows')
      | (rows', Ok None) => (PcCounted cands, rows')
      | (rows', Err e) => (PcDone (Err e), rows')
      end
  | PcDone res => (PcDone res, rows)
  end.

(** A worker alone, at a fixed time. *)
Definition alone (a : claim_args) (now : Z) (s s' : claim_pc * list run) : Prop :=
  s' = claim_stmt a now s.1 s.2.

Lemma claim_loop_alone a now i cands rows :
  rtc (alone a now) (PcCounted cands, rows)
    (let '(rows', res) :=
       claim_loop (fun _ => claim_update text tmax now (ca_worker a)
                              (clamp_lease_ms (ca_lease_for a))) i (Z.max (ca_tenant a) 1) cands rows
     in (PcDone res, rows')).
Proof.
  revert i rows. induction cands as [|c cands IH]; intros i rows; simpl.
  { by apply rtc_once. }
  destruct (Z.max (ca_tenant a) 1 <=? countb (running_of (r_tenant_id c)) rows) eqn:E.
  { eapply rtc_l; [|apply IH]. unfold alone. simpl. by rewrite E. }
  destruct (claim_update _ _ _ _ _ _ rows) as [rows1 [[r|]|e]] eqn:U.
  1,3: eapply rtc_l; [unfold alone; simpl; rewrite E; reflexivity|];
       apply rtc_once; unfold alone; simpl; by rewrite U.
  eapply rtc_l; [unfold alone; simpl; rewrite E; reflexivity|].
  eapply rtc_l; [|apply IH]. unfold alone. simpl. by rewrite U.
Qed.

(** A system of two workers: a step runs the next statement of one of them. *)
Record two_workers := { tw_rows : list run; tw_1 : claim_pc; tw_2 : claim_pc }.

Definition tw_step (a1 a2 : claim_args) (first : bool) (now : Z) (s : two_workers) : two_workers :=
  if first
  then let '(pc, rows) := claim_stmt a1 now (tw_1 s) (tw_rows s) in
       {| tw_rows := rows; tw_1 := pc; tw_2 := tw_2 s |}
  else let '(pc, rows) := claim_stmt a2 now (tw_2 s) (tw_rows s) in
       {| tw_rows := rows; tw_1 := tw_1 s; tw_2 := pc |}.

Definition tw_run (a1 a2 : claim_args) (sched : list (bool * Z)) (s : two_workers) : two_workers :=
  fold_left (fun s ev => tw_step a1 a2 ev.1 ev.2 s) sched s.
End statements.

(** The statements, run without interference, compute exactly the claim
    function: from the start a worker alone reaches the end with the same table
    and result. *)
Theorem claim_statements_implement_claim text tmax a now rows :
  rtc (alone text tmax a now) (PcStart, rows)
    (let '(rows', res) :=
       claim_next_queued_run_with_limits text tmax (fun _ => now) (ca_worker a)
         (ca_lease_for a) (ca_global a) (ca_tenant a) rows
     in (PcDone res, rows')).
Proof.
  unfold claim_next_queued_run_with_limits, pg.
  destruct (@candidates (PgEngine text tmax) 64 now rows) as [|c cs] eqn:E.
  { apply rtc_once. unfold alone. simpl. by rewrite E. }
  eapply rtc_l; [unfold alone; cbn [claim_stmt fst snd]; rewrite E; reflexivity|].
  destruct (Z.max (ca_global a) 1 <=? countb (is_status running) rows) eqn:G.
  { apply rtc_once. unfold alone. cbn [claim_stmt fst snd]. by rewrite G. }
  eapply rtc_l; [unfold alone; cbn [claim_stmt fst snd]; rewrite G; reflexivity|].
  apply claim_loop_alone.
Qed.

Definition race_args (w : string) : claim_args :=
  {| ca_worker := w; ca_lease_for := 30000; ca_global := 1; ca_tenant := 1 |}.

Definition race_run (id : Uuid) (tenant : string) : run :=
  {| r_id := id; r_tenant_id := tenant; r_agent_id := 7; r_triggered_by_user_id := None;
     r_recipe_id := "notify_v1"; r_status := queued; r_input_json := JObj [];
     r_requested_capabilities := JArr []; r_granted_capabilities := JArr [];
     r_created_at := id; r_started_at := None; r_finished_at := None; r_error_json := None;
     r_attempts := 0; r_lease_owner := None; r_lease_expires_at := None;
     r_semantic_dedupe_key := None |}.

Definition race_start : two_workers :=
  {| tw_rows := [race_run 1 "t1"; race_run 2 "t2"]; tw_1 := PcStart; tw_2 := PcStart |}.

(** Both workers select and count before either updates; then the first claims
    run 1, and the second, finding it taken, goes on to run 2. *)
Definition race_schedule : list (bool * Z) :=
  [(true, 10); (true, 11); (false, 12); (false, 13); (true, 14);
   (false, 15); (true, 16); (false, 17); (false, 18); (false, 19)].

(** The caps are not enforced across workers: the count and the update are
    separate statements, so with a global cap of one and a queued run of each of
    two tenants there is an interleaving of two claims after which both
    runs are running. *)
Theorem concurrent_claims_can_exceed_cap :
  exists sched : list (bool * Z),
    let s := tw_run demo_text (2 ^ 62) (race_args "w1") (race_args "w2") sched race_start in
    Z.max (ca_global (race_args "w1")) 1 < countb (is_status running) (tw_rows s).
Proof. exists race_schedule. vm_compute. reflexivity. Qed.
