(* ===== verification/Scheduler.v ===== *)
(** The trigger scheduler's lease (core/src/db.rs, db_worker_dual.rs): one
    [INSERT ... ON CONFLICT DO UPDATE ... WHERE] statement. *)
From S2P Require Import Prelude RustStr Json Sql Runs RunQueue.

Record scheduler_lease := { le_name : string; le_owner : string; le_expires_at : Z }.

Record SchedulerLeaseParams := { lp_lease_name : string; lp_lease_owner : string; lp_lease_for : Z }.

Definition has_name (name : string) (l : scheduler_lease) : bool := String.eqb (le_name l) name.

Section acquire.
Context `{Engine}.

(** The statement, with the expiry it binds: insert, or take over an expired or
    own lease, or change nothing and return no row. *)
Definition upsert_lease (now expires : Z) (p : SchedulerLeaseParams) (rows : list scheduler_lease)
    : list scheduler_lease * option string :=
  let new := {| le_name := lp_lease_name p; le_owner := lp_lease_owner p; le_expires_at := expires |} in
  match List.find (has_name (lp_lease_name p)) rows with
  | None => (rows ++ [new], Some (lp_lease_owner p))
  | Some l =>
      if ts_lt (le_expires_at l) now || String.eqb (le_owner l) (lp_lease_owner p)
      then ((update_where (has_name (lp_lease_name p)) (fun _ => new) rows).1, Some (lp_lease_owner p))
      else (rows, None)
  end.
End acquire.

Definition acquired_by (p : SchedulerLeaseParams) (owner : option string) : bool :=
  bool_decide (owner = Some (lp_lease_owner p)).

Definition try_acquire_scheduler_lease (text : json -> string) (tmax now : Z)
    (p : SchedulerLeaseParams) (rows : list scheduler_lease)
    : result (list scheduler_lease * bool) db_error :=
  let expires := now + clamp_lease_ms (lp_lease_for p) * 1000 in
  if tmax <? expires then Err OutOfRange
  else let '(rows', owner) := @upsert_lease (PgEngine text tmax) now expires p rows in
       Ok (rows', acquired_by p owner).

(** The expiry is computed from the process clock [t0], the guard from the
    database's [now]. *)
Definition try_acquire_scheduler_lease_sqlite (E : Engine) (t0 now : Z)
    (p : SchedulerLeaseParams) (rows : list scheduler_lease)
    : result (list scheduler_lease * bool) db_error :=
  let expires := t0 + clamp_lease_ms (lp_lease_for p) * 1000 in
  if ts_max <? expires then Err OutOfRange
  else let '(rows', owner) := @upsert_lease E now expires p rows in
       Ok (rows', acquired_by p owner).

Definition try_acquire_scheduler_lease_dual (pool : DbPool) (clock : nat -> Z)
    (p : SchedulerLeaseParams) (rows : list scheduler_lease)
    : result (list scheduler_lease * bool) db_error :=
  match pool with
  | Postgres text tmax => try_acquire_scheduler_lease text tmax (clock 0%nat) p rows
  | Sqlite E => try_acquire_scheduler_lease_sqlite E (clock 0%nat) (clock 1%nat) p rows
  end.

(** * Lemmas *)

(** The name is the primary key. *)
Definition names_distinct (rows : list scheduler_lease) : Prop := NoDup (map le_name rows).

Definition engine_of (pool : DbPool) : Engine :=
  match pool with Postgres text tmax => PgEngine text tmax | Sqlite E => E end.

Lemma find_name_Some name rows l :
  List.find (has_name name) rows = Some l -> l ∈ rows /\ le_name l = name.
Proof.
  intros [Hin He]%List.find_some. split; [by apply list_elem_of_In|by apply String.eqb_eq].
Qed.

Lemma names_inj rows l l' :
  names_distinct rows -> l ∈ rows -> l' ∈ rows -> le_name l = le_name l' -> l = l'.
Proof.
  unfold names_distinct. induction rows as [|x rows IH]; intros Hnd Hl Hl' E; [inv Hl|].
  cbn [map] in Hnd. apply NoDup_cons in Hnd as [Hx Hnd].
  apply elem_of_cons in Hl as [->|Hl], Hl' as [->|Hl']; [done| | |by apply IH]; exfalso; apply Hx.
  - rewrite E. apply list_elem_of_fmap. eauto.
  - rewrite <- E. apply list_elem_of_fmap. eauto.
Qed.

Lemma upsert_names `{Engine} now expires p rows rows' o :
  names_distinct rows -> upsert_lease now expires p rows = (rows', o) -> names_distinct rows'.
Proof.
  unfold upsert_lease, names_distinct. intros Hnd.
  destruct (List.find _ rows) as [l|] eqn:Ef.
  - destruct (_ || _); intros [= <- <-]; [|done]. rewrite map_map.
    erewrite map_ext; [exact Hnd|]. intros x. unfold has_name. simpl.
    destruct (String.eqb (le_name x) (lp_lease_name p)) eqn:E; [|done].
    by apply String.eqb_eq in E.
  - intros [= <- <-]. rewrite map_app. apply NoDup_app. split_and!; [done| |apply NoDup_singleton].
    intros x Hx ->%list_elem_of_singleton. apply list_elem_of_fmap in Hx as (l & El & Hl).
    eapply List.find_none in Ef; [|apply list_elem_of_In; exact Hl].
    unfold has_name in Ef. simpl in El. rewrite <- El, String.eqb_refl in Ef. done.
Qed.

(** An attempt, in terms of the statement. *)
Lemma try_acquire_inv pool clock p rows rows' b :
  try_acquire_scheduler_lease_dual pool clock p rows = Ok (rows', b) ->
  exists now expires o, @upsert_lease (engine_of pool) now expires p rows = (rows', o) /\
    b = acquired_by p o /\
    (exists i, now = clock i) /\ expires = clock 0%nat + clamp_lease_ms (lp_lease_for p) * 1000.
Proof.
  destruct pool as [text tmax|E]; simpl.
  - unfold try_acquire_scheduler_lease. destruct (_ <? _); [done|].
    destruct (upsert_lease _ _ _ _) as [rs o] eqn:Eu. intros [= <- <-].
    exists (clock 0%nat), (clock 0%nat + clamp_lease_ms (lp_lease_for p) * 1000), o. eauto.
  - unfold try_acquire_scheduler_lease_sqlite. destruct (_ <? _); [done|].
    destruct (upsert_lease _ _ _ _) as [rs o] eqn:Eu. intros [= <- <-].
    exists (clock 1%nat), (clock 0%nat + clamp_lease_ms (lp_lease_for p) * 1000), o. eauto.
Qed.

(** * Properties *)

(** The scheduler lease is exclusive, on both backends: while a lease has not
    expired, an attempt by anybody else fails and leaves it as it is. *)
Theorem live_scheduler_lease_is_exclusive pool clock p rows rows' b l
    (Hnames : names_distinct rows)
    (Htry : try_acquire_scheduler_lease_dual pool clock p rows = Ok (rows', b))
    (Hl : l ∈ rows) (Hname : le_name l = lp_lease_name p) (Hother : le_owner l <> lp_lease_owner p)
    (Hlive : forall i, @ts_lt (engine_of pool) (le_expires_at l) (clock i) = false) :
  b = false /\ rows' = rows.
Proof.
  apply try_acquire_inv in Htry as (now & expires & o & Hu & -> & [i ->] & _).
  unfold upsert_lease in Hu. destruct (List.find _ rows) as [l'|] eqn:Ef.
  - apply find_name_Some in Ef as [Hl' Hn']. assert (l' = l) as -> by (apply (names_inj rows); congruence).
    rewrite Hlive, (string_eqb_neq _ _ Hother) in Hu. cbn [orb] in Hu. simplify_eq.
    unfold acquired_by. by rewrite bool_decide_eq_false_2.
  - exfalso. eapply List.find_none in Ef; [|apply list_elem_of_In; exact Hl].
    unfold has_name in Ef. by rewrite Hname, String.eqb_refl in Ef.
Qed.

Definition demo_lease_rows : list scheduler_lease :=
  [{| le_name := "trigger_scheduler"; le_owner := "w1"; le_expires_at := 500 |}].

Definition demo_lease_params (w : string) : SchedulerLeaseParams :=
  {| lp_lease_name := "trigger_scheduler"; lp_lease_owner := w; lp_lease_for := 10 |}.

Definition demo_lease_pool : DbPool := Postgres (fun _ => "") (2 ^ 62).

Lemma live_scheduler_lease_is_exclusive_witness : false = false /\ demo_lease_rows = demo_lease_rows.
Proof.
  apply (live_scheduler_lease_is_exclusive demo_lease_pool (fun _ => 400) (demo_lease_params "w2")
    demo_lease_rows demo_lease_rows false
    {| le_name := "trigger_scheduler"; le_owner := "w1"; le_expires_at := 500 |}).
  - apply NoDup_singleton.
  - vm_compute. reflexivity.
  - left.
  - reflexivity.
  - discriminate.
  - intros i. vm_compute. reflexivity.
Defined.

(** A successful attempt is exact: it returns true precisely when the lease was
    free, expired or its own, and then the caller owns it until the requested
    duration after the time of the attempt; otherwise nothing changes. *)
Theorem scheduler_lease_acquisition_exact pool clock p rows rows' b
    (Hnames : names_distinct rows)
    (Htry : try_acquire_scheduler_lease_dual pool clock p rows = Ok (rows', b)) :
  names_distinct rows' /\
  (b = true ->
    {| le_name := lp_lease_name p; le_owner := lp_lease_owner p;
       le_expires_at := clock 0%nat + clamp_lease_ms (lp_lease_for p) * 1000 |} ∈ rows') /\
  (b = false -> rows' = rows /\ exists l i, l ∈ rows /\ le_name l = lp_lease_name p /\
    le_owner l <> lp_lease_owner p /\ @ts_lt (engine_of pool) (le_expires_at l) (clock i) = false).
Proof.
  apply try_acquire_inv in Htry as (now & expires & o & Hu & -> & [i ->] & ->).
  split; [by eapply upsert_names|]. unfold upsert_lease in Hu.
  destruct (List.find _ rows) as [l|] eqn:Ef.
  - pose proof (find_name_Some _ _ _ Ef) as [Hl Hn].
    destruct (ts_lt (le_expires_at l) (clock i)) eqn:Et; [|destruct (String.eqb (le_owner l) _) eqn:Eo];
      cbn [orb] in Hu; simplify_eq; unfold acquired_by.
    1,2: split; [intros _|by rewrite bool_decide_eq_true_2];
         apply elem_of_update; exists l; split; [done|];
         unfold has_name; by rewrite Hn, String.eqb_refl.
    split; [by rewrite bool_decide_eq_false_2|]. intros _. split; [done|].
    exists l, i. apply String.eqb_neq in Eo. done.
  - simplify_eq. unfold acquired_by. split; [set_solver|by rewrite bool_decide_eq_true_2].
Qed.

Lemma scheduler_lease_acquisition_exact_witness :
  names_distinct [{| le_name := "trigger_scheduler"; le_owner := "w2"; le_expires_at := 10600 |}].
Proof.
  apply (scheduler_lease_acquisition_exact demo_lease_pool (fun _ => 600) (demo_lease_params "w2")
    demo_lease_rows _ true (NoDup_singleton _) ltac:(vm_compute; reflexivity)).
Defined.
