(* ===== verification/TriggerTables.v ===== *)
(** Triggers and their ledger (core/src/db.rs, migrations 0003 to 0006 and 0020):
    the tables [triggers], [trigger_runs], [trigger_events] and
    [trigger_audit_events], their constraints, and the statements that create,
    read and configure triggers and enqueue and replay events.

    Instants are microseconds; [OffsetDateTime] keeps nanoseconds, which
    PostgreSQL drops when it stores them.  [wall] is the clock of the process,
    [now] the clock of the database.  The time zone and cron libraries, the
    hasher of the jitter, SHA-256 and JSON printing are arguments. *)
From stdpp Require Import pretty.
From S2P Require Import Prelude RustStr Json Sql Runs.

(** * Data *)

Record TriggerRecord := {
  t_id : Uuid; t_tenant_id : string; t_agent_id : Uuid; t_triggered_by_user_id : option Uuid;
  t_recipe_id : string; t_status : string; t_trigger_type : string;
  t_interval_seconds : option Z; t_cron_expression : option string; t_schedule_timezone : string;
  t_misfire_policy : string; t_max_attempts : Z; t_max_inflight_runs : Z; t_jitter_seconds : Z;
  t_consecutive_failures : Z; t_dead_lettered_at : option Z; t_dead_letter_reason : option string;
  t_webhook_secret_ref : option string; t_input_json : json; t_requested_capabilities : json;
  t_granted_capabilities : json; t_next_fire_at : Z; t_last_fired_at : option Z;
  t_created_at : Z; t_updated_at : Z;
}.

Record NewIntervalTrigger := {
  ni_id : Uuid; ni_tenant_id : string; ni_agent_id : Uuid; ni_triggered_by_user_id : option Uuid;
  ni_recipe_id : string; ni_interval_seconds : Z; ni_input_json : json;
  ni_requested_capabilities : json; ni_granted_capabilities : json; ni_next_fire_at : Z;
  ni_status : string; ni_misfire_policy : string; ni_max_attempts : Z; ni_max_inflight_runs : Z;
  ni_jitter_seconds : Z; ni_webhook_secret_ref : option string;
}.

Record NewWebhookTrigger := {
  nw_id : Uuid; nw_tenant_id : string; nw_agent_id : Uuid; nw_triggered_by_user_id : option Uuid;
  nw_recipe_id : string; nw_input_json : json; nw_requested_capabilities : json;
  nw_granted_capabilities : json; nw_status : string; nw_max_attempts : Z;
  nw_max_inflight_runs : Z; nw_jitter_seconds : Z; nw_webhook_secret_ref : option string;
}.

Record NewCronTrigger := {
  nc_id : Uuid; nc_tenant_id : string; nc_agent_id : Uuid; nc_triggered_by_user_id : option Uuid;
  nc_recipe_id : string; nc_cron_expression : string; nc_schedule_timezone : string;
  nc_input_json : json; nc_requested_capabilities : json; nc_granted_capabilities : json;
  nc_status : string; nc_misfire_policy : string; nc_max_attempts : Z; nc_max_inflight_runs : Z;
  nc_jitter_seconds : Z;
}.

Record UpdateTriggerParams := {
  up_interval_seconds : option Z; up_cron_expression : option string;
  up_schedule_timezone : option string; up_misfire_policy : option string;
  up_max_attempts : option Z; up_max_inflight_runs : option Z; up_jitter_seconds : option Z;
  up_webhook_secret_ref : option string;
}.

Record trigger_run := {
  tn_id : Uuid; tn_trigger_id : Uuid; tn_run_id : option Uuid; tn_scheduled_for : Z;
  tn_status : string; tn_dedupe_key : string; tn_error_json : option json; tn_created_at : Z;
}.

Record trigger_event := {
  te_id : Uuid; te_trigger_id : Uuid; te_tenant_id : string; te_event_id : string;
  te_semantic_dedupe_key : option string; te_payload_json : json; te_status : string;
  te_attempts : Z; te_next_attempt_at : Z; te_last_error_json : option json; te_created_at : Z;
  te_processed_at : option Z; te_dead_lettered_at : option Z;
}.

Record NewTriggerAuditEvent := {
  nt_id : Uuid; nt_trigger_id : Uuid; nt_tenant_id : string; nt_actor : string;
  nt_event_type : string; nt_payload_json : json;
}.

Record TriggerDispatchRecord := {
  td_trigger_id : Uuid; td_trigger_type : string; td_trigger_event_id : option string;
  td_run_id : Uuid; td_tenant_id : string; td_agent_id : Uuid; td_triggered_by_user_id : option Uuid;
  td_recipe_id : string; td_scheduled_for : Z; td_next_fire_at : Z;
}.

Inductive TriggerEventEnqueueUnavailableReason :=
| TriggerNotFound | TriggerDisabled | TriggerTypeMismatch | TriggerScheduleBroken | PayloadMalformed.

Inductive TriggerEventEnqueueOutcome :=
| Enqueued | EventDuplicate | EventTriggerUnavailable (reason : TriggerEventEnqueueUnavailableReason).

Inductive TriggerEventReplayOutcome := Requeued | NotFound | NotDeadLettered (status : string).

Inductive ManualTriggerFireOutcome :=
| FireCreated (record : TriggerDispatchRecord)
| FireDuplicate (run_id : option Uuid)
| InflightLimited
| TriggerUnavailable.

(** The tables, and the tables of the runs that the same transactions write. *)
Record trigger_tables := {
  tt_triggers : list TriggerRecord; tt_runs : list trigger_run; tt_events : list trigger_event;
  tt_audit : list NewTriggerAuditEvent;
}.

Record tdb := { tb_core : run_db; tb_tables : trigger_tables }.

Definition no_triggers : trigger_tables :=
  {| tt_triggers := []; tt_runs := []; tt_events := []; tt_audit := [] |}.

Definition with_trigger_rows (s : tdb) (rows : list TriggerRecord) : tdb :=
  {| tb_core := tb_core s;
     tb_tables := {| tt_triggers := rows; tt_runs := tt_runs (tb_tables s);
                     tt_events := tt_events (tb_tables s); tt_audit := tt_audit (tb_tables s) |} |}.
Definition with_trigger_runs (s : tdb) (rows : list trigger_run) : tdb :=
  {| tb_core := tb_core s;
     tb_tables := {| tt_triggers := tt_triggers (tb_tables s); tt_runs := rows;
                     tt_events := tt_events (tb_tables s); tt_audit := tt_audit (tb_tables s) |} |}.
Definition with_trigger_events (s : tdb) (rows : list trigger_event) : tdb :=
  {| tb_core := tb_core s;
     tb_tables := {| tt_triggers := tt_triggers (tb_tables s); tt_runs := tt_runs (tb_tables s);
                     tt_events := rows; tt_audit := tt_audit (tb_tables s) |} |}.
Definition with_trigger_audit (s : tdb) (rows : list NewTriggerAuditEvent) : tdb :=
  {| tb_core := tb_core s;
     tb_tables := {| tt_triggers := tt_triggers (tb_tables s); tt_runs := tt_runs (tb_tables s);
                     tt_events := tt_events (tb_tables s); tt_audit := rows |} |}.
Definition with_tcore (s : tdb) (core : run_db) : tdb := {| tb_core := core; tb_tables := tb_tables s |}.

Abbreviation triggers_of s := (tt_triggers (tb_tables s)).
Abbreviation trigger_runs_of s := (tt_runs (tb_tables s)).
Abbreviation trigger_events_of s := (tt_events (tb_tables s)).

(** * Constraints *)

Definition ensure (b : bool) (e : db_error) : result unit db_error := if b then Ok tt else Err e.

Definition TRIGGER_STATUS_ENABLED : string := "enabled".
Definition TRIGGER_TYPE_WEBHOOK : string := "webhook".
Definition TRIGGER_EVENT_STATUS_PENDING : string := "pending".
Definition TRIGGER_EVENT_STATUS_DEAD_LETTERED : string := "dead_lettered".
Definition TRIGGER_ERROR_CLASS_TRIGGER_POLICY : string := "trigger_policy".
Definition TRIGGER_ERROR_CLASS_SCHEDULE : string := "schedule".
Definition TRIGGER_ERROR_CLASS_EVENT_PAYLOAD : string := "event_payload".

Definition trigger_error_payload (code message reason_class : string) : json :=
  jobject [("code", JStr code); ("message", JStr message); ("reason_class", JStr reason_class)].

(** The checks of both schemas. *)
Definition trigger_row_ok (t : TriggerRecord) : bool :=
  str_in (t_status t) ["enabled"; "disabled"] && str_in (t_trigger_type t) ["interval"; "webhook"; "cron"] &&
  str_in (t_misfire_policy t) ["fire_now"; "skip"] && (0 <? t_max_attempts t) &&
  (0 <? t_max_inflight_runs t) && (0 <=? t_jitter_seconds t) && (t_jitter_seconds t <=? 3600) &&
  (0 <=? t_consecutive_failures t).

(** [triggers_interval_seconds_check] and [triggers_schedule_timezone_check],
    which only PostgreSQL has. *)
Definition trigger_schedule_ok (t : TriggerRecord) : bool :=
  negb (is_empty (t_schedule_timezone t)) &&
  match t_interval_seconds t, t_cron_expression t with
  | Some n, None => String.eqb (t_trigger_type t) "interval" && (0 <? n)
  | None, None => String.eqb (t_trigger_type t) "webhook"
  | None, Some _ => String.eqb (t_trigger_type t) "cron"
  | Some _, Some _ => false
  end.

Definition trigger_exists (id : Uuid) (s : tdb) : bool := existsb (fun t => t_id t =? id) (triggers_of s).

Definition insert_trigger (t : TriggerRecord) (s : tdb) : result (tdb * TriggerRecord) db_error :=
  let? _ := ensure (negb (trigger_exists (t_id t) s)) UniqueViolation in
  let? _ := ensure (bool_decide (t_agent_id t ∈ db_agents (tb_core s)) &&
                    match t_triggered_by_user_id t with
                    | Some u => bool_decide (u ∈ db_users (tb_core s)) | None => true end)
              ForeignKeyViolation in
  Ok (with_trigger_rows s (triggers_of s ++ [t]), t).

(** [idx_trigger_runs_trigger_dedupe] *)
Definition same_dedupe_key (trigger_id : Uuid) (key : string) (r : trigger_run) : bool :=
  (tn_trigger_id r =? trigger_id) && String.eqb (tn_dedupe_key r) key.

Definition insert_trigger_run (r : trigger_run) (s : tdb) : result tdb db_error :=
  let? _ := ensure (negb (existsb (fun x => tn_id x =? tn_id r) (trigger_runs_of s)) &&
                    negb (existsb (same_dedupe_key (tn_trigger_id r) (tn_dedupe_key r)) (trigger_runs_of s)))
              UniqueViolation in
  let? _ := ensure (trigger_exists (tn_trigger_id r) s &&
                    match tn_run_id r with
                    | Some id => existsb (fun x => r_id x =? id) (db_runs (tb_core s)) | None => true end)
              ForeignKeyViolation in
  Ok (with_trigger_runs s (trigger_runs_of s ++ [r])).

(** * Schedules *)

(** The crates chrono-tz and cron: a time zone, a schedule, and the next instant
    of a schedule after an instant, in that zone. *)
Record schedules := {
  sc_tz : Type; sc_schedule : Type;
  sc_tz_from_str : string -> result sc_tz string;
  sc_schedule_from_str : string -> result sc_schedule string;
  sc_from_timestamp : Z -> bool;
  sc_next : sc_schedule -> sc_tz -> Z -> option Z;
  sc_to_offset : Z -> result Z string;
}.

Definition second : Z := 1000000.

Section schedule.
Context (sc : schedules) (jitter_hash : Uuid -> Z -> Z).

Definition next_cron_fire_at (cron_expression schedule_timezone : string) (after : Z) : result Z string :=
  let? timezone := map_err (fun err => "invalid schedule_timezone `" +:+ schedule_timezone +:+ "`: " +:+ err)
                     (sc_tz_from_str sc schedule_timezone) in
  let? schedule := map_err (fun err => "invalid cron_expression `" +:+ cron_expression +:+ "`: " +:+ err)
                     (sc_schedule_from_str sc cron_expression) in
  let? _ := (if sc_from_timestamp sc after then Ok tt else Err "invalid reference timestamp") in
  let? next := ok_or (sc_next sc schedule timezone after) "cron schedule has no next fire time" in
  map_err (fun err => "invalid computed next_fire_at timestamp: " +:+ err)
    (sc_to_offset sc (next / second * second)).

(** The hash of the trigger and of an instant in nanoseconds, in seconds. *)
Definition apply_jitter (scheduled_for : Z) (trigger_id : Uuid) (jitter_seconds entropy_time : Z) : Z :=
  if jitter_seconds <=? 0 then scheduled_for
  else scheduled_for +
       wrap_u64 (jitter_hash trigger_id (entropy_time * 1000)) `mod` (jitter_seconds + 1) * second.

(** * Creating and configuring *)

(** [create_interval_trigger]; a row with the column defaults. *)
Definition interval_row (now : Z) (n : NewIntervalTrigger) : TriggerRecord :=
  {| t_id := ni_id n; t_tenant_id := ni_tenant_id n; t_agent_id := ni_agent_id n;
     t_triggered_by_user_id := ni_triggered_by_user_id n; t_recipe_id := ni_recipe_id n;
     t_status := ni_status n; t_trigger_type := "interval";
     t_interval_seconds := Some (ni_interval_seconds n); t_cron_expression := None;
     t_schedule_timezone := "UTC"; t_misfire_policy := ni_misfire_policy n;
     t_max_attempts := ni_max_attempts n; t_max_inflight_runs := ni_max_inflight_runs n;
     t_jitter_seconds := ni_jitter_seconds n; t_consecutive_failures := 0;
     t_dead_lettered_at := None; t_dead_letter_reason := None;
     t_webhook_secret_ref := ni_webhook_secret_ref n; t_input_json := ni_input_json n;
     t_requested_capabilities := ni_requested_capabilities n;
     t_granted_capabilities := ni_granted_capabilities n; t_next_fire_at := ni_next_fire_at n;
     t_last_fired_at := None; t_created_at := now; t_updated_at := now |}.

Definition create_interval_trigger (now : Z) (n : NewIntervalTrigger) (s : tdb)
    : result (tdb * TriggerRecord) db_error :=
  let t := interval_row now n in
  let? _ := ensure (trigger_row_ok t && trigger_schedule_ok t) CheckViolation in
  insert_trigger t s.

Definition webhook_row (now : Z) (n : NewWebhookTrigger) : TriggerRecord :=
  {| t_id := nw_id n; t_tenant_id := nw_tenant_id n; t_agent_id := nw_agent_id n;
     t_triggered_by_user_id := nw_triggered_by_user_id n; t_recipe_id := nw_recipe_id n;
     t_status := nw_status n; t_trigger_type := "webhook"; t_interval_seconds := None;
     t_cron_expression := None; t_schedule_timezone := "UTC"; t_misfire_policy := "fire_now";
     t_max_attempts := nw_max_attempts n; t_max_inflight_runs := nw_max_inflight_runs n;
     t_jitter_seconds := nw_jitter_seconds n; t_consecutive_failures := 0;
     t_dead_lettered_at := None; t_dead_letter_reason := None;
     t_webhook_secret_ref := nw_webhook_secret_ref n; t_input_json := nw_input_json n;
     t_requested_capabilities := nw_requested_capabilities n;
     t_granted_capabilities := nw_granted_capabilities n; t_next_fire_at := now;
     t_last_fired_at := None; t_created_at := now; t_updated_at := now |}.

Definition create_webhook_trigger (now : Z) (n : NewWebhookTrigger) (s : tdb)
    : result (tdb * TriggerRecord) db_error :=
  let t := webhook_row now n in
  let? _ := ensure (trigger_row_ok t && trigger_schedule_ok t) CheckViolation in
  insert_trigger t s.

Definition cron_row (now next_fire_at : Z) (n : NewCronTrigger) : TriggerRecord :=
  {| t_id := nc_id n; t_tenant_id := nc_tenant_id n; t_agent_id := nc_agent_id n;
     t_triggered_by_user_id := nc_triggered_by_user_id n; t_recipe_id := nc_recipe_id n;
     t_status := nc_status n; t_trigger_type := "cron"; t_interval_seconds := None;
     t_cron_expression := Some (nc_cron_expression n);
     t_schedule_timezone := nc_schedule_timezone n; t_misfire_policy := nc_misfire_policy n;
     t_max_attempts := nc_max_attempts n; t_max_inflight_runs := nc_max_inflight_runs n;
     t_jitter_seconds := nc_jitter_seconds n; t_consecutive_failures := 0;
     t_dead_lettered_at := None; t_dead_letter_reason := None; t_webhook_secret_ref := None;
     t_input_json := nc_input_json n; t_requested_capabilities := nc_requested_capabilities n;
     t_granted_capabilities := nc_granted_capabilities n; t_next_fire_at := next_fire_at;
     t_last_fired_at := None; t_created_at := now; t_updated_at := now |}.

Definition create_cron_trigger (wall now : Z) (n : NewCronTrigger) (s : tdb)
    : result (tdb * TriggerRecord) db_error :=
  let? fire := map_err Protocol
                 (next_cron_fire_at (nc_cron_expression n) (nc_schedule_timezone n) wall) in
  let next := apply_jitter fire (nc_id n) (nc_jitter_seconds n) wall in
  let t := cron_row now next n in
  let? _ := ensure (trigger_row_ok t && trigger_schedule_ok t) CheckViolation in
  insert_trigger t s.

Definition owned_trigger (tenant_id : string) (id : Uuid) (t : TriggerRecord) : bool :=
  String.eqb (t_tenant_id t) tenant_id && (t_id t =? id).

Definition get_trigger (tenant_id : string) (id : Uuid) (s : tdb) : option TriggerRecord :=
  List.find (owned_trigger tenant_id id) (triggers_of s).

Definition count_tenant_triggers (tenant_id : string) (s : tdb) : Z :=
  countb (fun t => String.eqb (t_tenant_id t) tenant_id) (triggers_of s).

(** The columns that a statement sets. *)
Definition set_trigger_status (status : string) (now : Z) (t : TriggerRecord) : TriggerRecord :=
  {| t_id := t_id t; t_tenant_id := t_tenant_id t; t_agent_id := t_agent_id t;
     t_triggered_by_user_id := t_triggered_by_user_id t; t_recipe_id := t_recipe_id t;
     t_status := status; t_trigger_type := t_trigger_type t;
     t_interval_seconds := t_interval_seconds t; t_cron_expression := t_cron_expression t;
     t_schedule_timezone := t_schedule_timezone t; t_misfire_policy := t_misfire_policy t;
     t_max_attempts := t_max_attempts t; t_max_inflight_runs := t_max_inflight_runs t;
     t_jitter_seconds := t_jitter_seconds t; t_consecutive_failures := t_consecutive_failures t;
     t_dead_lettered_at := t_dead_lettered_at t; t_dead_letter_reason := t_dead_letter_reason t;
     t_webhook_secret_ref := t_webhook_secret_ref t; t_input_json := t_input_json t;
     t_requested_capabilities := t_requested_capabilities t;
     t_granted_capabilities := t_granted_capabilities t; t_next_fire_at := t_next_fire_at t;
     t_last_fired_at := t_last_fired_at t; t_created_at := t_created_at t; t_updated_at := now |}.

(** [UPDATE .. RETURNING]: the new row, if one matches. *)
Definition update_trigger (p : TriggerRecord -> bool) (f : TriggerRecord -> TriggerRecord) (s : tdb)
    : tdb * Z :=
  let '(rows, n) := update_where p f (triggers_of s) in (with_trigger_rows s rows, n).

Definition update_trigger_status (now : Z) (tenant_id : string) (id : Uuid) (status : string) (s : tdb)
    : result (tdb * option TriggerRecord) db_error :=
  let p := owned_trigger tenant_id id in
  let? _ := ensure (negb (existsb p (triggers_of s)) || str_in status ["enabled"; "disabled"]) CheckViolation in
  Ok ((update_trigger p (set_trigger_status status now) s).1,
      set_trigger_status status now <$> get_trigger tenant_id id s).

(** The configuration that [update_trigger_config] writes. *)
Definition set_trigger_config (p : UpdateTriggerParams) (next_fire_at now : Z) (t : TriggerRecord)
    : TriggerRecord :=
  {| t_id := t_id t; t_tenant_id := t_tenant_id t; t_agent_id := t_agent_id t;
     t_triggered_by_user_id := t_triggered_by_user_id t; t_recipe_id := t_recipe_id t;
     t_status := t_status t; t_trigger_type := t_trigger_type t;
     t_interval_seconds := up_interval_seconds p; t_cron_expression := up_cron_expression p;
     t_schedule_timezone := default "" (up_schedule_timezone p);
     t_misfire_policy := default "" (up_misfire_policy p);
     t_max_attempts := default 0 (up_max_attempts p);
     t_max_inflight_runs := default 0 (up_max_inflight_runs p);
     t_jitter_seconds := default 0 (up_jitter_seconds p);
     t_consecutive_failures := t_consecutive_failures t;
     t_dead_lettered_at := t_dead_lettered_at t; t_dead_letter_reason := t_dead_letter_reason t;
     t_webhook_secret_ref := up_webhook_secret_ref p; t_input_json := t_input_json t;
     t_requested_capabilities := t_requested_capabilities t;
     t_granted_capabilities := t_granted_capabilities t; t_next_fire_at := next_fire_at;
     t_last_fired_at := t_last_fired_at t; t_created_at := t_created_at t; t_updated_at := now |}.

Definition or_else {A} (a b : option A) : option A := match a with Some _ => a | None => b end.

(** The parameters completed with the existing row. *)
Definition merged_params (p : UpdateTriggerParams) (t : TriggerRecord) : UpdateTriggerParams :=
  {| up_interval_seconds := or_else (up_interval_seconds p) (t_interval_seconds t);
     up_cron_expression := or_else (up_cron_expression p) (t_cron_expression t);
     up_schedule_timezone := Some (default (t_schedule_timezone t) (up_schedule_timezone p));
     up_misfire_policy := Some (default (t_misfire_policy t) (up_misfire_policy p));
     up_max_attempts := Some (default (t_max_attempts t) (up_max_attempts p));
     up_max_inflight_runs := Some (default (t_max_inflight_runs t) (up_max_inflight_runs p));
     up_jitter_seconds := Some (default (t_jitter_seconds t) (up_jitter_seconds p));
     up_webhook_secret_ref := or_else (up_webhook_secret_ref p) (t_webhook_secret_ref t) |}.

Definition configured_next_fire (wall : Z) (m : UpdateTriggerParams) (t : TriggerRecord)
    : result Z db_error :=
  let? base :=
    (if String.eqb (t_trigger_type t) "interval"
     then Ok (wall + default 60 (up_interval_seconds m) * second)
     else if String.eqb (t_trigger_type t) "cron" then
       let? expression := ok_or (up_cron_expression m)
                            (Protocol "cron trigger requires cron_expression") in
       map_err Protocol (next_cron_fire_at expression (default "" (up_schedule_timezone m)) wall)
     else Ok (t_next_fire_at t)) in
  Ok (apply_jitter base (t_id t) (default 0 (up_jitter_seconds m)) wall).

(** The [UPDATE]: the checks only fail when a row matches. *)
Definition write_trigger_config (now : Z) (tenant_id : string) (id : Uuid) (m : UpdateTriggerParams)
    (next_fire_at : Z) (s : tdb) : result (tdb * option TriggerRecord) db_error :=
  let p := owned_trigger tenant_id id in
  let f := set_trigger_config m next_fire_at now in
  let row := f <$> get_trigger tenant_id id s in
  let? _ := ensure (match row with Some t => trigger_row_ok t && trigger_schedule_ok t | None => true end)
              CheckViolation in
  Ok ((update_trigger p f s).1, row).
End schedule.

(** * Events *)

Fixpoint canonicalize_json_for_trigger_event_semantic_dedupe (value : json) : json :=
  match value with
  | JObj m =>
      JObj (map_of (order_by key_le
        (map (fun f => (f.1, canonicalize_json_for_trigger_event_semantic_dedupe f.2)) m)))
  | JArr l => JArr (map canonicalize_json_for_trigger_event_semantic_dedupe l)
  | _ => value
  end.

Section events.
Context (to_vec : json -> string) (sha256_hex : string -> string) (uuid_text : Uuid -> string).

Definition compute_trigger_event_semantic_dedupe_key (tenant_id : string) (trigger_id : Uuid)
    (payload_json : json) : string :=
  sha256_hex (to_vec (jobject
    [("tenant_id", JStr tenant_id); ("trigger_id", JStr (uuid_text trigger_id));
     ("payload", canonicalize_json_for_trigger_event_semantic_dedupe payload_json)])).

(** The first statement of [enqueue_trigger_event] and the tests on its row. *)
Definition enqueue_unavailable (tenant_id : string) (trigger_id : Uuid) (payload_json : json) (s : tdb)
    : option TriggerEventEnqueueUnavailableReason :=
  match payload_json with
  | JObj _ =>
      match get_trigger tenant_id trigger_id s with
      | None => Some TriggerNotFound
      | Some t =>
          if negb (String.eqb (t_status t) TRIGGER_STATUS_ENABLED) then Some TriggerDisabled
          else if negb (String.eqb (t_trigger_type t) TRIGGER_TYPE_WEBHOOK) then Some TriggerTypeMismatch
          else if bool_decide (is_Some (t_dead_lettered_at t)) then Some TriggerScheduleBroken else None
      end
  | _ => Some PayloadMalformed
  end.

(** The two unique indexes of [trigger_events]. *)
Definition same_event (e x : trigger_event) : bool :=
  (te_trigger_id x =? te_trigger_id e) &&
  (String.eqb (te_event_id x) (te_event_id e) ||
   match te_semantic_dedupe_key x, te_semantic_dedupe_key e with
   | Some k, Some k' => String.eqb k k'
   | _, _ => false
   end).

Definition pending_event (now : Z) (id : Uuid) (tenant_id : string) (trigger_id : Uuid) (event_id : string)
    (payload_json : json) : trigger_event :=
  {| te_id := id; te_trigger_id := trigger_id; te_tenant_id := tenant_id; te_event_id := event_id;
     te_semantic_dedupe_key :=
       Some (compute_trigger_event_semantic_dedupe_key tenant_id trigger_id payload_json);
     te_payload_json := payload_json; te_status := TRIGGER_EVENT_STATUS_PENDING; te_attempts := 0;
     te_next_attempt_at := now; te_last_error_json := None; te_created_at := now;
     te_processed_at := None; te_dead_lettered_at := None |}.

(** [INSERT .. ON CONFLICT DO NOTHING], with any unique index. *)
Definition insert_trigger_event (e : trigger_event) (s : tdb) : result (tdb * bool) db_error :=
  if existsb (fun x => (te_id x =? te_id e) || same_event e x) (trigger_events_of s) then Ok (s, false)
  else
    let? _ := ensure (trigger_exists (te_trigger_id e) s) ForeignKeyViolation in
    Ok (with_trigger_events s (trigger_events_of s ++ [e]), true).

Definition set_event_requeued (now : Z) (e : trigger_event) : trigger_event :=
  {| te_id := te_id e; te_trigger_id := te_trigger_id e; te_tenant_id := te_tenant_id e;
     te_event_id := te_event_id e; te_semantic_dedupe_key := te_semantic_dedupe_key e;
     te_payload_json := te_payload_json e; te_status := "pending"; te_attempts := 0;
     te_next_attempt_at := now; te_last_error_json := None; te_created_at := te_created_at e;
     te_processed_at := None; te_dead_lettered_at := None |}.

Definition has_event (tenant_id : string) (trigger_id : Uuid) (event_id : string) (e : trigger_event) : bool :=
  (te_trigger_id e =? trigger_id) && String.eqb (te_tenant_id e) tenant_id &&
  String.eqb (te_event_id e) event_id.

(** One transaction on a locked row. *)
Definition requeue_dead_letter_trigger_event (now : Z) (tenant_id : string) (trigger_id : Uuid)
    (event_id : string) (s : tdb) : result (tdb * TriggerEventReplayOutcome) db_error :=
  let p := has_event tenant_id trigger_id event_id in
  match List.find p (trigger_events_of s) with
  | None => Ok (s, NotFound)
  | Some e =>
      if negb (String.eqb (te_status e) TRIGGER_EVENT_STATUS_DEAD_LETTERED)
      then Ok (s, NotDeadLettered (te_status e))
      else
        let '(rows, n) := update_where p (set_event_requeued now) (trigger_events_of s) in
        if n =? 1 then Ok (with_trigger_events s rows, Requeued)
        else Err (Protocol "failed to requeue locked dead-letter trigger event row")
  end.
End events.

Definition append_trigger_audit_event (n : NewTriggerAuditEvent) (s : tdb) : result tdb db_error :=
  let? _ := ensure (negb (existsb (fun x => nt_id x =? nt_id n) (tt_audit (tb_tables s)))) UniqueViolation in
  let? _ := ensure (trigger_exists (nt_trigger_id n) s) ForeignKeyViolation in
  Ok (with_trigger_audit s (tt_audit (tb_tables s) ++ [n])).
