(* ===== verification/TriggerDispatch.v ===== *)
(** Firing triggers: the transactions that turn a due interval or cron trigger,
    a pending webhook event or a manual request into a queued run
    (core/src/db.rs on PostgreSQL, core/src/db_worker_dual.rs on SQLite).

    A transaction is one function: it commits its new tables or, on an error,
    changes nothing.  [locked] are the rows that other transactions hold
    ([FOR UPDATE SKIP LOCKED]); SQLite has one writer.  Reading a column that is
    [NULL] as a value panics in the driver and is an error here. *)
From stdpp Require Import pretty.
From S2P Require Import Prelude RustStr Json Sql Runs RunQueue TriggerTables.

(** * Inputs of the runs *)

Definition merge_json_objects (primary overlay : json) : json :=
  match primary with
  | JObj m => JObj match overlay with
                   | JObj o => fold_left (fun m f => map_insert f.1 f.2 m) o m
                   | _ => m end
  | other => jobject [("input", other); ("_trigger", overlay)]
  end.

Definition inject_trace_id (input : json) (trace_id : string) : json :=
  match input with
  | JObj m => JObj (map_insert "_trace" (JStr trace_id) m)
  | other => JObj (map_insert "input" other (map_insert "_trace" (JStr trace_id) []))
  end.

(** The row that fires: [input] is the trigger's, with what the caller adds. *)
Definition triggered_run (t : TriggerRecord) (run_id : Uuid) (input : json) : NewRun :=
  {| n_id := run_id; n_tenant_id := t_tenant_id t; n_agent_id := t_agent_id t;
     n_triggered_by_user_id := t_triggered_by_user_id t; n_recipe_id := t_recipe_id t;
     n_input_json := input; n_requested_capabilities := t_requested_capabilities t;
     n_granted_capabilities := t_granted_capabilities t; n_status := "queued"; n_error_json := None |}.

Definition insert_triggered_run (now : Z) (n : NewRun) (s : tdb) : result tdb db_error :=
  let? core := insert_run (row_of_new n queued None now) (tb_core s) in Ok (with_tcore s core).

(** * What the statements set *)

(** [next_fire_at], [last_fired_at], [consecutive_failures], [updated_at]; the
    dead letter and the fields of the schedule stay. *)
Definition set_schedule (next_fire_at : Z) (last_fired_at : option Z) (failures : Z) (dead : option (Z * string))
    (now : Z) (t : TriggerRecord) : TriggerRecord :=
  {| t_id := t_id t; t_tenant_id := t_tenant_id t; t_agent_id := t_agent_id t;
     t_triggered_by_user_id := t_triggered_by_user_id t; t_recipe_id := t_recipe_id t;
     t_status := t_status t; t_trigger_type := t_trigger_type t;
     t_interval_seconds := t_interval_seconds t; t_cron_expression := t_cron_expression t;
     t_schedule_timezone := t_schedule_timezone t; t_misfire_policy := t_misfire_policy t;
     t_max_attempts := t_max_attempts t; t_max_inflight_runs := t_max_inflight_runs t;
     t_jitter_seconds := t_jitter_seconds t; t_consecutive_failures := failures;
     t_dead_lettered_at := match dead with Some (at_, _) => Some at_ | None => t_dead_lettered_at t end;
     t_dead_letter_reason := match dead with Some (_, r) => Some r | None => t_dead_letter_reason t end;
     t_webhook_secret_ref := t_webhook_secret_ref t; t_input_json := t_input_json t;
     t_requested_capabilities := t_requested_capabilities t;
     t_granted_capabilities := t_granted_capabilities t; t_next_fire_at := next_fire_at;
     t_last_fired_at := last_fired_at; t_created_at := t_created_at t; t_updated_at := now |}.

Definition set_fired (next_fire_at now : Z) (t : TriggerRecord) : TriggerRecord :=
  set_schedule next_fire_at (Some now) 0 None now t.
Definition set_fired_now (now : Z) (t : TriggerRecord) : TriggerRecord := set_fired (t_next_fire_at t) now t.
Definition set_rescheduled (next_fire_at now : Z) (t : TriggerRecord) : TriggerRecord :=
  set_schedule next_fire_at (t_last_fired_at t) (t_consecutive_failures t) None now t.
Definition set_trigger_dead_lettered (reason : string) (now : Z) (t : TriggerRecord) : TriggerRecord :=
  set_schedule (t_next_fire_at t) (t_last_fired_at t) (t_consecutive_failures t) (Some (now, reason)) now t.

Definition set_event_processed (now : Z) (e : trigger_event) : trigger_event :=
  {| te_id := te_id e; te_trigger_id := te_trigger_id e; te_tenant_id := te_tenant_id e;
     te_event_id := te_event_id e; te_semantic_dedupe_key := te_semantic_dedupe_key e;
     te_payload_json := te_payload_json e; te_status := "processed"; te_attempts := te_attempts e + 1;
     te_next_attempt_at := now; te_last_error_json := te_last_error_json e;
     te_created_at := te_created_at e; te_processed_at := Some now;
     te_dead_lettered_at := te_dead_lettered_at e |}.

Definition set_event_failed (dead_letter : bool) (error : json) (now : Z) (e : trigger_event) : trigger_event :=
  {| te_id := te_id e; te_trigger_id := te_trigger_id e; te_tenant_id := te_tenant_id e;
     te_event_id := te_event_id e; te_semantic_dedupe_key := te_semantic_dedupe_key e;
     te_payload_json := te_payload_json e;
     te_status := if dead_letter then "dead_lettered" else "pending"; te_attempts := te_attempts e + 1;
     te_next_attempt_at := if dead_letter then now else now + 30 * second;
     te_last_error_json := Some error; te_created_at := te_created_at e;
     te_processed_at := te_processed_at e;
     te_dead_lettered_at := if dead_letter then Some now else None |}.

Definition created_row (id trigger_id run_id : Uuid) (scheduled_for : Z) (key : string) (now : Z) : trigger_run :=
  {| tn_id := id; tn_trigger_id := trigger_id; tn_run_id := Some run_id; tn_scheduled_for := scheduled_for;
     tn_status := "created"; tn_dedupe_key := key; tn_error_json := None; tn_created_at := now |}.

Definition failed_row (id trigger_id : Uuid) (scheduled_for : Z) (key : string) (error : json) (now : Z)
    : trigger_run :=
  {| tn_id := id; tn_trigger_id := trigger_id; tn_run_id := None; tn_scheduled_for := scheduled_for;
     tn_status := "failed"; tn_dedupe_key := key; tn_error_json := Some error; tn_created_at := now |}.

(** [scheduled_for.unix_timestamp_nanos().to_string()] *)
Definition schedule_key (scheduled_for : Z) : string := pretty (scheduled_for * 1000).

Definition dispatch_record (t : TriggerRecord) (ty : string) (event : option string) (run_id : Uuid)
    (scheduled_for next_fire_at : Z) : TriggerDispatchRecord :=
  {| td_trigger_id := t_id t; td_trigger_type := ty; td_trigger_event_id := event; td_run_id := run_id;
     td_tenant_id := t_tenant_id t; td_agent_id := t_agent_id t;
     td_triggered_by_user_id := t_triggered_by_user_id t; td_recipe_id := t_recipe_id t;
     td_scheduled_for := scheduled_for; td_next_fire_at := next_fire_at |}.

(** * Candidates *)

(** [COUNT] of the join of [trigger_runs] with the active runs, and of the active
    runs of a tenant. *)
Definition count_inflight_runs_for_trigger (id : Uuid) (s : tdb) : Z :=
  countb (fun tr => (tn_trigger_id tr =? id) &&
            match tn_run_id tr with
            | Some run_id => existsb (fun r => (r_id r =? run_id) && is_active r) (db_runs (tb_core s))
            | None => false end)
    (trigger_runs_of s).

Definition count_inflight_runs_for_tenant (tenant_id : string) (s : tdb) : Z :=
  count_tenant_inflight_runs tenant_id (tb_core s).

(** Below both caps. *)
Definition has_capacity (tenant_max : Z) (s : tdb) (t : TriggerRecord) : bool :=
  (count_inflight_runs_for_trigger (t_id t) s <? t_max_inflight_runs t) &&
  (count_inflight_runs_for_tenant (t_tenant_id t) s <? Z.max tenant_max 1).

(** [status = 'enabled' AND dead_lettered_at IS NULL] *)
Definition live_trigger (t : TriggerRecord) : bool :=
  String.eqb (t_status t) "enabled" && bool_decide (t_dead_lettered_at t = None).

Section candidates.
Context `{Engine}.

Definition due_trigger (ty : string) (now tenant_max : Z) (s : tdb) (t : TriggerRecord) : bool :=
  live_trigger t && String.eqb (t_trigger_type t) ty && ts_le (t_next_fire_at t) now &&
  has_capacity tenant_max s t.

Definition trigger_rank (now : Z) (t : TriggerRecord) : Z :=
  class_rank now (t_next_fire_at t) (queue_class (t_input_json t)).

(** Rank, then time, then [tie]. *)
Definition by_rank {A} (rank : A -> Z) (time : A -> Z) (tie : A -> Z) (a b : A) : bool :=
  (rank a <? rank b) ||
  ((rank a =? rank b) &&
   ((ts_key (time a) <? ts_key (time b)) ||
    ((ts_key (time a) =? ts_key (time b)) && (tie a <=? tie b)))).

Definition due_triggers (ty : string) (tie : TriggerRecord -> Z) (now tenant_max : Z) (locked : Uuid -> bool)
    (s : tdb) : list TriggerRecord :=
  order_by (by_rank (trigger_rank now) t_next_fire_at tie)
    (List.filter (fun t => due_trigger ty now tenant_max s t && negb (locked (t_id t))) (triggers_of s)).

(** The join of the events with their triggers. *)
Definition due_event (now tenant_max : Z) (s : tdb) (p : trigger_event * TriggerRecord) : bool :=
  String.eqb (te_status p.1) "pending" && ts_le (te_next_attempt_at p.1) now &&
  live_trigger p.2 && String.eqb (t_trigger_type p.2) "webhook" && has_capacity tenant_max s p.2.

Definition event_rank (now : Z) (p : trigger_event * TriggerRecord) : Z :=
  class_rank now (te_created_at p.1) (queue_class (t_input_json p.2)).

Definition events_with_triggers (s : tdb) : list (trigger_event * TriggerRecord) :=
  omap (fun e => pair e <$> List.find (fun t => t_id t =? te_trigger_id e) (triggers_of s))
    (trigger_events_of s).

Definition due_events (now tenant_max : Z) (locked : Uuid -> bool) (s : tdb)
    : list (trigger_event * TriggerRecord) :=
  order_by (by_rank (event_rank now) (fun p => te_created_at p.1) (fun p => te_id p.1))
    (List.filter (fun p => due_event now tenant_max s p && negb (locked (te_id p.1) || locked (t_id p.2)))
       (events_with_triggers s)).
End candidates.

(** * PostgreSQL *)

Definition MAX_EVENT_PAYLOAD_BYTES : Z := 64 * 1024.

Definition payload_too_large : json :=
  trigger_error_payload "EVENT_PAYLOAD_TOO_LARGE" "webhook trigger event payload exceeded 64KB"
    TRIGGER_ERROR_CLASS_EVENT_PAYLOAD.

Section dispatch.
Context (sc : schedules) (jitter_hash : Uuid -> Z -> Z) (to_vec : json -> string)
        (uuid_text : Uuid -> string).

Definition webhook_input (t : TriggerRecord) (e : trigger_event) (run_id : Uuid) : json :=
  inject_trace_id
    (merge_json_objects (t_input_json t)
       (jobject [("_trigger", jobject [("type", JStr "webhook"); ("trigger_id", JStr (uuid_text (t_id t)));
                                       ("event_id", JStr (te_event_id e))]);
                 ("event_payload", te_payload_json e)]))
    (uuid_text run_id).

Definition manual_input (t : TriggerRecord) (key : string) (payload : option json) : json :=
  merge_json_objects (t_input_json t)
    (jobject [("_trigger", jobject [("type", JStr "manual"); ("trigger_id", JStr (uuid_text (t_id t)));
                                    ("idempotency_key", JStr key)]);
              ("manual_payload", default JNull payload)]).

Definition this_trigger (id : Uuid) (t : TriggerRecord) : bool := t_id t =? id.
Definition this_event (id : Uuid) (e : trigger_event) : bool := te_id e =? id.

Definition update_event (p : trigger_event -> bool) (f : trigger_event -> trigger_event) (s : tdb) : tdb * Z :=
  let '(rows, n) := update_where p f (trigger_events_of s) in (with_trigger_events s rows, n).

(** The misfire policy [skip] passes over a trigger that is a whole interval late. *)
Definition misfired (t : TriggerRecord) (interval wall : Z) : bool :=
  String.eqb (t_misfire_policy t) "skip" && (interval <=? wall - t_next_fire_at t).

Definition misfire_error : json :=
  trigger_error_payload "MISFIRE_SKIPPED" "interval trigger misfire skipped" TRIGGER_ERROR_CLASS_TRIGGER_POLICY.

Section postgres.
Context (text : json -> string) (pg_ts_max : Z).
#[local] Instance pg : Engine := PgEngine text pg_ts_max.

(** The run, the trigger's row and the ledger row of a scheduled trigger. *)
Definition fire_scheduled (now : Z) (t : TriggerRecord) (ty : string) (next_fire_at : Z) (run_id row_id : Uuid)
    (s : tdb) : result (tdb * option TriggerDispatchRecord) db_error :=
  let? s := insert_triggered_run now (triggered_run t run_id (t_input_json t)) s in
  let s := (update_trigger (this_trigger (t_id t)) (set_fired next_fire_at now) s).1 in
  let? s := insert_trigger_run
              (created_row row_id (t_id t) run_id (t_next_fire_at t) (schedule_key (t_next_fire_at t)) now) s in
  Ok (s, Some (dispatch_record t ty None run_id (t_next_fire_at t) next_fire_at)).

Definition dispatch_next_due_interval_trigger_with_limits (wall now : Z) (locked : Uuid -> bool)
    (run_id row_id : Uuid) (tenant_max : Z) (s : tdb) : result (tdb * option TriggerDispatchRecord) db_error :=
  match due_triggers "interval" t_created_at now tenant_max locked s with
  | [] => Ok (s, None)
  | t :: _ =>
      let? interval_seconds := ok_or (t_interval_seconds t) ColumnDecode in
      let interval := interval_seconds * second in
      if misfired t interval wall then
        let next := apply_jitter jitter_hash (wall + interval) (t_id t) (t_jitter_seconds t) wall in
        let s := (update_trigger (this_trigger (t_id t)) (set_rescheduled next now) s).1 in
        let? s := insert_trigger_run (failed_row row_id (t_id t) (t_next_fire_at t)
                    (schedule_key (t_next_fire_at t)) misfire_error now) s in
        Ok (s, None)
      else
        fire_scheduled now t "interval"
          (apply_jitter jitter_hash (t_next_fire_at t + interval) (t_id t) (t_jitter_seconds t) wall)
          run_id row_id s
  end.

Definition cron_error (message : string) : json :=
  trigger_error_payload "CRON_COMPUTE_FAILED" message TRIGGER_ERROR_CLASS_SCHEDULE.

(** The first instant of the schedule after the one that fires. *)
Definition cron_next (t : TriggerRecord) (cron_expression : string) : result Z string :=
  let? value := next_cron_fire_at sc cron_expression (t_schedule_timezone t) (t_next_fire_at t) in
  Ok (apply_jitter jitter_hash value (t_id t) (t_jitter_seconds t) (t_next_fire_at t)).

Definition dispatch_next_due_cron_trigger (now : Z) (locked : Uuid -> bool) (run_id row_id : Uuid)
    (tenant_max : Z) (s : tdb) : result (tdb * option TriggerDispatchRecord) db_error :=
  match due_triggers "cron" t_created_at now tenant_max locked s with
  | [] => Ok (s, None)
  | t :: _ =>
      let? cron_expression := ok_or (t_cron_expression t) ColumnDecode in
      match cron_next t cron_expression with
      | Err message =>
          let s := (update_trigger (this_trigger (t_id t))
                      (set_trigger_dead_lettered ("SCHEDULE_COMPUTE_FAILED: " +:+ message) now) s).1 in
          let? s := insert_trigger_run (failed_row row_id (t_id t) (t_next_fire_at t)
                      (schedule_key (t_next_fire_at t)) (cron_error message) now) s in
          Ok (s, None)
      | Ok next => fire_scheduled now t "cron" next run_id row_id s
      end
  end.

Definition event_too_large (e : trigger_event) : bool := MAX_EVENT_PAYLOAD_BYTES <? len (to_vec (te_payload_json e)).

Definition reject_event (wall now : Z) (e : trigger_event) (t : TriggerRecord) (row_id : Uuid) (s : tdb)
    : result (tdb * option TriggerDispatchRecord) db_error :=
  let dead_letter := t_max_attempts t <=? te_attempts e + 1 in
  let s := (update_event (this_event (te_id e)) (set_event_failed dead_letter payload_too_large now) s).1 in
  let? s := insert_trigger_run (failed_row row_id (t_id t) wall (te_event_id e) payload_too_large now) s in
  Ok (s, None).

Definition fire_event (wall now : Z) (e : trigger_event) (t : TriggerRecord) (run_id row_id : Uuid) (s : tdb)
    : result (tdb * option TriggerDispatchRecord) db_error :=
  let? s := insert_triggered_run now (triggered_run t run_id (webhook_input t e run_id)) s in
  let s := (update_event (this_event (te_id e)) (set_event_processed now) s).1 in
  let s := (update_trigger (this_trigger (t_id t)) (set_fired_now now) s).1 in
  let? s := insert_trigger_run (created_row row_id (t_id t) run_id wall (te_event_id e) now) s in
  Ok (s, Some (dispatch_record t "webhook" (Some (te_event_id e)) run_id wall wall)).

Definition dispatch_next_due_webhook_event (wall now : Z) (locked : Uuid -> bool) (run_id row_id : Uuid)
    (tenant_max : Z) (s : tdb) : result (tdb * option TriggerDispatchRecord) db_error :=
  match due_events now tenant_max locked s with
  | [] => Ok (s, None)
  | (e, t) :: _ =>
      if event_too_large e then reject_event wall now e t row_id s
      else fire_event wall now e t run_id row_id s
  end.

Definition manual_key (idempotency_key : string) : string := "manual:" +:+ idempotency_key.

(** The row is locked first, so that a concurrent dispatch of the trigger waits. *)
Definition fire_trigger_manually_with_limits (wall now : Z) (tenant_id : string) (trigger_id : Uuid)
    (key : string) (payload : option json) (tenant_max : Z) (run_id row_id : Uuid) (s : tdb)
    : result (tdb * ManualTriggerFireOutcome) db_error :=
  match List.find (fun t => owned_trigger tenant_id trigger_id t && live_trigger t) (triggers_of s) with
  | None => Ok (s, TriggerUnavailable)
  | Some t =>
      match List.find (same_dedupe_key trigger_id (manual_key key)) (trigger_runs_of s) with
      | Some r => Ok (s, FireDuplicate (tn_run_id r))
      | None =>
          if (t_max_inflight_runs t <=? count_inflight_runs_for_trigger trigger_id s) ||
             (Z.max tenant_max 1 <=? count_inflight_runs_for_tenant (t_tenant_id t) s)
          then Ok (s, InflightLimited)
          else
            let input := inject_trace_id (manual_input t key payload) (uuid_text run_id) in
            let? s := insert_triggered_run now (triggered_run t run_id input) s in
            let s := (update_trigger (this_trigger trigger_id) (set_fired_now now) s).1 in
            let? s := insert_trigger_run (created_row row_id trigger_id run_id wall (manual_key key) now) s in
            Ok (s, FireCreated (dispatch_record t "manual" (Some key) run_id wall (t_next_fire_at t)))
      end
  end.
End postgres.

(** * SQLite *)

(** One writer at a time, so nothing is locked; the statements that move a row
    check again what the query found. *)
Section sqlite.
Context `{Engine}.

(** [status = 'enabled' AND dead_lettered_at IS NULL AND next_fire_at = ?3] *)
Definition reserved (t x : TriggerRecord) : bool :=
  this_trigger (t_id t) x && live_trigger x && (t_next_fire_at x =? t_next_fire_at t).

Definition pending_row (id : Uuid) (e : trigger_event) : bool :=
  this_event id e && String.eqb (te_status e) "pending".

(** The [UPDATE] that reserves the instant, then the run and the ledger row. *)
Definition fire_scheduled_sqlite (now : Z) (t : TriggerRecord) (ty : string) (next_fire_at : Z)
    (run_id row_id : Uuid) (s : tdb) : result (tdb * option TriggerDispatchRecord) db_error :=
  let '(s', n) := update_trigger (reserved t) (set_fired next_fire_at (current_timestamp now)) s in
  if negb (n =? 1) then Ok (s', None)
  else
    let input := inject_trace_id (t_input_json t) (uuid_text run_id) in
    let? s' := insert_triggered_run (current_timestamp now) (triggered_run t run_id input) s' in
    let? s' := insert_trigger_run (created_row row_id (t_id t) run_id (t_next_fire_at t)
                 (schedule_key (t_next_fire_at t)) (current_timestamp now)) s' in
    Ok (s', Some (dispatch_record t ty None run_id (t_next_fire_at t) next_fire_at)).

(** The [UPDATE] of a trigger that does not fire, and its ledger row. *)
Definition skip_scheduled_sqlite (now : Z) (t : TriggerRecord) (f : TriggerRecord -> TriggerRecord)
    (error : json) (row_id : Uuid) (s : tdb) : result (tdb * option TriggerDispatchRecord) db_error :=
  let '(s', n) := update_trigger (reserved t) f s in
  let? s' := (if n =? 1 then
                insert_trigger_run (failed_row row_id (t_id t) (t_next_fire_at t)
                  (schedule_key (t_next_fire_at t)) error (current_timestamp now)) s'
              else Ok s') in
  Ok (s', None).

Definition dispatch_next_due_interval_trigger_with_limits_sqlite (wall now : Z) (run_id row_id : Uuid)
    (tenant_max : Z) (s : tdb) : result (tdb * option TriggerDispatchRecord) db_error :=
  match due_triggers "interval" t_id now tenant_max (fun _ => false) s with
  | [] => Ok (s, None)
  | t :: _ =>
      let? interval_seconds := ok_or (t_interval_seconds t) ColumnDecode in
      let interval := interval_seconds * second in
      if misfired t interval wall then
        skip_scheduled_sqlite now t
          (set_rescheduled (apply_jitter jitter_hash (wall + interval) (t_id t) (t_jitter_seconds t) wall)
             (current_timestamp now))
          misfire_error row_id s
      else
        fire_scheduled_sqlite now t "interval"
          (apply_jitter jitter_hash (t_next_fire_at t + interval) (t_id t) (t_jitter_seconds t) wall)
          run_id row_id s
  end.

Definition dispatch_next_due_cron_trigger_sqlite (now : Z) (run_id row_id : Uuid) (tenant_max : Z) (s : tdb)
    : result (tdb * option TriggerDispatchRecord) db_error :=
  match due_triggers "cron" t_id now tenant_max (fun _ => false) s with
  | [] => Ok (s, None)
  | t :: _ =>
      let? cron_expression := ok_or (t_cron_expression t) ColumnDecode in
      match cron_next t cron_expression with
      | Err message =>
          skip_scheduled_sqlite now t
            (set_trigger_dead_lettered ("SCHEDULE_COMPUTE_FAILED: " +:+ message) (current_timestamp now))
            (cron_error message) row_id s
      | Ok next => fire_scheduled_sqlite now t "cron" next run_id row_id s
      end
  end.

Definition reject_event_sqlite (wall now : Z) (e : trigger_event) (t : TriggerRecord) (row_id : Uuid)
    (s : tdb) : result (tdb * option TriggerDispatchRecord) db_error :=
  let dead_letter := t_max_attempts t <=? te_attempts e + 1 in
  let '(s', n) := update_event (pending_row (te_id e))
                    (set_event_failed dead_letter payload_too_large (current_timestamp now)) s in
  let? s' := (if n =? 1 then
                insert_trigger_run (failed_row row_id (t_id t) wall (te_event_id e) payload_too_large
                  (current_timestamp now)) s'
              else Ok s') in
  Ok (s', None).

Definition fire_event_sqlite (wall now : Z) (e : trigger_event) (t : TriggerRecord) (run_id row_id : Uuid)
    (s : tdb) : result (tdb * option TriggerDispatchRecord) db_error :=
  let '(s', n) := update_event (pending_row (te_id e)) (set_event_processed (current_timestamp now)) s in
  if negb (n =? 1) then Ok (s', None)
  else
    let? s' := insert_triggered_run (current_timestamp now)
                 (triggered_run t run_id (webhook_input t e run_id)) s' in
    let s' := (update_trigger (this_trigger (t_id t)) (set_fired_now (current_timestamp now)) s').1 in
    let? s' := insert_trigger_run
                 (created_row row_id (t_id t) run_id wall (te_event_id e) (current_timestamp now)) s' in
    Ok (s', Some (dispatch_record t "webhook" (Some (te_event_id e)) run_id wall wall)).

Definition dispatch_next_due_webhook_event_sqlite (wall now : Z) (run_id row_id : Uuid) (tenant_max : Z)
    (s : tdb) : result (tdb * option TriggerDispatchRecord) db_error :=
  match due_events now tenant_max (fun _ => false) s with
  | [] => Ok (s, None)
  | (e, t) :: _ =>
      if event_too_large e then reject_event_sqlite wall now e t row_id s
      else fire_event_sqlite wall now e t run_id row_id s
  end.
End sqlite.

(** * Either backend *)

(** What one transaction of the dispatch reads beside the tables. *)
Record dispatch_input := {
  di_wall : Z; di_now : Z; di_locked : Uuid -> bool; di_run_id : Uuid; di_row_id : Uuid;
  di_tenant_max : Z;
}.

Inductive trigger_kind := WebhookKind | CronKind | IntervalKind.

(** The transaction for one kind of trigger. *)
Definition dispatch_kind_dual (pool : DbPool) (k : trigger_kind) (i : dispatch_input) (s : tdb)
    : result (tdb * option TriggerDispatchRecord) db_error :=
  let '(wall, now, run_id, row_id, tenant_max) :=
    (di_wall i, di_now i, di_run_id i, di_row_id i, di_tenant_max i) in
  match pool, k with
  | Postgres text tmax, WebhookKind =>
      dispatch_next_due_webhook_event text tmax wall now (di_locked i) run_id row_id tenant_max s
  | Postgres text tmax, CronKind =>
      dispatch_next_due_cron_trigger text tmax now (di_locked i) run_id row_id tenant_max s
  | Postgres text tmax, IntervalKind =>
      dispatch_next_due_interval_trigger_with_limits text tmax wall now (di_locked i) run_id row_id tenant_max s
  | Sqlite E, WebhookKind => dispatch_next_due_webhook_event_sqlite wall now run_id row_id tenant_max s
  | Sqlite E, CronKind => dispatch_next_due_cron_trigger_sqlite now run_id row_id tenant_max s
  | Sqlite E, IntervalKind =>
      dispatch_next_due_interval_trigger_with_limits_sqlite wall now run_id row_id tenant_max s
  end.

(** * Requests on SQLite *)

(** Whether the process has the SQLite state, and with it the SQLite handlers. *)
Definition on_sqlite (pool : DbPool) : bool := match pool with Sqlite _ => true | Postgres _ _ => false end.

(** The [INSERT] of the handlers, which has no check of the schedule. *)
Definition insert_trigger_sqlite (t : TriggerRecord) (s : tdb) : result (tdb * TriggerRecord) db_error :=
  let? _ := ensure (trigger_row_ok t) CheckViolation in insert_trigger t s.

(** The [UPDATE] of the configuration keeps the next instant. *)
Definition write_trigger_config_sqlite (now : Z) (tenant_id : string) (trigger_id : Uuid)
    (m : UpdateTriggerParams) (s : tdb) : result (tdb * option TriggerRecord) db_error :=
  let f t := set_trigger_config m (t_next_fire_at t) (current_timestamp now) t in
  let row := f <$> get_trigger tenant_id trigger_id s in
  let? _ := ensure (match row with Some t => trigger_row_ok t | None => true end) CheckViolation in
  Ok ((update_trigger (owned_trigger tenant_id trigger_id) f s).1, row).

Definition dead_lettered_event (trigger_id : Uuid) (event_id : string) (e : trigger_event) : bool :=
  (te_trigger_id e =? trigger_id) && String.eqb (te_event_id e) event_id &&
  String.eqb (te_status e) TRIGGER_EVENT_STATUS_DEAD_LETTERED.

(** The replay: one guarded [UPDATE]. *)
Definition requeue_event_sqlite (now : Z) (trigger_id : Uuid) (event_id : string) (s : tdb) : tdb * Z :=
  update_event (dead_lettered_event trigger_id event_id) (set_event_requeued (current_timestamp now)) s.

(** The manual firing: the key as it is, no caps, the trigger as the handler read it.
    A ledger row without a run does not decode.  The handler words the error of each
    statement differently; one wording stands for them. *)
Definition fire_manually_sqlite (wall now : Z) (t : TriggerRecord) (key : string) (payload : option json)
    (run_id row_id : Uuid) (s : tdb) : result (tdb * ManualTriggerFireOutcome) db_error :=
  match List.find (same_dedupe_key (t_id t) key) (trigger_runs_of s) with
  | Some r => let? run := ok_or (tn_run_id r) ColumnDecode in Ok (s, FireDuplicate (Some run))
  | None =>
      let at_ := current_timestamp now in
      let? s := insert_triggered_run at_ (triggered_run t run_id (manual_input t key payload)) s in
      let? s := insert_trigger_run (created_row row_id (t_id t) run_id wall key at_) s in
      let s := (update_trigger (this_trigger (t_id t)) (set_fired_now at_) s).1 in
      Ok (s, FireCreated (dispatch_record t "manual" (Some key) run_id wall (t_next_fire_at t)))
  end.
End dispatch.
