(* ===== verification/TriggerSpec.v ===== *)
(** What a dispatch of triggers promises, once for both backends: a decision,
    which only reads the tables, followed by its writes.  The transactions of
    [TriggerDispatch] are equal to it, so that the properties of dispatching are
    proved about the decision and the writes. *)
From S2P Require Import Prelude RustStr Json Sql Runs RunQueue TriggerTables TriggerDispatch.

(** * The differences between the backends *)

(** How instants and JSON compare, the last key of the order of triggers, whether
    rows can be locked by others, whether a scheduled run is given a trace id,
    and the instant that the statements store. *)
Record backend := {
  bk_engine : Engine;
  bk_tie : TriggerRecord -> Z;
  bk_locks : bool;
  bk_trace : bool;
  bk_stamp : Z -> Z;
}.

Definition backend_of (pool : DbPool) : backend :=
  match pool with
  | Postgres text tmax =>
      {| bk_engine := PgEngine text tmax; bk_tie := t_created_at; bk_locks := true; bk_trace := false;
         bk_stamp := fun now => now |}
  | Sqlite E =>
      {| bk_engine := E; bk_tie := t_id; bk_locks := false; bk_trace := true;
         bk_stamp := current_timestamp |}
  end.

(** * Decisions *)

(** A run of [f_trigger]: its input, the columns of the trigger it sets, the key
    and the instant of its ledger row. *)
Record firing := {
  f_trigger : TriggerRecord; f_type : string; f_event : option trigger_event; f_input : json;
  f_key : string; f_scheduled : Z; f_next : Z; f_set : Z -> TriggerRecord -> TriggerRecord;
}.

(** A failure of [x_trigger]: what becomes of its event or of its row, and the
    ledger row that reports it. *)
Record failure := {
  x_trigger : TriggerRecord; x_event : option (trigger_event * bool);
  x_set : option (Z -> TriggerRecord -> TriggerRecord);
  x_key : string; x_scheduled : Z; x_error : json;
}.

Inductive decision := NothingDue | Fire (f : firing) | Reject (x : failure).

Section decide.
Context (sc : schedules) (jitter_hash : Uuid -> Z -> Z) (to_vec : json -> string)
        (uuid_text : Uuid -> string).
Context (pool : DbPool) (i : dispatch_input).
#[local] Abbreviation bk := (backend_of pool).
#[local] Instance spec_engine : Engine := bk_engine (backend_of pool).

Definition spec_locked (id : Uuid) : bool := bk_locks bk && di_locked i id.

Definition scheduled_input (t : TriggerRecord) : json :=
  if bk_trace bk then inject_trace_id (t_input_json t) (uuid_text (di_run_id i)) else t_input_json t.

Definition fire_at (t : TriggerRecord) (ty : string) (next : Z) : decision :=
  Fire {| f_trigger := t; f_type := ty; f_event := None; f_input := scheduled_input t;
          f_key := schedule_key (t_next_fire_at t); f_scheduled := t_next_fire_at t; f_next := next;
          f_set := set_fired next |}.

Definition skip_at (t : TriggerRecord) (error : json) (set : Z -> TriggerRecord -> TriggerRecord) : decision :=
  Reject {| x_trigger := t; x_event := None; x_set := Some set; x_key := schedule_key (t_next_fire_at t);
            x_scheduled := t_next_fire_at t; x_error := error |}.

Definition decide_interval (t : TriggerRecord) : result decision db_error :=
  let? interval_seconds := ok_or (t_interval_seconds t) ColumnDecode in
  let interval := interval_seconds * second in
  let jittered base := apply_jitter jitter_hash base (t_id t) (t_jitter_seconds t) (di_wall i) in
  Ok (if misfired t interval (di_wall i)
      then skip_at t misfire_error (set_rescheduled (jittered (di_wall i + interval)))
      else fire_at t "interval" (jittered (t_next_fire_at t + interval))).

Definition decide_cron (t : TriggerRecord) : result decision db_error :=
  let? cron_expression := ok_or (t_cron_expression t) ColumnDecode in
  Ok match cron_next sc jitter_hash t cron_expression with
     | Err m => skip_at t (cron_error m) (set_trigger_dead_lettered ("SCHEDULE_COMPUTE_FAILED: " +:+ m))
     | Ok next => fire_at t "cron" next
     end.

Definition decide_event (e : trigger_event) (t : TriggerRecord) : decision :=
  if event_too_large to_vec e then
    Reject {| x_trigger := t; x_event := Some (e, t_max_attempts t <=? te_attempts e + 1); x_set := None;
              x_key := te_event_id e; x_scheduled := di_wall i; x_error := payload_too_large |}
  else
    Fire {| f_trigger := t; f_type := "webhook"; f_event := Some e;
            f_input := webhook_input uuid_text t e (di_run_id i); f_key := te_event_id e;
            f_scheduled := di_wall i; f_next := di_wall i; f_set := set_fired_now |}.

Definition decide_trigger (k : trigger_kind) (s : tdb) : result decision db_error :=
  let due ty := due_triggers ty (bk_tie bk) (di_now i) (di_tenant_max i) spec_locked s in
  match k with
  | IntervalKind => match due "interval" with t :: _ => decide_interval t | [] => Ok NothingDue end
  | CronKind => match due "cron" with t :: _ => decide_cron t | [] => Ok NothingDue end
  | WebhookKind =>
      match due_events (di_now i) (di_tenant_max i) spec_locked s with
      | (e, t) :: _ => Ok (decide_event e t)
      | [] => Ok NothingDue
      end
  end.

(** * Their writes *)

Definition stamp : Z := bk_stamp bk (di_now i).

Definition write_fire (f : firing) (s : tdb) : result (tdb * option TriggerDispatchRecord) db_error :=
  let t := f_trigger f in
  let? s := insert_triggered_run stamp (triggered_run t (di_run_id i) (f_input f)) s in
  let s := match f_event f with
           | Some e => (update_event (this_event (te_id e)) (set_event_processed stamp) s).1
           | None => s end in
  let s := (update_trigger (this_trigger (t_id t)) (f_set f stamp) s).1 in
  let? s := insert_trigger_run
              (created_row (di_row_id i) (t_id t) (di_run_id i) (f_scheduled f) (f_key f) stamp) s in
  Ok (s, Some (dispatch_record t (f_type f) (te_event_id <$> f_event f) (di_run_id i) (f_scheduled f)
                 (f_next f))).

Definition write_reject (x : failure) (s : tdb) : result (tdb * option TriggerDispatchRecord) db_error :=
  let s := match x_event x with
           | Some (e, dead) => (update_event (this_event (te_id e)) (set_event_failed dead (x_error x) stamp) s).1
           | None => s end in
  let s := match x_set x with
           | Some set => (update_trigger (this_trigger (t_id (x_trigger x))) (set stamp) s).1
           | None => s end in
  let? s := insert_trigger_run
              (failed_row (di_row_id i) (t_id (x_trigger x)) (x_scheduled x) (x_key x) (x_error x) stamp) s in
  Ok (s, None).

Definition write (d : decision) (s : tdb) : result (tdb * option TriggerDispatchRecord) db_error :=
  match d with NothingDue => Ok (s, None) | Fire f => write_fire f s | Reject x => write_reject x s end.

Definition dispatch_spec (k : trigger_kind) (s : tdb) : result (tdb * option TriggerDispatchRecord) db_error :=
  let? d := decide_trigger k s in write d s.
End decide.

(** * What is due *)

Section due.
Context `{Engine}.

Lemma elem_of_due_triggers ty tie now tenant_max locked s t :
  t ∈ due_triggers ty tie now tenant_max locked s ->
  t ∈ triggers_of s /\ due_trigger ty now tenant_max s t = true.
Proof.
  unfold due_triggers. rewrite elem_of_order_by. intros [Ht Hd]%elem_of_filterb. bool_hyps. done.
Qed.

Lemma elem_of_events_with_triggers s e t : (e, t) ∈ events_with_triggers s ->
  e ∈ trigger_events_of s /\ t ∈ triggers_of s /\ t_id t = te_trigger_id e.
Proof.
  unfold events_with_triggers. intros (x & Hx & Hf)%list_elem_of_omap.
  apply fmap_Some in Hf as (t' & Hf & E). injection E as -> ->. apply find_some in Hf as [Hin Hid].
  bool_hyps. split_and!; [done|by apply list_elem_of_In|done].
Qed.

Lemma elem_of_due_events now tenant_max locked s e t :
  (e, t) ∈ due_events now tenant_max locked s ->
  e ∈ trigger_events_of s /\ t ∈ triggers_of s /\ t_id t = te_trigger_id e /\
  due_event now tenant_max s (e, t) = true.
Proof.
  unfold due_events. rewrite elem_of_order_by. intros [(? & ? & ?)%elem_of_events_with_triggers Hd]%elem_of_filterb.
  bool_hyps. done.
Qed.
End due.

(** The tables as the constraints of the schema keep them. *)
Definition tables_inv (s : tdb) : Prop :=
  ids_distinct t_id (triggers_of s) /\ ids_distinct te_id (trigger_events_of s).

(** A guarded [UPDATE] of one row that satisfies the guard is the unguarded one. *)
Lemma update_guarded {A} (row_id : A -> Uuid) (p q : A -> bool) (f : A -> A) rows r :
  ids_distinct row_id rows -> r ∈ rows -> p r = true ->
  (forall x, p x = true -> q x = true) -> (forall x, q x = true -> row_id x = row_id r) ->
  update_where p f rows = ((update_where q f rows).1, 1).
Proof.
  intros Hd Hr Hp Hpq Hq.
  assert (forall x, x ∈ rows -> p x = q x) as Heq.
  { intros x Hx. destruct (q x) eqn:Q; [|by destruct (p x) eqn:P; [rewrite (Hpq x P) in Q|]].
    by rewrite (ids_distinct_inj row_id rows x r Hd Hx Hr (Hq x Q)). }
  unfold update_where. f_equal.
  - apply map_ext_in. intros x Hx. by rewrite Heq by by apply list_elem_of_In.
  - apply Z.le_antisymm.
    + apply (ids_distinct_count row_id); [done|]. intros a b Ha Hb Pa Pb.
      by rewrite (Hq a), (Hq b) by by apply Hpq.
    + apply (countb_pos _ _ r); done.
Qed.

(** * The transactions are equal to it *)

Section equal.
Context (sc : schedules) (jitter_hash : Uuid -> Z -> Z) (to_vec : json -> string)
        (uuid_text : Uuid -> string).
#[local] Abbreviation spec := (dispatch_spec sc jitter_hash to_vec uuid_text).
#[local] Abbreviation dual_dispatch := (dispatch_kind_dual sc jitter_hash to_vec uuid_text).

Lemma postgres_spec text tmax k i s : dual_dispatch (Postgres text tmax) k i s = spec (Postgres text tmax) i k s.
Proof.
  unfold dispatch_kind_dual, dispatch_spec, decide_trigger. set (pool := Postgres text tmax).
  destruct k; cbn [backend_of bk_tie].
  - unfold dispatch_next_due_webhook_event.
    change (@due_events (spec_engine pool) (di_now i) (di_tenant_max i) (spec_locked pool i) s) with
      (@due_events (PgEngine text tmax) (di_now i) (di_tenant_max i) (di_locked i) s).
    destruct (due_events _ _ _ _) as [|[e t] l]; [done|]. unfold decide_event. cbn.
    by destruct (event_too_large to_vec e).
  - unfold dispatch_next_due_cron_trigger.
    change (@due_triggers (spec_engine pool) "cron" (bk_tie (backend_of pool)) (di_now i)
      (di_tenant_max i) (spec_locked pool i) s) with
      (@due_triggers (PgEngine text tmax) "cron" t_created_at (di_now i) (di_tenant_max i) (di_locked i) s).
    destruct (due_triggers _ _ _ _ _ _) as [|t l]; [done|]. unfold decide_cron.
    destruct (t_cron_expression t) as [c|]; [|done]. cbn.
    by destruct (cron_next sc jitter_hash t c).
  - unfold dispatch_next_due_interval_trigger_with_limits.
    change (@due_triggers (spec_engine pool) "interval" (bk_tie (backend_of pool)) (di_now i)
      (di_tenant_max i) (spec_locked pool i) s) with
      (@due_triggers (PgEngine text tmax) "interval" t_created_at (di_now i) (di_tenant_max i) (di_locked i) s).
    destruct (due_triggers _ _ _ _ _ _) as [|t l]; [done|]. unfold decide_interval.
    destruct (t_interval_seconds t) as [n|]; [|done]. cbn.
    by destruct (misfired t _ _).
Qed.

(** On SQLite the guards of the [UPDATE]s hold, since the query and the [UPDATE]s
    are one transaction of a single writer. *)
Lemma reserved_update (f : TriggerRecord -> TriggerRecord) s t :
  tables_inv s -> t ∈ triggers_of s -> live_trigger t = true ->
  update_trigger (reserved t) f s = ((update_trigger (this_trigger (t_id t)) f s).1, 1).
Proof.
  intros [Hd _] Ht Hl. unfold update_trigger.
  rewrite (update_guarded t_id (reserved t) (this_trigger (t_id t)) f _ t); [done|done|done| | |].
  - unfold reserved, this_trigger. by rewrite Hl, !Z.eqb_refl.
  - intros x Hx. unfold reserved in Hx. by bool_hyps.
  - intros x Hx. unfold this_trigger in Hx. by bool_hyps.
Qed.

Lemma pending_update (f : trigger_event -> trigger_event) s e :
  tables_inv s -> e ∈ trigger_events_of s -> te_status e = "pending" ->
  update_event (pending_row (te_id e)) f s = ((update_event (this_event (te_id e)) f s).1, 1).
Proof.
  intros [_ Hd] He Hp. unfold update_event.
  rewrite (update_guarded te_id (pending_row (te_id e)) (this_event (te_id e)) f _ e); [done|done|done| | |].
  - unfold pending_row, this_event. by rewrite Hp, Z.eqb_refl.
  - intros x Hx. unfold pending_row in Hx. by bool_hyps.
  - intros x Hx. unfold this_event in Hx. by bool_hyps.
Qed.

Lemma fire_scheduled_sqlite_spec E i t ty next s :
  tables_inv s -> t ∈ triggers_of s -> live_trigger t = true ->
  fire_scheduled_sqlite uuid_text (di_now i) t ty next (di_run_id i) (di_row_id i) s =
  write (Sqlite E) i (fire_at uuid_text (Sqlite E) i t ty next) s.
Proof.
  intros Hs Ht Hl. unfold fire_scheduled_sqlite. rewrite (reserved_update _ _ _ Hs Ht Hl). cbn.
  unfold write_fire, stamp, insert_triggered_run. cbn. by destruct (insert_run _ _).
Qed.

Lemma skip_scheduled_sqlite_spec E i t error set s :
  tables_inv s -> t ∈ triggers_of s -> live_trigger t = true ->
  skip_scheduled_sqlite (di_now i) t (set (current_timestamp (di_now i))) error (di_row_id i) s =
  write (Sqlite E) i (skip_at t error set) s.
Proof.
  intros Hs Ht Hl. unfold skip_scheduled_sqlite. by rewrite (reserved_update _ _ _ Hs Ht Hl).
Qed.

Lemma sqlite_spec E k i s : tables_inv s -> dual_dispatch (Sqlite E) k i s = spec (Sqlite E) i k s.
Proof.
  intros Hs. unfold dispatch_kind_dual, dispatch_spec, decide_trigger. set (pool := Sqlite E).
  destruct k; cbn [backend_of bk_tie].
  - unfold dispatch_next_due_webhook_event_sqlite.
    change (@due_events (spec_engine pool) (di_now i) (di_tenant_max i) (spec_locked pool i) s) with
      (@due_events E (di_now i) (di_tenant_max i) (fun _ => false) s).
    destruct (due_events _ _ _ _) as [|[e t] l] eqn:D; [done|].
    destruct (elem_of_due_events (di_now i) (di_tenant_max i) (fun _ => false) s e t) as (He & _ & _ & Hd);
      [rewrite D; left|].
    unfold due_event in Hd. bool_hyps. unfold decide_event. cbn beta iota.
    destruct (event_too_large to_vec e); unfold reject_event_sqlite, fire_event_sqlite;
      rewrite (pending_update _ _ _ Hs He) by (by apply String.eqb_eq); [done|].
    cbn. unfold write_fire, stamp, insert_triggered_run. cbn. by destruct (insert_run _ _).
  - unfold dispatch_next_due_cron_trigger_sqlite.
    change (@due_triggers (spec_engine pool) "cron" (bk_tie (backend_of pool)) (di_now i)
      (di_tenant_max i) (spec_locked pool i) s) with
      (@due_triggers E "cron" t_id (di_now i) (di_tenant_max i) (fun _ => false) s).
    destruct (due_triggers _ _ _ _ _ _) as [|t l] eqn:D; [done|].
    destruct (elem_of_due_triggers "cron" t_id (di_now i) (di_tenant_max i) (fun _ => false) s t) as [Ht Hd];
      [rewrite D; left|].
    unfold due_trigger in Hd. bool_hyps. unfold decide_cron.
    destruct (t_cron_expression t) as [c|]; [|done]. cbn [ok_or].
    destruct (cron_next sc jitter_hash t c);
      [by apply fire_scheduled_sqlite_spec|by apply skip_scheduled_sqlite_spec].
  - unfold dispatch_next_due_interval_trigger_with_limits_sqlite.
    change (@due_triggers (spec_engine pool) "interval" (bk_tie (backend_of pool)) (di_now i)
      (di_tenant_max i) (spec_locked pool i) s) with
      (@due_triggers E "interval" t_id (di_now i) (di_tenant_max i) (fun _ => false) s).
    destruct (due_triggers _ _ _ _ _ _) as [|t l] eqn:D; [done|].
    destruct (elem_of_due_triggers "interval" t_id (di_now i) (di_tenant_max i) (fun _ => false) s t) as [Ht Hd];
      [rewrite D; left|].
    unfold due_trigger in Hd. bool_hyps. unfold decide_interval.
    destruct (t_interval_seconds t) as [n|]; [|done]. cbn [ok_or].
    destruct (misfired t _ _);
      [by apply skip_scheduled_sqlite_spec|by apply fire_scheduled_sqlite_spec].
Qed.

Lemma dispatch_is_spec pool k i s : tables_inv s -> dual_dispatch pool k i s = spec pool i k s.
Proof. destruct pool; [intros _; apply postgres_spec|apply sqlite_spec]. Qed.
End equal.
