(* ===== verification/TriggerProps.v ===== *)
(** What dispatching triggers guarantees: whose authority a fired run carries, that
    an event or an instant fires at most once, that the caps hold, that interval
    triggers advance, and where an oversized event stops the dispatch. *)
From S2P Require Import Prelude RustStr Json Sql Runs RunQueue RunDedupe TriggerTables TriggerDispatch.
From S2P Require Import TriggerSpec.

(** * Decisions *)

Section decisions.
Context (sc : schedules) (jitter_hash : Uuid -> Z -> Z) (to_vec : json -> string)
        (uuid_text : Uuid -> string).
Context (pool : DbPool) (i : dispatch_input).
#[local] Instance decision_engine : Engine := bk_engine (backend_of pool).
#[local] Abbreviation decide_one := (decide_trigger sc jitter_hash to_vec uuid_text pool i).
#[local] Abbreviation spec := (dispatch_spec sc jitter_hash to_vec uuid_text pool i).

(** What holds of the trigger that a decision names. *)
Definition eligible (s : tdb) (t : TriggerRecord) : Prop :=
  t ∈ triggers_of s /\ live_trigger t = true /\ has_capacity (di_tenant_max i) s t = true.

(** What a firing is due to: an event that waits, or the instant of the trigger. *)
Definition due_to (s : tdb) (t : TriggerRecord) (event : option trigger_event) (key : string)
    (scheduled : Z) : Prop :=
  match event with
  | Some e => e ∈ trigger_events_of s /\ te_trigger_id e = t_id t /\ te_status e = "pending" /\
              ts_le (te_next_attempt_at e) (di_now i) = true /\ t_trigger_type t = "webhook" /\
              event_too_large to_vec e = false /\ key = te_event_id e
  | None => ts_le (t_next_fire_at t) (di_now i) = true /\ str_in (t_trigger_type t) ["interval"; "cron"] = true /\
            key = schedule_key (t_next_fire_at t) /\ scheduled = t_next_fire_at t
  end.

Definition may_fire (s : tdb) (f : firing) : Prop :=
  eligible s (f_trigger f) /\ due_to s (f_trigger f) (f_event f) (f_key f) (f_scheduled f).

Lemma due_eligible ty s t l :
  due_triggers ty (bk_tie (backend_of pool)) (di_now i) (di_tenant_max i) (spec_locked pool i) s = t :: l ->
  eligible s t /\ ts_le (t_next_fire_at t) (di_now i) = true /\ t_trigger_type t = ty.
Proof.
  intros D. destruct (elem_of_due_triggers ty (bk_tie (backend_of pool)) (di_now i) (di_tenant_max i)
    (spec_locked pool i) s t) as [Ht Hd]; [rewrite D; left|].
  unfold due_trigger in Hd. bool_hyps. split_and!; try done. by apply String.eqb_eq.
Qed.

Lemma due_event_eligible s e t l :
  due_events (di_now i) (di_tenant_max i) (spec_locked pool i) s = (e, t) :: l ->
  eligible s t /\ e ∈ trigger_events_of s /\ te_trigger_id e = t_id t /\ te_status e = "pending" /\
  ts_le (te_next_attempt_at e) (di_now i) = true /\ t_trigger_type t = "webhook".
Proof.
  intros D. destruct (elem_of_due_events (di_now i) (di_tenant_max i) (spec_locked pool i) s e t)
    as (He & Ht & Hid & Hd); [rewrite D; left|].
  unfold due_event in Hd. bool_hyps. split_and!; try done; by apply String.eqb_eq.
Qed.

Lemma decide_fire k s f : decide_one k s = Ok (Fire f) -> may_fire s f.
Proof.
  unfold decide_trigger, may_fire. destruct k.
  - destruct (due_events _ _ _ _) as [|[e t] l] eqn:D; [done|].
    apply due_event_eligible in D as (Hel & He & Hid & Hp & Hn & Hty). unfold decide_event.
    destruct (event_too_large to_vec e) eqn:L; [done|]. intros [= <-]. by split_and!.
  - destruct (due_triggers _ _ _ _ _ _) as [|t l] eqn:D; [done|].
    apply due_eligible in D as (Hel & Hn & Hty). unfold decide_cron.
    destruct (t_cron_expression t) as [c|]; [|done]. cbn.
    destruct (cron_next _ _ _ _); [|done]. intros [= <-]. cbn. by rewrite Hty.
  - destruct (due_triggers _ _ _ _ _ _) as [|t l] eqn:D; [done|].
    apply due_eligible in D as (Hel & Hn & Hty). unfold decide_interval.
    destruct (t_interval_seconds t) as [c|]; [|done]. cbn.
    destruct (misfired _ _ _); [done|]. intros [= <-]. cbn. by rewrite Hty.
Qed.

(** * Writes *)

(** The columns that say whose authority the runs of a trigger have. *)
Definition same_authority (t t' : TriggerRecord) : Prop :=
  t_id t' = t_id t /\ t_tenant_id t' = t_tenant_id t /\ t_agent_id t' = t_agent_id t /\
  t_triggered_by_user_id t' = t_triggered_by_user_id t /\ t_recipe_id t' = t_recipe_id t /\
  t_input_json t' = t_input_json t /\ t_requested_capabilities t' = t_requested_capabilities t /\
  t_granted_capabilities t' = t_granted_capabilities t.

(** The settings of a trigger that no dispatch changes. *)
Definition keeps_authority (f : TriggerRecord -> TriggerRecord) : Prop := forall t, same_authority t (f t).

Lemma same_authority_update (p : TriggerRecord -> bool) f t : keeps_authority f -> same_authority t (if p t then f t else t).
Proof. intros Hf. destruct (p t); [apply Hf|done]. Qed.

Lemma decided_authority k s d : decide_one k s = Ok d ->
  match d with
  | NothingDue => True
  | Fire f => forall now, keeps_authority (f_set f now)
  | Reject x => forall set now, x_set x = Some set -> keeps_authority (set now)
  end.
Proof.
  unfold decide_trigger. destruct k.
  - destruct (due_events _ _ _ _) as [|[e t] l]; intros [= <-]; [done|]. unfold decide_event.
    by destruct (event_too_large to_vec e).
  - destruct (due_triggers _ _ _ _ _ _) as [|t l]; [by intros [= <-]|]. unfold decide_cron.
    destruct (t_cron_expression t) as [c|]; [|done]. cbn.
    by destruct (cron_next _ _ _ _); intros [= <-]; [|intros set now [= <-]].
  - destruct (due_triggers _ _ _ _ _ _) as [|t l]; [by intros [= <-]|]. unfold decide_interval.
    destruct (t_interval_seconds t) as [c|]; [|done]. cbn.
    by destruct (misfired _ _ _); intros [= <-]; [intros set now [= <-]|].
Qed.


(** The checks of the schema on a row of [triggers]. *)
Definition row_ok (p : DbPool) (t : TriggerRecord) : Prop :=
  trigger_row_ok t && (on_sqlite p || trigger_schedule_ok t) = true.

Definition keeps_checks (f : TriggerRecord -> TriggerRecord) : Prop := forall p t, row_ok p t -> row_ok p (f t).

Lemma set_schedule_checks p next last failures dead now t :
  0 <= failures -> row_ok p t -> row_ok p (set_schedule next last failures dead now t).
Proof.
  unfold row_ok, trigger_row_ok. intros Hf H. cbn. apply andb_true_iff in H as [H Hs].
  apply andb_true_iff. split; [|exact Hs]. apply andb_true_iff in H as [H _].
  apply andb_true_iff. split; [exact H|]. by apply Z.leb_le.
Qed.

Lemma row_ok_failures p t : row_ok p t -> 0 <= t_consecutive_failures t.
Proof. unfold row_ok, trigger_row_ok. intros H. by bool_hyps. Qed.

Lemma decided_checks k s d : decide_one k s = Ok d ->
  match d with
  | NothingDue => True
  | Fire f => forall now, keeps_checks (f_set f now)
  | Reject x => forall set now, x_set x = Some set -> keeps_checks (set now)
  end.
Proof.
  assert (forall next now, keeps_checks (set_fired next now)) as H1.
  { intros next now p t. by apply set_schedule_checks. }
  assert (forall now, keeps_checks (set_fired_now now)) as H2.
  { intros now p t. by apply set_schedule_checks. }
  assert (forall next now, keeps_checks (set_rescheduled next now)) as H3.
  { intros next now p t H. apply set_schedule_checks; [by apply (row_ok_failures p)|done]. }
  assert (forall m now, keeps_checks (set_trigger_dead_lettered m now)) as H4.
  { intros m now p t H. apply set_schedule_checks; [by apply (row_ok_failures p)|done]. }
  unfold decide_trigger. destruct k.
  - destruct (due_events _ _ _ _) as [|[e t] l]; intros [= <-]; [done|]. unfold decide_event.
    by destruct (event_too_large to_vec e).
  - destruct (due_triggers _ _ _ _ _ _) as [|t l]; [by intros [= <-]|]. unfold decide_cron.
    destruct (t_cron_expression t) as [c|]; [|done]. cbn.
    by destruct (cron_next _ _ _ _); intros [= <-]; [intros now; cbn|intros set now [= <-]].
  - destruct (due_triggers _ _ _ _ _ _) as [|t l]; [by intros [= <-]|]. unfold decide_interval.
    destruct (t_interval_seconds t) as [c|]; [|done]. cbn.
    by destruct (misfired _ _ _); intros [= <-]; [intros set now [= <-]|intros now; cbn].
Qed.
End decisions.

(** A ledger row goes in when its key is new. *)
Lemma insert_trigger_run_Ok r s s' : insert_trigger_run r s = Ok s' ->
  s' = with_trigger_runs s (trigger_runs_of s ++ [r]) /\
  (forall x, x ∈ trigger_runs_of s -> same_dedupe_key (tn_trigger_id r) (tn_dedupe_key r) x = false) /\
  (forall id, tn_run_id r = Some id -> exists x, x ∈ db_runs (tb_core s) /\ r_id x = id).
Proof.
  unfold insert_trigger_run, ensure. destruct (_ && _) eqn:B1; [|done].
  destruct (_ && _) eqn:B2 in |- *; [|done]. intros [= <-].
  apply andb_true_iff in B1 as [_ B1], B2 as [_ B2]. apply negb_true_iff in B1.
  rewrite existsb_not_elem_of in B1. split_and!; [done|done|].
  intros id Hid. rewrite Hid in B2. apply existsb_elem_of in B2 as (x & Hx & Hi). bool_hyps. by exists x.
Qed.

(** A row whose key the ledger has is refused. *)
Lemma insert_trigger_run_dup r s x : x ∈ trigger_runs_of s ->
  same_dedupe_key (tn_trigger_id r) (tn_dedupe_key r) x = true -> insert_trigger_run r s = Err UniqueViolation.
Proof.
  intros Hx Hk. unfold insert_trigger_run, ensure.
  assert (existsb (same_dedupe_key (tn_trigger_id r) (tn_dedupe_key r)) (trigger_runs_of s) = true) as ->.
  { apply existsb_elem_of. eauto. }
  by rewrite andb_false_r.
Qed.

(** What a transaction adds to the runs and to the ledger, and that it changes no
    trigger's authority. *)
Definition adds (runs : list run) (ledger : list trigger_run) (s s' : tdb) : Prop :=
  db_agents (tb_core s') = db_agents (tb_core s) /\ db_users (tb_core s') = db_users (tb_core s) /\
  db_runs (tb_core s') = db_runs (tb_core s) ++ runs /\
  trigger_runs_of s' = trigger_runs_of s ++ ledger /\
  map te_id (trigger_events_of s') = map te_id (trigger_events_of s) /\
  Forall2 same_authority (triggers_of s) (triggers_of s').

Lemma same_authority_refl l : Forall2 same_authority l l.
Proof. induction l; by constructor. Qed.

Lemma same_authority_map p f l : keeps_authority f ->
  Forall2 same_authority l (update_where p f l).1.
Proof. intros Hf. cbn. apply Forall2_map_r. intros t _. by apply same_authority_update. Qed.

Lemma event_ids (p : trigger_event -> bool) f l : (forall e, te_id (f e) = te_id e) ->
  map te_id (map (fun e => if p e then f e else e) l) = map te_id l.
Proof. intros Hf. rewrite map_map. apply map_ext. intros e. by destruct (p e). Qed.

Section writes.
Context (sc : schedules) (jitter_hash : Uuid -> Z -> Z) (to_vec : json -> string)
        (uuid_text : Uuid -> string).
Context (pool : DbPool) (i : dispatch_input).
#[local] Abbreviation spec := (dispatch_spec sc jitter_hash to_vec uuid_text pool i).
#[local] Abbreviation now := (stamp pool i).

Definition fired_row (f : firing) : run :=
  row_of_new (triggered_run (f_trigger f) (di_run_id i) (f_input f)) queued None now.

Definition fired_ledger (f : firing) : trigger_run :=
  created_row (di_row_id i) (t_id (f_trigger f)) (di_run_id i) (f_scheduled f) (f_key f) now.

Definition rejected_ledger (x : failure) : trigger_run :=
  failed_row (di_row_id i) (t_id (x_trigger x)) (x_scheduled x) (x_key x) (x_error x) now.

Lemma write_fire_Ok f s s' r : write_fire pool i f s = Ok (s', r) -> keeps_authority (f_set f now) ->
  adds [fired_row f] [fired_ledger f] s s' /\
  (forall x, x ∈ db_runs (tb_core s) -> r_id x <> di_run_id i) /\
  (forall x, x ∈ trigger_runs_of s -> same_dedupe_key (t_id (f_trigger f)) (f_key f) x = false) /\
  triggers_of s' = (update_where (this_trigger (t_id (f_trigger f))) (f_set f now) (triggers_of s)).1 /\
  r = Some (dispatch_record (f_trigger f) (f_type f) (te_event_id <$> f_event f) (di_run_id i)
              (f_scheduled f) (f_next f)).
Proof.
  intros W Hf. unfold write_fire, insert_triggered_run in W. fold (fired_row f) in W.
  destruct (insert_run (fired_row f) (tb_core s)) as [core|] eqn:Hi; [|done].
  assert (db_agents core = db_agents (tb_core s) /\ db_users core = db_users (tb_core s)) as [Ha Hu].
  { unfold insert_run in Hi. by split_matches. }
  apply insert_run_Ok in Hi as [Hr Hfresh].
  match type of W with match ?m with _ => _ end = _ => destruct m as [s1|] eqn:L end; [|done].
  injection W as <- <-. apply insert_trigger_run_Ok in L as (-> & Hkey & _).
  unfold adds. destruct (f_event f) as [e|]; cbn in *; split_and!; try done;
    first [by apply event_ids|by apply same_authority_map].
Qed.

Lemma write_reject_Ok x s s' r : write_reject pool i x s = Ok (s', r) ->
  (forall set, x_set x = Some set -> keeps_authority (set now)) ->
  adds [] [rejected_ledger x] s s' /\
  (forall y, y ∈ trigger_runs_of s -> same_dedupe_key (t_id (x_trigger x)) (x_key x) y = false) /\
  triggers_of s' = match x_set x with
                   | Some set => (update_where (this_trigger (t_id (x_trigger x))) (set now) (triggers_of s)).1
                   | None => triggers_of s
                   end /\
  r = None.
Proof.
  intros W Hx. unfold write_reject in W. fold (rejected_ledger x) in W.
  match type of W with match ?m with _ => _ end = _ => destruct m as [s1|] eqn:L end; [|done].
  injection W as <- <-. apply insert_trigger_run_Ok in L as (-> & Hkey & _).
  unfold adds. destruct (x_event x) as [[e dead]|], (x_set x) as [set|]; cbn in *; rewrite ?app_nil_r;
    split_and!; try done; try apply same_authority_refl;
    first [by apply event_ids|by apply same_authority_map, Hx].
Qed.

(** One dispatch, whatever it does. *)
Lemma dispatch_cases k s s' r : spec k s = Ok (s', r) ->
  (s' = s /\ r = None) \/
  (exists f, may_fire to_vec pool i s f /\ write_fire pool i f s = Ok (s', r) /\ keeps_authority (f_set f now)) \/
  (exists x, write_reject pool i x s = Ok (s', r) /\
     (forall set, x_set x = Some set -> keeps_authority (set now))).
Proof.
  unfold dispatch_spec. destruct (decide_trigger _ _ _ _ _ _ k s) as [d|] eqn:D; [|done].
  pose proof (decided_authority sc jitter_hash to_vec uuid_text pool i k s d D) as Ha.
  destruct d as [|f|x]; cbn.
  - intros [= <- <-]. by left.
  - intros W. right. left. exists f. split_and!; [|done|apply Ha].
    by apply decide_fire in D.
  - intros W. right. right. exists x. eauto.
Qed.
End writes.
