(* ===== verification/TriggerLedger.v ===== *)
(** Everything that changes the trigger tables, as one step relation, and what it
    keeps: identifiers are distinct, every key of the ledger belongs to one row,
    and every run of the ledger exists and was fired once. *)
From S2P Require Import Prelude RustStr Json Sql Runs RunQueue RunDedupe TriggerTables TriggerDispatch.
From S2P Require Import TriggerSpec TriggerProps.

(** * Steps *)

(** The requests on triggers and events, the dispatch, and the calls on the run
    tables: creating runs and the whole life of the queue. *)
Inductive trigger_call (pool : DbPool) : tdb -> tdb -> Prop :=
| call_create_interval now n s s' t :
    create_interval_trigger now n s = Ok (s', t) -> trigger_call pool s s'
| call_create_webhook now n s s' t :
    create_webhook_trigger now n s = Ok (s', t) -> trigger_call pool s s'
| call_create_cron sc jitter_hash wall now n s s' t :
    create_cron_trigger sc jitter_hash wall now n s = Ok (s', t) -> trigger_call pool s s'
| call_status now tenant id status s s' t :
    update_trigger_status now tenant id status s = Ok (s', t) -> trigger_call pool s s'
| call_config now tenant id m next s s' t :
    write_trigger_config now tenant id m next s = Ok (s', t) -> trigger_call pool s s'
| call_enqueue e s s' b : insert_trigger_event e s = Ok (s', b) -> trigger_call pool s s'
| call_replay now tenant id event s s' o :
    requeue_dead_letter_trigger_event now tenant id event s = Ok (s', o) -> trigger_call pool s s'
| call_audit n s s' : append_trigger_audit_event n s = Ok s' -> trigger_call pool s s'
| call_dispatch sc jitter_hash to_vec uuid_text k i s s' r :
    dispatch_kind_dual sc jitter_hash to_vec uuid_text pool k i s = Ok (s', r) -> trigger_call pool s s'
| call_manual uuid_text wall now tenant id key payload tenant_max run_id row_id s s' o :
    fire_trigger_manually_with_limits uuid_text wall now tenant id key payload tenant_max run_id row_id s =
      Ok (s', o) -> trigger_call pool s s'
| call_insert_sqlite t s s' r : on_sqlite pool = true ->
    insert_trigger_sqlite t s = Ok (s', r) -> trigger_call pool s s'
| call_config_sqlite now tenant id m s s' t : on_sqlite pool = true ->
    write_trigger_config_sqlite now tenant id m s = Ok (s', t) -> trigger_call pool s s'
| call_replay_sqlite now id event s : on_sqlite pool = true ->
    trigger_call pool s (requeue_event_sqlite now id event s).1
| call_manual_sqlite uuid_text wall now t key payload run_id row_id s s' o : on_sqlite pool = true ->
    fire_manually_sqlite uuid_text wall now t key payload run_id row_id s = Ok (s', o) -> trigger_call pool s s'
| call_new_run now n s core rec : n_status n = "queued" ->
    create_run now n (tb_core s) = Ok (core, rec) -> trigger_call pool s (with_tcore s core)
| call_new_deduped_run now n key s core rec : n_status n = "queued" ->
    create_run_with_semantic_dedupe_key now n key (tb_core s) = Ok (core, rec) ->
    trigger_call pool s (with_tcore s core)
| call_queue s rows' : store_call (dual pool) (db_runs (tb_core s)) rows' ->
    trigger_call pool s (with_tcore s {| db_agents := db_agents (tb_core s); db_users := db_users (tb_core s);
                                         db_runs := rows' |}).

(** * Invariant *)

Definition ledger_unique (l : list trigger_run) : Prop :=
  forall i j a b, l !! i = Some a -> l !! j = Some b ->
    tn_trigger_id a = tn_trigger_id b -> tn_dedupe_key a = tn_dedupe_key b -> i = j.

Definition fired_once (l : list trigger_run) : Prop :=
  forall i j a b id, l !! i = Some a -> l !! j = Some b ->
    tn_run_id a = Some id -> tn_run_id b = Some id -> i = j.

Definition ledger_refers (l : list trigger_run) (ids : list Uuid) : Prop :=
  forall x id, x ∈ l -> tn_run_id x = Some id -> id ∈ ids.

Definition run_ids (s : tdb) : list Uuid := map r_id (db_runs (tb_core s)).

Definition ledger_inv (l : list trigger_run) (ids : list Uuid) : Prop :=
  ledger_unique l /\ fired_once l /\ ledger_refers l ids.

Definition trigger_inv (s : tdb) : Prop :=
  tables_inv s /\ store_inv (db_runs (tb_core s)) /\ ledger_inv (trigger_runs_of s) (run_ids s).

(** A row with a new key that does not refer to a run another row refers to. *)
Lemma ledger_inv_snoc l ids r :
  ledger_inv l ids ->
  (forall x, x ∈ l -> same_dedupe_key (tn_trigger_id r) (tn_dedupe_key r) x = false) ->
  (forall id, tn_run_id r = Some id -> id ∉ ids) ->
  ledger_inv (l ++ [r]) (ids ++ option_list (tn_run_id r)).
Proof.
  intros (Hu & Ho & Hr) Hkey Hnew. split_and!.
  - intros i j a b Ha Hb Ht Hk.
    apply lookup_app_Some in Ha as [Ha|[Hia Ha]], Hb as [Hb|[Hjb Hb]].
    + by apply (Hu i j a b).
    + apply list_lookup_singleton_Some in Hb as [_ <-]. apply list_elem_of_lookup_2, Hkey in Ha.
      unfold same_dedupe_key in Ha. by rewrite Ht, Hk, Z.eqb_refl, String.eqb_refl in Ha.
    + apply list_lookup_singleton_Some in Ha as [_ <-]. apply list_elem_of_lookup_2, Hkey in Hb.
      unfold same_dedupe_key in Hb. by rewrite Ht, Hk, Z.eqb_refl, String.eqb_refl in Hb.
    + apply list_lookup_singleton_Some in Ha as [Hi _], Hb as [Hj _]. lia.
  - intros i j a b id Ha Hb Hia Hib.
    apply lookup_app_Some in Ha as [Ha|[Hia' Ha]], Hb as [Hb|[Hjb Hb]].
    + by apply (Ho i j a b id).
    + apply list_lookup_singleton_Some in Hb as [_ <-]. apply list_elem_of_lookup_2 in Ha.
      destruct (Hnew id Hib). by apply (Hr a).
    + apply list_lookup_singleton_Some in Ha as [_ <-]. apply list_elem_of_lookup_2 in Hb.
      destruct (Hnew id Hia). by apply (Hr b).
    + apply list_lookup_singleton_Some in Ha as [Hi _], Hb as [Hj _]. lia.
  - intros x id [Hx| ->%list_elem_of_singleton]%elem_of_app Hid; apply elem_of_app; [left; by apply (Hr x)|].
    right. rewrite Hid. by left.
Qed.

Lemma ledger_inv_more l ids ids' : ledger_inv l ids -> ids ⊆ ids' -> ledger_inv l ids'.
Proof. intros (Hu & Ho & Hr) Hs. split_and!; [done|done|]. intros x id Hx Hid. apply Hs. by apply (Hr x). Qed.

Lemma store_inv_snoc rows row : store_inv rows -> run_wf row ->
  (forall x, x ∈ rows -> r_id x <> r_id row) -> store_inv (rows ++ [row]).
Proof.
  intros [Hd Hw] Hwf Hnew. split; [|by apply Forall_app; split; [|constructor]].
  unfold ids_distinct in *. rewrite map_app. apply NoDup_app. split; [done|].
  split; [|apply NoDup_singleton]. intros id Hin ->%list_elem_of_singleton.
  apply list_elem_of_fmap in Hin as (x & Hx & Hin). by apply (Hnew x).
Qed.

Lemma queued_row_wf n key now : run_wf (row_of_new n queued key now).
Proof. by split. Qed.

Lemma authority_ids l l' : Forall2 same_authority l l' -> map t_id l' = map t_id l.
Proof. induction 1 as [|a b l l' [H _] _ IH]; [done|]. cbn. by rewrite H, IH. Qed.

(** Adding runs and ledger rows, as the transactions do. *)
Lemma adds_inv runs ledger s s' : adds runs ledger s s' -> trigger_inv s ->
  store_inv (db_runs (tb_core s')) -> ledger_inv (trigger_runs_of s') (run_ids s') -> trigger_inv s'.
Proof.
  intros (_ & _ & Hr & _ & He & Ha) ((Ht & Hev) & _) Hs Hl. split; [|done]. split; unfold ids_distinct.
  - by rewrite (authority_ids _ _ Ha).
  - by rewrite He.
Qed.

(** One fresh queued run with one ledger row that has a new key. *)
Lemma adds_fresh_inv run row s s' : adds [run] [row] s s' -> trigger_inv s -> run_wf run ->
  (forall x, x ∈ db_runs (tb_core s) -> r_id x <> r_id run) ->
  (forall x, x ∈ trigger_runs_of s -> same_dedupe_key (tn_trigger_id row) (tn_dedupe_key row) x = false) ->
  (forall id, tn_run_id row = Some id -> id = r_id run) -> trigger_inv s'.
Proof.
  intros Hadd Hinv Hwf Hfresh Hkey Hid. destruct Hinv as (Ht & Hs & Hl).
  pose proof Hadd as (_ & _ & Hr & Hl' & _). apply (adds_inv _ _ _ _ Hadd); [done| |].
  - rewrite Hr. by apply store_inv_snoc.
  - unfold run_ids. rewrite Hr, Hl', map_app. apply (ledger_inv_more _ (run_ids s ++ option_list (tn_run_id row))).
    + apply ledger_inv_snoc; [done..|]. intros id Hrow (y & Hy & Hin)%list_elem_of_fmap.
      apply Hid in Hrow. by apply (Hfresh y); [|congruence].
    + intros id [Hx|Hx]%elem_of_app; apply elem_of_app; [by left|right].
      destruct (tn_run_id row) as [rid|]; [|by apply not_elem_of_nil in Hx].
      apply list_elem_of_singleton in Hx as ->. rewrite (Hid rid eq_refl). by left.
Qed.

Lemma write_fire_inv pool i f s s' r :
  write_fire pool i f s = Ok (s', r) -> keeps_authority (f_set f (stamp pool i)) ->
  trigger_inv s -> trigger_inv s'.
Proof.
  intros W Hf Hinv. apply write_fire_Ok in W as (Hadd & Hfresh & Hkey & _); [|done].
  apply (adds_fresh_inv _ _ _ _ Hadd Hinv); [apply queued_row_wf|exact Hfresh|exact Hkey|by intros ? [= <-]].
Qed.

Lemma write_reject_inv pool i x s s' r :
  write_reject pool i x s = Ok (s', r) ->
  (forall set, x_set x = Some set -> keeps_authority (set (stamp pool i))) ->
  trigger_inv s -> trigger_inv s'.
Proof.
  intros W Hf Hinv. apply write_reject_Ok in W as (Hadd & Hkey & _); [|done].
  destruct Hinv as (Ht & Hs & Hl). pose proof Hadd as (_ & _ & Hr & Hl' & _).
  rewrite app_nil_r in Hr. apply (adds_inv _ _ _ _ Hadd); [done|by rewrite Hr|].
  unfold run_ids. rewrite Hr, Hl'.
  apply (ledger_inv_more _ (run_ids s ++ [])); [|by rewrite app_nil_r].
  by apply (ledger_inv_snoc _ _ (rejected_ledger pool i x) Hl Hkey).
Qed.

Lemma dispatch_inv sc jitter_hash to_vec uuid_text pool k i s s' r :
  dispatch_kind_dual sc jitter_hash to_vec uuid_text pool k i s = Ok (s', r) -> trigger_inv s -> trigger_inv s'.
Proof.
  intros D Hinv. rewrite dispatch_is_spec in D by apply Hinv.
  apply dispatch_cases in D as [[-> _]|[(f & _ & W & Hf)|(x & W & Hx)]]; [done| |].
  - by apply write_fire_inv in W.
  - by apply write_reject_inv in W.
Qed.

(** A manual firing writes what a firing of the trigger writes. *)
Lemma manual_cases uuid_text wall now tenant id key payload tenant_max run_id row_id s s' o :
  fire_trigger_manually_with_limits uuid_text wall now tenant id key payload tenant_max run_id row_id s =
    Ok (s', o) ->
  (s' = s /\ forall r, o <> FireCreated r) \/
  exists t n row,
    t ∈ triggers_of s /\ owned_trigger tenant id t = true /\ live_trigger t = true /\
    has_capacity tenant_max s t = true /\
    n = triggered_run t run_id (inject_trace_id (manual_input uuid_text t key payload) (uuid_text run_id)) /\
    row = created_row row_id id run_id wall (manual_key key) now /\
    adds [row_of_new n queued None now] [row] s s' /\
    (forall x, x ∈ db_runs (tb_core s) -> r_id x <> run_id) /\
    (forall x, x ∈ trigger_runs_of s -> same_dedupe_key id (manual_key key) x = false) /\
    o = FireCreated (dispatch_record t "manual" (Some key) run_id wall (t_next_fire_at t)).
Proof.
  unfold fire_trigger_manually_with_limits. destruct (List.find _ (triggers_of s)) as [t|] eqn:F.
  2: { intros [= <- <-]. by left. }
  apply find_some in F as [Ht Hb]. apply list_elem_of_In in Ht. bool_hyps.
  destruct (List.find _ (trigger_runs_of s)) as [r|]; [intros [= <- <-]; by left|].
  destruct (_ || _) eqn:C; [intros [= <- <-]; by left|].
  unfold insert_triggered_run. set (n := triggered_run t run_id _).
  destruct (insert_run _ _) as [core|] eqn:Hi; [|done].
  assert (db_agents core = db_agents (tb_core s) /\ db_users core = db_users (tb_core s)) as [Ha Hu].
  { unfold insert_run in Hi. by split_matches. }
  apply insert_run_Ok in Hi as [Hr Hfresh].
  match goal with |- match ?m with _ => _ end = _ -> _ => destruct m as [s1|] eqn:L end; [|done].
  intros [= <- <-]. apply insert_trigger_run_Ok in L as (-> & Hkey & _). right.
  assert (t_id t = id) as Hid by (unfold owned_trigger in *; bool_hyps; done).
  exists t, n, (created_row row_id id run_id wall (manual_key key) now). split_and!; try done.
  - unfold has_capacity. rewrite Hid. bool_hyps. apply andb_true_iff. split; by apply Z.ltb_lt.
  - unfold adds. cbn. split_and!; try done. by apply same_authority_map.
Qed.

Lemma manual_inv uuid_text wall now tenant id key payload tenant_max run_id row_id s s' o :
  fire_trigger_manually_with_limits uuid_text wall now tenant id key payload tenant_max run_id row_id s =
    Ok (s', o) -> trigger_inv s -> trigger_inv s'.
Proof.
  intros [[-> _]|(t & n & row & _ & _ & _ & _ & -> & -> & Hadd & Hfresh & Hkey & _)]%manual_cases Hinv; [done|].
  apply (adds_fresh_inv _ _ _ _ Hadd Hinv); [apply queued_row_wf|exact Hfresh|exact Hkey|by intros ? [= <-]].
Qed.

(** So does one on SQLite. *)
Lemma manual_sqlite_cases uuid_text wall now t key payload run_id row_id s s' o :
  fire_manually_sqlite uuid_text wall now t key payload run_id row_id s = Ok (s', o) ->
  (s' = s /\ forall r, o <> FireCreated r) \/
  let n := triggered_run t run_id (manual_input uuid_text t key payload) in
  let row := created_row row_id (t_id t) run_id wall key (current_timestamp now) in
  adds [row_of_new n queued None (current_timestamp now)] [row] s s' /\
  (forall x, x ∈ db_runs (tb_core s) -> r_id x <> run_id) /\
  (forall x, x ∈ trigger_runs_of s -> same_dedupe_key (t_id t) key x = false) /\
  triggers_of s' = (update_where (this_trigger (t_id t)) (set_fired_now (current_timestamp now)) (triggers_of s)).1 /\
  o = FireCreated (dispatch_record t "manual" (Some key) run_id wall (t_next_fire_at t)).
Proof.
  unfold fire_manually_sqlite. destruct (List.find _ (trigger_runs_of s)) as [r|].
  { destruct (tn_run_id r); intros [= <- <-]; by left. }
  unfold insert_triggered_run. set (n := triggered_run t run_id _).
  destruct (insert_run _ _) as [core|] eqn:Hi; [|done].
  assert (db_agents core = db_agents (tb_core s) /\ db_users core = db_users (tb_core s)) as [Ha Hu].
  { unfold insert_run in Hi. by split_matches. }
  apply insert_run_Ok in Hi as [Hr Hfresh].
  match goal with |- match ?m with _ => _ end = _ -> _ => destruct m as [s1|] eqn:L end; [|done].
  intros [= <- <-]. apply insert_trigger_run_Ok in L as (-> & Hkey & _). right. cbn zeta.
  split_and!; try done. unfold adds. cbn. split_and!; try done. by apply same_authority_map.
Qed.

Lemma manual_sqlite_inv uuid_text wall now t key payload run_id row_id s s' o :
  fire_manually_sqlite uuid_text wall now t key payload run_id row_id s = Ok (s', o) ->
  trigger_inv s -> trigger_inv s'.
Proof.
  intros [[-> _]|(Hadd & Hfresh & Hkey & _)]%manual_sqlite_cases Hinv; [done|].
  apply (adds_fresh_inv _ _ _ _ Hadd Hinv); [apply queued_row_wf|done|exact Hkey|by intros ? [= <-]].
Qed.

(** * The other operations *)

(** Only the trigger and event rows change; identifiers stay distinct. *)
Definition same_ledger (s s' : tdb) : Prop :=
  tb_core s' = tb_core s /\ trigger_runs_of s' = trigger_runs_of s.

Lemma same_ledger_inv s s' : same_ledger s s' -> (tables_inv s -> tables_inv s') -> trigger_inv s -> trigger_inv s'.
Proof.
  intros [Hc Hl] Ht (H1 & H2 & H3). unfold trigger_inv, run_ids. rewrite Hc, Hl. split_and!; [auto|done|done].
Qed.

Lemma insert_trigger_same t s s' r : insert_trigger t s = Ok (s', r) ->
  same_ledger s s' /\ (tables_inv s -> tables_inv s').
Proof.
  unfold insert_trigger, ensure. destruct (negb _) eqn:E; [|done]. destruct (_ && _); [|done].
  intros [= <- _]. split; [done|]. intros [Ht He]. split; [|done]. cbn. unfold ids_distinct in *.
  rewrite map_app. apply NoDup_app. split; [done|]. split; [|apply NoDup_singleton].
  intros id Hin ->%list_elem_of_singleton. apply list_elem_of_fmap in Hin as (x & Hx & Hin).
  apply negb_true_iff in E. unfold trigger_exists in E. rewrite existsb_not_elem_of in E.
  specialize (E x Hin). apply Z.eqb_neq in E. congruence.
Qed.

Lemma update_rows_same p f s : (forall t, t_id (f t) = t_id t) ->
  same_ledger s (update_trigger p f s).1 /\ (tables_inv s -> tables_inv (update_trigger p f s).1).
Proof.
  intros Hf. split; [done|]. intros [Ht He]. split; [|done]. cbn. unfold ids_distinct in *.
  change (map (fun r => if p r then f r else r) (triggers_of s)) with (update_where p f (triggers_of s)).1.
  by rewrite update_ids.
Qed.

Lemma update_events_same p f s : (forall e, te_id (f e) = te_id e) ->
  same_ledger s (update_event p f s).1 /\ (tables_inv s -> tables_inv (update_event p f s).1).
Proof.
  intros Hf. split; [done|]. intros [Ht He]. split; [done|]. cbn. unfold ids_distinct in *.
  by rewrite event_ids.
Qed.

Lemma insert_event_same e s s' b : insert_trigger_event e s = Ok (s', b) ->
  same_ledger s s' /\ (tables_inv s -> tables_inv s').
Proof.
  unfold insert_trigger_event, ensure. destruct (existsb _ _) eqn:E; [by intros [= <- <-]|].
  destruct (trigger_exists _ _); [|done]. intros [= <- <-]. split; [done|]. intros [Ht He].
  split; [done|]. cbn. unfold ids_distinct in *. rewrite map_app. apply NoDup_app. split; [done|].
  split; [|apply NoDup_singleton]. intros id Hin ->%list_elem_of_singleton.
  apply list_elem_of_fmap in Hin as (x & Hx & Hin). rewrite existsb_not_elem_of in E.
  specialize (E x Hin). apply orb_false_iff in E as [E _]. apply Z.eqb_neq in E. congruence.
Qed.

(** What a queue call or a new run does to the identifiers of runs. *)
Lemma with_tcore_inv s core : store_inv (db_runs core) -> run_ids s ⊆ map r_id (db_runs core) ->
  trigger_inv s -> trigger_inv (with_tcore s core).
Proof. intros Hs Hsub (H1 & _ & H3). split_and!; [done|done|]. by apply (ledger_inv_more _ (run_ids s)). Qed.

Lemma insert_run_tinv n key now s core :
  insert_run (row_of_new n queued key now) (tb_core s) = Ok core -> trigger_inv s -> trigger_inv (with_tcore s core).
Proof.
  intros [Hr Hf]%insert_run_Ok Hinv. apply with_tcore_inv; [| |done]; rewrite Hr.
  - apply store_inv_snoc; [apply Hinv|apply queued_row_wf|exact Hf].
  - rewrite map_app. intros x Hx. apply elem_of_app. by left.
Qed.

Lemma trigger_call_inv pool s s' : trigger_call pool s s' -> trigger_inv s -> trigger_inv s'.
Proof.
  intros Hc Hinv. destruct Hc as [now n s s' t C|now n s s' t C|sc jh wall now n s s' t C|now te id st s s' t C
    |now te id m next s s' t C|e s s' b C|now te id ev s s' o C|n s s' C|sc jh tv ut k i s s' r C
    |ut wall now te id key pl tm run_id row_id s s' o C|t s s' r Hlite C|now te id m s s' t Hlite C|now id ev s Hlite
    |ut wall now t key pl run_id row_id s s' o Hlite C|now n s core rec Hq C|now n key s core rec Hq C|s rows' C].
  - unfold create_interval_trigger, ensure in C. destruct (_ && _); [|done].
    apply insert_trigger_same in C as [? ?]. by apply (same_ledger_inv s).
  - unfold create_webhook_trigger, ensure in C. destruct (_ && _); [|done].
    apply insert_trigger_same in C as [? ?]. by apply (same_ledger_inv s).
  - unfold create_cron_trigger, ensure in C. destruct (map_err _ _); [|done]. destruct (_ && _); [|done].
    apply insert_trigger_same in C as [? ?]. by apply (same_ledger_inv s).
  - unfold update_trigger_status, ensure in C. destruct (_ || _); [|done]. injection C as <- _.
    apply (same_ledger_inv s); [apply update_rows_same..|done]; done.
  - unfold write_trigger_config, ensure in C. destruct (match _ with Some _ => _ | None => _ end); [|done].
    injection C as <- _. apply (same_ledger_inv s); [apply update_rows_same..|done]; done.
  - apply insert_event_same in C as [? ?]. by apply (same_ledger_inv s).
  - unfold requeue_dead_letter_trigger_event in C.
    destruct (List.find _ _); [|by injection C as <- _]. destruct (negb _); [by injection C as <- _|].
    cbn in C. destruct (_ =? 1); [|done]. injection C as <- _.
    apply (same_ledger_inv s); [| |done];
      apply (update_events_same (has_event te id ev) (set_event_requeued now) s); done.
  - unfold append_trigger_audit_event, ensure in C. destruct (negb _); [|done].
    destruct (trigger_exists _ _); [|done]. by injection C as <-.
  - by apply dispatch_inv in C.
  - by apply manual_inv in C.
  - unfold insert_trigger_sqlite, ensure in C. destruct (trigger_row_ok t); [|done].
    apply insert_trigger_same in C as [? ?]. by apply (same_ledger_inv s).
  - unfold write_trigger_config_sqlite, ensure in C. destruct (match _ with Some _ => _ | None => _ end); [|done].
    injection C as <- _. apply (same_ledger_inv s); [apply update_rows_same..|done]; done.
  - apply (same_ledger_inv s); [apply update_events_same..|done]; done.
  - by apply manual_sqlite_inv in C.
  - unfold create_run in C. rewrite Hq in C. cbn in C. destruct (insert_run _ _) as [c|] eqn:I; [|done].
    injection C as <- _. by apply insert_run_tinv in I.
  - unfold create_run_with_semantic_dedupe_key in C. rewrite Hq in C. cbn in C.
    destruct (existsb _ _); [by injection C as <- _|]. destruct (insert_run _ _) as [c|] eqn:I; [|done].
    injection C as <- _. by apply insert_run_tinv in I.
  - pose proof (store_call_refines (dual pool) _ _ C (proj1 (proj2 Hinv))) as Hh. apply with_tcore_inv; cbn.
    + eapply history_inv; [exact Hh|apply Hinv].
    + by rewrite (history_ids _ _ Hh).
    + done.
Qed.

(** * Rows *)

Definition rows_ok (pool : DbPool) (s : tdb) : Prop := Forall (row_ok pool) (triggers_of s).

Lemma rows_ok_update pool p f rows :
  keeps_checks f -> Forall (row_ok pool) rows -> Forall (row_ok pool) (update_where p f rows).1.
Proof.
  intros Hf Hs. cbn. apply Forall_fmap. eapply Forall_impl; [exact Hs|].
  intros t Ht. cbn. destruct (p t); [by apply Hf|done].
Qed.

Lemma insert_trigger_rows pool t s s' r :
  insert_trigger t s = Ok (s', r) -> row_ok pool t -> rows_ok pool s -> rows_ok pool s'.
Proof.
  unfold insert_trigger, ensure. destruct (negb _); [|done]. destruct (_ && _); [|done].
  intros [= <- _] Ht Hs. apply Forall_app. split; [exact Hs|by constructor].
Qed.

Lemma write_rows pool i d s s' r : write pool i d s = Ok (s', r) ->
  match d with
  | NothingDue => True
  | Fire f => keeps_checks (f_set f (stamp pool i)) /\ keeps_authority (f_set f (stamp pool i))
  | Reject x => forall set, x_set x = Some set ->
                 keeps_checks (set (stamp pool i)) /\ keeps_authority (set (stamp pool i))
  end -> rows_ok pool s -> rows_ok pool s'.
Proof.
  destruct d as [|f|x]; cbn [write]; unfold rows_ok.
  - by intros [= <- _].
  - intros W [Hc Ha]. apply write_fire_Ok in W as (_ & _ & _ & -> & _); [|done]. by apply rows_ok_update.
  - intros W Hx. apply write_reject_Ok in W as (_ & _ & -> & _); [|intros set Hset; by apply Hx].
    destruct (x_set x) as [set|]; [|done]. apply rows_ok_update. by apply Hx.
Qed.

Lemma row_ok_checked pool t : trigger_row_ok t && trigger_schedule_ok t = true -> row_ok pool t.
Proof. unfold row_ok. intros [-> ->]%andb_true_iff. by rewrite orb_true_r. Qed.

Lemma row_ok_sqlite pool t : on_sqlite pool = true -> trigger_row_ok t = true -> row_ok pool t.
Proof. unfold row_ok. by intros -> ->. Qed.

(** An [UPDATE] of one trigger whose new row was checked. *)
Lemma owned_update_rows pool tenant id f s : trigger_inv s ->
  (forall t, get_trigger tenant id s = Some t -> row_ok pool (f t)) -> rows_ok pool s ->
  rows_ok pool (update_trigger (owned_trigger tenant id) f s).1.
Proof.
  intros Hinv Hf Hs. unfold rows_ok. cbn. apply Forall_map_in; [exact Hs|]. intros x Hx Hr.
  destruct (owned_trigger tenant id x) eqn:O; [|done].
  destruct (get_trigger tenant id s) as [y|] eqn:G.
  - apply find_some in G as [Hy Oy]. apply list_elem_of_In in Hy.
    assert (y = x) as ->; [|by apply Hf].
    unfold owned_trigger in O, Oy. bool_hyps. apply (ids_distinct_inj t_id _ _ _ (proj1 (proj1 Hinv)) Hy Hx).
    congruence.
  - apply (find_none _ _) with (x := x) in G; [by rewrite O in G|by apply list_elem_of_In].
Qed.

Lemma trigger_call_rows pool s s' : trigger_call pool s s' -> trigger_inv s -> rows_ok pool s -> rows_ok pool s'.
Proof.
  intros Hc Hinv Hs. destruct Hc as [now n s s' t C|now n s s' t C|sc jh wall now n s s' t C|now te id st s s' t C
    |now te id m next s s' t C|e s s' b C|now te id ev s s' o C|n s s' C|sc jh tv ut k i s s' r C
    |ut wall now te id key pl tm run_id row_id s s' o C|t s s' r Hlite C|now te id m s s' t Hlite C|now id ev s Hlite
    |ut wall now t key pl run_id row_id s s' o Hlite C|now n s core rec Hq C|now n key s core rec Hq C|s rows' C];
    try done.
  - unfold create_interval_trigger, ensure in C. destruct (_ && _) eqn:R; [|done].
    eapply insert_trigger_rows; [exact C|by apply row_ok_checked|done].
  - unfold create_webhook_trigger, ensure in C. destruct (_ && _) eqn:R; [|done].
    eapply insert_trigger_rows; [exact C|by apply row_ok_checked|done].
  - unfold create_cron_trigger, ensure in C. destruct (map_err _ _); [|done]. destruct (_ && _) eqn:R; [|done].
    eapply insert_trigger_rows; [exact C|by apply row_ok_checked|done].
  - unfold update_trigger_status, ensure in C. destruct (_ || _) eqn:St; [|done]. injection C as <- _.
    unfold rows_ok. cbn. apply Forall_map_in; [exact Hs|]. intros x Hx Hr.
    destruct (owned_trigger te id x) eqn:O; [|done].
    assert (str_in st ["enabled"; "disabled"] = true) as Hst.
    { apply orb_true_iff in St as [St|]; [|done]. apply negb_true_iff in St. rewrite existsb_not_elem_of in St.
      by rewrite St in O. }
    unfold row_ok, trigger_row_ok in *. cbn [set_trigger_status t_status t_trigger_type t_misfire_policy
      t_max_attempts t_max_inflight_runs t_jitter_seconds t_consecutive_failures]. rewrite Hst.
    rewrite !andb_true_iff in *. tauto.
  - unfold write_trigger_config, ensure in C.
    destruct (match _ with Some _ => _ | None => _ end) eqn:R; [|done]. injection C as <- _.
    apply owned_update_rows; [done| |done]. intros t' Ht'. rewrite Ht' in R. by apply row_ok_checked.
  - unfold insert_trigger_event, ensure in C. destruct (existsb _ _); [by injection C as <- _|].
    destruct (trigger_exists _ _); [|done]. by injection C as <- _.
  - unfold requeue_dead_letter_trigger_event in C.
    destruct (List.find _ _); [|by injection C as <- _]. destruct (negb _); [by injection C as <- _|].
    cbn in C. destruct (_ =? 1); [|done]. by injection C as <- _.
  - unfold append_trigger_audit_event, ensure in C. destruct (negb _); [|done].
    destruct (trigger_exists _ _); [|done]. by injection C as <-.
  - rewrite dispatch_is_spec in C by apply Hinv. unfold dispatch_spec in C.
    destruct (decide_trigger _ _ _ _ _ _ k s) as [d|] eqn:D; [|done].
    pose proof (decided_checks sc jh tv ut pool i k s d D) as H1.
    pose proof (decided_authority sc jh tv ut pool i k s d D) as H2.
    eapply write_rows; [exact C| |exact Hs]. destruct d; eauto.
  - unfold fire_trigger_manually_with_limits in C. destruct (List.find _ (triggers_of s)) as [t|]; [|by injection C as <- _].
    destruct (List.find _ (trigger_runs_of s)); [by injection C as <- _|]. destruct (_ || _); [by injection C as <- _|].
    unfold insert_triggered_run in C. destruct (insert_run _ _) as [core|]; [|done].
    match type of C with match ?m with _ => _ end = _ => destruct m as [s1|] eqn:L end; [|done].
    injection C as <- _. destruct (insert_trigger_run_Ok _ _ _ L) as (-> & _). unfold rows_ok. cbn -[update_where].
    apply rows_ok_update; [|exact Hs]. intros p x Hx. by apply set_schedule_checks.
  - unfold insert_trigger_sqlite, ensure in C. destruct (trigger_row_ok t) eqn:R; [|done].
    eapply insert_trigger_rows; [exact C|by apply row_ok_sqlite|done].
  - unfold write_trigger_config_sqlite, ensure in C.
    destruct (match _ with Some _ => _ | None => _ end) eqn:R; [|done]. injection C as <- _.
    apply owned_update_rows; [done| |done]. intros t' Ht'. rewrite Ht' in R. by apply row_ok_sqlite.
  - apply manual_sqlite_cases in C as [[-> _]|(_ & _ & _ & Hr & _)]; [done|]. unfold rows_ok. rewrite Hr.
    apply rows_ok_update; [|exact Hs]. intros p x Hx. by apply set_schedule_checks.
Qed.
