(* ===== verification/TriggerClaims.v ===== *)
(** The guarantees of triggers, over one dispatch and over whole histories of
    their tables. *)
From S2P Require Import Prelude RustStr Json Sql Runs RunQueue RunProps RunDedupe TriggerTables.
From S2P Require Import TriggerDispatch TriggerSpec TriggerProps TriggerLedger.

(** * The ledger only grows *)

Lemma trigger_call_ledger pool s s' : trigger_call pool s s' -> trigger_inv s ->
  trigger_runs_of s `prefix_of` trigger_runs_of s'.
Proof.
  intros Hc Hinv. destruct Hc as [now n s s' t C|now n s s' t C|sc jh wall now n s s' t C|now te id st s s' t C
    |now te id m next s s' t C|e s s' b C|now te id ev s s' o C|n s s' C|sc jh tv ut k i s s' r C
    |ut wall now te id key pl tm run_id row_id s s' o C|t s s' r Hlite C|now te id m s s' t Hlite C|now id ev s Hlite
    |ut wall now t key pl run_id row_id s s' o Hlite C|now n s core rec Hq C|now n key s core rec Hq C|s rows' C];
    try done.
  - unfold create_interval_trigger, ensure in C. destruct (_ && _); [|done].
    apply insert_trigger_same in C as [[_ ->] _]. done.
  - unfold create_webhook_trigger, ensure in C. destruct (_ && _); [|done].
    apply insert_trigger_same in C as [[_ ->] _]. done.
  - unfold create_cron_trigger, ensure in C. destruct (map_err _ _); [|done]. destruct (_ && _); [|done].
    apply insert_trigger_same in C as [[_ ->] _]. done.
  - unfold update_trigger_status, ensure in C. destruct (_ || _); [|done]. by injection C as <- _.
  - unfold write_trigger_config, ensure in C. destruct (match _ with Some _ => _ | None => _ end); [|done].
    by injection C as <- _.
  - apply insert_event_same in C as [[_ ->] _]. done.
  - unfold requeue_dead_letter_trigger_event in C.
    destruct (List.find _ _); [|by injection C as <- _]. destruct (negb _); [by injection C as <- _|].
    cbn in C. destruct (_ =? 1); [|done]. by injection C as <- _.
  - unfold append_trigger_audit_event, ensure in C. destruct (negb _); [|done].
    destruct (trigger_exists _ _); [|done]. by injection C as <-.
  - rewrite dispatch_is_spec in C by apply Hinv.
    apply dispatch_cases in C as [[-> _]|[(f & _ & W & Hf)|(x & W & Hx)]]; [done| |].
    + apply write_fire_Ok in W as ((_ & _ & _ & -> & _) & _); [|done]. by apply prefix_app_r.
    + apply write_reject_Ok in W as ((_ & _ & _ & -> & _) & _); [|done]. by apply prefix_app_r.
  - apply manual_cases in C as [[-> _]|(t & n & row & _ & _ & _ & _ & _ & _ & (_ & _ & _ & -> & _) & _)]; [done|].
    by apply prefix_app_r.
  - unfold insert_trigger_sqlite, ensure in C. destruct (trigger_row_ok t); [|done].
    apply insert_trigger_same in C as [[_ ->] _]. done.
  - unfold write_trigger_config_sqlite, ensure in C. destruct (match _ with Some _ => _ | None => _ end); [|done].
    by injection C as <- _.
  - apply manual_sqlite_cases in C as [[-> _]|((_ & _ & _ & -> & _) & _)]; [done|]. by apply prefix_app_r.
Qed.

Lemma trigger_calls_inv pool s s' : rtc (trigger_call pool) s s' -> trigger_inv s ->
  trigger_inv s' /\ trigger_runs_of s `prefix_of` trigger_runs_of s'.
Proof.
  induction 1 as [s|s s1 s' Hc _ IH]; intros Hinv; [done|].
  destruct (IH (trigger_call_inv _ _ _ Hc Hinv)) as [? ?]. split; [done|].
  etrans; [by eapply trigger_call_ledger|done].
Qed.

Lemma prefix_elem {A} (l l' : list A) x : l `prefix_of` l' -> x ∈ l -> x ∈ l'.
Proof. intros [k ->] Hx. apply elem_of_app. by left. Qed.

(** * Counting *)

Lemma countb_ext {A} (f g : A -> bool) l : (forall x, x ∈ l -> f x = g x) -> countb f l = countb g l.
Proof.
  induction l as [|y l IH]; intros H; [done|]. rewrite !countb_cons, (H y) by left.
  rewrite IH; [done|]. intros x Hx. apply H. by right.
Qed.

(** A run that the ledger did not know counts once for its trigger. *)
Lemma inflight_added added ledger s s' id :
  adds [added] [ledger] s s' -> trigger_inv s -> (forall x, x ∈ db_runs (tb_core s) -> r_id x <> r_id added) ->
  count_inflight_runs_for_trigger id s' <= count_inflight_runs_for_trigger id s + 1.
Proof.
  intros (_ & _ & Hr & Hl & _) (_ & _ & _ & _ & Href) Hfresh. unfold count_inflight_runs_for_trigger.
  rewrite Hr, Hl, countb_app, countb_cons.
  assert (forall g : trigger_run -> bool, countb g [] = 0) as -> by done.
  rewrite (countb_ext _ (fun tr => (tn_trigger_id tr =? id) &&
    match tn_run_id tr with
    | Some run_id => existsb (fun r => (r_id r =? run_id) && is_active r) (db_runs (tb_core s))
    | None => false end) (trigger_runs_of s)).
  { destruct (_ && _); lia. }
  intros x Hx. f_equal. destruct (tn_run_id x) as [rid|] eqn:E; [|done].
  rewrite existsb_app. cbn. destruct (r_id added =? rid) eqn:Q; [|by rewrite !orb_false_r].
  bool_hyps. specialize (Href x rid Hx E). apply list_elem_of_fmap in Href as (r & Hrid & Hrin).
  destruct (Hfresh r Hrin). congruence.
Qed.

Lemma tenant_inflight_added added ledger s s' tenant :
  adds [added] ledger s s' ->
  count_inflight_runs_for_tenant tenant s' <= count_inflight_runs_for_tenant tenant s + 1.
Proof.
  intros (_ & _ & Hr & _). unfold count_inflight_runs_for_tenant, count_tenant_inflight_runs.
  rewrite Hr, countb_app, countb_cons.
  assert (forall g : run -> bool, countb g [] = 0) as -> by done. destruct (_ && _); lia.
Qed.

(** * Schedules *)

Lemma apply_jitter_ge jitter_hash base id jitter entropy : base <= apply_jitter jitter_hash base id jitter entropy.
Proof.
  unfold apply_jitter. destruct (jitter <=? 0) eqn:E; [lia|]. bool_hyps.
  pose proof (Z.mod_pos_bound (wrap_u64 (jitter_hash id (entropy * 1000))) (jitter + 1) ltac:(lia)).
  unfold second. nia.
Qed.

(** * Concrete tables *)

Definition demo_sc : schedules :=
  {| sc_tz := unit; sc_schedule := unit; sc_tz_from_str := fun _ => Ok tt;
     sc_schedule_from_str := fun _ => Ok tt; sc_from_timestamp := fun _ => true;
     sc_next := fun _ _ t => Some (t + 60 * second); sc_to_offset := fun t => Ok t |}.

(** An interval trigger of a minute and a webhook trigger, of one tenant. *)
Definition demo_trigger (id : Uuid) (ty : string) (interval : option Z) (policy : string) (next : Z)
    : TriggerRecord :=
  {| t_id := id; t_tenant_id := "acme"; t_agent_id := 7; t_triggered_by_user_id := None;
     t_recipe_id := "notify_v1"; t_status := "enabled"; t_trigger_type := ty;
     t_interval_seconds := interval; t_cron_expression := None; t_schedule_timezone := "UTC";
     t_misfire_policy := policy; t_max_attempts := 3; t_max_inflight_runs := 2; t_jitter_seconds := 0;
     t_consecutive_failures := 0; t_dead_lettered_at := None; t_dead_letter_reason := None;
     t_webhook_secret_ref := None; t_input_json := JObj [("note", JStr "hi")];
     t_requested_capabilities := JArr []; t_granted_capabilities := JArr [];
     t_next_fire_at := next; t_last_fired_at := None; t_created_at := 0; t_updated_at := 0 |}.

Definition demo_event (payload : json) : trigger_event :=
  {| te_id := 50; te_trigger_id := 2; te_tenant_id := "acme"; te_event_id := "evt-1";
     te_semantic_dedupe_key := None; te_payload_json := payload; te_status := "pending"; te_attempts := 0;
     te_next_attempt_at := 0; te_last_error_json := None; te_created_at := 0; te_processed_at := None;
     te_dead_lettered_at := None |}.

Definition demo_tables (policy : string) (payload : json) : tdb :=
  {| tb_core := {| db_agents := [7]; db_users := []; db_runs := [] |};
     tb_tables := {| tt_triggers := [demo_trigger 1 "interval" (Some 60) policy (10 * second);
                                     demo_trigger 2 "webhook" None policy 0];
                     tt_runs := []; tt_events := [demo_event payload]; tt_audit := [] |} |}.

Lemma demo_tables_inv policy payload : trigger_inv (demo_tables policy payload).
Proof.
  split; [split|split].
  - unfold ids_distinct. cbn. constructor; [set_solver|]. constructor; [set_solver|constructor].
  - unfold ids_distinct. cbn. constructor; [set_solver|constructor].
  - by split; [constructor|].
  - split_and!.
    + intros i j a b Ha. by destruct i.
    + intros i j a b id Ha. by destruct i.
    + intros x id Hx. by apply not_elem_of_nil in Hx.
Qed.

(** JSON as text, for the size of a payload: one has a byte above the limit. *)
Definition payload_text (v : json) : string :=
  match v with
  | JStr "oversized" => N.iter 65537 (String (ascii_of_N 120)) ""
  | JStr s => s
  | _ => "{}"
  end.

Definition oversized : json := JStr "oversized".

Definition demo_input (now : Z) (id : Uuid) : dispatch_input :=
  {| di_wall := now; di_now := now; di_locked := fun _ => false; di_run_id := id; di_row_id := id + 1;
     di_tenant_max := 5 |}.

Definition demo_dispatch (pool : DbPool) (k : trigger_kind) (now : Z) (id : Uuid) (s : tdb)
    : result (tdb * option TriggerDispatchRecord) db_error :=
  dispatch_kind_dual demo_sc (fun _ _ => 0) payload_text (fun id => pretty.pretty id) pool k (demo_input now id) s.

(** What a dispatch answers, when it fires. *)
Definition demo_after (pool : DbPool) (k : trigger_kind) (now : Z) (id : Uuid) (s : tdb) : tdb :=
  match demo_dispatch pool k now id s with Ok (s', _) => s' | Err _ => s end.

(** The event fires, then the interval, which moves on by its minute; both once. *)
Example demo_dispatches :
  let s0 := demo_tables "fire_now" (JStr "p") in
  let s1 := demo_after demo_pool WebhookKind (20 * second) 100 s0 in
  let s2 := demo_after demo_pool IntervalKind (20 * second) 110 s1 in
  let s3 := demo_after demo_pool IntervalKind (20 * second) 120 s2 in
  map r_id (db_runs (tb_core s2)) = [100; 110] /\ s3 = s2 /\
  demo_after demo_pool WebhookKind (20 * second) 130 s2 = s2 /\
  map t_next_fire_at (triggers_of s2) = [70 * second; 0] /\
  map tn_dedupe_key (trigger_runs_of s2) = ["evt-1"; "10000000000"].
Proof. vm_compute. by split_and!. Qed.

(** * Properties *)

Section claims.
Context (sc : schedules) (jitter_hash : Uuid -> Z -> Z) (to_vec : json -> string)
        (uuid_text : Uuid -> string) (pool : DbPool).
#[local] Abbreviation dispatch := (dispatch_kind_dual sc jitter_hash to_vec uuid_text pool).
#[local] Instance claims_engine : Engine := bk_engine (backend_of pool).

(** C31: on both backends the transaction of each kind of trigger is one decision
    that only reads followed by its writes; the guards that SQLite repeats in its
    updates never fail. *)
Theorem dispatch_equals_its_specification k i s (Hinv : tables_inv s) :
  dispatch k i s = dispatch_spec sc jitter_hash to_vec uuid_text pool i k s.
Proof. by apply dispatch_is_spec. Qed.

(** A dispatch only fires a trigger that is enabled and not dead-lettered, for
    an event that waits or an instant that has come, and the run that it queues
    is new and carries exactly the tenant, agent, user, recipe and capabilities
    of that trigger. *)
Theorem fired_run_carries_the_triggers_authority k i s s' rec (Hinv : tables_inv s)
    (Hd : dispatch k i s = Ok (s', Some rec)) :
  exists t run, t ∈ triggers_of s /\ t_id t = td_trigger_id rec /\
    t_status t = "enabled" /\ t_dead_lettered_at t = None /\
    match td_trigger_event_id rec with
    | None => ts_le (t_next_fire_at t) (di_now i) = true /\ td_scheduled_for rec = t_next_fire_at t
    | Some event_id => exists e, e ∈ trigger_events_of s /\ te_trigger_id e = t_id t /\
                       te_event_id e = event_id /\ te_status e = "pending"
    end /\
    db_runs (tb_core s') = db_runs (tb_core s) ++ [run] /\ r_id run = td_run_id rec /\
    r_status run = queued /\ r_tenant_id run = t_tenant_id t /\ r_agent_id run = t_agent_id t /\
    r_triggered_by_user_id run = t_triggered_by_user_id t /\ r_recipe_id run = t_recipe_id t /\
    r_requested_capabilities run = t_requested_capabilities t /\
    r_granted_capabilities run = t_granted_capabilities t.
Proof.
  rewrite dispatch_is_spec in Hd by done.
  apply dispatch_cases in Hd as [[_ ?]|[(f & [(Ht & Hl & _) Hdue] & W & Hf)|(x & W & Hx)]]; [done| |].
  2: { by apply write_reject_Ok in W as (_ & _ & _ & ?). }
  apply write_fire_Ok in W as ((_ & _ & Hr & _) & _ & _ & _ & [= ->]); [|done].
  unfold live_trigger in Hl. bool_hyps. apply String.eqb_eq in H.
  exists (f_trigger f), (fired_row pool i f). split_and!; try done. cbn.
  destruct (f_event f) as [e|]; cbn in *.
  - destruct Hdue as (He & Hid & Hp & _). eauto.
  - destruct Hdue as (Hn & _ & _ & Hs). done.
Qed.

(** The runs that a firing leaves active never exceed the trigger's own cap nor
    the cap of its tenant. *)
Theorem firing_respects_the_caps k i s s' rec (Hinv : trigger_inv s)
    (Hd : dispatch k i s = Ok (s', Some rec)) :
  exists t, t ∈ triggers_of s /\ t_id t = td_trigger_id rec /\
    count_inflight_runs_for_trigger (t_id t) s' <= t_max_inflight_runs t /\
    count_inflight_runs_for_tenant (t_tenant_id t) s' <= Z.max (di_tenant_max i) 1.
Proof.
  rewrite dispatch_is_spec in Hd by apply Hinv.
  apply dispatch_cases in Hd as [[_ ?]|[(f & [(Ht & _ & Hc) _] & W & Hf)|(x & W & Hx)]]; [done| |].
  2: { by apply write_reject_Ok in W as (_ & _ & _ & ?). }
  apply write_fire_Ok in W as (Hadd & Hfresh & _ & _ & [= ->]); [|done].
  unfold has_capacity in Hc. bool_hyps. exists (f_trigger f). split_and!; [done|done| |].
  - pose proof (inflight_added _ _ s s' (t_id (f_trigger f)) Hadd Hinv Hfresh). lia.
  - pose proof (tenant_inflight_added _ _ s s' (t_tenant_id (f_trigger f)) Hadd). lia.
Qed.
End claims.

Lemma dispatch_equals_its_specification_witness :
  demo_dispatch (Sqlite (PgEngine payload_text (2 ^ 62))) IntervalKind (20 * second) 100
    (demo_tables "skip" (JStr "p")) =
  dispatch_spec demo_sc (fun _ _ => 0) payload_text (fun id => pretty.pretty id)
    (Sqlite (PgEngine payload_text (2 ^ 62))) (demo_input (20 * second) 100) IntervalKind
    (demo_tables "skip" (JStr "p")).
Proof. apply dispatch_equals_its_specification. exact (proj1 (demo_tables_inv "skip" (JStr "p"))). Defined.

Definition demo_webhook_record : TriggerDispatchRecord :=
  dispatch_record (demo_trigger 2 "webhook" None "fire_now" 0) "webhook" (Some "evt-1") 100 (20 * second)
    (20 * second).

Lemma demo_fires :
  demo_dispatch demo_pool WebhookKind (20 * second) 100 (demo_tables "fire_now" (JStr "p")) =
    Ok (demo_after demo_pool WebhookKind (20 * second) 100 (demo_tables "fire_now" (JStr "p")),
        Some demo_webhook_record).
Proof. vm_compute. reflexivity. Qed.

Lemma fired_run_carries_the_triggers_authority_witness :
  exists t run, t ∈ triggers_of (demo_tables "fire_now" (JStr "p")) /\ t_id t = 2 /\
    t_status t = "enabled" /\
    db_runs (tb_core (demo_after demo_pool WebhookKind (20 * second) 100 (demo_tables "fire_now" (JStr "p")))) =
      [run] /\ r_granted_capabilities run = t_granted_capabilities t.
Proof.
  destruct (fired_run_carries_the_triggers_authority demo_sc (fun _ _ => 0) payload_text
    (fun id => pretty.pretty id) demo_pool WebhookKind (demo_input (20 * second) 100) _ _ demo_webhook_record
    (proj1 (demo_tables_inv "fire_now" (JStr "p"))) demo_fires)
    as (t & r & Ht & Hid & Hst & _ & _ & Hr & _ & _ & _ & _ & _ & _ & _ & Hg).
  exists t, r. exact (conj Ht (conj Hid (conj Hst (conj Hr Hg)))).
Defined.

Lemma firing_respects_the_caps_witness :
  exists t, t ∈ triggers_of (demo_tables "fire_now" (JStr "p")) /\ t_id t = 2 /\
    count_inflight_runs_for_trigger (t_id t)
      (demo_after demo_pool WebhookKind (20 * second) 100 (demo_tables "fire_now" (JStr "p"))) <=
      t_max_inflight_runs t /\
    count_inflight_runs_for_tenant (t_tenant_id t)
      (demo_after demo_pool WebhookKind (20 * second) 100 (demo_tables "fire_now" (JStr "p"))) <= 5.
Proof.
  exact (firing_respects_the_caps demo_sc (fun _ _ => 0) payload_text
    (fun id => pretty.pretty id) demo_pool WebhookKind (demo_input (20 * second) 100) _ _ demo_webhook_record
    (demo_tables_inv "fire_now" (JStr "p")) demo_fires).
Defined.



(** After a manual firing, the same request of the same tenant for the same
    trigger never fires again: while the trigger is live it answers with the run
    of the first. *)
Theorem manual_firing_is_idempotent pool ut wall now tenant id key payload cap run_id row_id s s1 s2 rec
    wall2 now2 payload2 cap2 run_id2 row_id2 (Hinv : trigger_inv s)
    (Hfire : fire_trigger_manually_with_limits ut wall now tenant id key payload cap run_id row_id s =
               Ok (s1, FireCreated rec))
    (Hcalls : rtc (trigger_call pool) s1 s2) :
  let again := fire_trigger_manually_with_limits ut wall2 now2 tenant id key payload2 cap2 run_id2 row_id2 s2 in
  again = Ok (s2, FireDuplicate (Some (td_run_id rec))) \/ again = Ok (s2, TriggerUnavailable).
Proof.
  pose proof (manual_inv _ _ _ _ _ _ _ _ _ _ _ _ _ Hfire Hinv) as Hinv1.
  apply manual_cases in Hfire as [[_ H]|(t & n & row & _ & _ & _ & _ & _ & -> & (_ & _ & _ & Hl & _) & _ & _ & E)];
    [by destruct (H rec)|]. injection E as ->.
  apply trigger_calls_inv in Hcalls as [(_ & _ & Hu & _) Hp]; [|done].
  cbn zeta. unfold fire_trigger_manually_with_limits.
  destruct (List.find _ (triggers_of s2)) as [t2|]; [|by right]. left.
  set (row := created_row row_id id run_id wall (manual_key key) now) in *.
  assert (row ∈ trigger_runs_of s2) as Hrow.
  { eapply prefix_elem; [exact Hp|]. rewrite Hl. apply elem_of_app. right. by left. }
  destruct (List.find (same_dedupe_key id (manual_key key)) (trigger_runs_of s2)) as [r|] eqn:F.
  - apply find_some in F as [Hr Hk]. apply list_elem_of_In in Hr. unfold same_dedupe_key in Hk. bool_hyps.
    apply String.eqb_eq in H0.
    apply list_elem_of_lookup in Hr as [i Hi]. apply list_elem_of_lookup in Hrow as [j Hj].
    assert (i = j) as -> by (by apply (Hu i j r row)). rewrite Hi in Hj. by injection Hj as ->.
  - apply (find_none _ _) with (x := row) in F; [|by apply list_elem_of_In].
    unfold same_dedupe_key in F. cbn in F. by rewrite Z.eqb_refl, String.eqb_refl in F.
Qed.

Definition demo_manual (now : Z) (id : Uuid) (s : tdb) : result (tdb * ManualTriggerFireOutcome) db_error :=
  fire_trigger_manually_with_limits (fun id => pretty.pretty id) now now "acme" 1 "k" None 5 id (id + 1) s.

Definition demo_manual_record : TriggerDispatchRecord :=
  dispatch_record (demo_trigger 1 "interval" (Some 60) "fire_now" (10 * second)) "manual" (Some "k") 100 5
    (10 * second).

Lemma manual_firing_is_idempotent_witness :
  let s1 := match demo_manual 5 100 (demo_tables "fire_now" (JStr "p")) with Ok (s', _) => s' | Err _ => demo_tables "" JNull end in
  demo_manual 7 200 s1 = Ok (s1, FireDuplicate (Some 100)) \/ demo_manual 7 200 s1 = Ok (s1, TriggerUnavailable).
Proof.
  exact (manual_firing_is_idempotent demo_pool (fun id => pretty.pretty id) 5 5 "acme" 1 "k" None 5 100 101
    (demo_tables "fire_now" (JStr "p")) _ _ demo_manual_record 7 7 None 5 200 201
    (demo_tables_inv "fire_now" (JStr "p")) eq_refl (rtc_refl _ _)).
Defined.

Section schedule_claims.
Context (sc : schedules) (jitter_hash : Uuid -> Z -> Z) (to_vec : json -> string)
        (uuid_text : Uuid -> string) (pool : DbPool).
#[local] Abbreviation dispatch := (dispatch_kind_dual sc jitter_hash to_vec uuid_text pool).
#[local] Instance schedule_engine : Engine := bk_engine (backend_of pool).

(** The row of the trigger is replaced, every other row stays. *)
Lemma updated_row p (f : TriggerRecord -> TriggerRecord) rows t :
  t ∈ rows -> p t = true ->
  f t ∈ (update_where p f rows).1 /\ forall x, x ∈ (update_where p f rows).1 -> x ∈ rows \/ exists y, y ∈ rows /\ p y = true /\ x = f y.
Proof.
  intros Ht Hp. split.
  - apply elem_of_update. exists t. by rewrite Hp.
  - intros x (y & Hy & ->)%elem_of_update. destruct (p y) eqn:E; [right; eauto|by left].
Qed.

(** C37: an interval trigger moves forward whenever a dispatch touches it: its next
    instant becomes at least an interval later than the one that fired, and, when
    the misfire policy skips the instant, at least an interval after the clock;
    the dispatch leaves every other trigger as it is. *)
Theorem interval_triggers_move_forward i s s' r (Hinv : tables_inv s)
    (Hpos : forall t n, t ∈ triggers_of s -> t_interval_seconds t = Some n -> 0 < n)
    (Hd : dispatch IntervalKind i s = Ok (s', r)) (Hchange : s' <> s) :
  exists t t' n, t ∈ triggers_of s /\ t' ∈ triggers_of s' /\ t_id t' = t_id t /\
    t_interval_seconds t = Some n /\ t_next_fire_at t < t_next_fire_at t' /\
    (if r is Some _ then t_next_fire_at t + n * second <= t_next_fire_at t'
     else di_wall i + n * second <= t_next_fire_at t') /\
    forall x, x ∈ triggers_of s' -> x ∈ triggers_of s \/ x = t'.
Proof.
  rewrite dispatch_is_spec in Hd by done. unfold dispatch_spec, decide_trigger in Hd.
  destruct (due_triggers _ _ _ _ _ _) as [|t l] eqn:D; [by injection Hd as <-|].
  apply due_eligible in D as ((Ht & _) & Hn & _). unfold decide_interval in Hd.
  destruct (t_interval_seconds t) as [n|] eqn:In; [|done]. cbn [ok_or] in Hd.
  pose proof (Hpos t n Ht In) as Hn0. exists t.
  assert (forall set, (forall x, x ∈ (update_where (this_trigger (t_id t)) set (triggers_of s)).1 ->
    x ∈ triggers_of s \/ x = set t) /\ set t ∈ (update_where (this_trigger (t_id t)) set (triggers_of s)).1) as Hrows.
  { intros set. destruct (updated_row (this_trigger (t_id t)) set (triggers_of s) t Ht) as [H1 H2];
      [apply Z.eqb_refl|]. split; [|done]. intros x [?|(y & Hy & Hp & ->)]%H2; [by left|right].
    unfold this_trigger in Hp. bool_hyps. by rewrite (ids_distinct_inj t_id _ y t (proj1 Hinv) Hy Ht Hp). }
  destruct (misfired t (n * second) (di_wall i)) eqn:Mis; cbn [write] in Hd.
  - apply write_reject_Ok in Hd as (_ & _ & Hrow & ->); [|by intros set [= <-]]. cbn in Hrow. rewrite Hrow.
    destruct (Hrows (set_rescheduled (apply_jitter jitter_hash (di_wall i + n * second) (t_id t)
      (t_jitter_seconds t) (di_wall i)) (stamp pool i))) as [H1 H2].
    eexists. exists n. split_and!; [done|exact H2|done|done| | |exact H1]; cbn.
    + pose proof (apply_jitter_ge jitter_hash (di_wall i + n * second) (t_id t) (t_jitter_seconds t) (di_wall i)).
      unfold misfired in Mis. bool_hyps. unfold second in *. lia.
    + apply apply_jitter_ge.
  - apply write_fire_Ok in Hd as (_ & _ & _ & Hrow & ->); [|done]. cbn in Hrow.
    destruct (Hrows (set_fired (apply_jitter jitter_hash (t_next_fire_at t + n * second) (t_id t)
      (t_jitter_seconds t) (di_wall i)) (stamp pool i))) as [H1 H2]. rewrite Hrow.
    pose proof (apply_jitter_ge jitter_hash (t_next_fire_at t + n * second) (t_id t) (t_jitter_seconds t) (di_wall i)).
    eexists. exists n. split_and!; [done|exact H2|done|done| | |exact H1]; cbn; unfold second in *; lia.
Qed.

(** The event that a dispatch would take. *)
Definition first_due (i : dispatch_input) (s : tdb) : option (trigger_event * TriggerRecord) :=
  head (due_events (di_now i) (di_tenant_max i) (spec_locked pool i) s).


(** The next event cannot be taken when its identifier is a key of the ledger. *)
Lemma taken_key_stops i s e t row : trigger_inv s -> first_due i s = Some (e, t) ->
  row ∈ trigger_runs_of s -> same_dedupe_key (te_trigger_id e) (te_event_id e) row = true ->
  is_ok (dispatch WebhookKind i s) = false.
Proof.
  intros Hinv Hfirst Hrow Hkey. rewrite dispatch_is_spec by apply Hinv. unfold dispatch_spec, decide_trigger.
  unfold first_due in Hfirst. destruct (due_events _ _ _ s) as [|p l] eqn:D; [done|].
  injection Hfirst as ->. apply due_event_eligible in D as (_ & _ & Hid & _). rewrite Hid in Hkey.
  unfold decide_event. destruct (event_too_large to_vec e); cbn [write];
    match goal with |- is_ok ?m = false => destruct m as [[s' r]|] eqn:W end; [|done| |done].
  - apply write_reject_Ok in W as (_ & Hf & _); [|done]. specialize (Hf row Hrow). cbn in Hf. congruence.
  - apply write_fire_Ok in W as (_ & _ & Hf & _); [|done]. specialize (Hf row Hrow). cbn in Hf. congruence.
Qed.

(** A manual firing that created a run, on either backend. *)
Definition fired_manually (wall now : Z) (t : TriggerRecord) (key : string) (s s' : tdb) : Prop :=
  exists payload tenant_max run_id row_id r,
    match pool with
    | Postgres _ _ =>
        fire_trigger_manually_with_limits uuid_text wall now (t_tenant_id t) (t_id t) key payload tenant_max
          run_id row_id s = Ok (s', FireCreated r)
    | Sqlite _ => fire_manually_sqlite uuid_text wall now t key payload run_id row_id s = Ok (s', FireCreated r)
    end.

(** The key it leaves in the ledger. *)
Definition ledger_key (key : string) : string := if on_sqlite pool then key else manual_key key.

(** The keys of manual firings and the identifiers of events share one name
    space per trigger, on SQLite as they are and on PostgreSQL after the prefix
    ["manual:"]. Once a trigger was fired by hand, an event whose identifier is
    the stored key can never be taken: as long as it is the next event, every
    dispatch fails and nothing is written, whatever else happens. *)
Theorem manual_key_stops_the_dispatch wall now t key i s s1 s2 e t2 (Hinv : trigger_inv s)
    (Hfire : fired_manually wall now t key s s1) (Hcalls : rtc (trigger_call pool) s1 s2)
    (Hnext : first_due i s2 = Some (e, t2))
    (Hevent : te_trigger_id e = t_id t /\ te_event_id e = ledger_key key) :
  is_ok (dispatch WebhookKind i s2) = false.
Proof.
  destruct Hfire as (payload & tenant_max & run_id & row_id & r & F).
  assert (trigger_inv s1 /\ exists row, row ∈ trigger_runs_of s1 /\
    same_dedupe_key (t_id t) (ledger_key key) row = true) as (Hinv1 & row & Hrow & Hkey).
  { unfold ledger_key. destruct pool; cbn [on_sqlite].
    - split; [by apply manual_inv in F|]. apply manual_cases in F as [[_ H]|(t0 & n & row & _ & _ & _ & _ & _ & -> & H & _)];
        [by destruct (H r)|]. destruct H as (_ & _ & _ & -> & _). eexists. split; [apply elem_of_app; right; by left|].
      unfold same_dedupe_key. cbn. by rewrite Z.eqb_refl, String.eqb_refl.
    - split; [by apply manual_sqlite_inv in F|]. apply manual_sqlite_cases in F as [[_ H]|(H & _)]; [by destruct (H r)|].
      destruct H as (_ & _ & _ & -> & _). eexists. split; [apply elem_of_app; right; by left|].
      unfold same_dedupe_key. cbn. by rewrite Z.eqb_refl, String.eqb_refl. }
  apply trigger_calls_inv in Hcalls as [Hinv2 Hp]; [|done].
  apply (taken_key_stops i s2 e t2 row Hinv2 Hnext); [by eapply prefix_elem|].
  by destruct Hevent as [-> ->].
Qed.
End schedule_claims.

Lemma demo_skips :
  demo_dispatch demo_pool IntervalKind (100 * second) 100 (demo_tables "skip" (JStr "p")) =
    Ok (demo_after demo_pool IntervalKind (100 * second) 100 (demo_tables "skip" (JStr "p")), None).
Proof. vm_compute. reflexivity. Qed.

Lemma demo_skips_changes :
  demo_after demo_pool IntervalKind (100 * second) 100 (demo_tables "skip" (JStr "p")) <>
  demo_tables "skip" (JStr "p").
Proof. vm_compute. discriminate. Qed.

Lemma demo_tables_positive t n :
  t ∈ triggers_of (demo_tables "skip" (JStr "p")) -> t_interval_seconds t = Some n -> 0 < n.
Proof.
  intros Ht Hn. apply elem_of_cons in Ht as [-> | Ht]; [by injection Hn as <-|].
  by apply list_elem_of_singleton in Ht as ->.
Qed.

Lemma interval_triggers_move_forward_witness :
  exists t t' n, t ∈ triggers_of (demo_tables "skip" (JStr "p")) /\
    t' ∈ triggers_of (demo_after demo_pool IntervalKind (100 * second) 100 (demo_tables "skip" (JStr "p"))) /\
    t_id t' = t_id t /\ t_interval_seconds t = Some n /\ t_next_fire_at t < t_next_fire_at t' /\
    100 * second + n * second <= t_next_fire_at t'.
Proof.
  destruct (interval_triggers_move_forward demo_sc (fun _ _ => 0) payload_text
    (fun id => pretty.pretty id) demo_pool (demo_input (100 * second) 100) _ _ None
    (proj1 (demo_tables_inv "skip" (JStr "p"))) demo_tables_positive demo_skips demo_skips_changes)
    as (t & t' & n & H1 & H2 & H3 & H4 & H5 & H6 & _).
  exists t, t', n. exact (conj H1 (conj H2 (conj H3 (conj H4 (conj H5 H6))))).
Defined.

Definition oversized_after : tdb :=
  demo_after demo_pool WebhookKind (20 * second) 100 (demo_tables "fire_now" oversized).


Definition lite_pool : DbPool := Sqlite (PgEngine payload_text (2 ^ 62)).

(** The webhook trigger fired by hand on SQLite under the identifier of its event. *)
Definition key_taken : tdb :=
  match fire_manually_sqlite (fun id => pretty.pretty id) (5 * second) (5 * second)
          (demo_trigger 2 "webhook" None "fire_now" 0) "evt-1" None 300 301 (demo_tables "fire_now" (JStr "p")) with
  | Ok (s, _) => s
  | Err _ => demo_tables "fire_now" (JStr "p")
  end.

Lemma manual_key_stops_the_dispatch_witness :
  is_ok (demo_dispatch lite_pool WebhookKind (20 * second) 100 key_taken) = false.
Proof.
  refine (manual_key_stops_the_dispatch demo_sc (fun _ _ => 0) payload_text (fun id => pretty.pretty id)
    lite_pool (5 * second) (5 * second) (demo_trigger 2 "webhook" None "fire_now" 0) "evt-1"
    (demo_input (20 * second) 100) (demo_tables "fire_now" (JStr "p")) key_taken key_taken
    (demo_event (JStr "p")) (set_fired_now (current_timestamp (5 * second)) (demo_trigger 2 "webhook" None "fire_now" 0))
    (demo_tables_inv "fire_now" (JStr "p")) _ (rtc_refl _ _) _ (conj eq_refl eq_refl)).
  - exists None, 0, 300, 301. eexists. vm_compute. reflexivity.
  - vm_compute. reflexivity.
Defined.


Lemma demo_rows_ok policy payload : str_in policy ["fire_now"; "skip"] = true ->
  rows_ok demo_pool (demo_tables policy payload).
Proof.
  intros Hp. unfold rows_ok. cbn. repeat constructor; unfold row_ok, trigger_row_ok;
    cbn -[str_in]; by rewrite Hp.
Qed.

