(* ===== verification/Siem.v ===== *)
(** The SIEM delivery outbox (core/src/db.rs, db_worker_dual.rs) and how the worker
    attempts a delivery (worker/src/lib.rs): the state machine of a record, its
    invariant, and its leases. *)
From S2P Require Import Prelude RustStr Json Sql Runs RunQueue.

(** * Records *)

Inductive siem_status := Pending | Processing | Failed | Delivered | DeadLettered.

#[export] Instance siem_status_eq_dec : EqDecision siem_status.
Proof. solve_decision. Defined.

(** [NewComplianceSiemDeliveryRecord] *)
Record NewSiemRecord := {
  nsr_id : Uuid; nsr_tenant_id : string; nsr_run_id : option Uuid; nsr_adapter : string;
  nsr_delivery_target : string; nsr_content_type : string; nsr_payload_ndjson : string;
  nsr_max_attempts : Z;
}.

(** [ComplianceSiemDeliveryRecord] *)
Record siem_record := {
  si_id : Uuid; si_tenant_id : string; si_run_id : option Uuid; si_adapter : string;
  si_delivery_target : string; si_content_type : string; si_payload_ndjson : string;
  si_status : siem_status; si_attempts : Z; si_max_attempts : Z; si_next_attempt_at : Z;
  si_leased_by : option string; si_lease_expires_at : option Z; si_last_error : option string;
  si_last_http_status : option Z; si_created_at : Z; si_updated_at : Z;
  si_delivered_at : option Z;
}.

Definition siem_adapters : list string := ["secureagnt_ndjson"; "splunk_hec"; "elastic_bulk"].

(** [i32::clamp(1, 100)] *)
Definition clamp_1_100 (n : Z) : Z := Z.min 100 (Z.max 1 n).

Definition create_compliance_siem_delivery_record (now : Z) (n : NewSiemRecord)
    (rows : list siem_record) : result (list siem_record * siem_record) db_error :=
  if negb (str_in (nsr_adapter n) siem_adapters) then Err CheckViolation
  else if existsb (fun r => si_id r =? nsr_id n) rows then Err UniqueViolation
  else
    let row :=
      {| si_id := nsr_id n; si_tenant_id := nsr_tenant_id n; si_run_id := nsr_run_id n;
         si_adapter := nsr_adapter n; si_delivery_target := nsr_delivery_target n;
         si_content_type := nsr_content_type n; si_payload_ndjson := nsr_payload_ndjson n;
         si_status := Pending; si_attempts := 0; si_max_attempts := clamp_1_100 (nsr_max_attempts n);
         si_next_attempt_at := now; si_leased_by := None; si_lease_expires_at := None;
         si_last_error := None; si_last_http_status := None; si_created_at := now;
         si_updated_at := now; si_delivered_at := None |} in
    Ok (rows ++ [row], row).

(** The columns an [UPDATE] sets; the others are kept. *)
Definition siem_set (r : siem_record) (st : siem_status) (attempts next : Z)
    (owner : option string) (expires : option Z) (err : option string) (http : option Z)
    (now : Z) (delivered : option Z) : siem_record :=
  {| si_id := si_id r; si_tenant_id := si_tenant_id r; si_run_id := si_run_id r;
     si_adapter := si_adapter r; si_delivery_target := si_delivery_target r;
     si_content_type := si_content_type r; si_payload_ndjson := si_payload_ndjson r;
     si_status := st; si_attempts := attempts; si_max_attempts := si_max_attempts r;
     si_next_attempt_at := next; si_leased_by := owner; si_lease_expires_at := expires;
     si_last_error := err; si_last_http_status := http; si_created_at := si_created_at r;
     si_updated_at := now; si_delivered_at := delivered |}.

Definition siem_is (s : siem_status) (r : siem_record) : bool := bool_decide (si_status r = s).

Definition set_processing (owner : string) (expires now : Z) (r : siem_record) : siem_record :=
  siem_set r Processing (si_attempts r) (si_next_attempt_at r) (Some owner) (Some expires)
    (si_last_error r) (si_last_http_status r) now (si_delivered_at r).

Section claim.
Context `{Engine}.

Definition siem_claimable (now : Z) (r : siem_record) : bool :=
  (siem_is Pending r || siem_is Failed r) && ts_le (si_next_attempt_at r) now &&
  match si_lease_expires_at r with None => true | Some e => ts_le e now end.

(** [ORDER BY next_attempt_at ASC, created_at ASC, id ASC] *)
Definition siem_order (a b : siem_record) : bool :=
  let na := ts_key (si_next_attempt_at a) in let nb := ts_key (si_next_attempt_at b) in
  let ca := ts_key (si_created_at a) in let cb := ts_key (si_created_at b) in
  (na <? nb) || ((na =? nb) && ((ca <? cb) || ((ca =? cb) && (si_id a <=? si_id b)))).

Definition siem_candidates (now lim : Z) (rows : list siem_record) : list Uuid :=
  map si_id (limit (clamp_1_100 lim) (order_by siem_order (List.filter (siem_claimable now) rows))).

(** One statement; the rows come back as they are after the update. *)
Definition claim_pending_compliance_siem_delivery_records (now : Z) (lease_owner : string)
    (lease_for lim : Z) (rows : list siem_record)
    : result (list siem_record * list siem_record) db_error :=
  let expires := now + clamp_lease_ms lease_for * 1000 in
  let ids := siem_candidates now lim rows in
  let p r := bool_decide (si_id r ∈ ids) in
  if negb (bool_decide (ids = [])) && (ts_max <? expires) then Err OutOfRange
  else let rows' := (update_where p (set_processing lease_owner expires now) rows).1 in
       Ok (rows', List.filter p rows').

(** SQLite: the candidates, then a guarded update and a read for each. *)
Fixpoint siem_claim_each (clock : nat -> Z) (i : nat) (lease_owner : string) (expires : Z)
    (ids : list Uuid) (rows : list siem_record) : list siem_record * list siem_record :=
  match ids with
  | [] => (rows, [])
  | id :: ids' =>
      let now := clock i in
      let p r := (si_id r =? id) && siem_claimable now r in
      let '(rows', n) := update_where p (set_processing lease_owner expires now) rows in
      let '(rows'', claimed) := siem_claim_each clock (S i) lease_owner expires ids' rows' in
      if n =? 1
      then (rows'', match List.find (fun r => si_id r =? id) rows' with
                    | Some r => r :: claimed
                    | None => claimed
                    end)
      else (rows'', claimed)
  end.

Definition claim_pending_compliance_siem_delivery_records_sqlite (clock : nat -> Z)
    (lease_owner : string) (lease_for lim : Z) (rows : list siem_record)
    : result (list siem_record * list siem_record) db_error :=
  let expires := clock 0%nat + clamp_lease_ms lease_for * 1000 in
  if ts_max <? expires then Err OutOfRange
  else Ok (siem_claim_each clock 2 lease_owner expires
             (siem_candidates (clock 1%nat) lim rows) rows).
End claim.

(** * Outcomes *)

Definition set_delivered (now : Z) (http : option Z) (r : siem_record) : siem_record :=
  siem_set r Delivered (si_attempts r + 1) (si_next_attempt_at r) None None None http now (Some now).

Definition set_failed (now : Z) (err : string) (http : option Z) (retry_at : Z) (r : siem_record)
    : siem_record :=
  let last := si_max_attempts r <=? si_attempts r + 1 in
  siem_set r (if last then DeadLettered else Failed) (si_attempts r + 1)
    (if last then now else retry_at) None None (Some err) http now (si_delivered_at r).

Definition set_dead_lettered (now : Z) (err : string) (http : option Z) (r : siem_record)
    : siem_record :=
  siem_set r DeadLettered (si_attempts r + 1) now None None (Some err) http now (si_delivered_at r).

(** [UPDATE ... WHERE id = $1 RETURNING ...] with [fetch_one]. *)
Definition siem_mark (f : siem_record -> siem_record) (id : Uuid) (rows : list siem_record)
    : result (list siem_record * siem_record) db_error :=
  match List.find (fun r => si_id r =? id) rows with
  | None => Err RowNotFound
  | Some r => Ok ((update_where (fun r => si_id r =? id) f rows).1, f r)
  end.

Definition mark_compliance_siem_delivery_record_delivered (now : Z) (id : Uuid) (http : option Z) :=
  siem_mark (set_delivered now http) id.

Definition mark_compliance_siem_delivery_record_failed (now : Z) (id : Uuid) (err : string)
    (http : option Z) (retry_at : Z) :=
  siem_mark (set_failed now err http retry_at) id.

Definition mark_compliance_siem_delivery_record_dead_lettered (now : Z) (id : Uuid) (err : string)
    (http : option Z) :=
  siem_mark (set_dead_lettered now err http) id.

(** The SQLite statements are the same; [now] is [CURRENT_TIMESTAMP]. *)
Definition mark_compliance_siem_delivery_record_delivered_sqlite (now : Z) :=
  mark_compliance_siem_delivery_record_delivered (now / 1000000 * 1000000).
Definition mark_compliance_siem_delivery_record_failed_sqlite (now : Z) :=
  mark_compliance_siem_delivery_record_failed (now / 1000000 * 1000000).
Definition mark_compliance_siem_delivery_record_dead_lettered_sqlite (now : Z) :=
  mark_compliance_siem_delivery_record_dead_lettered (now / 1000000 * 1000000).

Definition set_requeued_siem (now retry_at : Z) (r : siem_record) : siem_record :=
  siem_set r Pending 0 retry_at None None None None now (si_delivered_at r).

Definition dead_letter_of (tenant : string) (id : Uuid) (r : siem_record) : bool :=
  (si_id r =? id) && String.eqb (si_tenant_id r) tenant && siem_is DeadLettered r.

Definition requeue_dead_letter_compliance_siem_delivery_record (now : Z) (tenant : string)
    (id : Uuid) (retry_at : Z) (rows : list siem_record) : list siem_record * option siem_record :=
  (fst (update_where (dead_letter_of tenant id) (set_requeued_siem now retry_at) rows),
   set_requeued_siem now retry_at <$> List.find (dead_letter_of tenant id) rows).

(** * One delivery attempt of the worker *)

Inductive SiemDeliveryAttempt :=
| AttemptDelivered (http_status : option Z)
| AttemptFailed (http_status : option Z) (err : string) (retryable : bool).

Definition is_non_retryable_siem_http_status (status : Z) : bool :=
  existsb (Z.eqb status) [400; 401; 403; 404; 405; 410; 422].

(** [Uuid::as_bytes]: sixteen bytes, the most significant first. *)
Definition uuid_bytes (id : Uuid) : list Z :=
  map (fun i => Z.land (Z.shiftr id (8 * Z.of_nat (15 - i))) 255) (seq 0 16).

Definition deterministic_retry_jitter_ms (record_id : Uuid) (attempt_count jitter_max_ms : Z) : Z :=
  if jitter_max_ms <=? 0 then 0
  else
    let accum := fold_left (fun acc b => wrap_u64 (wrap_u64 (acc * 131) + b)) (uuid_bytes record_id) 0 in
    let salted := wrap_u64 (accum + Z.max attempt_count 0) in
    salted `mod` jitter_max_ms.

(** The value of the optional authorization header. *)
Definition optional_auth_header (header_name : string) (token : option string) : option string :=
  match token ≫= non_empty_trimmed with
  | None => None
  | Some raw_token =>
      Some (if eq_ignore_ascii_case header_name "authorization" &&
               negb (starts_with "bearer " (to_ascii_lowercase raw_token))
            then "Bearer " +:+ raw_token else raw_token)
  end.

(** What the HTTP client reports: a status and the beginning of the body, or the
    error of the request. *)
Definition http_answer : Type := result (Z * string) string.

Definition is_success_status (s : Z) : bool := (200 <=? s) && (s <=? 299).

Section attempt.
Context (status_text : Z -> string) (http_enabled : bool).
(** [client.post(target)] with the record's headers and body. *)
Context (post : siem_record -> string -> http_answer).

Definition attempt_compliance_siem_delivery (record : siem_record) : SiemDeliveryAttempt :=
  let target := trim (si_delivery_target record) in
  if eq_ignore_ascii_case target "mock://success" then AttemptDelivered (Some 200)
  else if eq_ignore_ascii_case target "mock://fail"
  then AttemptFailed None "mock failure target" true
  else if starts_with "http://" target || starts_with "https://" target then
    if negb http_enabled
    then AttemptFailed None "HTTP delivery is disabled by WORKER_COMPLIANCE_SIEM_HTTP_ENABLED" false
    else
      match post record target with
      | Ok (status, truncated) =>
          if is_success_status status then AttemptDelivered (Some status)
          else AttemptFailed (Some status)
                 ("http delivery failed: status=" +:+ status_text status +:+ " body=" +:+ truncated)
                 (negb (is_non_retryable_siem_http_status status))
      | Err err => AttemptFailed None ("http delivery request failed: " +:+ err) true
      end
  else AttemptFailed None ("unsupported SIEM delivery target scheme: " +:+ target) false.
End attempt.

(** * The dispatchers and the worker's loop *)

(** A statement's own error, or the driver's. *)
Inductive siem_error :=
| SiemSql (e : db_error)
| SiemDriver (message : string).

Section worker.
Context (pool : DbPool).

Definition claim_pending_compliance_siem_delivery_records_dual (clock : nat -> Z)
    (lease_owner : string) (lease_for lim : Z) (rows : list siem_record)
    : result (list siem_record * list siem_record) db_error :=
  match pool with
  | Postgres text tmax =>
      @claim_pending_compliance_siem_delivery_records (PgEngine text tmax) (clock 0%nat)
        lease_owner lease_for lim rows
  | Sqlite E =>
      @claim_pending_compliance_siem_delivery_records_sqlite E clock lease_owner lease_for lim rows
  end.

Definition on_pool {A} (pg sqlite : A) : A :=
  match pool with Postgres _ _ => pg | Sqlite _ => sqlite end.

Definition mark_compliance_siem_delivery_record_delivered_dual :=
  on_pool mark_compliance_siem_delivery_record_delivered
          mark_compliance_siem_delivery_record_delivered_sqlite.
Definition mark_compliance_siem_delivery_record_failed_dual :=
  on_pool mark_compliance_siem_delivery_record_failed
          mark_compliance_siem_delivery_record_failed_sqlite.
Definition mark_compliance_siem_delivery_record_dead_lettered_dual :=
  on_pool mark_compliance_siem_delivery_record_dead_lettered
          mark_compliance_siem_delivery_record_dead_lettered_sqlite.

(** The call the worker makes after an attempt; [now] is the process clock,
    [db_now] the time of the statement. *)
Definition mark_attempt (retry_ms jitter_max_ms now db_now : Z) (record : siem_record)
    (a : SiemDeliveryAttempt) (rows : list siem_record)
    : result (list siem_record * siem_record) db_error :=
  match a with
  | AttemptDelivered http =>
      mark_compliance_siem_delivery_record_delivered_dual db_now (si_id record) http rows
  | AttemptFailed http err true =>
      let retry_jitter_ms :=
        deterministic_retry_jitter_ms (si_id record) (si_attempts record) jitter_max_ms in
      let retry_at := now + saturating_add_i64 retry_ms retry_jitter_ms * 1000 in
      mark_compliance_siem_delivery_record_failed_dual db_now (si_id record) err http retry_at rows
  | AttemptFailed http err false =>
      mark_compliance_siem_delivery_record_dead_lettered_dual db_now (si_id record) err http rows
  end.

Record SiemConfig := {
  sc_worker_id : string; sc_lease : Z; sc_batch_size : Z; sc_http_enabled : bool;
  sc_retry_backoff_ms : Z; sc_retry_jitter_max_ms : Z;
}.

Context (cfg : SiemConfig) (status_text : Z -> string).
Context (post : nat -> siem_record -> string -> http_answer).
(** [clock i] and the failure, if any, of the [i]-th call. *)
Context (clock : nat -> Z) (fault : nat -> option siem_error).

Fixpoint deliver_records (i : nat) (records : list siem_record) (rows : list siem_record)
    : list siem_record * result unit siem_error :=
  match records with
  | [] => (rows, Ok tt)
  | record :: rest =>
      let a := attempt_compliance_siem_delivery status_text (sc_http_enabled cfg) (post i) record in
      let retry_ms := Z.min i64_max (Z.max 1 (sc_retry_backoff_ms cfg)) in
      let jitter_max_ms := Z.min i64_max (Z.max 0 (sc_retry_jitter_max_ms cfg)) in
      match fault i with
      | Some e => (rows, Err e)
      | None =>
          match mark_attempt retry_ms jitter_max_ms (clock i) (clock (S i)) record a rows with
          | Ok (rows', _) => deliver_records (S (S i)) rest rows'
          | Err e => (rows, Err (SiemSql e))
          end
      end
  end.

Definition process_compliance_siem_delivery_outbox (rows : list siem_record)
    : list siem_record * result unit siem_error :=
  match fault 0%nat with
  | Some e => (rows, Err e)
  | None =>
      match claim_pending_compliance_siem_delivery_records_dual clock (sc_worker_id cfg)
              (sc_lease cfg) (sc_batch_size cfg) rows with
      | Err e => (rows, Err (SiemSql e))
      | Ok (rows', records) => deliver_records (3 + length rows) records rows'
      end
  end.
End worker.
