(* ===== verification/SiemProps.v ===== *)
(** Properties of the SIEM outbox: the record invariant, single holders, the
    records that a crash orphans, delivery outcomes and retry jitter. *)
From S2P Require Import Prelude RustStr Json Sql Runs RunQueue Siem.

(** * What a claim does *)

(** The rows with these identifiers, open before, are being processed after; no
    other row changes. *)
Definition claim_row (ids : list Uuid) (r r' : siem_record) : Prop :=
  if bool_decide (si_id r ∈ ids)
  then (si_status r = Pending \/ si_status r = Failed) /\
       exists owner expires now, r' = set_processing owner expires now r
  else r' = r.

Definition claim_rel (ids : list Uuid) (rows rows' : list siem_record) : Prop :=
  NoDup ids /\ (forall id, id ∈ ids -> id ∈ map si_id rows) /\ Forall2 (claim_row ids) rows rows'.

Lemma claimable_open `{Engine} now r :
  siem_claimable now r = true -> si_status r = Pending \/ si_status r = Failed.
Proof.
  unfold siem_claimable, siem_is. intros Hc. bool_hyps.
  match goal with Hs : _ || _ = true |- _ => apply orb_true_iff in Hs as [Hs|Hs] end; bool_hyps; auto.
Qed.

Lemma siem_candidates_ok `{Engine} now lim rows :
  ids_distinct si_id rows ->
  NoDup (siem_candidates now lim rows) /\
  forall r, r ∈ rows -> si_id r ∈ siem_candidates now lim rows -> siem_claimable now r = true.
Proof.
  intros Hd. unfold siem_candidates.
  set (cands := order_by siem_order (List.filter (siem_claimable now) rows)).
  assert (NoDup (map si_id cands)) as Hnd.
  { unfold cands. rewrite order_by_perm. by apply ids_distinct_filter. }
  assert (forall x, x ∈ cands -> x ∈ rows /\ siem_claimable now x = true) as Hc.
  { intros x. unfold cands. rewrite elem_of_order_by. apply elem_of_filterb. }
  split.
  - unfold limit. rewrite <- firstn_map. apply (NoDup_app (take _ (map si_id cands)) (drop (Z.to_nat (clamp_1_100 lim)) (map si_id cands))).
    by rewrite take_drop.
  - intros r Hr Hin. apply list_elem_of_fmap in Hin as (x & Hx & Hin).
    apply elem_of_limit, Hc in Hin as [Hxr Hcl].
    by rewrite (ids_distinct_inj si_id rows r x).
Qed.

Lemma pg_claim_ok text tmax now w lease lim rows rows' claimed :
  ids_distinct si_id rows ->
  @claim_pending_compliance_siem_delivery_records (PgEngine text tmax) now w lease lim rows
    = Ok (rows', claimed) ->
  claim_rel (map si_id claimed) rows rows'.
Proof.
  intros Hd. unfold claim_pending_compliance_siem_delivery_records.
  set (ids := @siem_candidates (PgEngine text tmax) now lim rows).
  destruct (@siem_candidates_ok (PgEngine text tmax) now lim rows Hd) as [Hnd Hc]. fold ids in Hnd, Hc.
  destruct (negb _ && _); [done|]. intros [= <- <-].
  set (f := set_processing w _ now).
  assert (forall id, id ∈ map si_id (List.filter (fun r => bool_decide (si_id r ∈ ids))
      (map (fun r => if bool_decide (si_id r ∈ ids) then f r else r) rows)) <->
      id ∈ ids /\ id ∈ map si_id rows) as Hids.
  { intros id. rewrite list_elem_of_fmap. setoid_rewrite elem_of_filterb.
    setoid_rewrite list_elem_of_fmap. setoid_rewrite bool_decide_eq_true. split.
    - intros (x & -> & (r & -> & Hr) & Hx). split; [done|].
      exists r. split; [by destruct (bool_decide _)|done].
    - intros [Hid (r & -> & Hr)]. exists (f r). split; [done|]. split; [|done].
      exists r. split; [|done]. by rewrite bool_decide_eq_true_2. }
  split_and!.
  - assert (map si_id (map (fun r => if bool_decide (si_id r ∈ ids) then f r else r) rows) = map si_id rows) as Hm.
    { rewrite map_map. apply map_ext. intros r. by destruct (bool_decide _). }
    apply ids_distinct_filter. unfold ids_distinct in *. by rewrite Hm.
  - intros id Hid. by apply Hids.
  - apply Forall2_map_r. intros r Hr. unfold claim_row.
    assert (bool_decide (si_id r ∈ map si_id (List.filter (fun r => bool_decide (si_id r ∈ ids))
      (map (fun r => if bool_decide (si_id r ∈ ids) then f r else r) rows))) =
      bool_decide (si_id r ∈ ids)) as ->.
    { apply bool_decide_ext. rewrite Hids. split; [by intros []|]. intros Hin. split; [done|].
      apply list_elem_of_fmap. eauto. }
    destruct (bool_decide (si_id r ∈ ids)) eqn:E; [|done]. bool_hyps.
    split; [by eapply claimable_open, Hc|]. unfold f. eauto.
Qed.

Lemma claim_rel_ids ids rows rows' : claim_rel ids rows rows' -> map si_id rows' = map si_id rows.
Proof.
  intros (_ & _ & HF). induction HF as [|r r' rows rows' Hr _ IH]; [done|]. simpl. f_equal; [|done].
  unfold claim_row in Hr. destruct (bool_decide _); [|by subst].
  by destruct Hr as (_ & ? & ? & ? & ->).
Qed.

Lemma claim_rel_nil rows : claim_rel [] rows rows.
Proof.
  split_and!; [constructor|intros id H; inv H|]. rewrite <- (map_id rows) at 2.
  apply Forall2_map_r. intros r _. done.
Qed.

Lemma Forall2_compose {A} (R S T : A -> A -> Prop) l1 l2 l3 :
  (forall x y z, R x y -> S y z -> T x z) -> Forall2 R l1 l2 -> Forall2 S l2 l3 -> Forall2 T l1 l3.
Proof.
  intros H H1. revert l3. induction H1 as [|x y l1 l2 Hxy _ IH]; intros l3 H2; inv H2; constructor; eauto.
Qed.

Lemma claim_rel_cons id ids rows rows1 rows2 :
  claim_rel [id] rows rows1 -> claim_rel ids rows1 rows2 -> claim_rel (id :: ids) rows rows2.
Proof.
  intros H1 H2. pose proof (claim_rel_ids _ _ _ H1) as Hids.
  destruct H1 as (_ & Hin & F1), H2 as (Hnd & Hin2 & F2).
  assert (id ∉ ids) as Hn.
  { intros Hid. specialize (Hin id ltac:(left)). apply list_elem_of_fmap in Hin as (r & Er & Hr).
    apply list_elem_of_lookup in Hr as [i Hi].
    destruct (Forall2_lookup_l _ _ _ _ _ F1 Hi) as (r1 & Hi1 & C1).
    destruct (Forall2_lookup_l _ _ _ _ _ F2 Hi1) as (r2 & _ & C2).
    unfold claim_row in C1. rewrite bool_decide_eq_true_2 in C1 by (rewrite <- Er; left).
    destruct C1 as (_ & o & e & n & ->). unfold claim_row in C2.
    rewrite bool_decide_eq_true_2 in C2 by (simpl; by rewrite <- Er).
    by destruct C2 as ([?|?] & _). }
  split_and!.
  - by constructor.
  - intros j Hj. rewrite <- Hids. apply elem_of_cons in Hj as [->|Hj]; [rewrite Hids; apply Hin; left|].
    by apply Hin2.
  - eapply Forall2_compose; [|exact F1|exact F2]. intros x y z Cxy Cyz.
    unfold claim_row in *. destruct (decide (si_id x = id)) as [Hx|Hx].
    + rewrite bool_decide_eq_true_2 in Cxy by (rewrite Hx; left).
      destruct Cxy as (Hst & o & e & n & ->). simpl in Cyz.
      rewrite bool_decide_eq_false_2 in Cyz by (by rewrite Hx). subst z.
      rewrite bool_decide_eq_true_2 by (rewrite Hx; left). eauto.
    + rewrite bool_decide_eq_false_2 in Cxy by (by intros ?%list_elem_of_singleton). subst y.
      destruct (bool_decide (si_id x ∈ ids)) eqn:E; bool_hyps.
      * by rewrite bool_decide_eq_true_2 by (by right).
      * rewrite bool_decide_eq_false_2; [done|]. by intros [?|?]%elem_of_cons.
Qed.

Lemma siem_claim_each_ok `{Engine} clock i w e ids rows rows' claimed :
  ids_distinct si_id rows ->
  siem_claim_each clock i w e ids rows = (rows', claimed) ->
  claim_rel (map si_id claimed) rows rows'.
Proof.
  revert i rows rows' claimed. induction ids as [|id ids IH]; intros i rows rows' claimed Hd Hc.
  { simpl in Hc. simplify_eq. apply claim_rel_nil. }
  cbn [siem_claim_each] in Hc. set (p := fun r => (si_id r =? id) && siem_claimable (clock i) r) in *.
  rewrite (surjective_pairing (update_where p _ rows)) in Hc.
  set (rows1 := (update_where p (set_processing w e (clock i)) rows).1) in *.
  destruct (siem_claim_each clock (S i) w e ids rows1) as [rows2 cl] eqn:Ec.
  assert (map si_id rows1 = map si_id rows) as Hids by (by apply update_ids).
  assert (ids_distinct si_id rows1) as Hd1 by (unfold ids_distinct; by rewrite Hids).
  specialize (IH _ _ _ _ Hd1 Ec).
  destruct ((update_where p (set_processing w e (clock i)) rows).2 =? 1) eqn:En.
  - assert (exists r, r ∈ rows /\ p r = true) as (r & Hr & Hp).
    { simpl in En. apply Z.eqb_eq in En. unfold countb in En.
      destruct (List.filter p rows) as [|x l] eqn:Ef; [done|]. exists x.
      apply elem_of_filterb. rewrite Ef. left. }
    assert (set_processing w e (clock i) r ∈ rows1) as Hr1.
    { apply elem_of_update. exists r. by rewrite Hp. }
    pose proof Hp as Hp'. unfold p in Hp. apply andb_true_iff in Hp as [Hid Hcl]. bool_hyps.
    assert (claim_rel [id] rows rows1) as Hone.
    { split_and!; [apply NoDup_singleton| |].
      - intros j ->%list_elem_of_singleton. apply list_elem_of_fmap. eauto.
      - apply Forall2_map_r. intros x Hx. unfold claim_row. destruct (p x) eqn:Epx.
        + pose proof Epx as Epx'. unfold p in Epx. apply andb_true_iff in Epx as [Hxi Hxc]. bool_hyps.
          rewrite bool_decide_eq_true_2 by (rewrite Hxi; left).
          split; [by eapply claimable_open|eauto].
        + rewrite bool_decide_eq_false_2; [done|]. intros Hx'%list_elem_of_singleton.
          assert (x = r) as -> by (apply (ids_distinct_inj si_id rows); congruence). congruence. }
    destruct (List.find (fun r => si_id r =? id) rows1) as [c|] eqn:Ef.
    + apply List.find_some in Ef as [_ Hc']. bool_hyps. simplify_eq. cbn [map].
      by eapply claim_rel_cons.
    + exfalso. eapply List.find_none in Ef; [|apply list_elem_of_In; exact Hr1].
      simpl in Ef. bool_hyps. congruence.
  - simplify_eq. assert (rows1 = rows) as E1; [|rewrite E1 in IH; exact IH].
    assert (forall r, r ∈ rows -> p r = false) as Hnone.
    { assert (countb p rows <= 1) as Hle.
      { apply (ids_distinct_count si_id rows p Hd). intros a b _ _ Ha Hb. unfold p in *. bool_hyps. congruence. }
      simpl in En. apply Z.eqb_neq in En. apply filterb_nil.
      unfold countb in *. destruct (List.filter p rows); [done|]. simpl in *. lia. }
    unfold rows1. by rewrite (update_where_none p _ rows Hnone).
Qed.

Lemma siem_claim_dual_ok pool clock w lease lim rows rows' claimed :
  ids_distinct si_id rows ->
  claim_pending_compliance_siem_delivery_records_dual pool clock w lease lim rows
    = Ok (rows', claimed) ->
  claim_rel (map si_id claimed) rows rows'.
Proof.
  intros Hd. destruct pool as [text tmax|E]; simpl; [by apply pg_claim_ok|].
  unfold claim_pending_compliance_siem_delivery_records_sqlite.
  destruct (_ <? _); [done|]. destruct (siem_claim_each _ _ _ _ _ _) as [rs cl] eqn:Ec.
  intros [= <- <-]. by eapply siem_claim_each_ok.
Qed.

(** * The outbox as a system *)

(** The table, and the records that workers hold: claimed, not yet marked. *)
Record siem_sys := { sy_rows : list siem_record; sy_held : list Uuid }.

Definition drop_id (id : Uuid) (l : list Uuid) : list Uuid :=
  List.filter (fun x => negb (x =? id)) l.

Inductive siem_step (pool : DbPool) : siem_sys -> siem_sys -> Prop :=
| siem_create s now n rows' r :
    create_compliance_siem_delivery_record now n (sy_rows s) = Ok (rows', r) ->
    siem_step pool s {| sy_rows := rows'; sy_held := sy_held s |}
| siem_claim s clock w lease lim rows' claimed :
    claim_pending_compliance_siem_delivery_records_dual pool clock w lease lim (sy_rows s)
      = Ok (rows', claimed) ->
    siem_step pool s {| sy_rows := rows'; sy_held := sy_held s ++ map si_id claimed |}
| siem_attempted s retry jitter now db_now record a rows' r :
    si_id record ∈ sy_held s ->
    mark_attempt pool retry jitter now db_now record a (sy_rows s) = Ok (rows', r) ->
    siem_step pool s {| sy_rows := rows'; sy_held := drop_id (si_id record) (sy_held s) |}
| siem_requeue s now tenant id retry_at :
    siem_step pool s
      {| sy_rows := fst (requeue_dead_letter_compliance_siem_delivery_record now tenant id retry_at (sy_rows s));
         sy_held := sy_held s |}
| siem_crash s id :
    siem_step pool s {| sy_rows := sy_rows s; sy_held := drop_id id (sy_held s) |}.

(** A record: the attempts never exceed their maximum, a record that is still to
    be delivered has an attempt left, and it has a lease exactly while it is
    processed. *)
Definition siem_wf (r : siem_record) : Prop :=
  1 <= si_max_attempts r <= 100 /\ 0 <= si_attempts r <= si_max_attempts r /\
  (si_status r = Pending \/ si_status r = Processing \/ si_status r = Failed ->
   si_attempts r < si_max_attempts r) /\
  (si_status r = Processing <-> is_Some (si_lease_expires_at r)) /\
  (si_status r = Delivered -> is_Some (si_delivered_at r)).

Definition siem_inv (s : siem_sys) : Prop :=
  ids_distinct si_id (sy_rows s) /\ Forall siem_wf (sy_rows s) /\ NoDup (sy_held s) /\
  forall id, id ∈ sy_held s -> exists r, r ∈ sy_rows s /\ si_id r = id /\ si_status r = Processing.

Ltac wf_split :=
  unfold siem_wf; simpl; split; [lia|]; split; [lia|]; split; [|split].

Lemma claim_row_wf ids r r' : claim_row ids r r' -> siem_wf r -> siem_wf r'.
Proof.
  unfold claim_row. destruct (bool_decide _); [|by intros ->].
  intros (Hst & o & e & n & ->) (H1 & H2 & H3 & H4 & H5). wf_split.
  - intros _. apply H3. destruct Hst; auto.
  - split; [by eexists|done].
  - done.
Qed.

Lemma elem_of_drop_id x id l : x ∈ drop_id id l <-> x ∈ l /\ x <> id.
Proof. unfold drop_id. rewrite elem_of_filterb. by rewrite negb_true_iff, Z.eqb_neq. Qed.

Lemma NoDup_drop_id id l : NoDup l -> NoDup (drop_id id l).
Proof.
  intros H. unfold drop_id. pose proof (ids_distinct_filter (fun x => x) (fun x => negb (x =? id)) l) as Hf.
  unfold ids_distinct in Hf. rewrite !map_id in Hf. by apply Hf.
Qed.

(** The three outcomes of a mark, on the row. *)
Lemma mark_attempt_rows pool retry jitter now db_now record a rows rows' r' :
  mark_attempt pool retry jitter now db_now record a rows = Ok (rows', r') ->
  exists f, rows' = (update_where (fun r => si_id r =? si_id record) f rows).1 /\
    (forall r, si_id (f r) = si_id r) /\
    (forall r, siem_wf r -> si_status r = Processing -> siem_wf (f r)).
Proof.
  assert (forall f, siem_mark f (si_id record) rows = Ok (rows', r') ->
    rows' = (update_where (fun r => si_id r =? si_id record) f rows).1) as Hmark.
  { intros f. unfold siem_mark. destruct (List.find _ rows); [|done]. by intros [= <- <-]. }
  assert (forall t h, forall r, siem_wf r -> si_status r = Processing -> siem_wf (set_delivered t h r)) as HD.
  { intros t h r (H1 & H2 & H3 & H4 & H5) Hs. specialize (H3 ltac:(auto)).
    wf_split; [naive_solver|split; [done|by intros []]|by eexists]. }
  assert (forall t e h, forall r, siem_wf r -> si_status r = Processing -> siem_wf (set_dead_lettered t e h r)) as HL.
  { intros t e h r (H1 & H2 & H3 & H4 & H5) Hs. specialize (H3 ltac:(auto)).
    wf_split; [naive_solver|split; [done|by intros []]|done]. }
  assert (forall t e h ra, forall r, siem_wf r -> si_status r = Processing -> siem_wf (set_failed t e h ra r)) as HF.
  { intros t e h ra r (H1 & H2 & H3 & H4 & H5) Hs. specialize (H3 ltac:(auto)).
    wf_split; destruct (si_max_attempts r <=? si_attempts r + 1) eqn:E; bool_hyps;
      try done; try (split; [done|by intros []]); first [lia|naive_solver]. }
  unfold mark_attempt. destruct a as [http|http err [|]].
  - unfold mark_compliance_siem_delivery_record_delivered_dual, on_pool.
    destruct pool; intros H; apply Hmark in H; eexists; (split; [exact H|]; split; [done|]); apply HD.
  - unfold mark_compliance_siem_delivery_record_failed_dual, on_pool.
    destruct pool; intros H; apply Hmark in H; eexists; (split; [exact H|]; split; [done|]); apply HF.
  - unfold mark_compliance_siem_delivery_record_dead_lettered_dual, on_pool.
    destruct pool; intros H; apply Hmark in H; eexists; (split; [exact H|]; split; [done|]); apply HL.
Qed.

Lemma update_by_id id (f : siem_record -> siem_record) rows r :
  ids_distinct si_id rows -> r ∈ rows -> si_id r <> id ->
  r ∈ (update_where (fun r => si_id r =? id) f rows).1.
Proof.
  intros _ Hr Hne. apply elem_of_update. exists r. split; [done|].
  by rewrite (proj2 (Z.eqb_neq _ _) Hne).
Qed.

Lemma siem_step_inv pool s s' : siem_step pool s s' -> siem_inv s -> siem_inv s'.
Proof.
  intros Hstep (Hd & Hwf & Hnd & Hheld). destruct Hstep as
    [s now n rows' r Hc|s clock w lease lim rows' claimed Hc|s retry jitter now db_now record a rows' r Hh Hm
    |s now tenant id retry_at|s id]; unfold siem_inv; cbn [sy_rows sy_held].
  - unfold create_compliance_siem_delivery_record in Hc.
    destruct (negb _); [done|]. destruct (existsb _ _) eqn:Ex; [done|]. simplify_eq.
    split_and!.
    + unfold ids_distinct. rewrite map_app. simpl. apply NoDup_app. split_and!; [done| |apply NoDup_singleton].
      intros x Hx ->%list_elem_of_singleton. apply list_elem_of_fmap in Hx as (r & Er & Hr).
      apply not_true_iff_false in Ex. apply Ex, existsb_elem_of. exists r.
      split; [done|]. by apply Z.eqb_eq.
    + apply Forall_app. split; [done|]. constructor; [|done].
      unfold clamp_1_100. wf_split; [lia|split; [done|by intros []]|done].
    + done.
    + intros id Hid. destruct (Hheld id Hid) as (r & ? & ?). exists r. set_solver.
  - apply siem_claim_dual_ok in Hc; [|done]. pose proof (claim_rel_ids _ _ _ Hc) as Hids.
    destruct Hc as (Hcn & Hcin & HF). split_and!.
    + unfold ids_distinct in *. by rewrite Hids.
    + clear -HF Hwf. induction HF as [|r r' rows rows' Hr _ IH]; [done|]. inv Hwf.
      constructor; [by eapply claim_row_wf|by apply IH].
    + apply NoDup_app. split_and!; [done| |done]. intros id Hid Hid'.
      destruct (Hheld id Hid) as (r & Hr & <- & Hst).
      apply list_elem_of_lookup in Hr as [i Hi].
      destruct (Forall2_lookup_l _ _ _ _ _ HF Hi) as (r' & _ & C). unfold claim_row in C.
      rewrite bool_decide_eq_true_2 in C by done. destruct C as ([?|?] & _); congruence.
    + intros id Hid.
      assert (exists r, r ∈ sy_rows s /\ si_id r = id /\ (id ∈ map si_id claimed \/ si_status r = Processing))
        as (r & Hr & <- & Hcase).
      { apply elem_of_app in Hid as [Hid|Hid].
        - destruct (Hheld id Hid) as (r & ? & ? & ?). eauto.
        - pose proof (Hcin id Hid) as Hin. apply list_elem_of_fmap in Hin as (r & -> & Hr). eauto. }
      apply list_elem_of_lookup in Hr as [i Hi].
      destruct (Forall2_lookup_l _ _ _ _ _ HF Hi) as (r' & Hi' & C). unfold claim_row in C.
      exists r'. split; [by eapply list_elem_of_lookup_2|].
      destruct (bool_decide (si_id r ∈ map si_id claimed)) eqn:E; bool_hyps.
      * by destruct C as (_ & o & e & n & ->).
      * subst r'. split; [done|]. destruct Hcase; [done|done].
  - apply mark_attempt_rows in Hm as (f & -> & Hfid & Hfwf).
    destruct (Hheld _ Hh) as (r0 & Hr0 & Hid0 & Hst0). split_and!.
    + unfold ids_distinct in *. by rewrite update_ids.
    + apply Forall_forall. intros x Hx. apply elem_of_update in Hx as (y & Hy & ->).
      rewrite Forall_forall in Hwf. destruct (si_id y =? si_id record) eqn:E; [|by apply Hwf].
      bool_hyps. assert (y = r0) as -> by (apply (ids_distinct_inj si_id (sy_rows s)); congruence).
      apply Hfwf; [by apply Hwf|done].
    + by apply NoDup_drop_id.
    + intros id [Hid Hne]%elem_of_drop_id. destruct (Hheld id Hid) as (x & Hx & <- & Hxs).
      exists x. split; [by apply update_by_id|done].
  - split_and!.
    + unfold ids_distinct in *. unfold requeue_dead_letter_compliance_siem_delivery_record, fst at 1.
      by rewrite update_ids.
    + apply Forall_forall. intros x Hx. apply elem_of_update in Hx as (y & Hy & ->).
      rewrite Forall_forall in Hwf. specialize (Hwf y Hy). destruct (dead_letter_of tenant id y) eqn:E; [|done].
      destruct Hwf as (H1 & H2 & H3 & H4 & H5).
      wf_split; [lia|split; [done|by intros []]|done].
    + done.
    + intros i Hi. destruct (Hheld i Hi) as (x & Hx & Hxi & Hxs). exists x. split; [|done].
      apply elem_of_update. exists x. split; [done|].
      destruct (dead_letter_of tenant id x) eqn:E; [|done].
      unfold dead_letter_of, siem_is in E. bool_hyps. congruence.
  - split_and!; [done|done|by apply NoDup_drop_id|].
    intros i [Hi _]%elem_of_drop_id. by apply Hheld.
Qed.

Lemma siem_steps_inv pool s s' : rtc (siem_step pool) s s' -> siem_inv s -> siem_inv s'.
Proof. induction 1 as [|s s1 s' H _ IH]; [done|]. intros Hi. by eapply IH, siem_step_inv. Qed.

Lemma orphan_step pool s s' r :
  siem_step pool s s' -> siem_inv s -> r ∈ sy_rows s -> si_status r = Processing ->
  si_id r ∉ sy_held s -> r ∈ sy_rows s' /\ si_id r ∉ sy_held s'.
Proof.
  intros Hstep (Hd & _ & _ & _) Hr Hst Hn. destruct Hstep as
    [s now n rows' x Hc|s clock w lease lim rows' claimed Hc|s retry jitter now db_now record a rows' x Hh Hm
    |s now tenant id retry_at|s id]; cbn [sy_rows sy_held].
  - unfold create_compliance_siem_delivery_record in Hc.
    destruct (negb _); [done|]. destruct (existsb _ _); [done|]. simplify_eq.
    split; [set_solver|done].
  - apply siem_claim_dual_ok in Hc as (_ & _ & HF); [|done].
    apply list_elem_of_lookup in Hr as [i Hi].
    destruct (Forall2_lookup_l _ _ _ _ _ HF Hi) as (r' & Hi' & C). unfold claim_row in C.
    destruct (bool_decide _) eqn:E; bool_hyps; [destruct C as ([?|?] & _); congruence|]. subst r'.
    split; [by eapply list_elem_of_lookup_2|set_solver].
  - apply mark_attempt_rows in Hm as (f & -> & _). split.
    + apply update_by_id; [done|done|congruence].
    + rewrite elem_of_drop_id. by intros [].
  - split; [|done]. apply elem_of_update. exists r. split; [done|].
    destruct (dead_letter_of tenant id r) eqn:E; [|done].
    unfold dead_letter_of, siem_is in E. bool_hyps. congruence.
  - split; [done|]. rewrite elem_of_drop_id. by intros [].
Qed.

Lemma deliver_records_steps pool cfg stx post clock fault i records rows rows' res :
  deliver_records pool cfg stx post clock fault i records rows = (rows', res) ->
  NoDup (map si_id records) ->
  exists held, rtc (siem_step pool) {| sy_rows := rows; sy_held := map si_id records |}
                                    {| sy_rows := rows'; sy_held := held |} /\
               (res = Ok tt -> held = []).
Proof.
  revert i rows. induction records as [|record rest IH]; intros i rows H Hnd; cbn [deliver_records] in H.
  { simplify_eq. exists []. split; [apply rtc_refl|done]. }
  destruct (fault i); [simplify_eq; eexists; split; [apply rtc_refl|done]|].
  destruct (mark_attempt _ _ _ _ _ _ _ _) as [[rows1 r1]|e] eqn:Em;
    [|simplify_eq; eexists; split; [apply rtc_refl|done]].
  cbn [map] in Hnd. apply NoDup_cons in Hnd as [Hn Hnd].
  destruct (IH _ _ H Hnd) as (held & Hrtc & Hok). exists held. split; [|done].
  eapply rtc_l; [|exact Hrtc].
  assert (drop_id (si_id record) (map si_id (record :: rest)) = map si_id rest) as Hdrop.
  { unfold drop_id. cbn [map List.filter]. rewrite Z.eqb_refl. cbn [negb].
    clear -Hn. induction rest as [|y rest IH]; [done|]. cbn [map List.filter].
    cbn [map] in Hn. apply not_elem_of_cons in Hn as [Hne Hn].
    rewrite (proj2 (Z.eqb_neq _ _)) by congruence. cbn [negb]. by rewrite IH. }
  rewrite <- Hdrop.
  eapply (siem_attempted pool {| sy_rows := rows; sy_held := map si_id (record :: rest) |}); [left|exact Em].
Qed.

(** * Properties *)

Definition demo_pg : DbPool := Postgres (fun _ => "") (2 ^ 62).

Definition demo_siem (id : Uuid) (st : siem_status) (lease : option Z) : siem_record :=
  {| si_id := id; si_tenant_id := "t1"; si_run_id := None; si_adapter := "splunk_hec";
     si_delivery_target := "mock://fail"; si_content_type := "application/x-ndjson";
     si_payload_ndjson := "{}"; si_status := st; si_attempts := 2; si_max_attempts := 3;
     si_next_attempt_at := 5; si_leased_by := None; si_lease_expires_at := lease;
     si_last_error := None; si_last_http_status := None; si_created_at := 1; si_updated_at := 1;
     si_delivered_at := None |}.

Definition demo_sys : siem_sys :=
  {| sy_rows := [demo_siem 1 Failed None; demo_siem 2 Processing (Some 50)]; sy_held := [] |}.

Lemma demo_sys_inv : siem_inv demo_sys.
Proof.
  split_and!.
  - apply NoDup_ListNoDup. repeat constructor; simpl; lia.
  - repeat constructor; simpl; try lia; try done; try (by eexists); by intros [].
  - constructor.
  - intros id H. inv H.
Qed.

Definition demo_siem_config : SiemConfig :=
  {| sc_worker_id := "w1"; sc_lease := 30000; sc_batch_size := 10; sc_http_enabled := false;
     sc_retry_backoff_ms := 1000; sc_retry_jitter_max_ms := 0 |}.

Definition demo_outbox : list siem_record * result unit siem_error :=
  process_compliance_siem_delivery_outbox demo_pg demo_siem_config (fun _ => "")
    (fun _ _ _ => Err "off") (fun i => 100 + Z.of_nat i) (fun _ => None) (sy_rows demo_sys).

Lemma demo_outbox_eq : demo_outbox = (demo_outbox.1, Ok tt).
Proof. by vm_compute. Qed.

(** The worker's pass over the outbox is a sequence of outbox steps, claim and
    marks, on both backends; when it succeeds it holds no record any more: every
    record that it claimed has been marked. *)
Theorem outbox_pass_refines_steps pool cfg stx post clock fault rows rows' res
    (Hinv : siem_inv {| sy_rows := rows; sy_held := [] |})
    (Hpass : process_compliance_siem_delivery_outbox pool cfg stx post clock fault rows = (rows', res)) :
  exists held, rtc (siem_step pool) {| sy_rows := rows; sy_held := [] |}
                                    {| sy_rows := rows'; sy_held := held |} /\
               (res = Ok tt -> held = []).
Proof.
  unfold process_compliance_siem_delivery_outbox in Hpass.
  destruct (fault 0%nat); [simplify_eq; exists []; split; [apply rtc_refl|done]|].
  destruct (claim_pending_compliance_siem_delivery_records_dual _ _ _ _ _ _) as [[rows1 records]|e] eqn:Ec.
  - pose proof (siem_claim_dual_ok _ _ _ _ _ _ _ _ (proj1 Hinv) Ec) as (Hnd & _).
    destruct (deliver_records_steps _ _ _ _ _ _ _ _ _ _ _ Hpass Hnd) as (held & Hrtc & Hok).
    exists held. split; [|done]. eapply rtc_l; [|exact Hrtc].
    exact (siem_claim pool {| sy_rows := rows; sy_held := [] |} _ _ _ _ _ _ Ec).
  - simplify_eq. exists []. split; [apply rtc_refl|done].
Qed.

Lemma outbox_pass_refines_steps_witness :
  exists held, rtc (siem_step demo_pg) {| sy_rows := sy_rows demo_sys; sy_held := [] |}
                                       {| sy_rows := demo_outbox.1; sy_held := held |} /\
               (Ok tt = Ok (E := siem_error) tt -> held = []).
Proof.
  exact (outbox_pass_refines_steps demo_pg demo_siem_config (fun _ => "") (fun _ _ _ => Err "off")
    (fun i => 100 + Z.of_nat i) (fun _ => None) (sy_rows demo_sys) demo_outbox.1 (Ok tt)
    demo_sys_inv demo_outbox_eq).
Defined.

(** C35: the outbox invariant, under any interleaving of workers, failures and
    manual requeues on either backend: attempts stay within the maximum (itself
    between 1 and 100), a record still to be delivered has an attempt left, a
    record has a lease exactly while it is processed, identifiers are distinct,
    and a record is held by at most one worker at a time. *)
Theorem siem_outbox_invariant pool s s'
    (Hinv : siem_inv s) (Hsteps : rtc (siem_step pool) s s') : siem_inv s'.
Proof. by eapply siem_steps_inv. Qed.

Lemma siem_outbox_invariant_witness :
  siem_inv {| sy_rows := demo_outbox.1; sy_held := [] |}.
Proof.
  apply (siem_outbox_invariant demo_pg demo_sys _ demo_sys_inv).
  destruct outbox_pass_refines_steps_witness as (held & Hrtc & Hh).
  rewrite (Hh eq_refl) in Hrtc. exact Hrtc.
Defined.

(** A record whose worker stopped between the claim and the mark is lost: the
    claim takes pending and failed records only, so a record left in
    [processing] is never claimed again, however long ago its lease expired, and
    no step ever changes it. *)
Theorem orphaned_siem_record_is_never_delivered pool s s' r
    (Hinv : siem_inv s) (Hr : r ∈ sy_rows s) (Hst : si_status r = Processing)
    (Horphan : si_id r ∉ sy_held s) (Hsteps : rtc (siem_step pool) s s') :
  r ∈ sy_rows s' /\ (si_id r ∉ sy_held s').
Proof.
  revert Hinv Hr Horphan. induction Hsteps as [s|s s1 s' Hstep _ IH]; intros Hinv Hr Ho; [done|].
  destruct (orphan_step pool s s1 r Hstep Hinv Hr Hst Ho) as [Hr1 Ho1].
  apply IH; [by eapply siem_step_inv|done|done].
Qed.

Lemma orphaned_siem_record_is_never_delivered_witness :
  demo_siem 2 Processing (Some 50) ∈ demo_outbox.1 /\ (2 ∉ (@nil Uuid)).
Proof.
  destruct outbox_pass_refines_steps_witness as (held & Hrtc & Hh). rewrite (Hh eq_refl) in Hrtc.
  apply (orphaned_siem_record_is_never_delivered demo_pg demo_sys
    {| sy_rows := demo_outbox.1; sy_held := [] |} (demo_siem 2 Processing (Some 50)) demo_sys_inv);
    [right; left|reflexivity|intros H; inv H|exact Hrtc].
Defined.

(** Which failures are retried: the mock failure target, a request that failed,
    and an HTTP answer that is neither a success nor one of the seven permanent
    client errors; every other failure is dead-lettered at once. *)
Theorem siem_retryable_exact stx http_enabled post record :
  (exists http err, attempt_compliance_siem_delivery stx http_enabled post record
                      = AttemptFailed http err true) <->
  let target := trim (si_delivery_target record) in
  eq_ignore_ascii_case target "mock://success" = false /\
  (eq_ignore_ascii_case target "mock://fail" = true \/
   ((starts_with "http://" target || starts_with "https://" target) = true /\ http_enabled = true /\
    ((exists e, post record target = Err e) \/
     exists st body, post record target = Ok (st, body) /\ is_success_status st = false /\
       is_non_retryable_siem_http_status st = false))).
Proof.
  cbn zeta. unfold attempt_compliance_siem_delivery. set (target := trim (si_delivery_target record)).
  assert (eq_ignore_ascii_case target "mock://fail" = true ->
          eq_ignore_ascii_case target "mock://success" = false) as Hexcl.
  { unfold eq_ignore_ascii_case. intros H%String.eqb_eq. by rewrite H. }
  destruct (eq_ignore_ascii_case target "mock://success") eqn:E1.
  { split; [by intros (? & ? & ?)|]. by intros [? _]. }
  destruct (eq_ignore_ascii_case target "mock://fail") eqn:E2.
  { split; [auto|intros _; eauto]. }
  destruct (starts_with "http://" target || starts_with "https://" target) eqn:E3.
  2: { split; [by intros (? & ? & ?)|]. by intros (_ & [?|(? & _)]). }
  destruct http_enabled; cbn [negb].
  2: { split; [by intros (? & ? & ?)|]. by intros (_ & [?|(_ & ? & _)]). }
  destruct (post record target) as [[st body]|e] eqn:Ep.
  2: { split; [intros _; eauto 8|eauto]. }
  destruct (is_success_status st) eqn:Es.
  { split; [by intros (? & ? & ?)|]. intros (_ & [?|(_ & _ & [(? & ?)|(? & ? & ? & ? & _)])]); congruence. }
  destruct (is_non_retryable_siem_http_status st) eqn:En; cbn [negb]; split.
  - by intros (? & ? & ?).
  - intros (_ & [?|(_ & _ & [(? & ?)|(? & ? & ? & _ & ?)])]); congruence.
  - intros _. split; [done|]. right. eauto 10.
  - eauto.
Qed.

(** The retry jitter is a function of the record and its attempt count, is not
    negative, and stays below the configured maximum; without a maximum it is 0. *)
Theorem siem_jitter_bounds id attempts jmax :
  0 <= deterministic_retry_jitter_ms id attempts jmax /\
  deterministic_retry_jitter_ms id attempts jmax < Z.max 1 jmax.
Proof.
  unfold deterministic_retry_jitter_ms. destruct (jmax <=? 0) eqn:E; bool_hyps; [lia|].
  pose proof (Z.mod_pos_bound (wrap_u64 (fold_left (fun acc b => wrap_u64 (wrap_u64 (acc * 131) + b))
    (uuid_bytes id) 0 + Z.max attempts 0)) jmax ltac:(lia)). lia.
Qed.
