(* ===== verification/Action.v ===== *)
(** The action contract of the worker (worker/src/lib.rs): what a skill may
    ask for, how a request is normalised, how it is turned into the request the
    policy decides on, and the governance gate. *)
From S2P Require Import Prelude RustStr Json Policy.

(** * Data *)

(** [skillrunner::ActionRequest]. *)
Record SkillAction := {
  sk_action_id : string;
  sk_action_type : string;
  sk_args : json;
  sk_justification : string;
  sk_action_contract_version : option string;
  sk_action_schema_id : option string;
}.

Record ContractValidationError := { cve_reason : DenyReason; cve_detail : string }.

Definition ContractValidationError_invalid (detail : string) : ContractValidationError :=
  {| cve_reason := InvalidActionContract; cve_detail := detail |}.

Definition normalized_action_type (value : string) : string := to_ascii_lowercase (trim value).

Definition normalize_action_type_list (values : list string) : list string :=
  List.filter (fun v => negb (is_empty v)) (map normalized_action_type values).

(** * Normalisation *)

(** [map.remove(canonical)], then the first present alias; every alias goes. *)
Fixpoint take_first_alias (aliases : list string) (m : jmap) (found : option json)
    : option json * jmap :=
  match aliases with
  | [] => (found, m)
  | a :: rest =>
      match found with
      | None => take_first_alias rest (map_remove a m) (map_get a m)
      | Some v => take_first_alias rest (map_remove a m) (Some v)
      end
  end.

Definition canonicalize_action_arg_alias (canonical : string) (aliases : list string) (m : jmap)
    : jmap :=
  let '(value, m') := take_first_alias aliases (map_remove canonical m) (map_get canonical m) in
  match value with
  | Some v => map_insert canonical v m'
  | None => m'
  end.

(** The groups of argument names, canonical one first. *)
Definition alias_groups : list (string * list string) :=
  [("path", ["file_path"; "filepath"; "source_path"]);
   ("destination", ["to"; "recipient"; "recipient_id"]);
   ("source", ["from"; "sender"; "sender_id"]);
   ("scope", ["scope_name"; "scope-name"]);
   ("template_id", ["template"; "template-id"; "template_name"])].

Definition trim_json (v : json) : json :=
  match v with JStr s => JStr (trim s) | _ => v end.

(** [if let Some(Value::String(v)) = map.get_mut(field) { *v = v.trim() }] *)
Definition trim_field (field : string) (m : jmap) : jmap := map_update trim_json field m.

Definition canonicalize_action_arg_aliases (m : jmap) : jmap :=
  let m := fold_left (fun m g => canonicalize_action_arg_alias g.1 g.2 m) alias_groups m in
  fold_left (fun m f => trim_field f m) ["path"; "destination"; "scope"; "template_id"] m.

Definition normalize_args (args : json) : json :=
  match args with
  | JObj m =>
      JObj (fold_left (fun m f => trim_field f m)
              ["path"; "destination"; "source"; "scope"; "template_id"]
              (canonicalize_action_arg_aliases m))
  | _ => args
  end.

Definition normalize_skill_action (a : SkillAction) : SkillAction :=
  {| sk_action_id := sk_action_id a;
     sk_action_type := normalized_action_type (sk_action_type a);
     sk_args := normalize_args (sk_args a);
     sk_justification := sk_justification a;
     sk_action_contract_version := sk_action_contract_version a ≫= non_empty_trimmed;
     sk_action_schema_id := sk_action_schema_id a ≫= non_empty_trimmed |}.

(** * The contract *)

Definition is_supported_action_type_for_contract_check (action_type : string) : bool :=
  str_in action_type
    ["object.read"; "memory.read"; "memory.write"; "object.write"; "message.send";
     "message.receive"; "payment.send"; "llm.infer"; "local.exec"].

Definition normalize_contract_version (raw_version : string) : option string :=
  if str_in (trim raw_version) ["1"; "v1"; "V1"] then Some "1" else None.

Definition validate_action_contract (a : SkillAction) : result unit ContractValidationError :=
  let action_type := normalized_action_type (sk_action_type a) in
  let invalid d := Err (ContractValidationError_invalid d) in
  match sk_action_contract_version a ≫= non_empty_trimmed,
        sk_action_schema_id a ≫= non_empty_trimmed with
  | Some _, None | None, Some _ =>
      invalid "action_contract_version and action_schema_id must be provided together"
  | None, None => Ok tt
  | Some version, Some schema_id =>
      match normalize_contract_version version with
      | None => invalid ("unsupported action_contract_version `" +:+ version +:+ "`")
      | Some normalized_version =>
          if negb (is_supported_action_type_for_contract_check action_type) then Ok tt else
          match split_once ":" schema_id with
          | None => invalid "action_schema_id must use `<action_type>:<version>` format"
          | Some (schema_action_type, raw_schema_version) =>
              match normalize_contract_version raw_schema_version with
              | None => invalid ("unsupported action_contract_version `" +:+ schema_id +:+ "`")
              | Some schema_version =>
                  if negb (String.eqb (normalized_action_type (trim schema_action_type)) action_type)
                  then invalid "action_schema_id action type does not match action_type"
                  else if negb (String.eqb schema_version normalized_version)
                  then invalid "action_schema_id version does not match action_contract_version"
                  else if contains ".." schema_id
                  then invalid "action_schema_id contains disallowed path segments"
                  else Ok tt
              end
          end
      end
  end.

Definition required_trimmed_arg (a : SkillAction) (field label : string)
    : result string ContractValidationError :=
  ok_or (get_str field (sk_args a) ≫= non_empty_trimmed)
    (ContractValidationError_invalid (label +:+ " is required and must not be empty")).

(** The arguments of the model that stand for [serde_json::to_vec] (its byte
    length is the payload size) and for the LLM module's
    [policy_scope_for_action]. *)
Section to_policy_request.
Context (to_vec : json -> string) (llm_scope : json -> result string string).

Definition policy_scope (a : SkillAction) : result string ContractValidationError :=
  match str_match (sk_action_type a)
    [(["object.write"], required_trimmed_arg a "path" "object.write args.path");
     (["message.send"], required_trimmed_arg a "destination" "message.send args.destination");
     (["message.receive"], required_trimmed_arg a "source" "message.receive args.source");
     (["payment.send"], required_trimmed_arg a "destination" "payment.send args.destination");
     (["memory.read"; "memory.write"], required_trimmed_arg a "scope" "memory action args.scope");
     (["llm.infer"], map_err ContractValidationError_invalid (llm_scope (sk_args a)));
     (["local.exec"],
       let? template_id := required_trimmed_arg a "template_id" "local.exec args.template_id" in
       Ok ("local.exec:" +:+ template_id))] with
  | Some r => r
  | None => Ok ""
  end.

Definition to_policy_request (a : SkillAction) : result ActionRequest ContractValidationError :=
  let? _ := validate_action_contract a in
  let payload := Z.of_nat (String.length (to_vec (sk_args a))) in
  let? scope := policy_scope a in
  Ok {| action_type := sk_action_type a; req_scope := scope; payload_bytes := payload |}.
End to_policy_request.

(** * Governance *)

Definition requires_governance_approval (approval_required : list string) (action_type : string)
    : bool :=
  match approval_required with
  | [] => false
  | _ => existsb (fun c => String.eqb c (normalized_action_type action_type)) approval_required
  end.

Definition flag (k : string) (args : json) : bool := default false (get k args ≫= as_bool).

Definition is_action_governance_approved (a : SkillAction) : bool :=
  if flag "approved" (sk_args a) then true
  else if String.eqb (sk_action_type a) "payment.send" then flag "payment_approved" (sk_args a)
  else false.

(** * Lemmas: what normalisation does to each argument *)

Fixpoint first_get (ks : list string) (m : jmap) : option json :=
  match ks with
  | [] => None
  | k :: ks' => match map_get k m with Some v => Some v | None => first_get ks' m end
  end.

Lemma first_get_ext ks m m' :
  (forall k, k ∈ ks -> map_get k m = map_get k m') -> first_get ks m = first_get ks m'.
Proof.
  induction ks as [|k ks IH]; intros H; simpl; [done|].
  rewrite (H k) by left. rewrite IH; [done|]. intros j Hj. apply H. by right.
Qed.

Lemma take_first_alias_value als m f :
  NoDup als -> (take_first_alias als m f).1 = match f with Some v => Some v | None => first_get als m end.
Proof.
  intros Hnd. revert m f. induction Hnd as [|a als Ha Hnd IH]; intros m f; simpl; [by destruct f|].
  assert (first_get als (map_remove a m) = first_get als m) as E.
  { apply first_get_ext. intros k Hk. apply map_get_remove_ne. by intros ->. }
  destruct f as [v|]; rewrite IH; [done|]. destruct (map_get a m); by rewrite ?E.
Qed.

Lemma take_first_alias_get als m f k :
  map_get k (take_first_alias als m f).2 = if str_in k als then None else map_get k m.
Proof.
  revert m f. induction als as [|a als IH]; intros m f; [done|].
  unfold str_in in *. cbn [take_first_alias existsb].
  assert (forall f', map_get k (take_first_alias als (map_remove a m) f').2 =
    if String.eqb k a || existsb (String.eqb k) als then None else map_get k m) as H.
  { intros f'. rewrite IH, map_get_remove, (String.eqb_sym a k).
    by destruct (String.eqb k a), (existsb (String.eqb k) als). }
  destruct f; apply H.
Qed.

(** One group: the canonical name gets the first present value, its aliases
    disappear, and no other argument changes. *)
Lemma canonicalize_alias_get c als m k :
  NoDup (c :: als) ->
  map_get k (canonicalize_action_arg_alias c als m) =
    if String.eqb c k then first_get (c :: als) m
    else if str_in k als then None else map_get k m.
Proof.
  intros Hnd. apply NoDup_cons in Hnd as [Hc Hnd].
  unfold canonicalize_action_arg_alias.
  pose proof (take_first_alias_value als (map_remove c m) (map_get c m) Hnd) as Hv.
  pose proof (take_first_alias_get als (map_remove c m) (map_get c m) k) as Hg.
  destruct (take_first_alias als (map_remove c m) (map_get c m)) as [value m'].
  simpl in Hv, Hg.
  rewrite (first_get_ext als (map_remove c m) m) in Hv
    by (intros j Hj; apply map_get_remove_ne; by intros ->).
  assert (value = first_get (c :: als) m) as -> by (simpl; by destruct (map_get c m)).
  rewrite map_get_remove in Hg.
  destruct (first_get (c :: als) m) as [v|].
  - rewrite map_get_insert, Hg. by destruct (String.eqb c k), (str_in k als).
  - rewrite Hg. by destruct (String.eqb c k), (str_in k als).
Qed.

Lemma canonicalize_alias_sorted c als m :
  sorted_keys m -> sorted_keys (canonicalize_action_arg_alias c als m).
Proof.
  intros Hm. unfold canonicalize_action_arg_alias.
  assert (forall m f, sorted_keys m -> sorted_keys (take_first_alias als m f).2) as H.
  { induction als as [|a als IH]; intros m0 f H0; [done|].
    destruct f; simpl; apply IH; auto with agnt. }
  specialize (H (map_remove c m) (map_get c m)).
  destruct (take_first_alias _ _ _) as [[v|] m']; simpl in *; auto with agnt.
Qed.

Definition names (g : string * list string) : list string := g.1 :: g.2.

Fixpoint group_get (gs : list (string * list string)) (k : string) (m : jmap) : option json :=
  match gs with
  | [] => map_get k m
  | g :: gs' =>
      if String.eqb g.1 k then first_get (names g) m
      else if str_in k g.2 then None
      else group_get gs' k m
  end.

Lemma group_get_ext gs k m m' :
  map_get k m = map_get k m' ->
  (forall j, j ∈ concat (map names gs) -> map_get j m = map_get j m') ->
  group_get gs k m = group_get gs k m'.
Proof.
  intros Hk. induction gs as [|g gs IH]; intros H; [done|]. cbn [group_get].
  rewrite (first_get_ext (names g) m m'), IH; [done|..];
    intros j Hj; apply H; cbn [map concat]; apply elem_of_app; auto.
Qed.

Lemma group_get_other gs k m : k ∉ concat (map names gs) -> group_get gs k m = map_get k m.
Proof.
  induction gs as [|g gs IH]; intros H; [done|]. cbn [group_get map concat] in *.
  apply not_elem_of_app in H as [H1 H2]. apply not_elem_of_cons in H1 as [H0 H1].
  rewrite string_eqb_neq by congruence. destruct (str_in k g.2) eqn:E; [|by apply IH].
  by apply str_in_spec in E.
Qed.

Lemma canonicalize_groups_get gs m k :
  NoDup (concat (map names gs)) ->
  map_get k (fold_left (fun m g => canonicalize_action_arg_alias g.1 g.2 m) gs m) =
  group_get gs k m.
Proof.
  revert m. induction gs as [|g gs IH]; intros m Hnd; [done|].
  cbn [map concat] in Hnd. apply NoDup_app in Hnd as (Hg & Hd & Hgs).
  cbn [fold_left group_get]. rewrite IH by done.
  assert (forall j, j ∉ names g ->
    map_get j (canonicalize_action_arg_alias g.1 g.2 m) = map_get j m) as Hout.
  { intros j Hj. apply not_elem_of_cons in Hj as [Hj0 Hj]. rewrite canonicalize_alias_get by done.
    rewrite string_eqb_neq by congruence. destruct (str_in j g.2) eqn:E; [|done].
    by apply str_in_spec in E. }
  destruct (decide (k ∈ names g)) as [Hk|Hk].
  - rewrite group_get_other by auto. rewrite canonicalize_alias_get by done.
    destruct (String.eqb g.1 k) eqn:E; [done|]. apply elem_of_cons in Hk as [->|Hk].
    { by rewrite String.eqb_refl in E. }
    by apply str_in_spec in Hk as ->.
  - rewrite (group_get_ext gs k _ m).
    + pose proof Hk as Hk'. apply not_elem_of_cons in Hk' as [Hk0 Hk1].
      rewrite string_eqb_neq by congruence. destruct (str_in k g.2) eqn:E; [|done].
      by apply str_in_spec in E.
    + by apply Hout.
    + intros j Hj. apply Hout. intros Hj'. by apply (Hd j).
Qed.

Lemma trim_json_idemp v : trim_json (trim_json v) = trim_json v.
Proof. destruct v; simpl; try done. by rewrite trim_idemp. Qed.

Lemma trim_fields_get fs m k :
  map_get k (fold_left (fun m f => trim_field f m) fs m) =
  if str_in k fs then trim_json <$> map_get k m else map_get k m.
Proof.
  revert m. induction fs as [|f fs IH]; intros m; [done|]. cbn [fold_left].
  rewrite IH. unfold trim_field, str_in in *. rewrite map_get_update. cbn [existsb].
  rewrite (String.eqb_sym k f).
  destruct (String.eqb f k), (existsb (String.eqb k) fs), (map_get k m); simpl;
    by rewrite ?trim_json_idemp.
Qed.

Lemma alias_names_distinct : NoDup (concat (map names alias_groups)).
Proof. vm_compute. apply NoDup_ListNoDup. repeat constructor; simpl; intuition discriminate. Qed.

(** The specification of an argument after normalisation: a canonical name holds
    the trimmed value of the first name of its group that is present, an alias
    holds nothing, and any other argument is untouched. *)
Definition normalized_get (k : string) (m : jmap) : option json :=
  match List.find (fun g => String.eqb g.1 k) alias_groups with
  | Some g => trim_json <$> first_get (names g) m
  | None => if existsb (fun g => str_in k g.2) alias_groups then None else map_get k m
  end.

Definition normalize_map (m : jmap) : jmap :=
  fold_left (fun m f => trim_field f m) ["path"; "destination"; "source"; "scope"; "template_id"]
    (canonicalize_action_arg_aliases m).

Lemma normalize_map_lookup m k : map_get k (normalize_map m) = normalized_get k m.
Proof.
  unfold normalize_map, canonicalize_action_arg_aliases.
  rewrite !trim_fields_get, (canonicalize_groups_get alias_groups m k alias_names_distinct).
  unfold normalized_get, alias_groups. cbn [existsb group_get List.find fst snd].
  unfold str_in. cbn [existsb]. rewrite !(String.eqb_sym k).
  repeat match goal with
  | |- context [String.eqb ?a k] =>
      let E := fresh in destruct (String.eqb a k) eqn:E;
      [apply String.eqb_eq in E; subst k; cbn -[first_get trim_json];
       try (destruct (first_get _ m) as [v|]; cbn -[trim_json]);
       by rewrite ?trim_json_idemp | cbn [orb]; clear E]
  end. all: done.
Qed.

Lemma normalize_map_sorted m : sorted_keys m -> sorted_keys (normalize_map m).
Proof.
  assert (forall fs m, sorted_keys m -> sorted_keys (fold_left (fun m f => trim_field f m) fs m)) as Ht.
  { induction fs as [|f fs IH]; intros m0 H; simpl; [done|]. apply IH. by apply sorted_update. }
  intros H. unfold normalize_map, canonicalize_action_arg_aliases. do 2 apply Ht.
  generalize alias_groups as gs. intros gs. revert m H.
  induction gs as [|g gs IH]; intros m H; simpl; [done|].
  by apply IH, canonicalize_alias_sorted.
Qed.

Lemma find_canonical g : g ∈ alias_groups ->
  List.find (fun g' => String.eqb g'.1 g.1) alias_groups = Some g.
Proof. intros H. unfold alias_groups in *. set_unfold in H. naive_solver. Qed.

Lemma alias_not_canonical g a : g ∈ alias_groups -> a ∈ g.2 ->
  List.find (fun g' => String.eqb g'.1 a) alias_groups = None /\
  existsb (fun g' => str_in a g'.2) alias_groups = true.
Proof.
  intros Hg Ha. unfold alias_groups in Hg. set_unfold in Hg.
  destruct_or! Hg; subst g; simpl in Ha; set_unfold in Ha; destruct_or! Ha; by subst a.
Qed.

Lemma normalized_get_alias g a m : g ∈ alias_groups -> a ∈ g.2 -> normalized_get a m = None.
Proof.
  intros Hg Ha. destruct (alias_not_canonical g a Hg Ha) as [H1 H2].
  unfold normalized_get. by rewrite H1, H2.
Qed.

Lemma first_get_no_alias c als m :
  (forall a, a ∈ als -> map_get a m = None) -> first_get (c :: als) m = map_get c m.
Proof.
  intros H. cbn [first_get]. destruct (map_get c m); [done|].
  induction als as [|a als IH]; [done|]. cbn [first_get]. rewrite (H a) by left.
  apply IH. intros b Hb. apply H. by right.
Qed.

Lemma normalized_get_again m k : normalized_get k (normalize_map m) = normalized_get k m.
Proof.
  unfold normalized_get at 1. destruct (List.find _ alias_groups) as [g|] eqn:E.
  - apply List.find_some in E as [Hg Hk]. apply String.eqb_eq in Hk.
    assert (g ∈ alias_groups) as Hg' by by apply list_elem_of_In.
    unfold names. rewrite first_get_no_alias.
    + rewrite normalize_map_lookup. unfold normalized_get. rewrite find_canonical by done.
      rewrite <- Hk, find_canonical by done.
      destruct (first_get (names g) m); simpl; by rewrite ?trim_json_idemp.
    + intros a Ha. rewrite normalize_map_lookup. by eapply normalized_get_alias.
  - rewrite normalize_map_lookup. unfold normalized_get. rewrite E.
    by destruct (existsb _ _).
Qed.

Lemma normalize_args_obj m : normalize_args (JObj m) = JObj (normalize_map m).
Proof. reflexivity. Qed.

Lemma normalize_map_idemp m : sorted_keys m -> normalize_map (normalize_map m) = normalize_map m.
Proof.
  intros Hm. apply sorted_map_ext; auto using normalize_map_sorted.
  intros k. rewrite (normalize_map_lookup (normalize_map m)), normalized_get_again.
  symmetry. apply normalize_map_lookup.
Qed.

Lemma non_empty_trimmed_again v t : non_empty_trimmed v = Some t -> non_empty_trimmed t = Some t.
Proof.
  intros H. apply non_empty_trimmed_Some in H as (-> & H & _). unfold non_empty_trimmed.
  rewrite trim_idemp. destruct (is_empty (trim v)) eqn:E; [|done]. by apply is_empty_spec in E.
Qed.

Lemma opt_trim_again (o : option string) :
  (o ≫= non_empty_trimmed) ≫= non_empty_trimmed = o ≫= non_empty_trimmed.
Proof.
  destruct o as [v|]; simpl; [|done]. destruct (non_empty_trimmed v) as [t|] eqn:E; simpl; [|done].
  by eapply non_empty_trimmed_again.
Qed.

Lemma normalized_action_type_idemp v :
  normalized_action_type (normalized_action_type v) = normalized_action_type v.
Proof.
  unfold normalized_action_type. rewrite trimmed_lower by apply trim_idemp.
  apply to_ascii_lowercase_idemp.
Qed.

Lemma required_trimmed_arg_Ok a f l v :
  required_trimmed_arg a f l = Ok v ->
  exists s, get_str f (sk_args a) = Some s /\ v = trim s.
Proof.
  unfold required_trimmed_arg. destruct (get_str f (sk_args a)) as [s|]; simpl; [|done].
  destruct (non_empty_trimmed s) as [t|] eqn:E; simpl; intros; simplify_eq.
  exists s. split; [done|]. by apply non_empty_trimmed_Some in E as [-> _].
Qed.

(** Arguments after normalisation carry no surrounding white space. *)
Lemma normalized_get_str_trimmed f a s :
  f ∈ map fst alias_groups ->
  get_str f (sk_args (normalize_skill_action a)) = Some s -> trim s = s.
Proof.
  unfold get_str. cbn [normalize_skill_action sk_args]. intros Hf H.
  destruct (sk_args a) as [| | | | |m]; try done. rewrite normalize_args_obj in H. cbn [get] in H.
  rewrite normalize_map_lookup in H. unfold normalized_get in H.
  apply list_elem_of_fmap in Hf as (g & -> & Hg). rewrite (find_canonical g Hg) in H.
  destruct (first_get (names g) m) as [[]|]; simplify_eq/=. apply trim_idemp.
Qed.

Lemma normalized_required f l a v :
  f ∈ map fst alias_groups ->
  required_trimmed_arg (normalize_skill_action a) f l = Ok v ->
  get_str f (sk_args (normalize_skill_action a)) = Some v.
Proof.
  intros Hf H. apply required_trimmed_arg_Ok in H as (s & Hs & ->).
  by rewrite (normalized_get_str_trimmed f a s Hf Hs).
Qed.

(** * Properties *)

(** Normalisation of the arguments, key by key: each canonical name holds the
    trimmed value of the first of its names the skill sent (the canonical one,
    then the aliases in order), every alias is gone, and every other argument is
    kept as it is. *)
Theorem normalized_arguments m k : get k (normalize_args (JObj m)) = normalized_get k m.
Proof. apply normalize_map_lookup. Qed.

(** Normalisation is idempotent on arguments as [serde_json] holds them. *)
Theorem normalize_skill_action_idempotent a m
    (Hargs : sk_args a = JObj m) (Hm : sorted_keys m) :
  normalize_skill_action (normalize_skill_action a) = normalize_skill_action a.
Proof.
  unfold normalize_skill_action. cbn [sk_action_id sk_action_type sk_args sk_justification
    sk_action_contract_version sk_action_schema_id].
  rewrite normalized_action_type_idemp, !opt_trim_again, Hargs, !normalize_args_obj.
  by rewrite normalize_map_idemp.
Qed.

Definition demo_action : SkillAction :=
  {| sk_action_id := "a-1"; sk_action_type := " Message.Send ";
     sk_args := JObj [("recipient", JStr " slack:C1 "); ("text", JStr "hi"); ("to", JStr "slack:C2 ")];
     sk_justification := "notify"; sk_action_contract_version := Some " v1";
     sk_action_schema_id := Some "message.send:1 " |}.

Lemma normalize_skill_action_idempotent_witness :
  normalize_skill_action (normalize_skill_action demo_action) = normalize_skill_action demo_action /\
  get "destination" (sk_args (normalize_skill_action demo_action)) = Some (JStr "slack:C2").
Proof.
  split; [|by vm_compute].
  apply (normalize_skill_action_idempotent demo_action
    [("recipient", JStr " slack:C1 "); ("text", JStr "hi"); ("to", JStr "slack:C2 ")]);
    [reflexivity|]. repeat constructor.
Defined.

(** Normalisation does not change the verdict of the contract check, nor its
    error. *)
Theorem normalization_keeps_contract_verdict a :
  validate_action_contract (normalize_skill_action a) = validate_action_contract a.
Proof.
  unfold validate_action_contract. cbn [normalize_skill_action sk_action_type
    sk_action_contract_version sk_action_schema_id].
  by rewrite !opt_trim_again, normalized_action_type_idemp.
Qed.

(** A contract that is accepted and names a known action type is for that
    action type, in version 1: the schema identifier splits at its first colon
    into the (normalised) type of the action and a spelling of the version. *)
Theorem accepted_contract_matches_action a v s
    (Hok : validate_action_contract a = Ok tt)
    (Hv : (sk_action_contract_version a ≫= non_empty_trimmed) = Some v)
    (Hs : (sk_action_schema_id a ≫= non_empty_trimmed) = Some s)
    (Hknown : is_supported_action_type_for_contract_check
                (normalized_action_type (sk_action_type a)) = true) :
  normalize_contract_version v = Some "1" /\ contains ".." s = false /\
  exists t w, split_once ":" s = Some (t, w) /\ normalize_contract_version w = Some "1" /\
    normalized_action_type t = normalized_action_type (sk_action_type a).
Proof.
  revert Hok. unfold validate_action_contract. rewrite Hv, Hs, Hknown. cbn [negb].
  destruct (normalize_contract_version v) as [nv|] eqn:Env; [|done].
  destruct (split_once ":" s) as [[t w]|] eqn:Es; [|done].
  destruct (normalize_contract_version w) as [nw|] eqn:Enw; [|done].
  destruct (String.eqb _ _) eqn:Et; [|done]. destruct (String.eqb nw nv) eqn:Ew; [|done].
  destruct (contains ".." s); [done|]. intros _.
  assert (forall x y, normalize_contract_version x = Some y -> y = "1") as H1.
  { intros x y. unfold normalize_contract_version. by case_match; intros; simplify_eq. }
  apply H1 in Env as ->. pose proof (H1 _ _ Enw) as ->. split_and!; [done..|].
  exists t, w. split_and!; [done..|]. apply String.eqb_eq in Et. rewrite <- Et.
  unfold normalized_action_type. by rewrite trim_idemp.
Qed.

Lemma accepted_contract_matches_action_witness :
  exists t w, split_once ":" "message.send:1" = Some (t, w) /\
    normalize_contract_version w = Some "1" /\
    normalized_action_type t = "message.send".
Proof.
  exact (proj2 (proj2 (accepted_contract_matches_action demo_action "v1" "message.send:1"
    ltac:(vm_compute; reflexivity) ltac:(vm_compute; reflexivity) ltac:(vm_compute; reflexivity)
    ltac:(vm_compute; reflexivity)))).
Defined.

(** The argument that the executor of an action type reads as its target. *)
Definition target_argument (action_type : string) : option string :=
  str_match action_type
    [(["object.write"], "path"); (["message.send"; "payment.send"], "destination");
     (["message.receive"], "source"); (["memory.read"; "memory.write"], "scope");
     (["local.exec"], "template_id")].

(** What the policy decides on is what is executed: the policy request of a
    normalised action has the action's own type and payload size, and its scope
    is, character for character, the argument the executor reads. *)
Theorem policy_request_is_the_action to_vec llm_scope raw req f
    (Hreq : to_policy_request to_vec llm_scope (normalize_skill_action raw) = Ok req)
    (Hf : target_argument (sk_action_type (normalize_skill_action raw)) = Some f) :
  action_type req = sk_action_type (normalize_skill_action raw) /\
  payload_bytes req =
    Z.of_nat (String.length (to_vec (sk_args (normalize_skill_action raw)))) /\
  exists v, get_str f (sk_args (normalize_skill_action raw)) = Some v /\
    req_scope req = (if String.eqb f "template_id" then "local.exec:" else "") +:+ v.
Proof.
  revert Hreq. unfold to_policy_request. destruct (validate_action_contract _); [|done].
  destruct (policy_scope _ _) as [sc|] eqn:E; [|done]. intros [= <-].
  cbn [action_type payload_bytes req_scope]. split_and!; [done..|].
  unfold target_argument in Hf. unfold policy_scope in E.
  assert (forall l, required_trimmed_arg (normalize_skill_action raw) f l = Ok sc ->
    f ∈ map fst alias_groups -> exists v,
    get_str f (sk_args (normalize_skill_action raw)) = Some v /\ sc = "" +:+ v) as H.
  { intros l Hr Hin. exists sc. split; [by eapply normalized_required|done]. }
  str_match_cases Hf; set_unfold in Hs; destruct_or? Hs; rewrite Hs in E; cbn in E;
    [try (eapply H; [exact E|cbn; set_solver])..|].
  destruct (required_trimmed_arg _ "template_id" _) as [t|] eqn:Et; [|done]. simplify_eq.
  exists t. split; [|done]. eapply normalized_required; [cbn; set_solver|exact Et].
Qed.

Lemma policy_request_is_the_action_witness :
  exists v, get_str "destination" (sk_args (normalize_skill_action demo_action)) = Some v /\
    "slack:C2" = "" +:+ v.
Proof.
  exact (proj2 (proj2 (policy_request_is_the_action (fun _ => "") (fun _ => Ok "") demo_action
    {| action_type := "message.send"; req_scope := "slack:C2"; payload_bytes := 0 |} "destination"
    ltac:(vm_compute; reflexivity) ltac:(vm_compute; reflexivity)))).
Defined.

(** The governance gate: an action type that needs approval passes only with
    an explicit [approved] flag, or, for payments alone, [payment_approved]. *)
Theorem governance_gate_exact a :
  is_action_governance_approved a = true <->
  get "approved" (sk_args a) = Some (JBool true) \/
  (sk_action_type a = "payment.send" /\ get "payment_approved" (sk_args a) = Some (JBool true)).
Proof.
  assert (forall k, flag k (sk_args a) = true <-> get k (sk_args a) = Some (JBool true)) as Hflag.
  { intros k. unfold flag. destruct (get k (sk_args a)) as [[]|]; simpl; naive_solver. }
  unfold is_action_governance_approved. rewrite <- !Hflag, <- String.eqb_eq.
  destruct (flag "approved" _), (String.eqb _ _), (flag "payment_approved" _); naive_solver.
Qed.
