(* ===== verification/LlmTables.v ===== *)
(** What the LLM gateway keeps: the tables of token usage, admission leases and
    cached completions (core/src/db.rs, db_worker_dual.rs), and the process-wide
    response cache and admission counters (worker/src/llm.rs).  The leases and the
    cached completions are used on PostgreSQL only; [now] is the time of the
    database, an [Instant] is in nanoseconds. *)
From S2P Require Import Prelude RustStr Json Sql Runs.

(** * Rows *)

Record NewLlmTokenUsageRecord := {
  nu_id : Uuid; nu_run_id : Uuid; nu_action_request_id : Uuid; nu_tenant_id : string; nu_agent_id : Uuid;
  nu_route : string; nu_model_key : string; nu_consumed_tokens : Z; nu_estimated_cost_usd : option number;
  nu_window_started_at : Z; nu_window_duration_seconds : Z;
}.
Record LlmTokenUsageRecord := { lu_new : NewLlmTokenUsageRecord; lu_created_at : Z }.

Record LlmGatewayAdmissionLeaseAcquireParams := {
  ga_namespace : string; ga_lane : string; ga_max_inflight : Z; ga_lease_id : Uuid; ga_lease_owner : string;
  ga_lease_for : Z;
}.
Record LlmGatewayAdmissionLeaseRecord := {
  gl_namespace : string; gl_lane : string; gl_slot_index : Z; gl_lease_id : Uuid; gl_lease_owner : string;
  gl_lease_expires_at : Z;
}.

Record NewLlmGatewayCacheEntry := {
  nc_cache_key_sha256 : string; nc_namespace : string; nc_route : string; nc_model : string;
  nc_response_json : json; nc_ttl : Z;
}.
Record LlmGatewayCacheEntryRecord := {
  gc_cache_key_sha256 : string; gc_namespace : string; gc_route : string; gc_model : string;
  gc_response_json : json; gc_expires_at : Z; gc_created_at : Z; gc_updated_at : Z;
}.

Record llm_tables := {
  lt_usage : list LlmTokenUsageRecord; lt_leases : list LlmGatewayAdmissionLeaseRecord;
  lt_cache : list LlmGatewayCacheEntryRecord;
}.
Definition no_llm_tables : llm_tables := {| lt_usage := []; lt_leases := []; lt_cache := [] |}.

Definition with_usage (t : llm_tables) (l : list LlmTokenUsageRecord) : llm_tables :=
  {| lt_usage := l; lt_leases := lt_leases t; lt_cache := lt_cache t |}.
Definition with_llm_leases (t : llm_tables) (l : list LlmGatewayAdmissionLeaseRecord) : llm_tables :=
  {| lt_usage := lt_usage t; lt_leases := l; lt_cache := lt_cache t |}.
Definition with_llm_cache (t : llm_tables) (l : list LlmGatewayCacheEntryRecord) : llm_tables :=
  {| lt_usage := lt_usage t; lt_leases := lt_leases t; lt_cache := l |}.

(** * Usage *)

(** [route = 'remote' AND created_at >= since]; SQLite compares seconds. *)
Definition remote_usage_since (key : Z -> Z) (since : Z) (r : LlmTokenUsageRecord) : bool :=
  String.eqb (nu_route (lu_new r)) "remote" && (key since <=? key (lu_created_at r)).

Definition sum_tokens (rows : list LlmTokenUsageRecord) : Z :=
  foldr (fun r total => nu_consumed_tokens (lu_new r) + total) 0 rows.

(** [COALESCE(SUM(consumed_tokens), 0)] as a 64-bit integer. *)
Definition sum_usage (p : NewLlmTokenUsageRecord -> bool) (key : Z -> Z) (since : Z) (t : llm_tables)
    : result Z db_error :=
  let total := sum_tokens (List.filter (fun r => p (lu_new r) && remote_usage_since key since r) (lt_usage t)) in
  if (- i64_max - 1 <=? total) && (total <=? i64_max) then Ok total else Err OutOfRange.

Definition of_tenant (tenant_id : string) (n : NewLlmTokenUsageRecord) : bool := String.eqb (nu_tenant_id n) tenant_id.
Definition of_agent (tenant_id : string) (agent_id : Uuid) (n : NewLlmTokenUsageRecord) : bool :=
  of_tenant tenant_id n && (nu_agent_id n =? agent_id).
Definition of_model (tenant_id model_key : string) (n : NewLlmTokenUsageRecord) : bool :=
  of_tenant tenant_id n && String.eqb (nu_model_key n) model_key.

Definition sum_llm_consumed_tokens_for_tenant_since (tenant_id : string) : Z -> llm_tables -> result Z db_error :=
  sum_usage (of_tenant tenant_id) (fun t => t).
Definition sum_llm_consumed_tokens_for_agent_since (tenant_id : string) (agent_id : Uuid)
    : Z -> llm_tables -> result Z db_error := sum_usage (of_agent tenant_id agent_id) (fun t => t).
Definition sum_llm_consumed_tokens_for_model_since (tenant_id model_key : string)
    : Z -> llm_tables -> result Z db_error := sum_usage (of_model tenant_id model_key) (fun t => t).

Definition in_seconds (t : Z) : Z := t / 1000000.
Definition sum_llm_consumed_tokens_for_tenant_since_sqlite (tenant_id : string) : Z -> llm_tables -> result Z db_error :=
  sum_usage (of_tenant tenant_id) in_seconds.
Definition sum_llm_consumed_tokens_for_agent_since_sqlite (tenant_id : string) (agent_id : Uuid)
    : Z -> llm_tables -> result Z db_error := sum_usage (of_agent tenant_id agent_id) in_seconds.
Definition sum_llm_consumed_tokens_for_model_since_sqlite (tenant_id model_key : string)
    : Z -> llm_tables -> result Z db_error := sum_usage (of_model tenant_id model_key) in_seconds.

(** * Admission leases *)

Definition in_lane (namespace lane : string) (r : LlmGatewayAdmissionLeaseRecord) : bool :=
  String.eqb (gl_namespace r) namespace && String.eqb (gl_lane r) lane.
Definition in_slot (namespace lane : string) (slot : Z) (r : LlmGatewayAdmissionLeaseRecord) : bool :=
  in_lane namespace lane r && (gl_slot_index r =? slot).

(** [lease_expires_at > now()] *)
Definition live_llm_lease (now : Z) (r : LlmGatewayAdmissionLeaseRecord) : bool := now <? gl_lease_expires_at r.

Definition free_slot (now : Z) (namespace lane : string) (leases : list LlmGatewayAdmissionLeaseRecord) (slot : Z)
    : bool := negb (existsb (fun r => in_slot namespace lane slot r && live_llm_lease now r) leases).

(** [WITH candidate]: the least free slot. *)
Definition candidate_slot (now : Z) (params : LlmGatewayAdmissionLeaseAcquireParams) (t : llm_tables) : option Z :=
  List.find (free_slot now (ga_namespace params) (ga_lane params) (lt_leases t)) (seqZ 1 (ga_max_inflight params)).

Definition llm_lease_row (now : Z) (params : LlmGatewayAdmissionLeaseAcquireParams) (slot : Z)
    : LlmGatewayAdmissionLeaseRecord :=
  {| gl_namespace := ga_namespace params; gl_lane := ga_lane params; gl_slot_index := slot;
     gl_lease_id := ga_lease_id params; gl_lease_owner := ga_lease_owner params;
     gl_lease_expires_at := now + clamp_lease_ms (ga_lease_for params) * 1000 |}.

(** [INSERT .. ON CONFLICT DO UPDATE .. WHERE lease_expires_at <= now()] of that slot. *)
Definition take_slot (now : Z) (params : LlmGatewayAdmissionLeaseAcquireParams) (slot : Z) (t : llm_tables)
    : llm_tables * option LlmGatewayAdmissionLeaseRecord :=
  let row := llm_lease_row now params slot in
  let taken := in_slot (ga_namespace params) (ga_lane params) slot in
  if existsb taken (lt_leases t) then
    let expired r := taken r && negb (live_llm_lease now r) in
    if existsb expired (lt_leases t)
    then (with_llm_leases t (update_where expired (fun _ => row) (lt_leases t)).1, Some row)
    else (t, None)
  else (with_llm_leases t (lt_leases t ++ [row]), Some row).

(** The statement, nobody writing between its parts. *)
Definition try_acquire_llm_gateway_admission_lease (now : Z) (params : LlmGatewayAdmissionLeaseAcquireParams)
    (t : llm_tables) : llm_tables * option LlmGatewayAdmissionLeaseRecord :=
  match candidate_slot now params t with
  | None => (t, None)
  | Some slot => take_slot now params slot t
  end.

Definition release_llm_gateway_admission_lease (lease : LlmGatewayAdmissionLeaseRecord) (t : llm_tables)
    : llm_tables * bool :=
  let ours r := in_slot (gl_namespace lease) (gl_lane lease) (gl_slot_index lease) r &&
                (gl_lease_id r =? gl_lease_id lease) in
  (with_llm_leases t (List.filter (fun r => negb (ours r)) (lt_leases t)), countb ours (lt_leases t) =? 1).

(** * Cached completions *)

Definition get_llm_gateway_cache_entry (now : Z) (namespace cache_key_sha256 : string) (t : llm_tables)
    : option LlmGatewayCacheEntryRecord :=
  List.find (fun r => String.eqb (gc_namespace r) namespace && String.eqb (gc_cache_key_sha256 r) cache_key_sha256 &&
                      (now <? gc_expires_at r)) (lt_cache t).

Definition has_cache_key (key : string) (r : LlmGatewayCacheEntryRecord) : bool :=
  String.eqb (gc_cache_key_sha256 r) key.

Definition cache_entry (now created_at : Z) (n : NewLlmGatewayCacheEntry) : LlmGatewayCacheEntryRecord :=
  {| gc_cache_key_sha256 := nc_cache_key_sha256 n; gc_namespace := nc_namespace n; gc_route := nc_route n;
     gc_model := nc_model n; gc_response_json := nc_response_json n;
     gc_expires_at := now + clamp_lease_ms (nc_ttl n) * 1000; gc_created_at := created_at; gc_updated_at := now |}.

(** [ON CONFLICT (cache_key_sha256) DO UPDATE] *)
Definition upsert_llm_gateway_cache_entry (now : Z) (n : NewLlmGatewayCacheEntry) (t : llm_tables) : llm_tables :=
  let same := has_cache_key (nc_cache_key_sha256 n) in
  with_llm_cache t
    (if existsb same (lt_cache t)
     then (update_where same (fun r => cache_entry now (gc_created_at r) n) (lt_cache t)).1
     else lt_cache t ++ [cache_entry now now n]).

(** [ORDER BY updated_at DESC]; equal instants stay in the order of the table. *)
Definition newest_first (a b : LlmGatewayCacheEntryRecord) : bool := gc_updated_at b <=? gc_updated_at a.

Definition in_namespace (namespace : string) (r : LlmGatewayCacheEntryRecord) : bool :=
  String.eqb (gc_namespace r) namespace.

Definition prune_expired (now : Z) (namespace : string) (l : list LlmGatewayCacheEntryRecord)
    : list LlmGatewayCacheEntryRecord :=
  List.filter (fun r => negb (in_namespace namespace r && (gc_expires_at r <=? now))) l.

(** The keys beyond the newest [max_entries]. *)
Definition overflowing (namespace : string) (max_entries : Z) (l : list LlmGatewayCacheEntryRecord) : list string :=
  map gc_cache_key_sha256 (drop (Z.to_nat max_entries) (order_by newest_first (List.filter (in_namespace namespace) l))).

Definition prune_overflow (namespace : string) (max_entries : Z) (l : list LlmGatewayCacheEntryRecord)
    : list LlmGatewayCacheEntryRecord :=
  let keys := overflowing namespace max_entries l in
  List.filter (fun r => negb (in_namespace namespace r && str_in (gc_cache_key_sha256 r) keys)) l.

(** * Requests *)

Record ChatMessage := { cm_role : string; cm_content : string }.

(** [temperature] is the number of the action; its cast to [f32] is left to the
    serializer. *)
Record ChatCompletionRequest := {
  ch_model : string; ch_messages : list ChatMessage; ch_max_tokens : option Z; ch_temperature : option number;
}.

(** * The process *)

Record CachedCompletion := {
  cc_response_text : string; cc_prompt_tokens : option Z; cc_completion_tokens : option Z; cc_total_tokens : option Z;
}.
Record CacheEntry := { ce_value : CachedCompletion; ce_inserted_at : Z }.

Record llm_process := {
  lp_entries : gmap string CacheEntry; lp_interactive_inflight : Z; lp_batch_inflight : Z;
}.
Definition no_llm : llm_process := {| lp_entries := ∅; lp_interactive_inflight := 0; lp_batch_inflight := 0 |}.

Definition with_entries (p : llm_process) (m : gmap string CacheEntry) : llm_process :=
  {| lp_entries := m; lp_interactive_inflight := lp_interactive_inflight p; lp_batch_inflight := lp_batch_inflight p |}.

(** [inserted_at.elapsed() > ttl] removes the entry. *)
Definition cache_lookup (now : Z) (cache_key : string) (ttl_secs : Z) (p : llm_process)
    : llm_process * option CachedCompletion :=
  match lp_entries p !! cache_key with
  | None => (p, None)
  | Some entry =>
      if ttl_secs * 1000000000 <? Z.max 0 (now - ce_inserted_at entry)
      then (with_entries p (delete cache_key (lp_entries p)), None)
      else (p, Some (ce_value entry))
  end.

(** [min_by_key]: the first of the oldest entries in the order of the map. *)
Fixpoint oldest (l : list (string * CacheEntry)) : option (string * CacheEntry) :=
  match l with
  | [] => None
  | x :: rest =>
      match oldest rest with
      | Some y => if ce_inserted_at x.2 <=? ce_inserted_at y.2 then Some x else Some y
      | None => Some x
      end
  end.

Definition cache_insert (now : Z) (cache_key : string) (value : CachedCompletion) (max_entries : Z) (p : llm_process)
    : llm_process :=
  let entries := <[cache_key := {| ce_value := value; ce_inserted_at := now |}]> (lp_entries p) in
  with_entries p
    (if Z.of_nat (size entries) <=? max_entries then entries
     else match oldest (map_to_list entries) with
          | Some (oldest_key, _) => delete oldest_key entries
          | None => entries
          end).
