(* ===== verification/MemoryTables.v ===== *)
(** The memory plane (core/src/db.rs, db_worker_dual.rs and the SQLite statements of
    api/src/lib.rs): the tables [memory_records] and [memory_compactions], and the
    statements that insert, list, count, compact and purge their rows.  A statement
    that both backends have is written once, over the comparison of time stamps and
    the [LIKE] of the backend. *)
From S2P Require Import Prelude RustStr Json Sql Runs RunQueue.

(** * Rows *)

Record NewMemoryRecord := {
  nm_id : Uuid; nm_tenant_id : string; nm_agent_id : Uuid; nm_run_id : option Uuid; nm_step_id : option Uuid;
  nm_memory_kind : string; nm_scope : string; nm_content_json : json; nm_summary_text : option string;
  nm_source : string; nm_redaction_applied : bool; nm_expires_at : option Z;
}.
(** [MemoryRecord]: the columns of the insertion, and those the database fills. *)
Record MemoryRecord := {
  mm_new : NewMemoryRecord; mm_compacted_at : option Z; mm_created_at : Z; mm_updated_at : Z;
}.

Record NewMemoryCompactionRecord := {
  nk_id : Uuid; nk_tenant_id : string; nk_agent_id : option Uuid; nk_memory_kind : string; nk_scope : string;
  nk_source_count : Z; nk_source_entry_ids : json; nk_summary_json : json;
}.
Record MemoryCompactionRecord := { mk_new : NewMemoryCompactionRecord; mk_created_at : Z }.

Record MemoryCompactionGroupOutcome := {
  mg_tenant_id : string; mg_agent_id : Uuid; mg_memory_kind : string; mg_scope : string; mg_source_count : Z;
  mg_source_entry_ids : json; mg_representative_run_id : option Uuid; mg_representative_step_id : option Uuid;
}.
Record MemoryCompactionRunStats := {
  ms_processed_groups : Z; ms_compacted_source_records : Z; ms_groups : list MemoryCompactionGroupOutcome;
}.
Record MemoryCompactionStatsRecord := {
  cs_compacted_groups_window : Z; cs_compacted_source_records_window : Z; cs_pending_uncompacted_records : Z;
  cs_last_compacted_at : option Z;
}.
Record MemoryPurgeOutcome := { po_tenant_id : string; po_deleted_count : Z; po_as_of : Z }.

Record memory_tables := { mt_records : list MemoryRecord; mt_compactions : list MemoryCompactionRecord }.
Definition no_memory : memory_tables := {| mt_records := []; mt_compactions := [] |}.
Definition with_records (t : memory_tables) (l : list MemoryRecord) : memory_tables :=
  {| mt_records := l; mt_compactions := mt_compactions t |}.
Definition with_compactions (t : memory_tables) (l : list MemoryCompactionRecord) : memory_tables :=
  {| mt_records := mt_records t; mt_compactions := l |}.

Abbreviation mm_id r := (nm_id (mm_new r)).

Definition memory_kinds : list string := ["session"; "semantic"; "procedural"; "handoff"].

(** * LIKE *)

(** The end of a character: its continuation bytes. *)
Fixpoint drop_continuation (s : string) : string :=
  match s with
  | EmptyString => ""
  | String c s' => if (128 <=? byte_of c) && (byte_of c <? 192) then drop_continuation s' else s
  end.

Definition percent : ascii := ascii_of_N 37.
Definition underscore : ascii := ascii_of_N 95.
Definition backslash : ascii := ascii_of_N 92.

Section like.
(** PostgreSQL has an escape character, the backslash; SQLite has none and ignores
    the case of ASCII letters. *)
Context (escape fold : bool).

Definition same_char (a b : ascii) : bool :=
  if fold then Ascii.eqb (ascii_lower a) (ascii_lower b) else Ascii.eqb a b.

Fixpoint like (pattern s : string) {struct pattern} : bool :=
  match pattern with
  | EmptyString => is_empty s
  | String c p =>
      if Ascii.eqb c percent then
        (fix any (s : string) : bool := like p s || match s with EmptyString => false | String _ s' => any s' end) s
      else if Ascii.eqb c underscore then
        match s with EmptyString => false | String _ s' => like p (drop_continuation s') end
      else if escape && Ascii.eqb c backslash then
        match p, s with
        | String e p', String d s' => Ascii.eqb e d && like p' s'
        | _, _ => false
        end
      else match s with EmptyString => false | String d s' => same_char c d && like p s' end
  end.

(** [column LIKE (prefix || '%')] *)
Definition like_prefix (prefix s : string) : bool := like (prefix +:+ "%") s.
End like.

Definition pg_like_prefix : string -> string -> bool := like_prefix true false.
Definition sqlite_like_prefix : string -> string -> bool := like_prefix false true.

(** No wildcard and no escape character. *)
Fixpoint plain (s : string) : bool :=
  match s with
  | EmptyString => true
  | String c s' => negb (Ascii.eqb c percent || Ascii.eqb c underscore || Ascii.eqb c backslash) && plain s'
  end.

Lemma like_rest escape fold s : like escape fold "%" s = true.
Proof. induction s as [|c s IH]; [done|]. cbn in *. by rewrite IH. Qed.

Lemma like_plain_char escape fold c p s :
  plain (String c "") = true ->
  like escape fold (String c p) s = match s with EmptyString => false | String d s' => same_char fold c d && like escape fold p s' end.
Proof.
  cbn [plain]. rewrite andb_true_r, negb_true_iff, !orb_false_iff. intros [[Hp Hu] Hb].
  destruct s; cbn [like]; by rewrite Hp, Hu, Hb, andb_false_r.
Qed.

(** Without wildcards PostgreSQL selects the strings with the prefix. *)
Lemma like_prefix_plain p s : plain p = true -> pg_like_prefix p s = starts_with p s.
Proof.
  unfold pg_like_prefix, like_prefix. revert s.
  induction p as [|c p IH]; intros s Hp; [rewrite sapp_nil_l; by destruct s; rewrite like_rest|].
  cbn [plain] in Hp. apply andb_true_iff in Hp as [Hc Hp].
  rewrite sapp_cons, like_plain_char; [|cbn [plain]; by rewrite Hc].
  destruct s as [|d s]; [done|]. by rewrite IH.
Qed.

(** * Records *)

Section records.
Context `{Engine} (prefix_of : string -> string -> bool).

(** [expires_at IS NULL OR expires_at > now()] *)
Definition unexpired (now : Z) (r : MemoryRecord) : bool :=
  match nm_expires_at (mm_new r) with None => true | Some e => ts_lt now e end.
Definition uncompacted (r : MemoryRecord) : bool := match mm_compacted_at r with None => true | Some _ => false end.
Definition memory_of (tenant_id : string) (r : MemoryRecord) : bool := String.eqb (nm_tenant_id (mm_new r)) tenant_id.
Definition active_memory (now : Z) (r : MemoryRecord) : bool := uncompacted r && unexpired now r.

(** [$n IS NULL OR p] *)
Definition unless_null {A} (o : option A) (p : A -> bool) : bool := match o with None => true | Some a => p a end.

Definition listed (now : Z) (tenant_id : string) (agent_id : option Uuid) (memory_kind scope_prefix : option string)
    (r : MemoryRecord) : bool :=
  memory_of tenant_id r && active_memory now r && unless_null agent_id (Z.eqb (nm_agent_id (mm_new r))) &&
  unless_null memory_kind (String.eqb (nm_memory_kind (mm_new r))) &&
  unless_null scope_prefix (fun p => prefix_of p (nm_scope (mm_new r))).

(** [ORDER BY created_at DESC, id DESC] *)
Definition newest_first (a b : MemoryRecord) : bool :=
  (ts_key (mm_created_at b) <? ts_key (mm_created_at a)) ||
  ((ts_key (mm_created_at b) =? ts_key (mm_created_at a)) && (mm_id b <=? mm_id a)).
(** [ORDER BY created_at ASC, id ASC] *)
Definition oldest_first (a b : MemoryRecord) : bool := newest_first b a.

(** [.bind(limit.clamp(1, 1000))] *)
Definition clamp (lo hi n : Z) : Z := Z.max lo (Z.min hi n).
Definition newest (lim : Z) (rows : list MemoryRecord) : list MemoryRecord :=
  limit (clamp 1 1000 lim) (order_by newest_first rows).

Definition list_memory (now : Z) (tenant_id : string) (agent_id : option Uuid) (memory_kind scope_prefix : option string)
    (lim : Z) (t : memory_tables) : list MemoryRecord :=
  newest lim (List.filter (listed now tenant_id agent_id memory_kind scope_prefix) (mt_records t)).

Definition listed_handoff (uuid_text : Uuid -> string) (now : Z) (tenant_id : string) (to_agent_id from_agent_id : option Uuid)
    (r : MemoryRecord) : bool :=
  memory_of tenant_id r && String.eqb (nm_memory_kind (mm_new r)) "handoff" &&
  prefix_of "memory:handoff/" (nm_scope (mm_new r)) && active_memory now r &&
  unless_null to_agent_id (Z.eqb (nm_agent_id (mm_new r))) &&
  unless_null from_agent_id (fun a =>
    match json_field_text "from_agent_id" (nm_content_json (mm_new r)) with
    | Some text => String.eqb text (uuid_text a)
    | None => false
    end).

Definition list_handoffs (uuid_text : Uuid -> string) (now : Z) (tenant_id : string)
    (to_agent_id from_agent_id : option Uuid) (lim : Z) (t : memory_tables) : list MemoryRecord :=
  newest lim (List.filter (listed_handoff uuid_text now tenant_id to_agent_id from_agent_id) (mt_records t)).

(** The statement of [ensure_tenant_memory_capacity]. *)
Definition count_active_memory (now : Z) (tenant_id : string) (t : memory_tables) : Z :=
  countb (fun r => memory_of tenant_id r && active_memory now r) (mt_records t).

(** ** Purging *)

(** [tenant_id = $1 AND expires_at IS NOT NULL AND expires_at <= $2] *)
Definition purgeable (tenant_id : string) (as_of : Z) (r : MemoryRecord) : bool :=
  memory_of tenant_id r && match nm_expires_at (mm_new r) with None => false | Some e => ts_le e as_of end.

Definition purge_expired_memory_records (tenant_id : string) (as_of : Z) (t : memory_tables) : memory_tables * Z :=
  (with_records t (List.filter (fun r => negb (purgeable tenant_id as_of r)) (mt_records t)),
   countb (purgeable tenant_id as_of) (mt_records t)).

(** [SELECT run_id, COUNT( * ) .. AND run_id IS NOT NULL GROUP BY run_id] *)
Definition purge_run_impacts (tenant_id : string) (as_of : Z) (t : memory_tables) : list (Uuid * Z) :=
  let rows := List.filter (purgeable tenant_id as_of) (mt_records t) in
  map (fun id => (id, countb (fun r => bool_decide (nm_run_id (mm_new r) = Some id)) rows))
    (remove_dups (omap (fun r => nm_run_id (mm_new r)) rows)).

(** ** Compaction *)

Definition compactable (now cutoff : Z) (r : MemoryRecord) : bool :=
  active_memory now r && ts_le (mm_created_at r) cutoff.

(** [GROUP BY tenant_id, agent_id, memory_kind, scope] *)
Definition group_key (r : MemoryRecord) : string * Uuid * string * string :=
  (nm_tenant_id (mm_new r), nm_agent_id (mm_new r), nm_memory_kind (mm_new r), nm_scope (mm_new r)).

Definition in_group (key : string * Uuid * string * string) (r : MemoryRecord) : bool := bool_decide (group_key r = key).

Definition group_rows (now cutoff : Z) (key : string * Uuid * string * string) (t : memory_tables) : list MemoryRecord :=
  List.filter (fun r => compactable now cutoff r && in_group key r) (mt_records t).

(** The groups [HAVING COUNT( * ) >= $2], each oldest row first. *)
Definition memory_groups (now cutoff min_records : Z) (t : memory_tables) : list (list MemoryRecord) :=
  List.filter (fun g => min_records <=? Z.of_nat (length g))
    (map (fun key => order_by oldest_first (group_rows now cutoff key t))
       (remove_dups (map group_key (List.filter (compactable now cutoff) (mt_records t))))).

(** [MIN(column)] *)
Definition minimum (l : list Z) : Z := match l with [] => 0 | x :: l => foldr Z.min x l end.
Definition group_created (g : list MemoryRecord) : Z := minimum (map (fun r => ts_key (mm_created_at r)) g).
Definition group_least_id (g : list MemoryRecord) : Z := minimum (map (fun r => mm_id r) g).

(** The row whose run and step stand for the group: [ORDER BY created_at DESC, id DESC]. *)
Definition representative (g : list MemoryRecord) : option MemoryRecord := head (order_by newest_first g).

(** [UPDATE .. SET compacted_at = .., updated_at = ..] *)
Definition set_compacted (now : Z) (r : MemoryRecord) : MemoryRecord :=
  {| mm_new := mm_new r; mm_compacted_at := Some now; mm_created_at := mm_created_at r; mm_updated_at := now |}.

(** [.. WHERE id = ANY($1) AND compacted_at IS NULL RETURNING id] *)
Definition mark_compacted (now : Z) (ids : list Uuid) (t : memory_tables) : memory_tables * list Uuid :=
  let chosen r := bool_decide (mm_id r ∈ ids) && uncompacted r in
  (with_records t (update_where chosen (set_compacted now) (mt_records t)).1,
   map (fun r => mm_id r) (List.filter chosen (mt_records t))).

(** ** Statistics *)

Definition compaction_of (tenant_id : string) (since : option Z) (r : MemoryCompactionRecord) : bool :=
  String.eqb (nk_tenant_id (mk_new r)) tenant_id && unless_null since (fun s => ts_le s (mk_created_at r)).

Definition sum_source_counts (l : list MemoryCompactionRecord) : Z :=
  foldr (fun r n => nk_source_count (mk_new r) + n) 0 l.

Definition maximum (l : list Z) : option Z := match l with [] => None | x :: l => Some (foldr Z.max x l) end.

(** [COUNT], [SUM] and [MAX] as 64-bit integers. *)
Definition memory_compaction_stats (tenant_id : string) (since : option Z) (t : memory_tables)
    : result MemoryCompactionStatsRecord db_error :=
  let window := List.filter (compaction_of tenant_id since) (mt_compactions t) in
  let total := sum_source_counts window in
  if i64_max <? total then Err OutOfRange
  else Ok {| cs_compacted_groups_window := Z.of_nat (length window);
             cs_compacted_source_records_window := total;
             cs_pending_uncompacted_records := countb (fun r => memory_of tenant_id r && uncompacted r) (mt_records t);
             cs_last_compacted_at :=
               maximum (map mk_created_at (List.filter (compaction_of tenant_id None) (mt_compactions t))) |}.
End records.
