(* ===== verification/MemoryRank.v ===== *)
(** The ranking of retrieved memory records (api/src/lib.rs,
    [compute_memory_retrieval_score], [tokenize_retrieval_query] and the order of
    [retrieve_memory_handler]).  A score is an [f64]: the arithmetic is that of IEEE 754
    binary64, from the specification of floating-point numbers of the prover. *)
From Stdlib Require Import SpecFloat.
From S2P Require Import Prelude RustStr Json Sql MemoryTables.

(** * Binary64 *)

Abbreviation f64 := spec_float.
Definition f64_add : f64 -> f64 -> f64 := SFadd 53 1024.
Definition f64_sub : f64 -> f64 -> f64 := SFsub 53 1024.
Definition f64_mul : f64 -> f64 -> f64 := SFmul 53 1024.
Definition f64_div : f64 -> f64 -> f64 := SFdiv 53 1024.

(** [n as f64] *)
Definition f64_of (n : Z) : f64 := binary_normalize 53 1024 n 0 false.
(** A decimal literal: the double nearest to [n / d]. *)
Definition decimal (n d : Z) : f64 := f64_div (f64_of n) (f64_of d).

(** [x.clamp(lo, hi)] *)
Definition f64_clamp (lo hi x : f64) : f64 :=
  let x := if SFltb x lo then lo else x in if SFltb hi x then hi else x.

Example decimal_literals : decimal 3 10 = S754_finite false 5404319552844595 (-54) /\ decimal 1 10 = S754_finite false 7205759403792794 (-56).
Proof. by vm_compute. Qed.

(** * Tokens *)

(** [raw.split(|ch| !ch.is_ascii_alphanumeric())], the empty pieces left out. *)
Fixpoint alphanumeric_words (s word : string) : list string :=
  match s with
  | EmptyString => if is_empty word then [] else [word]
  | String c s' =>
      if is_ascii_alphanumeric c then alphanumeric_words s' (word +:+ String c "")
      else (if is_empty word then [] else [word]) ++ alphanumeric_words s' ""
  end.

(** [Vec::dedup] *)
Fixpoint dedup (l : list string) : list string :=
  match l with
  | x :: ((y :: _) as l') => if String.eqb x y then dedup l' else x :: dedup l'
  | _ => l
  end.

Definition string_le (a b : string) : bool := match String.compare a b with Gt => false | _ => true end.

Definition tokenize_retrieval_query (raw : string) : list string :=
  dedup (order_by string_le (map to_ascii_lowercase (alphanumeric_words raw ""))).

Example tokens_of_a_query : tokenize_retrieval_query "Roadmap: risk, RISK 2 roadmap" = ["2"; "risk"; "roadmap"].
Proof. by vm_compute. Qed.

(** * Scores *)

Definition has_text (o : option string) : bool := match o with Some s => negb (is_empty (trim s)) | None => false end.

Definition recency_score (recency_index total_candidates : Z) : f64 :=
  if total_candidates <=? 1 then f64_of 1
  else f64_clamp (f64_of 0) (f64_of 1)
         (f64_sub (f64_of 1) (f64_div (f64_of recency_index) (f64_of (total_candidates - 1)))).

Section score.
Context (json_to_string : json -> string).

Definition haystack (r : MemoryRecord) : string :=
  to_ascii_lowercase ((match nm_summary_text (mm_new r) with Some s => s +:+ " " | None => "" end) +:+
                      json_to_string (nm_content_json (mm_new r))).

Definition compute_memory_retrieval_score (r : MemoryRecord) (query_tokens : list string) (recency_index total_candidates : Z) : f64 :=
  let score := f64_mul (recency_score recency_index total_candidates) (decimal 3 10) in
  let score := if has_text (nm_summary_text (mm_new r)) then f64_add score (decimal 1 10) else score in
  let score :=
    match query_tokens with
    | [] => score
    | _ => let hits := countb (fun token => contains token (haystack r)) query_tokens in
           f64_add score (f64_mul (f64_div (f64_of hits) (f64_of (Z.of_nat (length query_tokens)))) (f64_of 1))
    end in
  f64_clamp (f64_of 0) (f64_of 2) score.

(** [.enumerate().map(..)] *)
Definition scored (query_tokens : list string) (rows : list MemoryRecord) : list (MemoryRecord * f64) :=
  imap (fun i r => (r, compute_memory_retrieval_score r query_tokens (Z.of_nat i) (Z.max (Z.of_nat (length rows)) 1))) rows.
End score.

(** [right.partial_cmp(left).unwrap_or(Equal).then_with(created_at).then_with(id)], descending. *)
Definition rank_compare (left right : MemoryRecord * f64) : comparison :=
  match default Eq (SFcompare right.2 left.2) with
  | Eq => match mm_created_at right.1 ?= mm_created_at left.1 with
          | Eq => mm_id right.1 ?= mm_id left.1
          | c => c
          end
  | c => c
  end.
Definition ranks_before (left right : MemoryRecord * f64) : bool := match rank_compare left right with Gt => false | _ => true end.

(** * Scores are numbers *)

(** Of sign [s], or zero; not NaN. *)
Definition signed (s : bool) (x : f64) : Prop :=
  match x with S754_nan => False | S754_zero _ => True | S754_infinity t | S754_finite t _ _ => t = s end.
(** Finite and not negative. *)
Definition proper (x : f64) : Prop := match x with S754_zero _ | S754_finite false _ _ => True | _ => False end.

Lemma proper_signed x : proper x -> signed false x.
Proof. by destruct x as [|[]| |[]]. Qed.

Section rounding.
(** A shift to the right keeps a mantissa between zero and itself. *)
Lemma shr_1_bound mrs : 0 <= shr_m mrs -> 0 <= shr_m (shr_1 mrs) <= shr_m mrs.
Proof. destruct mrs as [[|[p|p|]|p] r s]; cbn; lia. Qed.

Lemma iter_shr_bound p mrs : 0 <= shr_m mrs -> 0 <= shr_m (SpecFloat.iter_pos shr_1 p mrs) <= shr_m mrs.
Proof.
  revert mrs. induction p as [p IH|p IH|]; intros mrs Hm; cbn [SpecFloat.iter_pos].
  - pose proof (shr_1_bound mrs Hm). pose proof (IH (shr_1 mrs) ltac:(lia)).
    pose proof (IH (SpecFloat.iter_pos shr_1 p (shr_1 mrs)) ltac:(lia)). lia.
  - pose proof (IH mrs Hm). pose proof (IH (SpecFloat.iter_pos shr_1 p mrs) ltac:(lia)). lia.
  - by apply shr_1_bound.
Qed.

Lemma shr_fexp_bound m e l : 0 <= m ->
  0 <= shr_m (shr_fexp 53 1024 m e l).1 <= m /\
  (shr_fexp 53 1024 m e l).2 = Z.max e (fexp 53 1024 (Zdigits2 m + e)).
Proof.
  intros Hm. unfold shr_fexp, shr.
  assert (shr_m (shr_record_of_loc m l) = m) as Hl by by destruct l as [|[]].
  destruct (fexp 53 1024 (Zdigits2 m + e) - e) as [|p|p] eqn:D; cbn [fst snd]; rewrite ?Hl; try (split; lia).
  pose proof (iter_shr_bound p (shr_record_of_loc m l)) as H. rewrite Hl in H. specialize (H Hm). split; lia.
Qed.

(** It does not shift a positive mantissa out. *)
Lemma digits2_pos_least p : 2 ^ (Zpos (digits2_pos p) - 1) <= Zpos p.
Proof.
  induction p as [p IH|p IH|]; cbn [digits2_pos]; [| |done];
    rewrite Pos2Z.inj_succ; replace (Z.succ (Zpos (digits2_pos p)) - 1) with (Z.succ (Zpos (digits2_pos p) - 1)) by lia;
    rewrite Z.pow_succ_r by lia; lia.
Qed.

Lemma shr_1_div mrs : 0 <= shr_m mrs -> shr_m (shr_1 mrs) = shr_m mrs / 2.
Proof.
  destruct mrs as [[|[p|p|]|p] r s]; cbn; intros Hm; try lia; try done.
  - apply (Z.div_unique _ 2 _ 1); lia.
  - apply (Z.div_unique _ 2 _ 0); lia.
Qed.

Lemma iter_shr_div p mrs : 0 <= shr_m mrs -> shr_m (SpecFloat.iter_pos shr_1 p mrs) = shr_m mrs / 2 ^ Zpos p.
Proof.
  revert mrs. induction p as [p IH|p IH|]; intros mrs Hm; cbn [SpecFloat.iter_pos].
  - pose proof (shr_1_bound mrs Hm). pose proof (iter_shr_bound p (shr_1 mrs) ltac:(lia)).
    rewrite !IH, shr_1_div, !Z.div_div by lia. f_equal.
    replace (Zpos p~1) with (1 + Zpos p + Zpos p) by lia. rewrite !Z.pow_add_r by lia. lia.
  - pose proof (iter_shr_bound p mrs Hm). rewrite !IH, Z.div_div by lia. f_equal.
    replace (Zpos p~0) with (Zpos p + Zpos p) by lia. by rewrite Z.pow_add_r by lia.
  - by rewrite shr_1_div.
Qed.

Lemma shr_fexp_positive m e l : 0 < m -> -500 <= e -> 0 < shr_m (shr_fexp 53 1024 m e l).1.
Proof.
  intros Hm He. unfold shr_fexp, shr. assert (shr_m (shr_record_of_loc m l) = m) as Hl by by destruct l as [|[]].
  change (fexp 53 1024 (Zdigits2 m + e)) with (Z.max (Zdigits2 m + e - 53) (-1074)).
  destruct (_ - e) as [|k|k] eqn:D; cbn [fst]; rewrite ?Hl; try done.
  rewrite iter_shr_div, Hl by lia. apply Z.div_str_pos. split; [lia|].
  destruct m as [|p|p]; [lia| |lia]. cbn [Zdigits2] in D. etrans; [|apply digits2_pos_least].
  apply Z.pow_le_mono_r; lia.
Qed.

Lemma round_nearest_even_bound m l : m <= round_nearest_even m l <= m + 1.
Proof. destruct l as [|[]]; cbn; try destruct (Z.even m); lia. Qed.

Lemma digits2_pos_bound p k : 0 <= k -> Zpos p < 2 ^ k -> Zpos (digits2_pos p) <= k.
Proof.
  intros Hk. revert k Hk. induction p as [p IH|p IH|]; intros k Hk Hp; cbn [digits2_pos];
    try rewrite Pos2Z.inj_succ;
    (destruct (Z.eq_dec k 0) as [->|Hk0]; [change (2 ^ 0) with 1 in Hp; lia|]);
    replace k with (Z.succ (k - 1)) in Hp by lia; rewrite Z.pow_succ_r in Hp by lia.
  - specialize (IH (k - 1) ltac:(lia) ltac:(lia)). lia.
  - specialize (IH (k - 1) ltac:(lia) ltac:(lia)). lia.
  - lia.
Qed.

(** Rounding a mantissa that is not negative gives a number of that sign. *)
Lemma binary_round_aux_signed s m e l : 0 <= m -> signed s (binary_round_aux 53 1024 s m e l).
Proof.
  intros Hm. unfold binary_round_aux.
  destruct (shr_fexp 53 1024 m e l) as [mrs' e'] eqn:S1.
  pose proof (shr_fexp_bound m e l Hm) as [H1 _]. rewrite S1 in H1. cbn in H1.
  pose proof (round_nearest_even_bound (shr_m mrs') (loc_of_shr_record mrs')) as H2.
  set (m2 := round_nearest_even _ _) in *.
  destruct (shr_fexp 53 1024 m2 e' loc_Exact) as [mrs'' e''] eqn:S2.
  pose proof (shr_fexp_bound m2 e' loc_Exact ltac:(lia)) as [H3 _]. rewrite S2 in H3. cbn in H3.
  destruct (shr_m mrs'') as [|p|p]; [done| |lia]. by destruct (_ <=? _).
Qed.

Lemma binary_round_signed s p e : signed s (binary_round 53 1024 s p e).
Proof. unfold binary_round. destruct (shl_align _ _ _). by apply binary_round_aux_signed. Qed.

Lemma iter_xO p k : Zpos (Pos.iter xO p k) = Zpos p * 2 ^ Zpos k.
Proof.
  induction k as [|k IH] using Pos.peano_ind; [cbn; lia|].
  rewrite Pos.iter_succ, Pos2Z.inj_xO, IH, Pos2Z.inj_succ, Z.pow_succ_r by lia. lia.
Qed.

(** A mantissa and an exponent that are small round to a finite number. *)
Lemma binary_round_aux_proper m e l : 0 <= m < 2 ^ 120 -> -200 <= e <= 200 -> proper (binary_round_aux 53 1024 false m e l).
Proof.
  intros [Hm Hl] He. unfold binary_round_aux.
  assert (forall n, 0 <= n -> n < 2 ^ 121 -> 0 <= Zdigits2 n <= 121) as Hdigits.
  { intros [|p|p] Hn Hp; cbn; [lia| |lia]. pose proof (digits2_pos_bound p 121 ltac:(lia) Hp). lia. }
  assert (forall d x, fexp 53 1024 (d + x) = Z.max (d + x - 53) (-1074)) as Hfexp by done.
  assert (2 ^ 121 = 2 * 2 ^ 120) as Hpow by done.
  destruct (shr_fexp 53 1024 m e l) as [mrs' e'] eqn:S1.
  pose proof (shr_fexp_bound m e l Hm) as [H1 He1]. rewrite S1, Hfexp in *. cbn [fst snd] in H1, He1.
  pose proof (round_nearest_even_bound (shr_m mrs') (loc_of_shr_record mrs')) as H2.
  set (m2 := round_nearest_even _ _) in *.
  destruct (shr_fexp 53 1024 m2 e' loc_Exact) as [mrs'' e''] eqn:S2.
  pose proof (shr_fexp_bound m2 e' loc_Exact ltac:(lia)) as [H3 He3]. rewrite S2, Hfexp in *. cbn [fst snd] in H3, He3.
  pose proof (Hdigits m ltac:(lia) ltac:(lia)). pose proof (Hdigits m2 ltac:(lia) ltac:(lia)).
  destruct (shr_m mrs'') as [|p|p]; [done| |lia].
  rewrite (proj2 (Z.leb_le e'' (1024 - 53))); [done|lia].
Qed.

Lemma binary_round_aux_positive m e l : 0 < m -> -500 <= e -> SFltb (f64_of 0) (binary_round_aux 53 1024 false m e l) = true.
Proof.
  intros Hm He. unfold binary_round_aux.
  destruct (shr_fexp 53 1024 m e l) as [mrs' e'] eqn:S1.
  pose proof (shr_fexp_positive m e l Hm He) as H1. pose proof (shr_fexp_bound m e l ltac:(lia)) as [_ He1]. rewrite S1 in *. cbn [fst snd] in *.
  pose proof (round_nearest_even_bound (shr_m mrs') (loc_of_shr_record mrs')) as H2.
  set (m2 := round_nearest_even _ _) in *.
  pose proof (shr_fexp_positive m2 e' loc_Exact ltac:(lia) ltac:(lia)) as H3.
  destruct (shr_fexp 53 1024 m2 e' loc_Exact) as [mrs'' e'']. cbn [fst] in H3.
  destruct (shr_m mrs'') as [|p|p]; [lia| |lia]. by destruct (_ <=? _).
Qed.

Lemma f64_of_positive p : SFltb (f64_of 0) (f64_of (Zpos p)) = true.
Proof.
  unfold f64_of, binary_normalize, binary_round, shl_align.
  pose proof (Pos2Z.is_pos (digits2_pos p)) as Hd0.
  change (fexp 53 1024 (Zpos (digits2_pos p) + 0)) with (Z.max (Zpos (digits2_pos p) + 0 - 53) (-1074)).
  destruct (Z.max (Zpos (digits2_pos p) + 0 - 53) (-1074) - 0) as [|k|k] eqn:D;
    apply binary_round_aux_positive; lia.
Qed.

(** A [usize] is a finite double. *)
Lemma f64_of_proper n : 0 <= n < 2 ^ 64 -> proper (f64_of n).
Proof.
  intros [Hn Hl]. unfold f64_of, binary_normalize. destruct n as [|p|p]; [done| |lia].
  pose proof (digits2_pos_bound p 64 ltac:(lia) Hl) as Hd. pose proof (Pos2Z.is_pos (digits2_pos p)) as Hd0.
  assert (2 ^ 64 * 2 ^ 52 < 2 ^ 120) as Hpow by done.
  unfold binary_round, shl_align. change (fexp 53 1024 (Zpos (digits2_pos p) + 0)) with (Z.max (Zpos (digits2_pos p) + 0 - 53) (-1074)).
  destruct (Z.max (Zpos (digits2_pos p) + 0 - 53) (-1074) - 0) as [|k|k] eqn:D;
    apply binary_round_aux_proper; try lia.
  rewrite iter_xO. pose proof (Z.pow_le_mono_r 2 (Zpos k) 52 ltac:(lia) ltac:(lia)).
  pose proof (Z.pow_pos_nonneg 2 (Zpos k) ltac:(lia) ltac:(lia)). nia.
Qed.

Lemma f64_div_signed a b : proper a -> proper b -> SFltb (f64_of 0) b = true -> signed false (f64_div a b).
Proof.
  unfold f64_div, SFdiv. destruct a as [s| | |[] m e], b as [s'| | |[] m' e']; cbn [proper]; try done; intros _ _ Hb.
  unfold SFdiv_core_binary. cbn [xorb]. set (mm := match _ with Z0 => _ | _ => _ end).
  assert (0 <= mm) as Hmm.
  { subst mm. match goal with |- _ <= match ?x with _ => _ end => destruct x as [|k|k] end; [lia| |lia]. by apply Z.shiftl_nonneg. }
  pose proof (Z.div_pos mm (Zpos m') Hmm ltac:(lia)) as Hq. unfold Z.div in Hq.
  destruct (Z.div_eucl mm (Zpos m')) as [q r]. by apply binary_round_aux_signed.
Qed.

Lemma f64_sub_number a b : proper a -> signed false b -> f64_sub a b <> S754_nan.
Proof.
  unfold f64_sub, SFsub. destruct a as [s| | |[] m e], b as [s'|[]| |[] m' e']; cbn [proper signed]; try done.
  - by destruct s, s'.
  - intros _ _. unfold binary_normalize. destruct (_ - _)%Z as [|p|p]; [done| |];
      [pose proof (binary_round_signed false p (Z.min e e')) as H|pose proof (binary_round_signed true p (Z.min e e')) as H];
      by destruct (binary_round _ _ _ _ _).
Qed.

Lemma f64_mul_signed a b : proper a -> proper b -> signed false (f64_mul a b).
Proof.
  unfold f64_mul, SFmul. destruct a as [s| | |[] m e], b as [s'| | |[] m' e']; cbn [proper]; try done.
  intros _ _. by apply binary_round_aux_signed.
Qed.

Lemma f64_add_signed a b : signed false a -> signed false b -> signed false (f64_add a b).
Proof.
  unfold f64_add, SFadd. destruct a as [s|[]| |[] m e], b as [s'|[]| |[] m' e']; cbn [signed]; try done.
  - by destruct s, s'.
  - intros _ _. unfold binary_normalize, cond_Zopp.
    destruct (_ + _)%Z as [|p|p] eqn:D; [done|apply binary_round_signed|lia].
Qed.

Lemma f64_clamp_proper hi x : proper hi -> x <> S754_nan -> proper (f64_clamp (f64_of 0) hi x).
Proof.
  intros Hhi Hx. unfold f64_clamp. set (y := if SFltb x (f64_of 0) then f64_of 0 else x).
  assert (signed false y) as Hy.
  { subst y. destruct (SFltb x (f64_of 0)) eqn:L; [done|]. by destruct x as [s|[]| |[] m e]. }
  destruct (SFltb hi y) eqn:L; [done|].
  destruct y as [s|[]| |[] m e]; try done. by destruct hi as [s'| | |[] m' e'].
Qed.
End rounding.

(** * The order *)

Lemma f64_ratio_signed i n : 0 <= i < 2 ^ 64 -> 0 < n < 2 ^ 64 -> signed false (f64_div (f64_of i) (f64_of n)).
Proof.
  intros Hi Hn. apply f64_div_signed; [apply f64_of_proper; lia..|]. destruct n as [|p|p]; [lia| |lia]. apply f64_of_positive.
Qed.

Lemma countb_le {A} (p : A -> bool) l : countb p l <= Z.of_nat (length l).
Proof. induction l as [|x l IH]; [done|]. rewrite countb_cons. cbn [length]. destruct (p x); lia. Qed.

(** A part of a [usize] is at most the whole, and finite. *)
Lemma f64_clamp_range hi x : SFltb hi (f64_of 0) = false -> proper (f64_clamp (f64_of 0) hi x) ->
  SFltb (f64_clamp (f64_of 0) hi x) (f64_of 0) = false /\ (proper hi -> SFltb hi (f64_clamp (f64_of 0) hi x) = false).
Proof.
  intros Hhi Hp. unfold f64_clamp in *. set (y := if SFltb x (f64_of 0) then f64_of 0 else x) in *.
  assert (SFltb y (f64_of 0) = false) as Hy by (subst y; by destruct (SFltb x (f64_of 0)) eqn:L).
  destruct (SFltb hi y) eqn:L; split; try done. intros Hh.
  destruct hi as [s| | |[] m e]; try done. unfold SFltb, SFcompare. by rewrite Z.compare_refl, Pos.compare_cont_refl.
Qed.

Section order.
Context (json_to_string : json -> string).
#[local] Abbreviation score := (compute_memory_retrieval_score json_to_string).

(** Every score is a number between 0.0 and 2.0. *)
Lemma score_in_range r tokens i n :
  0 <= i < 2 ^ 64 -> n < 2 ^ 64 -> Z.of_nat (length tokens) < 2 ^ 64 ->
  proper (score r tokens i n) /\ SFltb (score r tokens i n) (f64_of 0) = false /\ SFltb (f64_of 2) (score r tokens i n) = false.
Proof.
  intros Hi Hn Ht. unfold compute_memory_retrieval_score. set (x := match tokens with [] => _ | _ => _ end).
  assert (signed false x) as Hx; [|].
  - assert (signed false (f64_mul (recency_score i n) (decimal 3 10))) as H1.
    { apply f64_mul_signed; [|done]. unfold recency_score. destruct (n <=? 1) eqn:Hn1; bool_hyps; [done|].
      apply f64_clamp_proper; [done|]. apply f64_sub_number; [done|]. apply f64_ratio_signed; lia. }
    subst x. set (y := if has_text _ then _ else _). assert (signed false y) as H2.
    { subst y. destruct (has_text _); [|done]. by apply f64_add_signed. }
    destruct tokens as [|tok tokens]; [done|]. apply f64_add_signed; [done|].
    set (hits := countb _ _). pose proof (countb_nonneg (fun token => contains token (haystack json_to_string r)) (tok :: tokens)) as Hc.
    pose proof (countb_le (fun token => contains token (haystack json_to_string r)) (tok :: tokens)) as Hc'.
    fold hits in Hc, Hc'. pose proof (f64_ratio_signed hits (Z.of_nat (length (tok :: tokens))) ltac:(lia) ltac:(cbn in *; lia)) as Hr.
    unfold f64_mul, SFmul. destruct (f64_div _ _) as [s|[]| |[] m e]; try done. cbn [xorb]. by apply binary_round_aux_signed.
  - assert (proper (f64_clamp (f64_of 0) (f64_of 2) x)) as Hp by (apply f64_clamp_proper; [done|]; by destruct x).
    split; [done|]. destruct (f64_clamp_range (f64_of 2) x eq_refl Hp) as [Hlo Hhi]. by split; [|apply Hhi].
Qed.

(** ** Lexicographic keys *)

Fixpoint lex (a b : list Z) : comparison :=
  match a, b with
  | x :: a', y :: b' => match x ?= y with Eq => lex a' b' | c => c end
  | [], [] => Eq
  | [], _ :: _ => Lt
  | _ :: _, [] => Gt
  end.

Lemma lex_antisym a b : lex b a = CompOpp (lex a b).
Proof.
  revert b. induction a as [|x a IH]; intros [|y b]; try done. cbn. rewrite (Z.compare_antisym x y).
  destruct (x ?= y); cbn; auto.
Qed.

Lemma lex_trans a b c : lex a b <> Gt -> lex b c <> Gt -> lex a c <> Gt.
Proof.
  revert b c. induction a as [|x a IH]; intros [|y b] [|z c]; cbn; try done.
  destruct (Z.compare_spec x y), (Z.compare_spec y z), (Z.compare_spec x z); try done; try lia. subst. apply IH.
Qed.

(** Finite doubles that are not negative compare by exponent and mantissa. *)
Definition f64_key (x : f64) : list Z :=
  match x with S754_finite _ m e => [1; e; Zpos m] | _ => [0; 0; 0] end.

Lemma SFcompare_key x y : proper x -> proper y -> SFcompare x y = Some (lex (f64_key x) (f64_key y)).
Proof.
  destruct x as [s| | |[] m e], y as [s'| | |[] m' e']; try done. intros _ _. cbn.
  destruct (e ?= e'); try done. change (Pos.compare_cont Eq m m') with (Pos.compare m m'). by destruct (Pos.compare m m').
Qed.

Definition rank_key (x : MemoryRecord * f64) : list Z := f64_key x.2 ++ [mm_created_at x.1; mm_id x.1].

Lemma lex_app a b c d : length a = length b -> lex (a ++ c) (b ++ d) = match lex a b with Eq => lex c d | o => o end.
Proof.
  revert b. induction a as [|x a IH]; intros [|y b] Hl; try done. cbn. destruct (x ?= y); [|done..]. apply IH. cbn in Hl. lia.
Qed.

Lemma rank_compare_key x y : proper x.2 -> proper y.2 -> rank_compare x y = lex (rank_key y) (rank_key x).
Proof.
  intros Hx Hy. unfold rank_compare, rank_key. rewrite (SFcompare_key _ _ Hy Hx), lex_app.
  - cbn. destruct (lex _ _); try done. destruct (_ ?= _); try done. by destruct (_ ?= _).
  - by destruct x.2, y.2.
Qed.

Lemma rank_total x y : proper x.2 -> proper y.2 -> ranks_before x y = false -> ranks_before y x = true.
Proof.
  intros Hx Hy. unfold ranks_before. rewrite !rank_compare_key by done. rewrite (lex_antisym (rank_key x) (rank_key y)).
  by destruct (lex (rank_key x) (rank_key y)).
Qed.

Lemma rank_trans x y z : proper x.2 -> proper y.2 -> proper z.2 ->
  ranks_before x y = true -> ranks_before y z = true -> ranks_before x z = true.
Proof.
  intros Hx Hy Hz. unfold ranks_before. rewrite !rank_compare_key by done.
  pose proof (lex_trans (rank_key z) (rank_key y) (rank_key x)) as H.
  destruct (lex (rank_key y) (rank_key x)); try done; destruct (lex (rank_key z) (rank_key y)); try done; intros _ _;
    by destruct (lex (rank_key z) (rank_key x)); try done; exfalso; apply H.
Qed.

(** ** The ranking *)

(** [.filter(score >= threshold).take(limit)] after the sort. *)
Definition rank_memory (query_tokens : list string) (min_score : option f64) (lim : Z) (rows : list MemoryRecord)
    : list (MemoryRecord * f64) :=
  let min_score := f64_clamp (f64_of 0) (f64_of 2) <$> min_score in
  limit lim (List.filter (fun x => unless_null min_score (fun threshold => SFleb threshold x.2))
               (order_by ranks_before (scored json_to_string query_tokens rows))).

Lemma elem_of_scored tokens rows x : x ∈ scored json_to_string tokens rows ->
  exists i, rows !! i = Some x.1 /\ x.2 = score x.1 tokens (Z.of_nat i) (Z.max (Z.of_nat (length rows)) 1).
Proof. unfold scored. intros (i & r & -> & Hr)%elem_of_lookup_imap. by exists i. Qed.

Lemma filterb_sorted {A} (R : A -> A -> Prop) p l : StronglySorted R l -> StronglySorted R (List.filter p l).
Proof.
  induction 1 as [|x l Hl IH Hx]; cbn; [constructor|]. destruct (p x); [|done]. constructor; [done|].
  rewrite Forall_forall in *. intros y [Hy _]%elem_of_filterb. by apply Hx.
Qed.

Lemma take_sorted {A} (R : A -> A -> Prop) n l : StronglySorted R l -> StronglySorted R (take n l).
Proof.
  intros H. revert n. induction H as [|x l Hl IH Hx]; intros [|n]; cbn; try constructor; [apply IH|]. by apply Forall_take.
Qed.

Context (tokens : list string) (rows : list MemoryRecord).
Context (Htokens : Z.of_nat (length tokens) < 2 ^ 64) (Hrows : Z.of_nat (length rows) < 2 ^ 64).

Lemma scored_proper x : x ∈ scored json_to_string tokens rows ->
  x.1 ∈ rows /\ proper x.2 /\ SFltb x.2 (f64_of 0) = false /\ SFltb (f64_of 2) x.2 = false.
Proof.
  intros (i & Hi & ->)%elem_of_scored. split; [by apply list_elem_of_lookup_2 in Hi|].
  apply lookup_lt_Some in Hi. apply score_in_range; lia.
Qed.

Lemma rank_memory_spec min_score lim : let l := rank_memory tokens min_score lim rows in
  StronglySorted (fun x y => ranks_before x y = true) l /\ Z.of_nat (length l) <= Z.max 0 lim /\
  forall x, x ∈ l -> x.1 ∈ rows /\ proper x.2 /\ SFltb x.2 (f64_of 0) = false /\ SFltb (f64_of 2) x.2 = false /\
    forall threshold, min_score = Some threshold -> SFleb (f64_clamp (f64_of 0) (f64_of 2) threshold) x.2 = true.
Proof.
  cbn zeta. split_and!.
  - apply take_sorted, filterb_sorted, (order_by_sorted_on _ (fun x => proper x.2)).
    + intros x y. apply rank_total.
    + intros x y z. apply rank_trans.
    + apply Forall_forall. intros x Hx. by apply scored_proper in Hx as (_ & ? & _).
  - apply limit_length.
  - intros x [Hx Hmin]%elem_of_limit%elem_of_filterb. rewrite elem_of_order_by in Hx.
    apply scored_proper in Hx as (H1 & H2 & H3 & H4). split_and!; try done. intros threshold ->. exact Hmin.
Qed.
End order.
