(* ===== verification/Tables.v ===== *)
(** The tables a claimed run writes while it executes: steps, action requests and
    results, audit events and artifacts (core/src/db.rs, db_dual.rs,
    db_worker_dual.rs).  Each function is one autocommitted statement; [now] is
    the time of the database.  The SQLite functions bind the same values to the
    same statements (identifiers and JSON as text); they differ in the time they
    store. *)
From S2P Require Import Prelude RustStr Json Sql Runs RunQueue Scheduler Siem TriggerTables LlmTables MemoryTables.

(** * Rows *)

Record NewStep := {
  ns_id : Uuid; ns_run_id : Uuid; ns_tenant_id : string; ns_agent_id : Uuid;
  ns_user_id : option Uuid; ns_name : string; ns_status : string; ns_input_json : json;
  ns_error_json : option json;
}.

Record step := {
  st_id : Uuid; st_run_id : Uuid; st_tenant_id : string; st_agent_id : Uuid;
  st_user_id : option Uuid; st_name : string; st_status : string; st_input_json : json;
  st_output_json : option json; st_error_json : option json; st_created_at : Z;
  st_finished_at : option Z;
}.

Record StepRecord := {
  sr_id : Uuid; sr_run_id : Uuid; sr_tenant_id : string; sr_agent_id : Uuid;
  sr_user_id : option Uuid; sr_name : string; sr_status : string; sr_created_at : Z;
}.

Record NewActionRequest := {
  na_id : Uuid; na_step_id : Uuid; na_action_type : string; na_args_json : json;
  na_justification : option string; na_status : string; na_decision_reason : option string;
}.

Record action_request := {
  aq_id : Uuid; aq_step_id : Uuid; aq_action_type : string; aq_args_json : json;
  aq_justification : option string; aq_status : string; aq_decision_reason : option string;
  aq_created_at : Z;
}.

Record NewActionResult := {
  nr_id : Uuid; nr_action_request_id : Uuid; nr_status : string; nr_result_json : option json;
  nr_error_json : option json;
}.

Record action_result := {
  ac_id : Uuid; ac_action_request_id : Uuid; ac_status : string; ac_result_json : option json;
  ac_error_json : option json; ac_executed_at : Z;
}.

Record NewAuditEvent := {
  ne_id : Uuid; ne_run_id : Uuid; ne_step_id : option Uuid; ne_tenant_id : string;
  ne_agent_id : option Uuid; ne_user_id : option Uuid; ne_actor : string; ne_event_type : string;
  ne_payload_json : json;
}.

Record audit_event := { ae_event : NewAuditEvent; ae_created_at : Z }.

Record NewArtifact := {
  nf_id : Uuid; nf_run_id : Uuid; nf_path : string; nf_content_type : string;
  nf_size_bytes : Z; nf_checksum : option string; nf_storage_ref : string;
}.

Record artifact := { af_new : NewArtifact; af_created_at : Z }.

Record NewPaymentRequest := {
  np_id : Uuid; np_action_request_id : Uuid; np_run_id : Uuid; np_tenant_id : string;
  np_agent_id : Uuid; np_provider : string; np_operation : string; np_destination : string;
  np_idempotency_key : string; np_amount_msat : option Z; np_request_json : json;
  np_status : string;
}.

Record PaymentRequestRecord := {
  pq_id : Uuid; pq_action_request_id : Uuid; pq_run_id : Uuid; pq_tenant_id : string;
  pq_agent_id : Uuid; pq_provider : string; pq_operation : string; pq_destination : string;
  pq_idempotency_key : string; pq_amount_msat : option Z; pq_request_json : json;
  pq_status : string; pq_created_at : Z; pq_updated_at : Z;
}.

Record NewPaymentResult := {
  ny_id : Uuid; ny_payment_request_id : Uuid; ny_status : string; ny_result_json : option json;
  ny_error_json : option json;
}.

Record PaymentResultRecord := { py_result : NewPaymentResult; py_created_at : Z }.

Record db := {
  d_core : run_db;
  d_steps : list step;
  d_action_requests : list action_request;
  d_action_results : list action_result;
  d_audit_events : list audit_event;
  d_artifacts : list artifact;
  d_siem : list siem_record;
  d_leases : list scheduler_lease;
  d_payment_requests : list PaymentRequestRecord;
  d_payment_results : list PaymentResultRecord;
  d_triggers : trigger_tables;
  d_llm : llm_tables;
  d_memory : memory_tables;
}.

Definition with_core (d : db) (c : run_db) : db :=
  {| d_core := c; d_steps := d_steps d; d_action_requests := d_action_requests d;
     d_action_results := d_action_results d; d_audit_events := d_audit_events d;
     d_artifacts := d_artifacts d; d_siem := d_siem d;
     d_leases := d_leases d;
     d_payment_requests := d_payment_requests d; d_payment_results := d_payment_results d;
     d_triggers := d_triggers d; d_llm := d_llm d; d_memory := d_memory d |}.

Definition with_rows (d : db) (rows : list run) : db :=
  with_core d {| db_agents := db_agents (d_core d); db_users := db_users (d_core d);
                 db_runs := rows |}.

Definition with_steps (d : db) (l : list step) : db :=
  {| d_core := d_core d; d_steps := l; d_action_requests := d_action_requests d;
     d_action_results := d_action_results d; d_audit_events := d_audit_events d;
     d_artifacts := d_artifacts d; d_siem := d_siem d;
     d_leases := d_leases d;
     d_payment_requests := d_payment_requests d; d_payment_results := d_payment_results d;
     d_triggers := d_triggers d; d_llm := d_llm d; d_memory := d_memory d |}.

Definition with_action_requests (d : db) (l : list action_request) : db :=
  {| d_core := d_core d; d_steps := d_steps d; d_action_requests := l;
     d_action_results := d_action_results d; d_audit_events := d_audit_events d;
     d_artifacts := d_artifacts d; d_siem := d_siem d;
     d_leases := d_leases d;
     d_payment_requests := d_payment_requests d; d_payment_results := d_payment_results d;
     d_triggers := d_triggers d; d_llm := d_llm d; d_memory := d_memory d |}.

Definition with_action_results (d : db) (l : list action_result) : db :=
  {| d_core := d_core d; d_steps := d_steps d; d_action_requests := d_action_requests d;
     d_action_results := l; d_audit_events := d_audit_events d; d_artifacts := d_artifacts d; d_siem := d_siem d;
     d_leases := d_leases d;
     d_payment_requests := d_payment_requests d; d_payment_results := d_payment_results d;
     d_triggers := d_triggers d; d_llm := d_llm d; d_memory := d_memory d |}.

Definition with_audit_events (d : db) (l : list audit_event) : db :=
  {| d_core := d_core d; d_steps := d_steps d; d_action_requests := d_action_requests d;
     d_action_results := d_action_results d; d_audit_events := l; d_artifacts := d_artifacts d; d_siem := d_siem d;
     d_leases := d_leases d;
     d_payment_requests := d_payment_requests d; d_payment_results := d_payment_results d;
     d_triggers := d_triggers d; d_llm := d_llm d; d_memory := d_memory d |}.

Definition with_artifacts (d : db) (l : list artifact) : db :=
  {| d_core := d_core d; d_steps := d_steps d; d_action_requests := d_action_requests d;
     d_action_results := d_action_results d; d_audit_events := d_audit_events d;
     d_artifacts := l; d_siem := d_siem d; d_leases := d_leases d;
     d_payment_requests := d_payment_requests d; d_payment_results := d_payment_results d;
     d_triggers := d_triggers d; d_llm := d_llm d; d_memory := d_memory d |}.

Definition with_siem (d : db) (l : list siem_record) : db :=
  {| d_core := d_core d; d_steps := d_steps d; d_action_requests := d_action_requests d;
     d_action_results := d_action_results d; d_audit_events := d_audit_events d;
     d_artifacts := d_artifacts d; d_siem := l; d_leases := d_leases d;
     d_payment_requests := d_payment_requests d; d_payment_results := d_payment_results d;
     d_triggers := d_triggers d; d_llm := d_llm d; d_memory := d_memory d |}.

Definition with_leases (d : db) (l : list scheduler_lease) : db :=
  {| d_core := d_core d; d_steps := d_steps d; d_action_requests := d_action_requests d;
     d_action_results := d_action_results d; d_audit_events := d_audit_events d;
     d_artifacts := d_artifacts d; d_siem := d_siem d; d_leases := l;
     d_payment_requests := d_payment_requests d; d_payment_results := d_payment_results d;
     d_triggers := d_triggers d; d_llm := d_llm d; d_memory := d_memory d |}.

Definition with_payments (d : db) (requests : list PaymentRequestRecord)
    (results : list PaymentResultRecord) : db :=
  {| d_core := d_core d; d_steps := d_steps d; d_action_requests := d_action_requests d;
     d_action_results := d_action_results d; d_audit_events := d_audit_events d;
     d_artifacts := d_artifacts d; d_siem := d_siem d; d_leases := d_leases d;
     d_payment_requests := requests; d_payment_results := results; d_triggers := d_triggers d; d_llm := d_llm d; d_memory := d_memory d |}.

Definition with_triggers (d : db) (t : trigger_tables) : db :=
  {| d_core := d_core d; d_steps := d_steps d; d_action_requests := d_action_requests d;
     d_action_results := d_action_results d; d_audit_events := d_audit_events d;
     d_artifacts := d_artifacts d; d_siem := d_siem d; d_leases := d_leases d;
     d_payment_requests := d_payment_requests d; d_payment_results := d_payment_results d;
     d_triggers := t; d_llm := d_llm d; d_memory := d_memory d |}.

Definition with_llm (d : db) (t : llm_tables) : db :=
  {| d_core := d_core d; d_steps := d_steps d; d_action_requests := d_action_requests d;
     d_action_results := d_action_results d; d_audit_events := d_audit_events d;
     d_artifacts := d_artifacts d; d_siem := d_siem d; d_leases := d_leases d;
     d_payment_requests := d_payment_requests d; d_payment_results := d_payment_results d;
     d_triggers := d_triggers d; d_llm := t; d_memory := d_memory d |}.

Definition with_memory (d : db) (t : memory_tables) : db :=
  {| d_core := d_core d; d_steps := d_steps d; d_action_requests := d_action_requests d;
     d_action_results := d_action_results d; d_audit_events := d_audit_events d;
     d_artifacts := d_artifacts d; d_siem := d_siem d; d_leases := d_leases d;
     d_payment_requests := d_payment_requests d; d_payment_results := d_payment_results d;
     d_triggers := d_triggers d; d_llm := d_llm d; d_memory := t |}.

(** The tables that the transactions on triggers work on. *)
Definition trigger_db (d : db) : tdb := {| tb_core := d_core d; tb_tables := d_triggers d |}.

Definition with_trigger_db (d : db) (s : tdb) : db := with_triggers (with_core d (tb_core s)) (tb_tables s).

(** * Constraints *)

(** A [CHECK], [UNIQUE] or [REFERENCES] clause: fails with its error. *)
Definition require (b : bool) (e : db_error) : result unit db_error :=
  if b then Ok tt else Err e.

Definition run_exists (id : Uuid) (d : db) : bool :=
  existsb (fun r => r_id r =? id) (db_runs (d_core d)).
Definition agent_exists (id : Uuid) (d : db) : bool := bool_decide (id ∈ db_agents (d_core d)).
Definition user_exists (id : Uuid) (d : db) : bool := bool_decide (id ∈ db_users (d_core d)).
Definition opt_exists (p : Uuid -> db -> bool) (id : option Uuid) (d : db) : bool :=
  match id with None => true | Some i => p i d end.
Definition step_exists (id : Uuid) (d : db) : bool := existsb (fun s => st_id s =? id) (d_steps d).
Definition request_exists (id : Uuid) (d : db) : bool :=
  existsb (fun a => aq_id a =? id) (d_action_requests d).

Definition step_statuses : list string := ["queued"; "running"; "succeeded"; "failed"; "skipped"].
Definition request_statuses : list string :=
  ["requested"; "allowed"; "denied"; "executed"; "failed"].
Definition result_statuses : list string := ["executed"; "failed"; "denied"].

(** * Steps *)

Definition step_record (s : step) : StepRecord :=
  {| sr_id := st_id s; sr_run_id := st_run_id s; sr_tenant_id := st_tenant_id s;
     sr_agent_id := st_agent_id s; sr_user_id := st_user_id s; sr_name := st_name s;
     sr_status := st_status s; sr_created_at := st_created_at s |}.

Definition create_step (now : Z) (n : NewStep) (d : db) : result (db * StepRecord) db_error :=
  let? _ := require (str_in (ns_status n) step_statuses) CheckViolation in
  let? _ := require (negb (step_exists (ns_id n) d)) UniqueViolation in
  let? _ := require (run_exists (ns_run_id n) d && agent_exists (ns_agent_id n) d &&
                     opt_exists user_exists (ns_user_id n) d) ForeignKeyViolation in
  let row := {| st_id := ns_id n; st_run_id := ns_run_id n; st_tenant_id := ns_tenant_id n;
                st_agent_id := ns_agent_id n; st_user_id := ns_user_id n; st_name := ns_name n;
                st_status := ns_status n; st_input_json := ns_input_json n;
                st_output_json := None; st_error_json := ns_error_json n;
                st_created_at := now; st_finished_at := None |} in
  Ok (with_steps d (d_steps d ++ [row]), step_record row).

(** [WHERE id = $1 AND status IN ('queued', 'running')] *)
Definition open_step (id : Uuid) (s : step) : bool :=
  (st_id s =? id) && str_in (st_status s) ["queued"; "running"].

Definition finish_step (status : string) (now : Z) (output error : option json) (s : step) : step :=
  {| st_id := st_id s; st_run_id := st_run_id s; st_tenant_id := st_tenant_id s;
     st_agent_id := st_agent_id s; st_user_id := st_user_id s; st_name := st_name s;
     st_status := status; st_input_json := st_input_json s; st_output_json := output;
     st_error_json := error; st_created_at := st_created_at s; st_finished_at := Some now |}.

Definition mark_step_succeeded (now : Z) (id : Uuid) (output : json) (d : db) : db * bool :=
  let '(steps, n) := update_where (open_step id)
    (fun s => finish_step "succeeded" now (Some output) (st_error_json s) s) (d_steps d) in
  (with_steps d steps, n =? 1).

Definition mark_step_failed (now : Z) (id : Uuid) (error : json) (d : db) : db * bool :=
  let '(steps, n) := update_where (open_step id)
    (fun s => finish_step "failed" now (st_output_json s) (Some error) s) (d_steps d) in
  (with_steps d steps, n =? 1).

(** * Action requests and results *)

Definition create_action_request (now : Z) (n : NewActionRequest) (d : db) : result db db_error :=
  let? _ := require (str_in (na_status n) request_statuses) CheckViolation in
  let? _ := require (negb (request_exists (na_id n) d)) UniqueViolation in
  let? _ := require (step_exists (na_step_id n) d) ForeignKeyViolation in
  Ok (with_action_requests d (d_action_requests d ++
        [{| aq_id := na_id n; aq_step_id := na_step_id n; aq_action_type := na_action_type n;
            aq_args_json := na_args_json n; aq_justification := na_justification n;
            aq_status := na_status n; aq_decision_reason := na_decision_reason n;
            aq_created_at := now |}])).

Definition set_request_status (status : string) (reason : option string) (a : action_request)
    : action_request :=
  {| aq_id := aq_id a; aq_step_id := aq_step_id a; aq_action_type := aq_action_type a;
     aq_args_json := aq_args_json a; aq_justification := aq_justification a;
     aq_status := status; aq_decision_reason := reason; aq_created_at := aq_created_at a |}.

(** The [CHECK] on the status only fails when a row matches. *)
Definition update_action_request_status (id : Uuid) (status : string) (reason : option string)
    (d : db) : result (db * bool) db_error :=
  let '(rows, n) := update_where (fun a => aq_id a =? id) (set_request_status status reason)
                      (d_action_requests d) in
  let? _ := require ((n =? 0) || str_in status request_statuses) CheckViolation in
  Ok (with_action_requests d rows, n =? 1).

(** [INSERT ... ON CONFLICT (action_request_id) DO UPDATE] *)
Definition create_action_result (now : Z) (n : NewActionResult) (d : db) : result db db_error :=
  let same := fun a => ac_action_request_id a =? nr_action_request_id n in
  let? _ := require (str_in (nr_status n) result_statuses) CheckViolation in
  if existsb same (d_action_results d) then
    Ok (with_action_results d
          (update_where same
             (fun a => {| ac_id := ac_id a; ac_action_request_id := ac_action_request_id a;
                          ac_status := nr_status n; ac_result_json := nr_result_json n;
                          ac_error_json := nr_error_json n; ac_executed_at := now |})
             (d_action_results d)).1)
  else
    let? _ := require (negb (existsb (fun a => ac_id a =? nr_id n) (d_action_results d)))
                UniqueViolation in
    let? _ := require (request_exists (nr_action_request_id n) d) ForeignKeyViolation in
    Ok (with_action_results d (d_action_results d ++
          [{| ac_id := nr_id n; ac_action_request_id := nr_action_request_id n;
              ac_status := nr_status n; ac_result_json := nr_result_json n;
              ac_error_json := nr_error_json n; ac_executed_at := now |}])).

(** * Audit events and artifacts *)

Definition append_audit_event (now : Z) (n : NewAuditEvent) (d : db) : result db db_error :=
  let? _ := require (negb (existsb (fun e => ne_id (ae_event e) =? ne_id n) (d_audit_events d)))
              UniqueViolation in
  let? _ := require (run_exists (ne_run_id n) d && opt_exists step_exists (ne_step_id n) d &&
                     opt_exists agent_exists (ne_agent_id n) d &&
                     opt_exists user_exists (ne_user_id n) d) ForeignKeyViolation in
  Ok (with_audit_events d (d_audit_events d ++ [{| ae_event := n; ae_created_at := now |}])).

(** The unique index [idx_artifacts_run_path]. *)
Definition same_artifact_path (run_id : Uuid) (path : string) (a : artifact) : bool :=
  (nf_run_id (af_new a) =? run_id) && String.eqb (nf_path (af_new a)) path.

Definition persist_artifact_metadata (now : Z) (n : NewArtifact) (d : db)
    : result (db * NewArtifact) db_error :=
  let? _ := require (negb (existsb (fun a => nf_id (af_new a) =? nf_id n) (d_artifacts d)) &&
                     negb (existsb (same_artifact_path (nf_run_id n) (nf_path n)) (d_artifacts d)))
              UniqueViolation in
  let? _ := require (run_exists (nf_run_id n) d) ForeignKeyViolation in
  Ok (with_artifacts d (d_artifacts d ++ [{| af_new := n; af_created_at := now |}]), n).

(** * SQLite and the dispatchers *)

(** The step functions bind the process clock instead of calling [now()]; the
    audit event binds it as [created_at]; the other tables use the column
    default. *)
Definition create_step_sqlite (now : Z) (n : NewStep) (d : db) : result (db * StepRecord) db_error :=
  create_step now n d.
Definition mark_step_succeeded_sqlite (now : Z) (id : Uuid) (output : json) (d : db) : db * bool :=
  mark_step_succeeded now id output d.
Definition mark_step_failed_sqlite (now : Z) (id : Uuid) (error : json) (d : db) : db * bool :=
  mark_step_failed now id error d.
Definition append_audit_event_sqlite (now : Z) (n : NewAuditEvent) (d : db) : result db db_error :=
  append_audit_event now n d.
Definition create_action_request_sqlite (now : Z) (n : NewActionRequest) (d : db)
    : result db db_error :=
  create_action_request (current_timestamp now) n d.
Definition update_action_request_status_sqlite (id : Uuid) (status : string) (reason : option string)
    (d : db) : result (db * bool) db_error :=
  update_action_request_status id status reason d.
Definition create_action_result_sqlite (now : Z) (n : NewActionResult) (d : db) : result db db_error :=
  create_action_result (current_timestamp now) n d.
Definition persist_artifact_metadata_sqlite (now : Z) (n : NewArtifact) (d : db)
    : result (db * NewArtifact) db_error :=
  persist_artifact_metadata (current_timestamp now) n d.

Section dual.
Context (pool : DbPool).

(** [match pool { Postgres(pg) => .., Sqlite(sqlite) => .. }] *)
Definition by_pool {A} (pg sqlite : A) : A :=
  match pool with Postgres _ _ => pg | Sqlite _ => sqlite end.

Definition create_step_dual : Z -> NewStep -> db -> result (db * StepRecord) db_error :=
  by_pool create_step create_step_sqlite.
Definition mark_step_succeeded_dual : Z -> Uuid -> json -> db -> db * bool :=
  by_pool mark_step_succeeded mark_step_succeeded_sqlite.
Definition mark_step_failed_dual : Z -> Uuid -> json -> db -> db * bool :=
  by_pool mark_step_failed mark_step_failed_sqlite.
Definition append_audit_event_dual : Z -> NewAuditEvent -> db -> result db db_error :=
  by_pool append_audit_event append_audit_event_sqlite.
Definition create_action_request_dual : Z -> NewActionRequest -> db -> result db db_error :=
  by_pool create_action_request create_action_request_sqlite.
Definition update_action_request_status_dual
    : Uuid -> string -> option string -> db -> result (db * bool) db_error :=
  by_pool update_action_request_status update_action_request_status_sqlite.
Definition create_action_result_dual : Z -> NewActionResult -> db -> result db db_error :=
  by_pool create_action_result create_action_result_sqlite.
Definition persist_artifact_metadata_dual
    : Z -> NewArtifact -> db -> result (db * NewArtifact) db_error :=
  by_pool persist_artifact_metadata persist_artifact_metadata_sqlite.
End dual.

Lemma append_audit_triggers pool now n d d' :
  append_audit_event_dual pool now n d = Ok d' -> d_triggers d' = d_triggers d.
Proof.
  unfold append_audit_event_dual, by_pool, append_audit_event_sqlite, append_audit_event.
  destruct pool; (destruct (require _ UniqueViolation); [|done]);
    (destruct (require _ ForeignKeyViolation); [|done]); by intros [= <-].
Qed.

Lemma append_audit_core pool now n d d' :
  append_audit_event_dual pool now n d = Ok d' -> d_core d' = d_core d.
Proof.
  unfold append_audit_event_dual, by_pool, append_audit_event_sqlite, append_audit_event.
  destruct pool; (destruct (require _ UniqueViolation); [|done]);
    (destruct (require _ ForeignKeyViolation); [|done]); by intros [= <-].
Qed.
