(* ===== verification/PaymentTables.v ===== *)
(** The payment ledger (core/src/db.rs, db_worker_dual.rs; migrations 0007 and
    0016): requests, of which a tenant has one per idempotency key, and their
    results.  The SQLite schema has no [CHECK] on the key and the amount. *)
From S2P Require Import Prelude RustStr Json Sql Runs RunQueue Tables.

(** * Requests *)

Definition payment_operations : list string := ["pay_invoice"; "make_invoice"; "get_balance"].
Definition payment_providers : list string := ["nwc"; "cashu"].

(** The [CHECK]s both schemas share, and those of PostgreSQL. *)
Definition known_rail (n : NewPaymentRequest) : bool :=
  str_in (np_provider n) payment_providers && str_in (np_operation n) payment_operations.

Definition key_and_amount_ok (n : NewPaymentRequest) : bool :=
  negb (is_empty (np_idempotency_key n)) &&
  match np_amount_msat n with None => true | Some a => 0 <=? a end.

Definition payment_row (now : Z) (n : NewPaymentRequest) : PaymentRequestRecord :=
  {| pq_id := np_id n; pq_action_request_id := np_action_request_id n; pq_run_id := np_run_id n;
     pq_tenant_id := np_tenant_id n; pq_agent_id := np_agent_id n; pq_provider := np_provider n;
     pq_operation := np_operation n; pq_destination := np_destination n;
     pq_idempotency_key := np_idempotency_key n; pq_amount_msat := np_amount_msat n;
     pq_request_json := np_request_json n; pq_status := np_status n; pq_created_at := now;
     pq_updated_at := now |}.

(** [WHERE tenant_id = $4 AND idempotency_key = $9] *)
Definition has_payment_key (tenant_id key : string) (r : PaymentRequestRecord) : bool :=
  String.eqb (pq_tenant_id r) tenant_id && String.eqb (pq_idempotency_key r) key.

(** [INSERT .. ON CONFLICT (tenant_id, idempotency_key) DO NOTHING], then the row
    with the key. *)
Definition insert_or_get (now : Z) (n : NewPaymentRequest) (d : db)
    : result (db * PaymentRequestRecord) db_error :=
  match List.find (has_payment_key (np_tenant_id n) (np_idempotency_key n)) (d_payment_requests d) with
  | Some r => Ok (d, r)
  | None =>
      let? _ := require (negb (existsb (fun r => (pq_id r =? np_id n) ||
                    (pq_action_request_id r =? np_action_request_id n)) (d_payment_requests d)))
                  UniqueViolation in
      let? _ := require (request_exists (np_action_request_id n) d && run_exists (np_run_id n) d &&
                         agent_exists (np_agent_id n) d) ForeignKeyViolation in
      let row := payment_row now n in
      Ok (with_payments d (d_payment_requests d ++ [row]) (d_payment_results d), row)
  end.

Definition create_or_get_payment_request (now : Z) (n : NewPaymentRequest) (d : db)
    : result (db * PaymentRequestRecord) db_error :=
  let? _ := require (known_rail n && key_and_amount_ok n) CheckViolation in
  insert_or_get now n d.

Definition create_or_get_payment_request_sqlite (now : Z) (n : NewPaymentRequest) (d : db)
    : result (db * PaymentRequestRecord) db_error :=
  let? _ := require (known_rail n) CheckViolation in
  insert_or_get (current_timestamp now) n d.

Definition set_payment_status (status : string) (now : Z) (r : PaymentRequestRecord)
    : PaymentRequestRecord :=
  {| pq_id := pq_id r; pq_action_request_id := pq_action_request_id r; pq_run_id := pq_run_id r;
     pq_tenant_id := pq_tenant_id r; pq_agent_id := pq_agent_id r; pq_provider := pq_provider r;
     pq_operation := pq_operation r; pq_destination := pq_destination r;
     pq_idempotency_key := pq_idempotency_key r; pq_amount_msat := pq_amount_msat r;
     pq_request_json := pq_request_json r; pq_status := status; pq_created_at := pq_created_at r;
     pq_updated_at := now |}.

Definition update_payment_request_status (now : Z) (id : Uuid) (status : string) (d : db)
    : db * bool :=
  let '(rows, n) := update_where (fun r => pq_id r =? id) (set_payment_status status now)
                      (d_payment_requests d) in
  (with_payments d rows (d_payment_results d), n =? 1).

Definition update_payment_request_status_sqlite (now : Z) (id : Uuid) (status : string) (d : db)
    : db * bool :=
  update_payment_request_status (current_timestamp now) id status d.

(** * Results *)

Definition create_payment_result (now : Z) (n : NewPaymentResult) (d : db)
    : result (db * PaymentResultRecord) db_error :=
  let? _ := require (negb (existsb (fun r => ny_id (py_result r) =? ny_id n) (d_payment_results d)))
              UniqueViolation in
  let? _ := require (existsb (fun r => pq_id r =? ny_payment_request_id n) (d_payment_requests d))
              ForeignKeyViolation in
  let row := {| py_result := n; py_created_at := now |} in
  Ok (with_payments d (d_payment_requests d) (d_payment_results d ++ [row]), row).

Definition create_payment_result_sqlite (now : Z) (n : NewPaymentResult) (d : db)
    : result (db * PaymentResultRecord) db_error :=
  create_payment_result (current_timestamp now) n d.

(** [ORDER BY created_at DESC, id DESC] *)
Definition latest_first (key : Z -> Z) (a b : PaymentResultRecord) : bool :=
  (key (py_created_at b) <? key (py_created_at a)) ||
  ((key (py_created_at b) =? key (py_created_at a)) &&
   (ny_id (py_result b) <=? ny_id (py_result a))).

Definition latest_payment_result (key : Z -> Z) (id : Uuid) (d : db) : option PaymentResultRecord :=
  head (order_by (latest_first key)
    (List.filter (fun r => ny_payment_request_id (py_result r) =? id) (d_payment_results d))).

Definition get_latest_payment_result (id : Uuid) (d : db) : option PaymentResultRecord :=
  latest_payment_result (fun t => t) id d.

(** [ORDER BY datetime(created_at)] compares seconds. *)
Definition get_latest_payment_result_sqlite (id : Uuid) (d : db) : option PaymentResultRecord :=
  latest_payment_result (fun t => t / 1000000) id d.

(** * Spending *)

(** [operation = 'pay_invoice' AND status = 'executed'] *)
Definition executed_payment (r : PaymentRequestRecord) : bool :=
  String.eqb (pq_operation r) "pay_invoice" && String.eqb (pq_status r) "executed".

(** [COALESCE(SUM(amount_msat), 0)] as a 64-bit integer. *)
Definition sum_amounts (rows : list PaymentRequestRecord) : Z :=
  foldr (fun r total => default 0 (pq_amount_msat r) + total) 0 rows.

Definition sum_i64 (rows : list PaymentRequestRecord) : result Z db_error :=
  let total := sum_amounts rows in
  let? _ := require ((- i64_max - 1 <=? total) && (total <=? i64_max)) OutOfRange in Ok total.

Definition tenant_payments (tenant_id : string) (d : db) : list PaymentRequestRecord :=
  List.filter (fun r => String.eqb (pq_tenant_id r) tenant_id && executed_payment r)
    (d_payment_requests d).

Definition agent_payments (tenant_id : string) (agent_id : Uuid) (d : db) : list PaymentRequestRecord :=
  List.filter (fun r => String.eqb (pq_tenant_id r) tenant_id && (pq_agent_id r =? agent_id) &&
                        executed_payment r) (d_payment_requests d).

Definition sum_executed_payment_amount_msat_for_tenant (tenant_id : string) (d : db)
    : result Z db_error := sum_i64 (tenant_payments tenant_id d).

Definition sum_executed_payment_amount_msat_for_agent (tenant_id : string) (agent_id : Uuid) (d : db)
    : result Z db_error := sum_i64 (agent_payments tenant_id agent_id d).

(** The same statements, on the same columns. *)
Definition sum_executed_payment_amount_msat_for_tenant_sqlite (tenant_id : string) (d : db)
    : result Z db_error := sum_i64 (tenant_payments tenant_id d).

Definition sum_executed_payment_amount_msat_for_agent_sqlite (tenant_id : string) (agent_id : Uuid)
    (d : db) : result Z db_error := sum_i64 (agent_payments tenant_id agent_id d).

(** * Dispatchers *)

Section dual.
Context (pool : DbPool).

Definition create_or_get_payment_request_dual
    : Z -> NewPaymentRequest -> db -> result (db * PaymentRequestRecord) db_error :=
  by_pool pool create_or_get_payment_request create_or_get_payment_request_sqlite.
Definition create_payment_result_dual
    : Z -> NewPaymentResult -> db -> result (db * PaymentResultRecord) db_error :=
  by_pool pool create_payment_result create_payment_result_sqlite.
Definition get_latest_payment_result_dual : Uuid -> db -> option PaymentResultRecord :=
  by_pool pool get_latest_payment_result get_latest_payment_result_sqlite.
Definition sum_executed_payment_amount_msat_for_tenant_dual : string -> db -> result Z db_error :=
  by_pool pool sum_executed_payment_amount_msat_for_tenant
    sum_executed_payment_amount_msat_for_tenant_sqlite.
Definition sum_executed_payment_amount_msat_for_agent_dual
    : string -> Uuid -> db -> result Z db_error :=
  by_pool pool sum_executed_payment_amount_msat_for_agent
    sum_executed_payment_amount_msat_for_agent_sqlite.
Definition update_payment_request_status_dual : Z -> Uuid -> string -> db -> db * bool :=
  by_pool pool update_payment_request_status update_payment_request_status_sqlite.
End dual.
