(* ===== verification/PaymentRoutes.v ===== *)
(** Where a payment goes (worker/src/lib.rs): destinations and operations, the
    routes configured for a wallet or mint and the order in which they are tried,
    and the process-wide record of their health.  The hash of the standard
    library's [DefaultHasher], whose algorithm is unspecified, is an argument. *)
From S2P Require Import Prelude RustStr Json Sql.

(** * Destinations and operations *)

Inductive PaymentProvider := Nwc | Cashu.

Definition PaymentProvider_as_str (p : PaymentProvider) : string :=
  match p with Nwc => "nwc" | Cashu => "cashu" end.

Record ParsedPaymentDestination := { pd_provider : PaymentProvider; pd_target : string }.

Definition ParsedPaymentDestination_parse (raw : string) : result ParsedPaymentDestination string :=
  match split_once ":" raw with
  | None => Err "payment.send destination must be provider-scoped"
  | Some (provider_raw, target_raw) =>
      let name := to_ascii_lowercase (trim provider_raw) in
      match str_match name [(["nwc"], Nwc); (["cashu"], Cashu)] with
      | None => Err ("payment.send provider `" +:+ name +:+ "` is unsupported (expected nwc or cashu)")
      | Some provider =>
          let target := trim target_raw in
          if is_empty target
          then Err ("payment.send destination target must not be empty: " +:+ raw)
          else Ok {| pd_provider := provider; pd_target := target |}
      end
  end.

Inductive PaymentOperation := PayInvoice | MakeInvoice | GetBalance.

#[export] Instance PaymentOperation_eq_dec : EqDecision PaymentOperation.
Proof. solve_decision. Defined.

Definition PaymentOperation_parse (raw : string) : result PaymentOperation string :=
  let name := to_ascii_lowercase (trim raw) in
  match str_match name [(["pay_invoice"], PayInvoice); (["make_invoice"], MakeInvoice);
                        (["get_balance"], GetBalance)] with
  | Some o => Ok o
  | None => Err ("unsupported payment.send operation `" +:+ name +:+
                 "` (expected pay_invoice, make_invoice, get_balance)")
  end.

Definition PaymentOperation_as_str (o : PaymentOperation) : string :=
  match o with
  | PayInvoice => "pay_invoice" | MakeInvoice => "make_invoice" | GetBalance => "get_balance"
  end.

Definition requires_amount (o : PaymentOperation) : bool :=
  match o with PayInvoice | MakeInvoice => true | GetBalance => false end.

(** * Configuration *)

Inductive PaymentNwcRouteStrategy := Ordered | DeterministicHash.

Definition PaymentNwcRouteStrategy_as_str (s : PaymentNwcRouteStrategy) : string :=
  match s with Ordered => "ordered" | DeterministicHash => "deterministic_hash" end.

(** The [payment_*] fields of [WorkerConfig]; durations are in microseconds. *)
Record PaymentConfig := {
  pc_nwc_enabled : bool;
  pc_nwc_uri : option string;
  pc_nwc_wallet_uris : gmap string string;
  pc_nwc_timeout : Z;
  pc_nwc_route_strategy : PaymentNwcRouteStrategy;
  pc_nwc_route_fallback_enabled : bool;
  pc_nwc_route_rollout_percent : Z;
  pc_nwc_route_health_fail_threshold : Z;
  pc_nwc_route_health_cooldown : Z;
  pc_nwc_mock_balance_msat : Z;
  pc_cashu_enabled : bool;
  pc_cashu_mint_uris : gmap string string;
  pc_cashu_default_mint : option string;
  pc_cashu_timeout : Z;
  pc_cashu_max_spend_msat_per_run : option Z;
  pc_cashu_http_enabled : bool;
  pc_cashu_http_allow_insecure : bool;
  pc_cashu_auth_header : string;
  pc_cashu_auth_token : option string;
  pc_cashu_route_strategy : PaymentNwcRouteStrategy;
  pc_cashu_route_fallback_enabled : bool;
  pc_cashu_route_rollout_percent : Z;
  pc_cashu_route_health_fail_threshold : Z;
  pc_cashu_route_health_cooldown : Z;
  pc_cashu_mock_enabled : bool;
  pc_cashu_mock_balance_msat : Z;
  pc_max_spend_msat_per_run : option Z;
  pc_approval_threshold_msat : option Z;
  pc_max_spend_msat_per_tenant : option Z;
  pc_max_spend_msat_per_agent : option Z;
}.

(** * Candidate routes *)

Definition split_route_value (raw : string) : list string :=
  List.filter (fun value => negb (is_empty value)) (map trim (split_char (ascii_of_N 124) raw)).

(** [ResolvedNwcRoutes] and [ResolvedCashuRoutes] *)
Record ResolvedRoutes := { candidates : list string; rollout_limited : bool }.

Definition rotate_left {A} (k : nat) (l : list A) : list A := drop k l ++ take k l.

Section routes.
(** [DefaultHasher] over the two strings, as a 64-bit value. *)
Context (route_hash : string -> string -> Z).

Definition deterministic_route_offset (wallet_id idempotency_key : string) (route_count : Z) : Z :=
  if route_count =? 0 then 0
  else wrap_u64 (route_hash wallet_id idempotency_key) `mod` route_count.

Definition is_payment_route_rollout_enabled (wallet_id idempotency_key : string) (rollout_pct : Z)
    : bool :=
  if 100 <=? rollout_pct then true
  else if rollout_pct =? 0 then false
  else deterministic_route_offset wallet_id idempotency_key 100 <? rollout_pct.

(** The second half of both resolvers. *)
Definition order_candidates (strategy : PaymentNwcRouteStrategy) (rollout_percent : Z)
    (fallback_enabled : bool) (id idempotency_key : string) (routes : list string)
    : ResolvedRoutes :=
  if (length routes <=? 1)%nat then {| candidates := routes; rollout_limited := false |}
  else
    let routes :=
      match strategy with
      | DeterministicHash =>
          rotate_left (Z.to_nat (deterministic_route_offset id idempotency_key
                                   (Z.of_nat (length routes)))) routes
      | Ordered => routes
      end in
    let limited := (rollout_percent <? 100) &&
      negb (is_payment_route_rollout_enabled id idempotency_key rollout_percent) in
    let routes := if limited then take 1 routes else routes in
    {| candidates := if fallback_enabled then routes else take 1 routes;
       rollout_limited := limited |}.

Definition nwc_configured (c : PaymentConfig) (wallet_id : string) : list string :=
  let routes :=
    default [] (split_route_value <$>
      match pc_nwc_wallet_uris c !! wallet_id with
      | Some value => Some value
      | None => pc_nwc_wallet_uris c !! "*"
      end) in
  match routes with
  | [] => match pc_nwc_uri c ≫= non_empty_trimmed with
          | Some default_uri => [default_uri]
          | None => []
          end
  | _ => routes
  end.

Definition resolve_nwc_uris_for_wallet (c : PaymentConfig) (wallet_id idempotency_key : string)
    : ResolvedRoutes :=
  order_candidates (pc_nwc_route_strategy c) (pc_nwc_route_rollout_percent c)
    (pc_nwc_route_fallback_enabled c) wallet_id idempotency_key (nwc_configured c wallet_id).

Definition cashu_configured (c : PaymentConfig) (mint_id : string) : list string :=
  default [] (split_route_value <$>
    match pc_cashu_mint_uris c !! mint_id with
    | Some value => Some value
    | None =>
        match pc_cashu_default_mint c ≫= (fun m => pc_cashu_mint_uris c !! m) with
        | Some value => Some value
        | None => pc_cashu_mint_uris c !! "*"
        end
    end).

Definition resolve_cashu_mint_uris (c : PaymentConfig) (mint_id idempotency_key : string)
    : ResolvedRoutes :=
  order_candidates (pc_cashu_route_strategy c) (pc_cashu_route_rollout_percent c)
    (pc_cashu_route_fallback_enabled c) mint_id idempotency_key (cashu_configured c mint_id).
End routes.

(** * Route health *)

Record PaymentRouteHealthEntry := { consecutive_failures : Z; unhealthy_until : option Z }.

(** The contents of the mutex; it is never poisoned, since nothing panics while
    it is held. *)
Abbreviation route_health := (gmap string PaymentRouteHealthEntry).

Definition u32_max : Z := 2 ^ 32 - 1.

Definition payment_route_health_key (worker_id route_namespace wallet_id route_uri : string) : string :=
  worker_id +:+ "|" +:+ route_namespace +:+ "|" +:+ wallet_id +:+ "|" +:+ route_uri.

Definition should_attempt_payment_route (key : string) (fail_threshold cooldown now : Z)
    (routes : route_health) : route_health * bool :=
  if (fail_threshold =? 0) || (cooldown =? 0) then (routes, true)
  else match routes !! key with
       | None => (routes, true)
       | Some entry =>
           if match unhealthy_until entry with Some t => now <? t | None => false end
           then (routes, false)
           else (<[key := {| consecutive_failures := 0; unhealthy_until := None |}]> routes, true)
       end.

Definition mark_payment_route_success (key : string) (fail_threshold : Z) (routes : route_health)
    : route_health :=
  if fail_threshold =? 0 then routes else delete key routes.

Definition mark_payment_route_failure (key : string) (fail_threshold cooldown now : Z)
    (routes : route_health) : route_health :=
  if (fail_threshold =? 0) || (cooldown =? 0) then routes
  else
    let entry := default {| consecutive_failures := 0; unhealthy_until := None |} (routes !! key) in
    let failures := Z.min (consecutive_failures entry + 1) u32_max in
    <[key := if fail_threshold <=? failures
             then {| consecutive_failures := 0; unhealthy_until := Some (now + cooldown) |}
             else {| consecutive_failures := failures; unhealthy_until := unhealthy_until entry |}]>
      routes.
