(* ===== verification/Paths.v ===== *)
(** Artifact paths (worker/src/lib.rs, [sanitize_relative_path] and
    [tenant_scoped_artifact_root]) over the [std::path] operations they use, on
    Unix: a [PathBuf] is its string. *)
From S2P Require Import Prelude RustStr Json Policy.

(** * [std::path] *)

Abbreviation slash := (Ascii true true true true false true false false).

Inductive Component := RootDir | CurDir | ParentDir | Normal (part : string).

#[export] Instance Component_eq_dec : EqDecision Component.
Proof. solve_decision. Defined.

Definition is_absolute (p : string) : bool := starts_with "/" p.

(** The component of one piece between slashes; empty pieces and inner dots are
    normalised away. *)
Definition piece (s : string) : list Component :=
  if is_empty s || String.eqb s "." then []
  else if String.eqb s ".." then [ParentDir] else [Normal s].

(** [Path::components]: a dot is only visible at the very beginning. *)
Definition components (p : string) : list Component :=
  let pieces := split_char slash p in
  (if is_absolute p then [RootDir]
   else match pieces with
        | s :: _ => if String.eqb s "." then [CurDir] else []
        | [] => []
        end) ++ concat (map piece pieces).

Fixpoint ends_with_slash (p : string) : bool :=
  match p with
  | EmptyString => false
  | String c EmptyString => Ascii.eqb c slash
  | String _ p' => ends_with_slash p'
  end.

(** [Path::join] *)
Definition path_join (a b : string) : string :=
  if is_absolute b then b
  else if is_empty a then b
  else if ends_with_slash a then a +:+ b
  else a +:+ "/" +:+ b.

(** [Path::starts_with]: component-wise. *)
Fixpoint path_starts_with (p q : list Component) : bool :=
  match q, p with
  | [], _ => true
  | c :: q', d :: p' => bool_decide (c = d) && path_starts_with p' q'
  | _ :: _, [] => false
  end.

(** * The functions of the worker *)

(** The loop over [candidate.components()]; [None] is the unsafe component. *)
Fixpoint clean_components (cs : list Component) (cleaned : string) : option string :=
  match cs with
  | [] => Some cleaned
  | CurDir :: cs' => clean_components cs' cleaned
  | Normal part :: cs' => clean_components cs' (path_join cleaned part)
  | ParentDir :: _ | RootDir :: _ => None
  end.

Definition sanitize_relative_path (path : string) : result string string :=
  if is_absolute path then Err ("absolute paths are not allowed: " +:+ path)
  else match clean_components (components path) "" with
       | None => Err ("unsafe path component in " +:+ path)
       | Some cleaned =>
           if is_empty cleaned then Err "empty artifact path is not allowed" else Ok cleaned
       end.

Definition tenant_scoped_artifact_root (artifact_root tenant_id : string) : result string string :=
  let? safe_tenant_path := sanitize_relative_path tenant_id in
  Ok (path_join (path_join artifact_root "tenants") safe_tenant_path).

(** * Lemmas *)

Lemma split_char_app c a b :
  split_char c (a +:+ String c b) = split_char c a ++ split_char c b.
Proof.
  induction a as [|x a IH]; [rewrite sapp_nil_l; simpl; by rewrite Ascii.eqb_refl|].
  rewrite sapp_cons. simpl. rewrite IH. destruct (Ascii.eqb x c); [done|].
  destruct (split_char c a) eqn:E; [by apply split_char_nonempty in E|done].
Qed.

Lemma pieces_slash_free c s p : p ∈ split_char c s -> split_char c p = [p].
Proof.
  revert p. induction s as [|x s IH]; intros p; simpl.
  - by intros ->%list_elem_of_singleton.
  - destruct (Ascii.eqb x c) eqn:E.
    + intros [->|H]%elem_of_cons; [done|by apply IH].
    + destruct (split_char c s) as [|h t] eqn:Es; [by apply split_char_nonempty in Es|].
      intros [->|H]%elem_of_cons.
      * simpl. rewrite E. by rewrite (IH h) by left.
      * apply IH. by right.
Qed.

(** The names of a clean relative path. *)
Definition clean_name (s : string) : Prop :=
  s <> "" /\ s <> "." /\ s <> ".." /\ split_char slash s = [s].

(** [l] joined by slashes. *)
Fixpoint render (l : list string) : string :=
  match l with
  | [] => ""
  | [s] => s
  | s :: l' => s +:+ "/" +:+ render l'
  end.

Lemma clean_name_relative s : clean_name s -> is_absolute s = false.
Proof.
  intros (H & _ & _ & Hs). destruct s as [|c s]; [done|]. unfold is_absolute. cbn [starts_with].
  destruct (Ascii.eqb slash c) eqn:E; [|done]. apply Ascii.eqb_eq in E as <-.
  cbn [split_char] in Hs. rewrite Ascii.eqb_refl in Hs. done.
Qed.

Lemma clean_name_no_trailing_slash s : split_char slash s = [s] -> ends_with_slash s = false.
Proof.
  induction s as [|c s IH]; [done|]. cbn [split_char ends_with_slash].
  destruct (Ascii.eqb c slash) eqn:E; [done|]. destruct s as [|d s]; [done|].
  destruct (split_char slash (String d s)) as [|h t] eqn:Es; [done|]. intros [= -> ->]. by apply IH.
Qed.

Lemma render_snoc l s : l <> [] -> render (l ++ [s]) = render l +:+ "/" +:+ s.
Proof.
  induction l as [|a l IH]; [done|]. intros _. destruct l as [|b l]; [done|].
  change (render ((a :: b :: l) ++ [s])) with (a +:+ "/" +:+ render ((b :: l) ++ [s])).
  rewrite IH by done. change (render (a :: b :: l)) with (a +:+ "/" +:+ render (b :: l)).
  by rewrite !sapp_assoc.
Qed.

Lemma split_render l : l <> [] -> Forall clean_name l -> split_char slash (render l) = l.
Proof.
  induction l as [|a l IH]; intros Hne Hl; [done|]. inv Hl. destruct l as [|b l].
  - simpl. apply H1.
  - change (render (a :: b :: l)) with (a +:+ String slash (render (b :: l))).
    rewrite split_char_app, IH by done. by destruct H1 as (_ & _ & _ & ->).
Qed.

Lemma render_no_trailing_slash l : Forall clean_name l -> ends_with_slash (render l) = false.
Proof.
  induction 1 as [|a l Ha Hl IH]; [done|]. destruct l as [|b l].
  - apply clean_name_no_trailing_slash, Ha.
  - change (render (a :: b :: l)) with (a +:+ String slash (render (b :: l))).
    assert (forall u v, v <> "" -> ends_with_slash (u +:+ v) = ends_with_slash v) as Happ.
    { intros u v Hv. induction u as [|c u IHu]; [done|]. rewrite sapp_cons. cbn [ends_with_slash].
      destruct (u +:+ v) eqn:E; [by destruct u, v|done]. }
    rewrite Happ by done. destruct (render (b :: l)) eqn:E; [|by rewrite <- E, <- IH, E].
    inv Hl. destruct l; simpl in E; destruct H1 as [H1 _]; [done|by destruct b].
Qed.

Lemma render_nonempty l : l <> [] -> Forall clean_name l -> render l <> "".
Proof.
  intros H1 H2 E. destruct H2 as [|a l [Ha _] _]; [done|]. destruct l; simpl in E; [done|].
  by destruct a.
Qed.

Lemma path_join_render l s : Forall clean_name l -> clean_name s ->
  path_join (render l) s = render (l ++ [s]).
Proof.
  intros Hl Hs. unfold path_join. rewrite clean_name_relative by done.
  destruct (decide (l = [])) as [->|Hne]; [done|].
  destruct (is_empty (render l)) eqn:E.
  { apply is_empty_spec in E. by apply render_nonempty in E. }
  rewrite render_no_trailing_slash by done. by rewrite render_snoc.
Qed.

Lemma components_names p s : Normal s ∈ components p -> clean_name s.
Proof.
  unfold components. intros [H|H]%elem_of_app.
  { destruct (is_absolute p); [by apply list_elem_of_singleton in H|].
    destruct (split_char slash p) as [|h t]; [by inv H|]. destruct (String.eqb h ".");
    [by apply list_elem_of_singleton in H|by inv H]. }
  apply list_elem_of_In, in_concat in H as (l & Hl & Hin).
  apply in_map_iff in Hl as (x & <- & Hx). apply list_elem_of_In in Hin, Hx.
  unfold piece in Hin. destruct (is_empty x || String.eqb x ".") eqn:E; [by inv Hin|].
  apply orb_false_iff in E as [E1 E2].
  destruct (String.eqb x "..") eqn:E3; apply list_elem_of_singleton in Hin; [done|].
  injection Hin as ->. split_and!.
  - intros ->. done.
  - by apply String.eqb_neq.
  - by apply String.eqb_neq.
  - by eapply pieces_slash_free.
Qed.

Definition names_of (cs : list Component) : list string :=
  omap (fun c => match c with Normal s => Some s | _ => None end) cs.

Lemma clean_components_Some cs acc r :
  (forall s, Normal s ∈ cs -> clean_name s) -> Forall clean_name acc ->
  clean_components cs (render acc) = Some r ->
  r = render (acc ++ names_of cs) /\ Forall clean_name (acc ++ names_of cs) /\
  (RootDir ∉ cs) /\ (ParentDir ∉ cs).
Proof.
  revert acc. induction cs as [|c cs IH]; intros acc Hcs Hacc H.
  - simpl in H. simplify_eq. rewrite app_nil_r. split_and!; [done|done|set_solver..].
  - assert (forall s, Normal s ∈ cs -> clean_name s) as Hcs' by (intros s Hs; apply Hcs; by right).
    destruct c as [| | |s]; simpl in H; try done.
    + destruct (IH acc Hcs' Hacc H) as (-> & ? & ? & ?). split_and!; [done|done|set_solver..].
    + assert (clean_name s) as Hs by (apply Hcs; left). rewrite path_join_render in H by done.
      destruct (IH (acc ++ [s]) Hcs') as (-> & Hc & ? & ?); [by apply Forall_app; auto|done|].
      rewrite <- app_assoc in *. split_and!; [done|done|set_solver..].
Qed.

Lemma sanitize_Ok p r : sanitize_relative_path p = Ok r ->
  exists l, l = names_of (components p) /\ l <> [] /\ Forall clean_name l /\ r = render l /\
    is_absolute p = false /\ (ParentDir ∉ components p).
Proof.
  unfold sanitize_relative_path. destruct (is_absolute p); [done|].
  destruct (clean_components (components p) "") as [c|] eqn:E; [|done].
  destruct (is_empty c) eqn:Ec; [done|]. intros [= ->].
  apply (clean_components_Some _ []) in E as (-> & Hl & _ & Hp);
    [|by apply components_names|constructor].
  simpl in *. exists (names_of (components p)). split_and!; [done| |done..].
  intros Hn. by rewrite Hn in Ec.
Qed.

Lemma concat_piece_clean l : Forall clean_name l -> concat (map piece l) = map Normal l.
Proof.
  induction 1 as [|s l (H1 & H2 & H3 & _) _ IH]; [done|]. cbn [map concat]. rewrite IH.
  unfold piece. destruct (is_empty s) eqn:E; [by apply is_empty_spec in E|].
  by rewrite !string_eqb_neq.
Qed.

Lemma components_render l : l <> [] -> Forall clean_name l -> components (render l) = map Normal l.
Proof.
  intros Hne Hl. unfold components. rewrite split_render, concat_piece_clean by done.
  destruct Hl as [|s l Hs Hl]; [done|].
  assert (is_absolute (render (s :: l)) = false) as ->.
  { pose proof (clean_name_relative s Hs) as H. destruct l; [done|].
    destruct Hs as [Hs _]. by destruct s. }
  destruct Hs as (_ & H & _). by rewrite string_eqb_neq.
Qed.

Lemma names_of_normal l : names_of (map Normal l) = l.
Proof. induction l as [|s l IH]; [done|]. unfold names_of in *. cbn [map omap list_omap]. by rewrite IH. Qed.

Lemma sanitize_render l : l <> [] -> Forall clean_name l -> sanitize_relative_path (render l) = Ok (render l).
Proof.
  intros Hne Hl. unfold sanitize_relative_path. rewrite components_render by done.
  assert (is_absolute (render l) = false) as ->.
  { destruct Hl as [|s l Hs Hl]; [done|]. pose proof (clean_name_relative s Hs) as H.
    destruct l; [done|]. destruct Hs as [Hs _]. by destruct s. }
  assert (forall acc, Forall clean_name acc ->
    clean_components (map Normal l) (render acc) = Some (render (acc ++ l))) as H.
  { clear Hne. induction Hl as [|s l Hs Hl IH]; intros acc Hacc; simpl; [by rewrite app_nil_r|].
    rewrite path_join_render by done. rewrite IH by (by apply Forall_app; auto).
    by rewrite <- app_assoc. }
  specialize (H [] ltac:(constructor)). simpl in H. rewrite H.
  destruct (is_empty (render l)) eqn:E; [|done].
  apply is_empty_spec in E. by apply render_nonempty in E.
Qed.

Lemma ends_with_slash_inv a : ends_with_slash a = true -> exists u, a = u +:+ "/".
Proof.
  induction a as [|c a IH]; [done|]. destruct a as [|d a].
  - simpl. intros H%Ascii.eqb_eq. subst. by exists "".
  - intros H. destruct (IH H) as [u ->]. by exists (String c u).
Qed.

Lemma components_prefix u v :
  components (u +:+ String slash v) =
  components (u +:+ "/") ++ concat (map piece (split_char slash v)).
Proof.
  unfold components, is_absolute. rewrite !split_char_app, !map_app, !concat_app.
  assert (starts_with "/" (u +:+ String slash v) = starts_with "/" (u +:+ "/")) as ->
    by by destruct u.
  pose proof (split_char_nonempty slash u). destruct (split_char slash u) as [|h t]; [done|].
  cbn [app]. cbn [split_char map concat piece is_empty]. rewrite app_nil_r, !app_assoc.
  done.
Qed.

Lemma components_trailing u : u <> "" -> components (u +:+ "/") = components u.
Proof.
  intros Hu. unfold components, is_absolute. rewrite split_char_app, map_app, concat_app.
  assert (starts_with "/" (u +:+ "/") = starts_with "/" u) as -> by by destruct u.
  pose proof (split_char_nonempty slash u). destruct (split_char slash u) as [|h t]; [done|].
  cbn [app split_char map concat piece]. by rewrite !app_nil_r.
Qed.

Lemma components_join a l : l <> [] -> Forall clean_name l ->
  components (path_join a (render l)) = components a ++ map Normal l.
Proof.
  intros Hne Hl. unfold path_join.
  assert (is_absolute (render l) = false) as Hrel.
  { pose proof (sanitize_render l Hne Hl) as H. unfold sanitize_relative_path in H.
    by destruct (is_absolute (render l)). }
  rewrite Hrel. destruct (is_empty a) eqn:Ea.
  { apply is_empty_spec in Ea as ->. by rewrite components_render. }
  assert (forall u, components (u +:+ String slash (render l)) =
    components (u +:+ "/") ++ map Normal l) as H.
  { intros u. by rewrite components_prefix, split_render, concat_piece_clean. }
  destruct (ends_with_slash a) eqn:Es.
  - apply ends_with_slash_inv in Es as [u ->]. rewrite <- sapp_assoc. apply H.
  - change (components (a +:+ String slash (render l)) = components a ++ map Normal l).
    rewrite (H a), components_trailing; [done|]. intros ->. done.
Qed.

Lemma clean_components_safe cs acc :
  RootDir ∉ cs -> ParentDir ∉ cs -> exists r, clean_components cs acc = Some r.
Proof.
  revert acc. induction cs as [|c cs IH]; intros acc H1 H2; [by eexists|].
  destruct c; simpl; try (apply IH; set_solver); set_solver.
Qed.

Lemma relative_no_root p : is_absolute p = false -> RootDir ∉ components p.
Proof.
  unfold components. intros -> [H|H]%elem_of_app.
  - destruct (split_char slash p) as [|h t]; [by inv H|].
    destruct (String.eqb h "."); [by apply list_elem_of_singleton in H|by inv H].
  - apply list_elem_of_In, in_concat in H as (l & Hl & Hin).
    apply in_map_iff in Hl as (x & <- & _). apply list_elem_of_In in Hin. unfold piece in Hin.
    destruct (_ || _); [by inv Hin|]. by destruct (String.eqb x "..");
      apply list_elem_of_singleton in Hin.
Qed.

(** The path an artifact is written to. *)
Definition artifact_full_path (artifact_root tenant_id path : string) : result string string :=
  let? rel := sanitize_relative_path path in
  let? root := tenant_scoped_artifact_root artifact_root tenant_id in
  Ok (path_join root rel).

Lemma artifact_full_path_Ok root tenant path full :
  artifact_full_path root tenant path = Ok full ->
  let ts := names_of (components tenant) in let ps := names_of (components path) in
  ts <> [] /\ ps <> [] /\ Forall clean_name (ts ++ ps) /\
  components full = components root ++ map Normal ("tenants" :: ts ++ ps).
Proof.
  unfold artifact_full_path, tenant_scoped_artifact_root.
  destruct (sanitize_relative_path path) as [rel|] eqn:Ep; [|done].
  destruct (sanitize_relative_path tenant) as [t|] eqn:Et; [|done]. intros [= <-].
  apply sanitize_Ok in Ep as (ps & Hps & Hp & Hpc & -> & _).
  apply sanitize_Ok in Et as (ts & Hts & Ht & Htc & -> & _).
  cbn zeta. rewrite <- Hps, <- Hts. split_and!; [done|done|by apply Forall_app|].
  rewrite !components_join by done.
  change "tenants" with (render ["tenants"]) at 1.
  rewrite components_join by (try done; repeat constructor; done).
  cbn [map]. by rewrite map_app, <- !app_assoc.
Qed.

(** * Properties *)

(** [sanitize_relative_path] accepts exactly the relative paths without a
    parent component that name something, and returns their names joined by
    single slashes. *)
Theorem sanitize_relative_path_exact path r :
  sanitize_relative_path path = Ok r <->
  is_absolute path = false /\ (ParentDir ∉ components path) /\
  names_of (components path) <> [] /\ r = render (names_of (components path)).
Proof.
  split.
  - intros H. apply sanitize_Ok in H as (l & -> & Hne & _ & -> & ? & ?). done.
  - intros (Habs & Hpar & Hne & ->). unfold sanitize_relative_path. rewrite Habs.
    destruct (clean_components_safe (components path) "") as [c Hc];
      [by apply relative_no_root|done|].
    rewrite Hc. apply (clean_components_Some _ []) in Hc as (-> & Hl & _);
      [|by apply components_names|constructor].
    simpl in *. destruct (is_empty _) eqn:E; [|done].
    apply is_empty_spec in E. by apply render_nonempty in E.
Qed.

(** Artifacts stay in their tenant's directory: the file an action writes is
    the artifact root, then [tenants], then the names of the tenant identifier,
    then the names of the requested path, and none of these names is empty, a
    dot, a parent reference, or contains a slash. *)
Theorem artifact_path_confined root tenant path full
    (Hfull : artifact_full_path root tenant path = Ok full) :
  exists ts ps, ts <> [] /\ ps <> [] /\ Forall clean_name (ts ++ ps) /\
    components full = components root ++ map Normal ("tenants" :: ts ++ ps).
Proof. apply artifact_full_path_Ok in Hfull as (? & ? & ? & ?). eauto 6. Qed.

Lemma artifact_path_confined_witness :
  exists ts ps, ts <> [] /\ ps <> [] /\ Forall clean_name (ts ++ ps) /\
    components "/var/artifacts/tenants/acme/shownotes/ep1.md" =
    components "/var/artifacts" ++ map Normal ("tenants" :: ts ++ ps).
Proof.
  exact (artifact_path_confined "/var/artifacts" "acme" "./shownotes//ep1.md"
    "/var/artifacts/tenants/acme/shownotes/ep1.md" ltac:(vm_compute; reflexivity)).
Defined.

(** Tenants whose identifiers are single, different names never write to the
    same file, whatever paths their actions ask for. *)
Theorem tenants_write_disjoint_files root t1 t2 p1 p2 f1 f2 n1 n2
    (H1 : artifact_full_path root t1 p1 = Ok f1) (H2 : artifact_full_path root t2 p2 = Ok f2)
    (Hn1 : names_of (components t1) = [n1]) (Hn2 : names_of (components t2) = [n2])
    (Hne : n1 <> n2) :
  components f1 <> components f2.
Proof.
  apply artifact_full_path_Ok in H1 as (_ & _ & _ & ->), H2 as (_ & _ & _ & ->).
  rewrite Hn1, Hn2. cbn. intros H%app_inv_head. congruence.
Qed.

Lemma tenants_write_disjoint_files_witness :
  components "art/tenants/a/x" <> components "art/tenants/b/x".
Proof.
  apply (tenants_write_disjoint_files "art" "a" "b" "x" "x" _ _ "a" "b");
    try (vm_compute; reflexivity). vm_compute. discriminate.
Defined.

(** The isolation of artifact directories needs that restriction: tenant
    identifiers are only trimmed, never checked for slashes, and the tenants
    [acme] and [acme/team] share files. *)
Theorem nested_tenants_share_files :
  exists t1 t2 p1 p2 full, t1 <> t2 /\
    artifact_full_path "artifacts" t1 p1 = Ok full /\
    artifact_full_path "artifacts" t2 p2 = Ok full.
Proof.
  exists "acme", "acme/team", "team/plan.md", "plan.md", "artifacts/tenants/acme/team/plan.md".
  by vm_compute.
Qed.

(** A path allowed by a directory grant [d/*] is written below that directory:
    its names start with the names of [d], so the prefix test of the policy on
    the raw string cannot be used to escape the granted directory. *)
Theorem granted_path_stays_below_scope d path rel
    (Hgrant : scope_matches (d +:+ "/*") path = true)
    (Hrel : sanitize_relative_path path = Ok rel) :
  names_of (components d) `prefix_of` names_of (components rel).
Proof.
  unfold scope_matches in Hgrant. change "/*" with ("/" +:+ "*") in Hgrant.
  rewrite sapp_assoc, strip_suffix_app in Hgrant.
  apply starts_with_spec in Hgrant as [t ->].
  apply sanitize_Ok in Hrel as (l & Hl & Hne & Hc & -> & Habs & _).
  rewrite components_render, names_of_normal by done. subst l.
  rewrite <- sapp_assoc. change ("/" +:+ t) with (String slash t).
  rewrite components_prefix.
  assert (d <> "") as Hd by (intros ->; done). rewrite components_trailing by done.
  unfold names_of. rewrite omap_app. by eexists.
Qed.

Lemma granted_path_stays_below_scope_witness :
  names_of (components "shownotes") `prefix_of` names_of (components "shownotes/ep1.md").
Proof.
  exact (granted_path_stays_below_scope "shownotes" "shownotes/./ep1.md" "shownotes/ep1.md"
    ltac:(vm_compute; reflexivity) ltac:(vm_compute; reflexivity)).
Defined.
