(* ===== verification/FileSystem.v ===== *)
(** A Unix file system as the code sees it through [std::fs]: directories,
    regular files and symbolic links at absolute paths, and
    [std::fs::canonicalize].  A path with no symbolic link, dot or doubled slash
    in it is the list of its names. *)
From S2P Require Import Prelude RustStr Json Paths.

Inductive node := Dir | File | Link (target : string).

#[export] Instance node_eq_dec : EqDecision node.
Proof. solve_decision. Defined.

Abbreviation real_path := (list string).
Abbreviation fs := (gmap (list string) node).

(** The root is always a directory. *)
Definition node_at (f : fs) (p : real_path) : option node :=
  match p with [] => Some Dir | _ => f !! p end.

Definition parent_of (p : real_path) : real_path := take (length p - 1) p.

(** The absolute path with these names. *)
Definition abs (p : real_path) : string := "/" +:+ render p.

(** Path resolution.  [done] is a directory already reached, [todo] the pieces
    of the path that are left; [links] bounds the symbolic links followed, as
    the system does ([ELOOP]). *)
Fixpoint walk (links : nat) (f : fs) : list string -> real_path -> option real_path :=
  fix go (todo : list string) (done : real_path) {struct todo} : option real_path :=
    match todo with
    | [] => Some done
    | s :: rest =>
        if is_empty s || String.eqb s "." then go rest done
        else if String.eqb s ".." then go rest (parent_of done)
        else match node_at f (done ++ [s]) with
             | None => None
             | Some Dir => go rest (done ++ [s])
             | Some File => match rest with [] => Some (done ++ [s]) | _ => None end
             | Some (Link target) =>
                 match links with
                 | O => None
                 | S n => walk n f (split_char slash target ++ rest)
                            (if is_absolute target then [] else done)
                 end
             end
    end.

Definition max_links : nat := 40.

(** [fs::canonicalize] of an absolute path. *)
Definition canonicalize (f : fs) (path : string) : option real_path :=
  walk max_links f (split_char slash path) [].

Definition is_file (f : fs) (p : real_path) : bool := bool_decide (node_at f p = Some File).
Definition is_dir (f : fs) (p : real_path) : bool := bool_decide (node_at f p = Some Dir).

(** A path that resolves to itself: every proper prefix is a directory, and the
    path is a directory or a regular file. *)
Definition real (f : fs) (p : real_path) : Prop :=
  Forall clean_name p /\
  (forall q r, p = q ++ r -> r <> [] -> node_at f q = Some Dir) /\
  (node_at f p = Some Dir \/ node_at f p = Some File).

(** * Lemmas *)

(** Every prefix is a directory. *)
Definition real_dir (f : fs) (p : real_path) : Prop :=
  Forall clean_name p /\ forall q r, p = q ++ r -> node_at f q = Some Dir.

Lemma real_dir_nil f : real_dir f [].
Proof. split; [constructor|]. intros q r Hq. by destruct q. Qed.

Lemma app_snoc_split {A} (q r p : list A) x :
  p ++ [x] = q ++ r -> (r = [] /\ q = p ++ [x]) \/ exists r', r = r' ++ [x] /\ p = q ++ r'.
Proof.
  intros E. destruct r as [|y r _] using rev_ind; [left; by rewrite app_nil_r in E|right].
  rewrite app_assoc in E. apply app_inj_tail in E as [-> ->]. by exists r.
Qed.

Lemma real_dir_snoc f p s :
  real_dir f p -> clean_name s -> node_at f (p ++ [s]) = Some Dir -> real_dir f (p ++ [s]).
Proof.
  intros [Hc Hd] Hs Hn. split; [by apply Forall_app; auto|]. intros q r E.
  apply app_snoc_split in E as [[-> ->]|(r' & -> & E)]; [done|by apply (Hd q r')].
Qed.

Lemma real_file_snoc f p s :
  real_dir f p -> clean_name s -> node_at f (p ++ [s]) = Some File -> real f (p ++ [s]).
Proof.
  intros [Hc Hd] Hs Hn. split_and!; [by apply Forall_app; auto| |by right]. intros q r E Hr.
  apply app_snoc_split in E as [[-> _]|(r' & -> & E)]; [done|by apply (Hd q r')].
Qed.

Lemma real_dir_real f p : real_dir f p -> real f p.
Proof.
  intros [Hc Hd]. split_and!; [done| |]; [intros q r E _; by apply (Hd q r)|].
  left. apply (Hd p []). by rewrite app_nil_r.
Qed.

Lemma real_dir_parent f p : real_dir f p -> real_dir f (parent_of p).
Proof.
  intros [Hc Hd]. unfold parent_of. split; [by apply Forall_take|]. intros q r E.
  apply (Hd q (r ++ drop (length p - 1) p)). by rewrite app_assoc, <- E, take_drop.
Qed.

Lemma piece_clean s : split_char slash s = [s] ->
  is_empty s || String.eqb s "." = false -> String.eqb s ".." = false -> clean_name s.
Proof.
  intros Hs H1 H2. apply orb_false_iff in H1 as [H0 H1].
  apply String.eqb_neq in H1, H2. split_and!; [|done..]. intros ->. done.
Qed.

Lemma clean_name_piece s : clean_name s ->
  is_empty s || String.eqb s "." = false /\ String.eqb s ".." = false.
Proof.
  intros (H0 & H1 & H2 & _). rewrite !string_eqb_neq by done. split; [|done].
  apply orb_false_iff. split; [|done]. by apply string_eqb_neq.
Qed.

(** What [canonicalize] returns resolves to itself. *)
Lemma walk_real links f todo done p :
  Forall (fun s => split_char slash s = [s]) todo -> real_dir f done ->
  walk links f todo done = Some p -> real f p.
Proof.
  revert todo done. induction links as [|n IHn]; intros todo;
    induction todo as [|s rest IH]; intros done Ht Hd H; cbn [walk] in H;
    try (injection H as <-; by apply real_dir_real); inv Ht;
    (destruct (is_empty s || String.eqb s ".") eqn:E1; [by apply (IH done)|]);
    (destruct (String.eqb s "..") eqn:E2; [by apply (IH (parent_of done)); [|apply real_dir_parent|]|]);
    assert (clean_name s) as Hs by (by apply piece_clean);
    (destruct (node_at f (done ++ [s])) as [[| |target]|] eqn:En; [| | |exfalso; discriminate H]).
  all: try done.
  all: try (by apply (IH (done ++ [s])); [|apply real_dir_snoc|]).
  all: try (destruct rest; [|done]; injection H as <-; by apply real_file_snoc).
  apply IHn in H; [exact H| |].
  - apply Forall_app. split; [|assumption]. apply Forall_forall. intros x. apply pieces_slash_free.
  - destruct (is_absolute target); [apply real_dir_nil|assumption].
Qed.

Lemma canonicalize_real f path p : canonicalize f path = Some p -> real f p.
Proof.
  apply walk_real; [|apply real_dir_nil]. apply Forall_forall. intros x. apply pieces_slash_free.
Qed.

Lemma real_walk links f todo done :
  real f (done ++ todo) -> walk links f todo done = Some (done ++ todo).
Proof.
  revert done. induction todo as [|s rest IH]; intros done (Hc & Hp & He).
  { destruct links; cbn [walk]; by rewrite app_nil_r. }
  apply Forall_app in Hc as [Hc1 Hc2]. inv Hc2.
  destruct (clean_name_piece s) as [E1 E2]; [done|].
  assert (walk links f (s :: rest) done =
    match node_at f (done ++ [s]) with
    | None => None
    | Some Dir => walk links f rest (done ++ [s])
    | Some File => match rest with [] => Some (done ++ [s]) | _ => None end
    | Some (Link target) =>
        match links with
        | O => None
        | S n => walk n f (split_char slash target ++ rest) (if is_absolute target then [] else done)
        end
    end) as ->.
  { destruct links; cbn [walk]; by rewrite E1, E2. }
  assert (done ++ s :: rest = (done ++ [s]) ++ rest) as E by by rewrite <- app_assoc.
  rewrite E in Hp, He |- *. destruct rest as [|t rest].
  - rewrite app_nil_r in He |- *. destruct He as [-> | ->]; [by destruct links|done].
  - rewrite (Hp (done ++ [s]) (t :: rest)) by done. apply IH.
    split_and!; [|exact Hp|exact He]. rewrite !Forall_app. auto.
Qed.

(** A canonical path, written out and resolved again in the same file system,
    is the same path. *)
Lemma canonicalize_abs f p : real f p -> canonicalize f (abs p) = Some p.
Proof.
  intros Hr. unfold canonicalize, abs. pose proof Hr as (Hc & _ & _).
  change ("/" +:+ render p) with ("" +:+ String slash (render p)). rewrite split_char_app.
  destruct p as [|s p]; [done|]. rewrite split_render by done.
  change (split_char slash "" ++ s :: p) with ("" :: s :: p).
  change (walk max_links f ("" :: s :: p) []) with (walk max_links f (s :: p) []).
  by apply (real_walk max_links f (s :: p) []).
Qed.

Lemma components_abs p : Forall clean_name p -> components (abs p) = RootDir :: map Normal p.
Proof.
  intros Hc. unfold abs. destruct p as [|s p]; [done|].
  change ("/" +:+ render (s :: p)) with ("" +:+ String slash (render (s :: p))).
  by rewrite components_prefix, split_render, concat_piece_clean.
Qed.

(** [Path::starts_with] between such paths is the prefix order on names, so a
    root never covers a sibling whose name merely begins with its own. *)
Lemma path_starts_with_abs p q : Forall clean_name p -> Forall clean_name q ->
  path_starts_with (components (abs p)) (components (abs q)) = true <-> q `prefix_of` p.
Proof.
  intros Hp Hq. rewrite !components_abs by done. cbn [path_starts_with].
  rewrite bool_decide_eq_true_2 by done. cbn [andb]. clear Hp Hq. revert p.
  induction q as [|s q IH]; intros p; [split; [intros _; by exists p|by destruct p]|].
  destruct p as [|t p]; cbn [map path_starts_with].
  - split; [done|]. by intros [k ?].
  - rewrite andb_true_iff, bool_decide_eq_true, IH. split.
    + intros [[= ->] H]. by apply prefix_cons.
    + intros H. apply prefix_cons_inv_1 in H as H1. subst. split; [done|].
      by apply prefix_cons_inv_2 in H.
Qed.
