(* ===== verification/LocalExec.v ===== *)
(** The local.exec executor (worker/src/local_exec.rs): three fixed command
    templates over paths that must resolve inside configured roots.  Starting
    the process is an argument of the model; so are the text of an operating
    system error and the lossy UTF-8 decoding of the output. *)
From stdpp Require Import pretty.
From S2P Require Import Prelude RustStr Json Policy Action Paths FileSystem.

Record LocalExecConfig := {
  lx_enabled : bool;
  lx_max_output_bytes : Z;
  lx_read_roots : list string;
  lx_write_roots : list string;
}.

Record LocalExecResult := {
  lr_template_id : string; lr_exit_code : Z; lr_stdout : string; lr_stderr : string;
}.

Record CommandSpec := { program : string; spec_args : list string }.

(** [std::process::Output]: the exit code is absent when a signal ended it. *)
Record Output := { out_stdout : string; out_stderr : string; out_code : option Z }.

(** * [std::path] *)

Definition component_text (c : Component) : string :=
  match c with RootDir => "/" | CurDir => "." | ParentDir => ".." | Normal s => s end.

(** [Path::parent] and [Path::file_name] of an absolute path. *)
Definition path_parent (path : string) : option string :=
  match components path with
  | (RootDir :: _ :: _) as cs =>
      Some ("/" +:+ render (map component_text (tail (take (length cs - 1) cs))))
  | _ => None
  end.

Definition path_file_name (path : string) : option string :=
  match last (components path) with Some (Normal s) => Some s | _ => None end.

Definition path_is_within_roots (path : string) (roots : list string) : bool :=
  existsb (fun root => path_starts_with (components path) (components root)) roots.

(** * Templates *)

Definition required_path_arg (args : json) (key : string) : result string string :=
  ok_or (get_str key args ≫= non_empty_trimmed)
    ("local.exec args." +:+ key +:+ " is required").

Section local_exec.
Context (io_error : string -> string) (f : fs).

(** [fs::canonicalize(path).with_context(..)], as a path again. *)
Definition resolve (context path : string) : result string string :=
  match canonicalize f path with
  | Some p => Ok (abs p)
  | None => Err (context +:+ " `" +:+ path +:+ "`: " +:+ io_error path)
  end.

(** [is_file] and [is_dir] follow links, of which a resolved path has none. *)
Definition path_is_file (path : string) : bool :=
  match canonicalize f path with Some p => is_file f p | None => false end.
Definition path_is_dir (path : string) : bool :=
  match canonicalize f path with Some p => is_dir f p | None => false end.

Definition validate_read_path (path_raw : string) (roots : list string) : result string string :=
  if negb (is_absolute path_raw) then Err ("local.exec read path must be absolute: " +:+ path_raw)
  else
    let? canonical := resolve "failed to resolve local.exec read path" path_raw in
    if negb (path_is_file canonical)
    then Err ("local.exec read path must resolve to a file: " +:+ canonical)
    else if negb (path_is_within_roots canonical roots)
    then Err ("local.exec read path `" +:+ canonical +:+ "` is outside allowed roots")
    else Ok canonical.

Definition validate_write_path (path_raw : string) (roots : list string) : result string string :=
  if negb (is_absolute path_raw) then Err ("local.exec write path must be absolute: " +:+ path_raw)
  else
    let? parent := ok_or (path_parent path_raw)
      ("local.exec write path must have a parent: " +:+ path_raw) in
    let? canonical_parent := resolve "failed to resolve parent for local.exec write path" parent in
    if negb (path_is_within_roots canonical_parent roots)
    then Err ("local.exec write path parent `" +:+ canonical_parent +:+ "` is outside allowed roots")
    else
      let? file_name := ok_or (path_file_name path_raw)
        ("local.exec write path missing file name: " +:+ path_raw) in
      Ok (path_join canonical_parent file_name).

Definition build_command_from_template (template_id : string) (args : json) (c : LocalExecConfig)
    : result CommandSpec string :=
  match str_match template_id
    [(["file.head"],
       let? path := required_path_arg args "path" in
       let? path := validate_read_path path (lx_read_roots c) in
       let lines := default 20 (get "lines" args ≫= as_u64) in
       if (lines =? 0) || (200 <? lines)
       then Err "local.exec file.head lines must be between 1 and 200"
       else Ok {| program := "head"; spec_args := ["-n"; pretty (Z.to_N lines); path] |});
     (["file.word_count"],
       let? path := required_path_arg args "path" in
       let? path := validate_read_path path (lx_read_roots c) in
       Ok {| program := "wc"; spec_args := ["-w"; path] |});
     (["file.touch"],
       let? path := required_path_arg args "path" in
       let? path := validate_write_path path (lx_write_roots c) in
       Ok {| program := "touch"; spec_args := [path] |})] with
  | Some r => r
  | None => Err ("unknown local.exec template `" +:+ template_id +:+
                 "` (allowed: file.head, file.word_count, file.touch)")
  end.

(** * Execution *)

Context (utf8_lossy : string -> string).
(** [run_command]: the process with its limits and its timeout. *)
Context (run_command : CommandSpec -> result Output string).

Definition finish_output (template_id : string) (c : LocalExecConfig) (output : Output)
    : result LocalExecResult string :=
  let total_output := Z.of_nat (String.length (out_stdout output))
                      + Z.of_nat (String.length (out_stderr output)) in
  if lx_max_output_bytes c <? total_output
  then Err ("local.exec output exceeded " +:+ pretty (Z.to_N (lx_max_output_bytes c)) +:+ " bytes")
  else
    let stderr := utf8_lossy (out_stderr output) in
    let? exit_code := ok_or (out_code output) "local.exec terminated by signal" in
    if negb (exit_code =? 0)
    then Err ("local.exec template `" +:+ template_id +:+ "` exited non-zero (" +:+
              pretty exit_code +:+ ") stderr=" +:+ trim stderr)
    else Ok {| lr_template_id := template_id; lr_exit_code := exit_code;
               lr_stdout := utf8_lossy (out_stdout output); lr_stderr := stderr |}.

Definition execute_local_exec (args : json) (c : LocalExecConfig) : result LocalExecResult string :=
  if negb (lx_enabled c)
  then Err "local.exec is disabled (set WORKER_LOCAL_EXEC_ENABLED=1 to enable)"
  else
    let? template_id := ok_or (get_str "template_id" args ≫= non_empty_trimmed)
                          "local.exec args.template_id is required" in
    let? command_spec := build_command_from_template template_id args c in
    let? output := run_command command_spec in
    finish_output template_id c output.

(** [execute_local_exec_action] of worker/src/lib.rs. *)
Definition execute_local_exec_action (args : json) (c : LocalExecConfig) : result json string :=
  let? r := execute_local_exec args c in
  Ok (jobject [("template_id", JStr (lr_template_id r));
               ("exit_code", JNum (if lr_exit_code r <? 0 then NegInt (lr_exit_code r)
                                   else PosInt (lr_exit_code r)));
               ("stdout", JStr (lr_stdout r)); ("stderr", JStr (lr_stderr r))]).

(** [parse_roots_from_env], at start-up. *)
Fixpoint parse_roots_from_env (raw : list string) (label : string) : result (list string) string :=
  match raw with
  | [] => Ok []
  | value :: rest =>
      if negb (is_absolute value) then Err (label +:+ " entry must be absolute path: " +:+ value)
      else match canonicalize f value with
           | None => Err ("failed to canonicalize " +:+ label +:+ " entry `" +:+ value +:+
                          "` (ensure directory exists): " +:+ io_error value)
           | Some p =>
               if negb (path_is_dir (abs p))
               then Err (label +:+ " entry must be a directory: " +:+ abs p)
               else let? roots := parse_roots_from_env rest label in Ok (abs p :: roots)
           end
  end.
End local_exec.

(** * Lemmas *)

Lemma real_clean f p : real f p -> Forall clean_name p.
Proof. by intros [H _]. Qed.

(** A root that [parse_roots_from_env] has accepted. *)
Definition root_path (root : string) : Prop := exists q, root = abs q /\ Forall clean_name q.

Lemma parse_roots_paths io f raw label roots :
  parse_roots_from_env io f raw label = Ok roots -> Forall root_path roots.
Proof.
  revert roots. induction raw as [|v raw IH]; intros roots H; simpl in H; [by simplify_eq|].
  destruct (negb (is_absolute v)); [done|].
  destruct (canonicalize f v) as [p|] eqn:E; [|done].
  destruct (negb (path_is_dir f (abs p))); [done|].
  destruct (parse_roots_from_env io f raw label) as [l|]; [|done]. simplify_eq.
  constructor; [|by apply IH]. exists p. split; [done|]. by eapply real_clean, canonicalize_real.
Qed.

(** [p] lies below one of the roots. *)
Definition inside (roots : list string) (p : real_path) : Prop :=
  exists q, abs q ∈ roots /\ Forall clean_name q /\ q `prefix_of` p.

Lemma within_roots_inside roots p :
  Forall root_path roots -> Forall clean_name p ->
  path_is_within_roots (abs p) roots = true -> inside roots p.
Proof.
  intros Hr Hp H. unfold path_is_within_roots in H. apply existsb_elem_of in H as (root & Hin & H).
  rewrite Forall_forall in Hr. destruct (Hr root Hin) as (q & -> & Hq).
  exists q. split_and!; [done|done|]. by apply path_starts_with_abs in H.
Qed.

Lemma path_join_abs p s : Forall clean_name p -> clean_name s ->
  path_join (abs p) s = abs (p ++ [s]).
Proof.
  intros Hp Hs. unfold path_join. rewrite (clean_name_relative s Hs).
  destruct p as [|t p]; [by destruct s|].
  assert (abs (t :: p) = "/" +:+ render (t :: p)) as -> by done.
  assert (ends_with_slash ("/" +:+ render (t :: p)) = false) as ->.
  { pose proof (render_no_trailing_slash (t :: p) Hp) as H.
    pose proof (render_nonempty (t :: p) ltac:(done) Hp). by destruct (render (t :: p)). }
  unfold abs. rewrite render_snoc by done. done.
Qed.

Lemma resolve_Ok io f context path r :
  resolve io f context path = Ok r -> exists p, canonicalize f path = Some p /\ r = abs p /\ real f p.
Proof.
  unfold resolve. destruct (canonicalize f path) as [p|] eqn:E; [|done]. intros [= <-].
  exists p. by apply canonicalize_real in E as ?.
Qed.

Lemma path_is_file_abs f p : real f p -> path_is_file f (abs p) = is_file f p.
Proof. intros H. unfold path_is_file. by rewrite canonicalize_abs. Qed.

Lemma validate_read_path_Ok io f path roots r :
  Forall root_path roots -> validate_read_path io f path roots = Ok r ->
  exists p, r = abs p /\ real f p /\ node_at f p = Some File /\ inside roots p.
Proof.
  intros Hroots H. unfold validate_read_path in H. destruct (negb (is_absolute path)); [done|].
  destruct (resolve io f _ path) as [c|] eqn:E; [|done].
  apply resolve_Ok in E as (p & _ & -> & Hp). rewrite path_is_file_abs in H by done.
  destruct (is_file f p) eqn:Hf; [|done]. cbn [negb] in H.
  destruct (path_is_within_roots (abs p) roots) eqn:Hw; [|done]. simplify_eq/=.
  exists p. split_and!; [done|done|by apply bool_decide_eq_true in Hf|].
  apply within_roots_inside; [done|by apply (real_clean f)|done].
Qed.

Lemma file_name_clean path s : path_file_name path = Some s -> clean_name s.
Proof.
  unfold path_file_name. destruct (last (components path)) as [[| | |t]|] eqn:E; try done.
  intros [= ->]. apply (components_names path). by apply last_Some_elem_of.
Qed.

Lemma validate_write_path_Ok io f path roots r :
  Forall root_path roots -> validate_write_path io f path roots = Ok r ->
  exists d s, r = abs (d ++ [s]) /\ real f d /\ clean_name s /\ inside roots d.
Proof.
  intros Hroots H. unfold validate_write_path in H. destruct (negb (is_absolute path)); [done|].
  destruct (path_parent path) as [parent|]; [|done]. cbn [ok_or] in H.
  destruct (resolve io f _ parent) as [c|] eqn:E; [|done].
  apply resolve_Ok in E as (d & _ & -> & Hd).
  destruct (path_is_within_roots (abs d) roots) eqn:Hw; [|done]. cbn [negb] in H.
  destruct (path_file_name path) as [s|] eqn:Hs; [|done]. simplify_eq/=.
  apply file_name_clean in Hs. assert (Forall clean_name d) as Hc by by apply (real_clean f).
  exists d, s. rewrite path_join_abs by done. split_and!; try done. by apply within_roots_inside.
Qed.

(** The commands the template [t] may start. *)
Definition template_command (f : fs) (c : LocalExecConfig) (t : string) (spec : CommandSpec) : Prop :=
  (t = "file.head" /\ exists n p,
     1 <= n <= 200 /\ spec = {| program := "head"; spec_args := ["-n"; pretty (Z.to_N n); abs p] |} /\
     real f p /\ node_at f p = Some File /\ inside (lx_read_roots c) p) \/
  (t = "file.word_count" /\ exists p,
     spec = {| program := "wc"; spec_args := ["-w"; abs p] |} /\
     real f p /\ node_at f p = Some File /\ inside (lx_read_roots c) p) \/
  (t = "file.touch" /\ exists d s,
     spec = {| program := "touch"; spec_args := [abs (d ++ [s])] |} /\
     real f d /\ clean_name s /\ inside (lx_write_roots c) d).

Lemma build_command_safe io f t args c spec :
  Forall root_path (lx_read_roots c) -> Forall root_path (lx_write_roots c) ->
  (forall n, get "lines" args ≫= as_u64 = Some n -> 0 <= n) ->
  build_command_from_template io f t args c = Ok spec -> template_command f c t spec.
Proof.
  intros Hr Hw Hu H. unfold build_command_from_template in H.
  destruct (str_match t _) as [r|] eqn:E; [|done].
  str_match_cases E; apply list_elem_of_singleton in Hs as ->; (destruct (required_path_arg args "path") as [path|]; [|done]).
  - destruct (validate_read_path io f path _) as [r|] eqn:V; [|done].
    destruct ((_ =? 0) || _) eqn:L; [done|]. simplify_eq.
    apply validate_read_path_Ok in V as (p & -> & Hp & Hf & Hi); [|done].
    left. split; [done|]. exists (default 20 (get "lines" args ≫= as_u64)), p.
    split_and!; try done; bool_hyps; [|lia].
    destruct (get "lines" args ≫= as_u64) as [n|]; simpl in *; [specialize (Hu n eq_refl); lia|lia].
  - destruct (validate_read_path io f path _) as [r|] eqn:V; [|done]. simplify_eq.
    apply validate_read_path_Ok in V as (p & -> & Hp & Hf & Hi); [|done].
    right; left. split; [done|]. by exists p.
  - destruct (validate_write_path io f path _) as [r|] eqn:V; [|done]. simplify_eq.
    apply validate_write_path_Ok in V as (d & s & -> & Hd & Hs & Hi); [|done].
    right; right. split; [done|]. by exists d, s.
Qed.

Lemma template_id_of_request to_vec llm a req :
  sk_action_type a = "local.exec" -> to_policy_request to_vec llm a = Ok req ->
  exists t, get_str "template_id" (sk_args a) ≫= non_empty_trimmed = Some t /\
            action_type req = "local.exec" /\ req_scope req = "local.exec:" +:+ t.
Proof.
  intros Ht H. unfold to_policy_request in H. destruct (validate_action_contract a); [|done].
  destruct (policy_scope llm a) as [scope|] eqn:E; [|done]. simplify_eq.
  unfold policy_scope in E. rewrite Ht in E. cbn -[required_trimmed_arg non_empty_trimmed] in E.
  unfold required_trimmed_arg in E.
  destruct (get_str "template_id" (sk_args a) ≫= non_empty_trimmed) as [t|]; [|done].
  simplify_eq/=. by exists t.
Qed.

(** * Properties *)

(** C19: the only processes local.exec ever starts.  Whatever the arguments of an
    action, the command that is run is one of the templates, the one the policy
    has allowed (its scope is [local.exec:] and the template), and only when the
    executor is enabled; [head] and [wc] read a regular file that resolves, links
    included, below a read root, with 1 to 200 lines; [touch] names a file in a
    directory that resolves below a write root; and every path argument is
    absolute, so it is not read as an option.  Two ways of running processes that
    agree on these commands give the same result. *)
Theorem local_exec_runs_only_granted_commands io f f0 utf8 run run' to_vec llm a req c raw_r raw_w
    (Hread : parse_roots_from_env io f0 raw_r "WORKER_LOCAL_EXEC_READ_ROOTS" = Ok (lx_read_roots c))
    (Hwrite : parse_roots_from_env io f0 raw_w "WORKER_LOCAL_EXEC_WRITE_ROOTS" = Ok (lx_write_roots c))
    (Htype : sk_action_type a = "local.exec")
    (Hreq : to_policy_request to_vec llm a = Ok req)
    (Hu64 : forall n, get "lines" (sk_args a) ≫= as_u64 = Some n -> 0 <= n)
    (Hagree : forall t spec, lx_enabled c = true -> req_scope req = "local.exec:" +:+ t ->
                template_command f c t spec -> run spec = run' spec) :
  execute_local_exec_action io f utf8 run (sk_args a) c =
  execute_local_exec_action io f utf8 run' (sk_args a) c.
Proof.
  apply parse_roots_paths in Hread, Hwrite.
  apply template_id_of_request in Hreq as (t & Ht & _ & Hs); [|done].
  unfold execute_local_exec_action, execute_local_exec.
  destruct (lx_enabled c); [|done]. cbn [negb]. rewrite Ht. cbn [ok_or].
  destruct (build_command_from_template io f t (sk_args a) c) as [spec|] eqn:B; [|done].
  apply build_command_safe in B; [|done..]. by rewrite (Hagree t spec).
Qed.

(** A file system with one readable file, a link below a write root, and a file
    outside. *)
Definition demo_fs : fs :=
  <[["srv"] := Dir]> (<[["srv"; "in"] := Dir]> (<[["srv"; "in"; "a.txt"] := File]>
  (<[["srv"; "out"] := Dir]> (<[["srv"; "out"; "x"] := Link "/etc/passwd"]>
  (<[["etc"] := Dir]> (<[["etc"; "passwd"] := File]> ∅)))))).

Definition demo_local_config : LocalExecConfig :=
  {| lx_enabled := true; lx_max_output_bytes := 4096; lx_read_roots := ["/srv/in"];
     lx_write_roots := ["/srv/out"] |}.

Definition head_action : SkillAction :=
  {| sk_action_id := "a-1"; sk_action_type := "local.exec";
     sk_args := JObj [("path", JStr "/srv/out/../in/a.txt"); ("template_id", JStr "file.head")];
     sk_justification := ""; sk_action_contract_version := None; sk_action_schema_id := None |}.

(** Runs nothing but [head -n 20 /srv/in/a.txt]. *)
Definition only_head (spec : CommandSpec) : result Output string :=
  if String.eqb (program spec) "head" && bool_decide (spec_args spec = ["-n"; "20"; "/srv/in/a.txt"])
  then Ok {| out_stdout := "text"; out_stderr := ""; out_code := Some 0 |} else Err "not run".

Lemma local_exec_runs_only_granted_commands_witness :
  execute_local_exec_action (fun _ => "io") demo_fs id only_head (sk_args head_action) demo_local_config =
  execute_local_exec_action (fun _ => "io") demo_fs id
    (fun spec => if String.eqb (program spec) "touch" then Err "other" else only_head spec)
    (sk_args head_action) demo_local_config.
Proof.
  apply (local_exec_runs_only_granted_commands (fun _ => "io") demo_fs demo_fs id only_head
    (fun spec => if String.eqb (program spec) "touch" then Err "other" else only_head spec)
    (fun _ => "") (fun _ => Err "") head_action
    {| action_type := "local.exec"; req_scope := "local.exec:file.head"; payload_bytes := 0 |}
    demo_local_config ["/srv/in"] ["/srv/out"]).
  - vm_compute. reflexivity.
  - vm_compute. reflexivity.
  - reflexivity.
  - vm_compute. reflexivity.
  - intros n Hn. vm_compute in Hn. discriminate Hn.
  - intros t spec _ Ht [[_ (n & p & _ & -> & _)]|[[-> _]|[-> _]]]; [reflexivity|discriminate Ht|discriminate Ht].
Defined.

Example demo_head_runs :
  execute_local_exec_action (fun _ => "io") demo_fs id only_head (sk_args head_action) demo_local_config =
  Ok (jobject [("template_id", JStr "file.head"); ("exit_code", JNum (PosInt 0));
               ("stdout", JStr "text"); ("stderr", JStr "")]).
Proof. by vm_compute. Qed.

(** The write roots do not confine [file.touch]: only the parent of the path
    is resolved, so a link below a write root makes [touch] act on the file it
    leads to, outside every root. *)
Theorem touch_follows_a_final_link :
  exists spec, build_command_from_template (fun _ => "io") demo_fs "file.touch"
      (JObj [("path", JStr "/srv/out/x")]) demo_local_config = Ok spec /\
    spec = {| program := "touch"; spec_args := ["/srv/out/x"] |} /\
    canonicalize demo_fs "/srv/out/x" = Some ["etc"; "passwd"] /\
    path_is_within_roots (abs ["etc"; "passwd"]) (lx_write_roots demo_local_config) = false.
Proof. eexists. split_and!; [vm_compute; reflexivity|done|vm_compute; reflexivity|vm_compute; reflexivity]. Qed.

(** A result is only reported for a process that exited with code zero and
    whose whole output is within the configured size. *)
Theorem local_exec_result_exact io f utf8 run args c r
    (Hok : execute_local_exec io f utf8 run args c = Ok r) :
  lx_enabled c = true /\ lr_exit_code r = 0 /\
  exists spec out, build_command_from_template io f (lr_template_id r) args c = Ok spec /\
    run spec = Ok out /\ out_code out = Some 0 /\
    Z.of_nat (String.length (out_stdout out) + String.length (out_stderr out)) <= lx_max_output_bytes c /\
    lr_stdout r = utf8 (out_stdout out) /\ lr_stderr r = utf8 (out_stderr out).
Proof.
  unfold execute_local_exec in Hok. destruct (lx_enabled c); [|done]. cbn [negb] in Hok.
  destruct (ok_or _ _) as [t|]; [|done].
  destruct (build_command_from_template io f t args c) as [spec|] eqn:B; [|done].
  destruct (run spec) as [out|] eqn:R; [|done].
  unfold finish_output in Hok. destruct (_ <? _) eqn:L; [done|].
  destruct (out_code out) as [code|] eqn:C; [|done]. cbn [ok_or] in Hok.
  destruct (code =? 0) eqn:Z0; [|done]. cbn [negb] in Hok. bool_hyps. simplify_eq/=.
  split_and!; [done|done|]. exists spec, out. split_and!; try done. lia.
Qed.

Lemma local_exec_result_exact_witness :
  lx_enabled demo_local_config = true /\ (0 : Z) = 0 /\
  exists spec out, build_command_from_template (fun _ => "io") demo_fs "file.head"
      (sk_args head_action) demo_local_config = Ok spec /\
    only_head spec = Ok out /\ out_code out = Some 0 /\
    Z.of_nat (String.length (out_stdout out) + String.length (out_stderr out)) <= 4096 /\
    "text" = id (out_stdout out) /\ "" = id (out_stderr out).
Proof.
  apply (local_exec_result_exact (fun _ => "io") demo_fs id only_head (sk_args head_action)
    demo_local_config {| lr_template_id := "file.head"; lr_exit_code := 0; lr_stdout := "text";
                         lr_stderr := "" |}).
  vm_compute. reflexivity.
Defined.
