(* ===== verification/FileStore.v ===== *)
(** Files with their contents, over the directories and links of [FileSystem]: what
    [std::fs] and [std::path] do for the agent contexts.  A path is resolved from the
    working directory, links included; [io] gives the failure of a call on a path.
    File names are valid UTF-8. *)
From S2P Require Import Prelude RustStr Json Sql Paths FileSystem.

Record file_store := {
  fs_nodes : fs;
  fs_contents : gmap real_path string;
  fs_cwd : real_path;
}.

Definition resolve_path (s : file_store) (path : string) : option real_path :=
  walk max_links (fs_nodes s) (split_char slash path) (if is_absolute path then [] else fs_cwd s).

Definition path_exists (s : file_store) (path : string) : bool := bool_decide (is_Some (resolve_path s path)).
Definition path_is_file (s : file_store) (path : string) : bool :=
  match resolve_path s path with Some p => is_file (fs_nodes s) p | None => false end.
Definition path_is_dir (s : file_store) (path : string) : bool :=
  match resolve_path s path with Some p => is_dir (fs_nodes s) p | None => false end.

Definition content_at (s : file_store) (p : real_path) : string := default "" (fs_contents s !! p).

(** The content of the regular file that a path leads to. *)
Definition file_content (s : file_store) (path : string) : option string :=
  match resolve_path s path with
  | Some p => if is_file (fs_nodes s) p then Some (content_at s p) else None
  | None => None
  end.

(** [fs::metadata(path).map(|meta| meta.len())] of a regular file, [fs::read]. *)
Definition metadata_len (io : string -> option string) (s : file_store) (path : string) : result Z string :=
  match io path with
  | Some e => Err e
  | None => map_err (fun _ => "No such file or directory") (ok_or (len <$> file_content s path) tt)
  end.
Definition fs_read (io : string -> option string) (s : file_store) (path : string) : result string string :=
  match io path with
  | Some e => Err e
  | None => map_err (fun _ => "No such file or directory") (ok_or (file_content s path) tt)
  end.

(** The names in a directory. *)
Definition dir_names (f : fs) (d : real_path) : list string :=
  omap (fun '(p, _) => match last p with
                       | Some n => if bool_decide (p = d ++ [n]) then Some n else None
                       | None => None
                       end) (map_to_list f).

Definition fs_read_dir (io : string -> option string) (s : file_store) (path : string) : result (list string) string :=
  match io path with
  | Some e => Err e
  | None => match resolve_path s path with
            | Some d => Ok (map (path_join path) (dir_names (fs_nodes s) d))
            | None => Err "No such file or directory"
            end
  end.

(** [Path::extension] of a file name: what follows its last dot, unless that dot is its
    first character. *)
Fixpoint after_last_dot (s : string) : option (string * string) :=
  match s with
  | EmptyString => None
  | String c rest =>
      match after_last_dot rest with
      | Some (before, after) => Some (String c before, after)
      | None => if Ascii.eqb c (ascii_of_N 46) then Some ("", rest) else None
      end
  end.
Definition name_extension (name : string) : option string :=
  match after_last_dot name with
  | Some (before, after) => if is_empty before then None else Some after
  | None => None
  end.

(** [a.cmp(b)] on strings *)
Definition string_le (a b : string) : bool := match String.compare a b with Gt => false | _ => true end.

(** [String::from_utf8]: well-formed UTF-8. *)
Definition in_range (lo hi : Z) (c : ascii) : bool := (lo <=? byte_of c) && (byte_of c <=? hi).
Fixpoint valid_utf8 (s : string) : bool :=
  match s with
  | EmptyString => true
  | String a s1 =>
      if in_range 0 127 a then valid_utf8 s1
      else match s1 with
           | EmptyString => false
           | String b s2 =>
               if in_range 194 223 a then in_range 128 191 b && valid_utf8 s2
               else match s2 with
                    | EmptyString => false
                    | String c s3 =>
                        let second lo hi := in_range lo hi b && in_range 128 191 c in
                        if in_range 224 224 a then second 160 191 && valid_utf8 s3
                        else if in_range 225 236 a || in_range 238 239 a then second 128 191 && valid_utf8 s3
                        else if in_range 237 237 a then second 128 159 && valid_utf8 s3
                        else match s3 with
                             | EmptyString => false
                             | String d s4 =>
                                 let third lo hi := second lo hi && in_range 128 191 d in
                                 if in_range 240 240 a then third 144 191 && valid_utf8 s4
                                 else if in_range 241 243 a then third 128 191 && valid_utf8 s4
                                 else if in_range 244 244 a then third 128 143 && valid_utf8 s4
                                 else false
                             end
                    end
           end
  end.

(** [path.strip_prefix(base)] of [base.join(rel)] as text: [rel] without the empty and
    dot pieces at its end. *)
Fixpoint drop_trailing (l : list string) : list string :=
  match l with
  | [] => []
  | x :: rest =>
      match drop_trailing rest with
      | [] => if is_empty x || String.eqb x "." then [] else [x]
      | kept => x :: kept
      end
  end.
Definition trim_path_end (rel : string) : string := render (drop_trailing (split_char slash rel)).

(** [str::lines] *)
Definition newline : ascii := ascii_of_N 10.
Definition strip_cr (s : string) : string := default s (strip_suffix (String (ascii_of_N 13) "") s).
(** A line that ends the text without a line feed keeps its carriage return. *)
Fixpoint strip_crs (l : list string) : list string :=
  match l with
  | [] => []
  | [x] => if is_empty x then [] else [x]
  | x :: rest => strip_cr x :: strip_crs rest
  end.
Definition lines (s : string) : list string := strip_crs (split_char newline s).

(** [s.parse::<i64>()], [s.parse::<i32>()] *)
Definition parse_int (lo hi : Z) (s : string) : option Z :=
  let '(sign, digits) := match strip_prefix "-" s with
                         | Some r => (-1, r)
                         | None => (1, default s (strip_prefix "+" s))
                         end in
  if is_empty digits then None
  else match parse_digits digits 0 with
       | Some n => if (lo <=? sign * n) && (sign * n <=? hi) then Some (sign * n) else None
       | None => None
       end.
Definition parse_i64 : string -> option Z := parse_int (- i64_max - 1) i64_max.
Definition parse_i32 : string -> option Z := parse_int (- i32_max - 1) i32_max.

(** * Writing *)

Definition set_content (s : file_store) (p : real_path) (bytes : string) : file_store :=
  {| fs_nodes := <[p := File]> (fs_nodes s); fs_contents := <[p := bytes]> (fs_contents s); fs_cwd := fs_cwd s |}.

(** Where [open] with [O_CREAT] leads: an existing regular file, or a new name in an
    existing directory.  A link to nothing is not followed here. *)
Definition open_target (s : file_store) (path : string) : result real_path string :=
  match resolve_path s path with
  | Some p => if is_file (fs_nodes s) p then Ok p else Err "Is a directory"
  | None =>
      match rev (drop_trailing (split_char slash path)) with
      | [] => Err "No such file or directory"
      | name :: parents =>
          match walk max_links (fs_nodes s) (rev parents) (if is_absolute path then [] else fs_cwd s) with
          | Some d => if is_dir (fs_nodes s) d && negb (bool_decide (is_Some (node_at (fs_nodes s) (d ++ [name]))))
                      then Ok (d ++ [name]) else Err "No such file or directory"
          | None => Err "No such file or directory"
          end
      end
  end.

(** [fs::write], and opening for append with [write_all]; a failure leaves the file as it was. *)
Definition write_file (io : string -> option string) (path bytes : string) (s : file_store) : result file_store string :=
  match io path with
  | Some e => Err e
  | None => let? p := open_target s path in Ok (set_content s p bytes)
  end.
Definition append_file (io : string -> option string) (path bytes : string) (s : file_store) : result file_store string :=
  match io path with
  | Some e => Err e
  | None => let? p := open_target s path in Ok (set_content s p (content_at s p +:+ bytes))
  end.

(** [fs::create_dir_all]: every missing directory on the way. *)
Fixpoint make_dirs (f : fs) (todo : list string) (done : real_path) : option fs :=
  match todo with
  | [] => Some f
  | s :: rest =>
      if is_empty s || String.eqb s "." then make_dirs f rest done
      else if String.eqb s ".." then make_dirs f rest (parent_of done)
      else match node_at f (done ++ [s]) with
           | None => make_dirs (<[done ++ [s] := Dir]> f) rest (done ++ [s])
           | Some Dir => make_dirs f rest (done ++ [s])
           | Some File => None
           | Some (Link _) =>
               match walk max_links f [s] done with
               | Some p => if is_dir f p then make_dirs f rest p else None
               | None => None
               end
           end
  end.
Definition create_dir_all (io : string -> option string) (path : string) (s : file_store) : result file_store string :=
  match io path with
  | Some e => Err e
  | None =>
      match make_dirs (fs_nodes s) (split_char slash path) (if is_absolute path then [] else fs_cwd s) with
      | Some f => Ok {| fs_nodes := f; fs_contents := fs_contents s; fs_cwd := fs_cwd s |}
      | None => Err "Not a directory"
      end
  end.
