(* ===== verification/AgentContext.v ===== *)
(** Agent contexts (core/src/agent_context.rs): which files may be changed by whom, the
    loading of a snapshot from the directory of an agent, and the compilation of
    HEARTBEAT.md into trigger candidates.  SHA-256, the parsers of cron expressions and
    time zones, the text of an identifier and [serde_json::to_vec] are arguments. *)
From stdpp Require Import pretty.
From S2P Require Import Prelude RustStr Json Sql Paths FileSystem FileStore.

(** * Mutability *)

Inductive AgentContextMutability := Immutable | HumanPrimary | AgentManaged.

#[export] Instance AgentContextMutability_eq_dec : EqDecision AgentContextMutability.
Proof. solve_decision. Defined.

Definition default_required_files : list string :=
  ["AGENTS.md"; "TOOLS.md"; "IDENTITY.md"; "SOUL.md"; "USER.md"; "MEMORY.md"; "HEARTBEAT.md"].

(** The names of a path whose components are all names. *)
Fixpoint normal_parts (cs : list Component) : option (list string) :=
  match cs with
  | [] => Some []
  | Normal part :: rest => cons part <$> normal_parts rest
  | _ => None
  end.

Definition normalize_context_relative_path (relative_path : string) : option string :=
  let trimmed := trim relative_path in
  if is_empty trimmed || is_absolute trimmed then None
  else match normal_parts (components trimmed) with
       | None | Some [] => None
       | Some parts => Some (join "/" parts)
       end.

Definition ends_with (suffix s : string) : bool := bool_decide (is_Some (strip_suffix suffix s)).

Definition classify_mutability (relative_path : string) : option AgentContextMutability :=
  match normalize_context_relative_path relative_path with
  | None => None
  | Some normalized =>
      match str_match normalized
              [(["AGENTS.md"; "TOOLS.md"; "IDENTITY.md"; "SOUL.md"], Immutable);
               (["USER.md"; "HEARTBEAT.md"; "BOOTSTRAP.md"], HumanPrimary); (["MEMORY.md"], AgentManaged)] with
      | Some m => Some m
      | None =>
          if starts_with "memory/" normalized && ends_with ".md" normalized then Some AgentManaged
          else if starts_with "sessions/" normalized && ends_with ".jsonl" normalized then Some AgentManaged
          else None
      end
  end.

(** [BTreeSet] of the trimmed, non-empty values. *)
Fixpoint dedup_sorted (l : list string) : list string :=
  match l with
  | x :: ((y :: _) as rest) => if String.eqb x y then dedup_sorted rest else x :: dedup_sorted rest
  | _ => l
  end.
Definition normalize_required_files (values : list string) : list string :=
  dedup_sorted (order_by string_le (List.filter (fun s => negb (is_empty s)) (map trim values))).

(** * Loading *)

Record AgentContextLoaderConfig := {
  al_root_dir : string; al_required_files : list string; al_max_file_bytes : Z; al_max_total_bytes : Z;
  al_max_dynamic_files_per_dir : Z;
}.

Definition with_defaults (root_dir : string) : AgentContextLoaderConfig :=
  {| al_root_dir := root_dir; al_required_files := default_required_files; al_max_file_bytes := 64 * 1024;
     al_max_total_bytes := 256 * 1024; al_max_dynamic_files_per_dir := 8 |}.

Record AgentContextFile := {
  af_slot : string; af_relative_path : string; af_sha256 : string; af_bytes : Z; af_content : string;
}.

Record AgentContextSnapshot := {
  as_source_dir : string; as_loaded_at : Z; as_required_files : list AgentContextFile;
  as_memory_files : list AgentContextFile; as_session_files : list AgentContextFile;
  as_missing_required_files : list string; as_warnings : list string;
}.

Inductive AgentContextLoadError :=
| InvalidConfig (message : string)
| NotFound (searched_paths : list string)
| Io (path : string) (source : string).

Definition loaded_files (s : AgentContextSnapshot) : list AgentContextFile :=
  as_required_files s ++ as_memory_files s ++ as_session_files s.
Definition loaded_file_count (s : AgentContextSnapshot) : Z :=
  Z.of_nat (length (as_required_files s) + length (as_memory_files s) + length (as_session_files s)).
Definition sum_bytes (l : list AgentContextFile) : Z := foldr (fun f n => af_bytes f + n) 0 l.
Definition total_loaded_bytes (s : AgentContextSnapshot) : Z := sum_bytes (loaded_files s).

Definition required_file_content (relative_path : string) (s : AgentContextSnapshot) : option string :=
  af_content <$> List.find (fun f => eq_ignore_ascii_case (af_relative_path f) relative_path) (as_required_files s).

Section text.
Context (sha256_hex : string -> string) (time_json : Z -> json) (to_vec : json -> string).

Definition metadata_json (f : AgentContextFile) : json :=
  jobject [("slot", JStr (af_slot f)); ("relative_path", JStr (af_relative_path f)); ("sha256", JStr (af_sha256 f));
           ("bytes", jint (af_bytes f))].
Definition skill_json (f : AgentContextFile) : json :=
  jobject [("slot", JStr (af_slot f)); ("relative_path", JStr (af_relative_path f)); ("sha256", JStr (af_sha256 f));
           ("bytes", jint (af_bytes f)); ("content", JStr (af_content f))].

Definition digest_entry (f : AgentContextFile) : string :=
  af_slot f +:+ ":" +:+ af_relative_path f +:+ ":" +:+ af_sha256 f +:+ ":" +:+ pretty (af_bytes f).
Definition aggregate_sha256 (s : AgentContextSnapshot) : string :=
  sha256_hex (join (String newline "") (order_by string_le (map digest_entry (loaded_files s)))).

Definition jstrs (l : list string) : json := JArr (map JStr l).

Definition summary_json (s : AgentContextSnapshot) : json :=
  let count {A} (l : list A) := jint (Z.of_nat (length l)) in
  let files l := JArr (map metadata_json l) in
  jobject
    [("source_dir", JStr (as_source_dir s)); ("loaded_at", time_json (as_loaded_at s));
     ("required_file_count", count (as_required_files s)); ("memory_file_count", count (as_memory_files s));
     ("session_file_count", count (as_session_files s)); ("loaded_file_count", jint (loaded_file_count s));
     ("total_loaded_bytes", jint (total_loaded_bytes s)); ("missing_required_files", jstrs (as_missing_required_files s));
     ("warnings", jstrs (as_warnings s)); ("aggregate_sha256", JStr (aggregate_sha256 s));
     ("required_files", files (as_required_files s)); ("memory_files", files (as_memory_files s));
     ("session_files", files (as_session_files s))].
Definition summary_digest_sha256 (s : AgentContextSnapshot) : string := sha256_hex (to_vec (summary_json s)).

Definition skill_context_json (s : AgentContextSnapshot) : json :=
  let files l := JArr (map skill_json l) in
  jobject
    [("schema_version", JStr "v1"); ("source_dir", JStr (as_source_dir s)); ("loaded_at", time_json (as_loaded_at s));
     ("aggregate_sha256", JStr (aggregate_sha256 s)); ("missing_required_files", jstrs (as_missing_required_files s));
     ("warnings", jstrs (as_warnings s)); ("required_files", files (as_required_files s));
     ("memory_files", files (as_memory_files s)); ("session_files", files (as_session_files s))].
End text.

Definition validate_relative_path (path : string) : result unit AgentContextLoadError :=
  if is_empty (trim path) then Err (InvalidConfig "required file entry cannot be empty")
  else if is_absolute path then Err (InvalidConfig ("required file `" +:+ path +:+ "` cannot be absolute"))
  else match normal_parts (components path) with
       | Some _ => Ok tt
       | None => Err (InvalidConfig ("required file `" +:+ path +:+ "` contains invalid path components"))
       end.

Definition safe_join_relative (base rel : string) : result string AgentContextLoadError :=
  let? _ := validate_relative_path rel in Ok (path_join base rel).

Fixpoint validate_all (l : list string) : result unit AgentContextLoadError :=
  match l with
  | [] => Ok tt
  | x :: rest => let? _ := validate_relative_path x in validate_all rest
  end.

Definition validate_loader_config (config : AgentContextLoaderConfig) : result unit AgentContextLoadError :=
  if al_max_file_bytes config =? 0 then Err (InvalidConfig "max_file_bytes must be > 0")
  else if al_max_total_bytes config =? 0 then Err (InvalidConfig "max_total_bytes must be > 0")
  else if al_max_dynamic_files_per_dir config =? 0 then Err (InvalidConfig "max_dynamic_files_per_dir must be > 0")
  else validate_all (al_required_files config).

Section load.
Context (sha256_hex : string -> string) (uuid_text : Uuid -> string).
Context (io : string -> option string) (s : file_store) (config : AgentContextLoaderConfig).

Definition tenant_agent_dir (tenant_id : string) (agent_id : Uuid) : string :=
  path_join (path_join (al_root_dir config) (trim tenant_id)) (uuid_text agent_id).
Definition flat_agent_dir (agent_id : Uuid) : string := path_join (al_root_dir config) (uuid_text agent_id).

Definition resolve_source_dir (tenant_id : string) (agent_id : Uuid) : result string AgentContextLoadError :=
  let tenant_agent := tenant_agent_dir tenant_id agent_id in
  let flat_agent := flat_agent_dir agent_id in
  if path_is_dir s tenant_agent then Ok tenant_agent
  else if path_is_dir s flat_agent then Ok flat_agent
  else Err (NotFound [tenant_agent; flat_agent]).

(** What loading has read so far, and its warnings. *)
Record load_state := { ls_loaded_bytes : Z; ls_warnings : list string }.

Definition warn (w : string) (st : load_state) : load_state :=
  {| ls_loaded_bytes := ls_loaded_bytes st; ls_warnings := ls_warnings st ++ [w] |}.

(** [rel] is the path below the source directory. *)
Definition load_context_file (source_dir full_path rel slot : string) (st : load_state)
    : result (load_state * option AgentContextFile) AgentContextLoadError :=
  if negb (path_exists s full_path) then Ok (st, None)
  else if negb (path_is_file s full_path) then
    Ok (warn ("context path `" +:+ full_path +:+ "` is not a regular file; skipped") st, None)
  else
    let? file_len := map_err (Io full_path) (metadata_len io s full_path) in
    if al_max_file_bytes config <? file_len then
      Ok (warn ("context file `" +:+ full_path +:+ "` exceeds max_file_bytes " +:+ pretty (al_max_file_bytes config) +:+
                "; skipped") st, None)
    else if al_max_total_bytes config <? ls_loaded_bytes st + file_len then
      Ok (warn ("loading `" +:+ full_path +:+ "` would exceed max_total_bytes " +:+ pretty (al_max_total_bytes config) +:+
                "; skipped") st, None)
    else
      let? bytes := map_err (Io full_path) (fs_read io s full_path) in
      if negb (valid_utf8 bytes) then
        Ok (warn ("context file `" +:+ full_path +:+ "` is not valid UTF-8; skipped") st, None)
      else
        Ok ({| ls_loaded_bytes := ls_loaded_bytes st + len bytes; ls_warnings := ls_warnings st |},
            Some {| af_slot := slot; af_relative_path := rel; af_sha256 := sha256_hex bytes; af_bytes := len bytes;
                    af_content := bytes |}).

Fixpoint load_required (source_dir : string) (required : list string) (st : load_state)
    : result (load_state * list AgentContextFile * list string) AgentContextLoadError :=
  match required with
  | [] => Ok (st, [], [])
  | r :: rest =>
      let? path := safe_join_relative source_dir r in
      let? (st, file) := load_context_file source_dir path (trim_path_end r) r st in
      let? (st, files, missing) := load_required source_dir rest st in
      Ok match file with
         | Some f => (st, f :: files, missing)
         | None => (st, files, r :: missing)
         end
  end.

Fixpoint load_paths (source_dir slot_prefix : string) (rels : list string) (st : load_state)
    : result (load_state * list AgentContextFile) AgentContextLoadError :=
  match rels with
  | [] => Ok (st, [])
  | rel :: rest =>
      let? (st, file) := load_context_file source_dir (path_join source_dir rel) rel (slot_prefix +:+ ":" +:+ rel) st in
      let? (st, files) := load_paths source_dir slot_prefix rest st in
      Ok (st, match file with Some f => f :: files | None => files end)
  end.

(** The newest names first, as many as are allowed. *)
Definition dynamic_names (dynamic_dir extension : string) (d : real_path) : list string :=
  let keep n := path_is_file s (path_join dynamic_dir n) &&
                match name_extension n with Some e => eq_ignore_ascii_case e extension | None => false end in
  take (Z.to_nat (al_max_dynamic_files_per_dir config))
    (rev (order_by string_le (List.filter keep (dir_names (fs_nodes s) d)))).

Definition load_dynamic_context_files (source_dir subdir extension slot_prefix : string) (st : load_state)
    : result (load_state * list AgentContextFile) AgentContextLoadError :=
  let dynamic_dir := path_join source_dir subdir in
  match resolve_path s dynamic_dir with
  | Some d =>
      if negb (is_dir (fs_nodes s) d) then Ok (st, [])
      else match io dynamic_dir with
           | Some e => Err (Io dynamic_dir e)
           | None => load_paths source_dir slot_prefix
                       (map (fun n => subdir +:+ "/" +:+ n) (dynamic_names dynamic_dir extension d)) st
           end
  | None => Ok (st, [])
  end.

Definition load_agent_context_snapshot (now : Z) (tenant_id : string) (agent_id : Uuid)
    : result AgentContextSnapshot AgentContextLoadError :=
  let? _ := validate_loader_config config in
  let? source_dir := resolve_source_dir tenant_id agent_id in
  let? (st, required_files, missing) :=
    load_required source_dir (al_required_files config) {| ls_loaded_bytes := 0; ls_warnings := [] |} in
  let? (st, memory_files) := load_dynamic_context_files source_dir "memory" "md" "memory" st in
  let? (st, session_files) := load_dynamic_context_files source_dir "sessions" "jsonl" "session" st in
  Ok {| as_source_dir := source_dir; as_loaded_at := now; as_required_files := required_files;
        as_memory_files := memory_files; as_session_files := session_files; as_missing_required_files := missing;
        as_warnings := ls_warnings st |}.
End load.

(** * Heartbeats *)

Inductive HeartbeatIntentKind := Interval | Cron.

Record HeartbeatTriggerCandidate := {
  hc_kind : HeartbeatIntentKind; hc_recipe_id : string; hc_interval_seconds : option Z;
  hc_cron_expression : option string; hc_timezone : option string; hc_max_inflight_runs : Z;
  hc_jitter_seconds : Z; hc_line : Z; hc_source_line : string;
}.
Record HeartbeatCompileIssue := { hi_line : Z; hi_code : string; hi_message : string }.
Record HeartbeatCompileReport := {
  hr_candidates : list HeartbeatTriggerCandidate; hr_issues : list HeartbeatCompileIssue;
}.

Definition issue (line : Z) (code message : string) : HeartbeatCompileIssue :=
  {| hi_line := line; hi_code := code; hi_message := message |}.

(** The loop over the characters; bytes that are not white space or a quote are copied,
    and no byte inside a character starts a white-space character. *)
Fixpoint tokenize_loop (fuel : nat) (s current : string) (in_quotes : bool) : list string :=
  let flush := if is_empty current then [] else [current] in
  match fuel, s with
  | O, _ | _, EmptyString => flush
  | S fuel, String c rest =>
      if Ascii.eqb c (ascii_of_N 34) then tokenize_loop fuel rest current (negb in_quotes)
      else match (if in_quotes then None else strip_one strip_prefix whitespace_seqs s) with
           | Some rest => flush ++ tokenize_loop fuel rest "" in_quotes
           | None => tokenize_loop fuel rest (current +:+ String c "") in_quotes
           end
  end.
Definition tokenize_heartbeat_line (line : string) : list string := tokenize_loop (String.length line) line "" false.

Record HeartbeatOptions := {
  ho_recipe_id : option string; ho_timezone : option string; ho_max_inflight_runs : Z; ho_jitter_seconds : Z;
}.

(** A parsed value and its bounds. *)
Definition bounded_option (line lo hi : Z) (value key code bounds_code bounds_message : string)
    : result Z HeartbeatCompileIssue :=
  let? parsed := ok_or (parse_i32 value)
                   (issue line code (key +:+ " must be an integer, got `" +:+ value +:+ "`")) in
  if (lo <=? parsed) && (parsed <=? hi) then Ok parsed else Err (issue line bounds_code bounds_message).

Definition set_option (line : Z) (key value : string) (opts : HeartbeatOptions) : result HeartbeatOptions HeartbeatCompileIssue :=
  match str_match key
          [(["recipe"; "recipe_id"], 0%nat); (["timezone"; "tz"], 1%nat); (["max_inflight"; "max_inflight_runs"], 2%nat);
           (["jitter"; "jitter_seconds"], 3%nat)] with
  | Some 0%nat => Ok {| ho_recipe_id := Some value; ho_timezone := ho_timezone opts;
                        ho_max_inflight_runs := ho_max_inflight_runs opts; ho_jitter_seconds := ho_jitter_seconds opts |}
  | Some 1%nat => Ok {| ho_recipe_id := ho_recipe_id opts; ho_timezone := Some value;
                        ho_max_inflight_runs := ho_max_inflight_runs opts; ho_jitter_seconds := ho_jitter_seconds opts |}
  | Some 2%nat =>
      let? n := bounded_option line 1 1000 value "max_inflight" "invalid_max_inflight" "max_inflight_out_of_bounds"
                  "max_inflight must be between 1 and 1000" in
      Ok {| ho_recipe_id := ho_recipe_id opts; ho_timezone := ho_timezone opts; ho_max_inflight_runs := n;
            ho_jitter_seconds := ho_jitter_seconds opts |}
  | Some _ =>
      let? n := bounded_option line 0 3600 value "jitter" "invalid_jitter" "jitter_out_of_bounds"
                  "jitter must be between 0 and 3600 seconds" in
      Ok {| ho_recipe_id := ho_recipe_id opts; ho_timezone := ho_timezone opts;
            ho_max_inflight_runs := ho_max_inflight_runs opts; ho_jitter_seconds := n |}
  | None => Err (issue line "unknown_option" ("unsupported heartbeat option `" +:+ key +:+ "`"))
  end.

Fixpoint parse_options_loop (line : Z) (tokens : list string) (opts : HeartbeatOptions)
    : result HeartbeatOptions HeartbeatCompileIssue :=
  match tokens with
  | [] => Ok opts
  | token :: rest =>
      let? (raw_key, raw_value) := ok_or (split_once "=" token)
        (issue line "invalid_option" ("option `" +:+ token +:+ "` must use key=value format")) in
      let value := trim raw_value in
      if is_empty value then Err (issue line "invalid_option" ("option `" +:+ token +:+ "` has an empty value"))
      else let? opts := set_option line (to_ascii_lowercase (trim raw_key)) value opts in
           parse_options_loop line rest opts
  end.
Definition parse_heartbeat_options (tokens : list string) (line : Z) : result HeartbeatOptions HeartbeatCompileIssue :=
  parse_options_loop line tokens
    {| ho_recipe_id := None; ho_timezone := None; ho_max_inflight_runs := 1; ho_jitter_seconds := 0 |}.

Definition required_recipe (line : Z) (opts : HeartbeatOptions) : result string HeartbeatCompileIssue :=
  ok_or (ho_recipe_id opts) (issue line "missing_recipe" "heartbeat directive requires recipe=<recipe_id>").

Definition parse_interval_heartbeat_line (tokens : list string) (line : Z) (source_line : string)
    : result HeartbeatTriggerCandidate HeartbeatCompileIssue :=
  match tokens with
  | _ :: seconds :: ((_ :: _) as options) =>
      let? seconds := ok_or (parse_i64 seconds)
        (issue line "invalid_interval_seconds" "interval seconds must be a positive integer") in
      if (60 <=? seconds) && (seconds <=? 31536000) then
        let? opts := parse_heartbeat_options options line in
        let? recipe_id := required_recipe line opts in
        Ok {| hc_kind := Interval; hc_recipe_id := recipe_id; hc_interval_seconds := Some seconds;
              hc_cron_expression := None; hc_timezone := None; hc_max_inflight_runs := ho_max_inflight_runs opts;
              hc_jitter_seconds := ho_jitter_seconds opts; hc_line := line; hc_source_line := source_line |}
      else Err (issue line "interval_out_of_bounds" "interval seconds must be between 60 and 31536000")
  | _ => Err (issue line "invalid_interval_syntax"
                "interval syntax: every <seconds> recipe=<recipe_id> [max_inflight=<n>] [jitter=<sec>]")
  end.

Section heartbeat.
Context (cron_error : string -> option string) (timezone_ok : string -> bool).

Definition cron_syntax : string :=
  let q := String (ascii_of_N 34) "" in
  "cron syntax: cron " +:+ q +:+ "<expr>" +:+ q +:+
  " recipe=<recipe_id> [timezone=<iana>] [max_inflight=<n>] [jitter=<sec>]".

Definition parse_cron_heartbeat_line (tokens : list string) (line : Z) (source_line : string)
    : result HeartbeatTriggerCandidate HeartbeatCompileIssue :=
  match tokens with
  | _ :: expression :: ((_ :: _) as options) =>
      let cron_expression := trim expression in
      if is_empty cron_expression then Err (issue line "invalid_cron_expression" "cron expression must not be empty")
      else match cron_error cron_expression with
           | Some e => Err (issue line "invalid_cron_expression" ("cron parse error: " +:+ e))
           | None =>
               let? opts := parse_heartbeat_options options line in
               let? recipe_id := required_recipe line opts in
               let timezone := default "UTC" (ho_timezone opts) in
               if timezone_ok timezone then
                 Ok {| hc_kind := Cron; hc_recipe_id := recipe_id; hc_interval_seconds := None;
                       hc_cron_expression := Some cron_expression; hc_timezone := Some timezone;
                       hc_max_inflight_runs := ho_max_inflight_runs opts; hc_jitter_seconds := ho_jitter_seconds opts;
                       hc_line := line; hc_source_line := source_line |}
               else Err (issue line "invalid_timezone" ("timezone `" +:+ timezone +:+ "` is not a valid IANA timezone"))
           end
  | _ => Err (issue line "invalid_cron_syntax" cron_syntax)
  end.

(** The directive of a line; [None] for a line without one. *)
Definition heartbeat_directive (raw_line : string) : option string :=
  let trimmed := trim raw_line in
  if is_empty trimmed || starts_with "#" trimmed then None
  else let normalized := match strip_prefix "- " trimmed with
                         | Some r => r
                         | None => default trimmed (strip_prefix "* " trimmed)
                         end in
       if is_empty normalized then None else Some normalized.

Definition parse_heartbeat_line (tokens : list string) (first : string) (line : Z) (normalized : string)
    : result HeartbeatTriggerCandidate HeartbeatCompileIssue :=
  let directive := to_ascii_lowercase first in
  match str_match directive [(["every"; "interval"], true); (["cron"], false)] with
  | Some true => parse_interval_heartbeat_line tokens line normalized
  | Some false => parse_cron_heartbeat_line tokens line normalized
  | None => Err (issue line "unsupported_directive" ("unsupported heartbeat directive `" +:+ directive +:+ "`"))
  end.

Definition MAX_CANDIDATES : Z := 128.
Definition limit_issue (line : Z) : HeartbeatCompileIssue :=
  issue line "candidate_limit_exceeded"
    ("maximum heartbeat candidate limit (" +:+ pretty MAX_CANDIDATES +:+ ") exceeded; remaining lines skipped").

Fixpoint compile_loop (ls : list string) (line found : Z) : HeartbeatCompileReport :=
  match ls with
  | [] => {| hr_candidates := []; hr_issues := [] |}
  | raw :: rest =>
      match heartbeat_directive raw with
      | None => compile_loop rest (line + 1) found
      | Some normalized =>
          if MAX_CANDIDATES <=? found then {| hr_candidates := []; hr_issues := [limit_issue line] |}
          else match tokenize_heartbeat_line normalized with
               | [] => compile_loop rest (line + 1) found
               | (first :: _) as tokens =>
                   match parse_heartbeat_line tokens first line normalized with
                   | Ok c => let r := compile_loop rest (line + 1) (found + 1) in
                             {| hr_candidates := c :: hr_candidates r; hr_issues := hr_issues r |}
                   | Err i => let r := compile_loop rest (line + 1) found in
                              {| hr_candidates := hr_candidates r; hr_issues := i :: hr_issues r |}
                   end
               end
      end
  end.
Definition compile_heartbeat_markdown (markdown : string) : HeartbeatCompileReport := compile_loop (lines markdown) 1 0.
End heartbeat.

(** * Tests of the crate *)

Example heartbeat_lines :
  let report := compile_heartbeat_markdown (fun e => if String.eqb e "bad cron" then Some "bad" else None) (fun _ => true)
    (String.concat (String newline "")
       ["# schedule"; "- every 900 recipe=show_notes_v1 max_inflight=2 jitter=5"; "every 30 recipe=too_fast"; "every 900 max_inflight=2"]) in
  map hc_recipe_id (hr_candidates report) = ["show_notes_v1"] /\
  map hi_code (hr_issues report) = ["interval_out_of_bounds"; "missing_recipe"].
Proof. split; vm_compute; reflexivity. Qed.

Example mutability_of_files :
  map classify_mutability ["AGENTS.md"; "USER.md"; "MEMORY.md"; "memory/2026-02-20.md"; "sessions/x.jsonl"; "../SOUL.md"; "memory/./a.md"] =
  [Some Immutable; Some HumanPrimary; Some AgentManaged; Some AgentManaged; Some AgentManaged; None; Some AgentManaged].
Proof. vm_compute; reflexivity. Qed.
