(* ===== verification/AgentContextProps.v ===== *)
(** What the loader of agent contexts and the heartbeat compiler promise: a snapshot
    stays within the limits of its configuration and says of every required file
    whether it was read; a candidate is within the bounds of triggers. *)
From stdpp Require Import pretty.
From S2P Require Import Prelude RustStr Json Sql Paths FileSystem FileStore AgentContext.

(** * Snapshots *)

Section load.
Context (sha256_hex : string -> string) (uuid_text : Uuid -> string).
Context (io : string -> option string) (s : file_store) (config : AgentContextLoaderConfig).

(** A file is the content found at its path, with its length and its digest. *)
Definition faithful_file (path : string) (f : AgentContextFile) : Prop :=
  file_content s path = Some (af_content f) /\ af_bytes f = len (af_content f) /\
  af_sha256 f = sha256_hex (af_content f) /\ valid_utf8 (af_content f) = true /\
  af_bytes f <= al_max_file_bytes config.

Lemma load_context_file_spec dir path rel slot st st' o :
  load_context_file sha256_hex io s config dir path rel slot st = Ok (st', o) ->
  match o with
  | None => ls_loaded_bytes st' = ls_loaded_bytes st
  | Some f => faithful_file path f /\ af_slot f = slot /\ af_relative_path f = rel /\
              ls_loaded_bytes st' = ls_loaded_bytes st + af_bytes f /\ ls_loaded_bytes st' <= al_max_total_bytes config
  end.
Proof.
  unfold load_context_file. destruct (negb (path_exists s path)); [by intros [= <- <-]|].
  destruct (negb (path_is_file s path)); [by intros [= <- <-]|].
  unfold metadata_len, fs_read. destruct (io path) as [e|]; [done|].
  destruct (file_content s path) as [b|] eqn:Hb; [|done]. cbn [ok_or fmap option_fmap option_map map_err].
  destruct (_ <? len b) eqn:H1; [by intros [= <- <-]|]. destruct (_ <? _ + len b) eqn:H2; [by intros [= <- <-]|].
  destruct (valid_utf8 b) eqn:Hu; cbn [negb]; [|by intros [= <- <-]]. intros [= <- <-].
  apply Z.ltb_ge in H1, H2. unfold faithful_file. cbn. by split_and!.
Qed.

Lemma sum_bytes_app l k : sum_bytes (l ++ k) = sum_bytes l + sum_bytes k.
Proof. unfold sum_bytes. induction l as [|f l IH]; [done|]. cbn [app foldr]. rewrite IH. lia. Qed.

(** The bytes a part of the loading adds, which never pass the total. *)
Definition adds_bytes (st st' : load_state) (files : list AgentContextFile) : Prop :=
  ls_loaded_bytes st' = ls_loaded_bytes st + sum_bytes files /\
  (ls_loaded_bytes st <= al_max_total_bytes config -> ls_loaded_bytes st' <= al_max_total_bytes config).

Lemma adds_bytes_nil st st' : ls_loaded_bytes st' = ls_loaded_bytes st -> adds_bytes st st' [].
Proof. intros H. unfold adds_bytes. cbn. lia. Qed.

Lemma adds_bytes_trans st1 st2 st3 l k : adds_bytes st1 st2 l -> adds_bytes st2 st3 k -> adds_bytes st1 st3 (l ++ k).
Proof. unfold adds_bytes. rewrite sum_bytes_app. lia. Qed.

Lemma adds_bytes_one dir path rel slot st st' o :
  load_context_file sha256_hex io s config dir path rel slot st = Ok (st', o) ->
  adds_bytes st st' match o with Some f => [f] | None => [] end.
Proof.
  intros H%load_context_file_spec. destruct o as [f|]; [|by apply adds_bytes_nil].
  unfold adds_bytes. cbn. lia.
Qed.

Lemma load_required_spec dir required st st' files missing :
  load_required sha256_hex io s config dir required st = Ok (st', files, missing) ->
  adds_bytes st st' files /\ Forall (fun f => faithful_file (path_join dir (af_slot f)) f) files /\
  map af_slot files ++ missing ≡ₚ required.
Proof.
  revert st st' files missing. induction required as [|r rest IH]; intros st st' files missing; cbn [load_required].
  { intros [= -> <- <-]. split_and!; [by apply adds_bytes_nil|constructor|done]. }
  unfold safe_join_relative. destruct (validate_relative_path r) as [u|]; [|done].
  destruct (load_context_file _ _ _ _ _ _ _ _ st) as [[st1 o]|] eqn:H1; [|done].
  destruct (load_required _ _ _ _ _ _ st1) as [[[st2 fs] ms]|] eqn:H2; [|done].
  destruct (IH _ _ _ _ H2) as (Ha & Hf & Hp). pose proof (adds_bytes_trans _ _ _ _ _ (adds_bytes_one _ _ _ _ _ _ _ H1) Ha) as Hb.
  apply load_context_file_spec in H1. destruct o as [f|]; intros [= -> <- <-]; (split; [exact Hb|]).
  - destruct H1 as (H1 & Hs & _). split; [constructor; [by rewrite Hs|done]|]. cbn. by rewrite Hs, Hp.
  - split; [done|]. by rewrite <- Permutation_middle, Hp.
Qed.

Lemma load_paths_spec dir prefix rels st st' files :
  load_paths sha256_hex io s config dir prefix rels st = Ok (st', files) ->
  adds_bytes st st' files /\ Forall (fun f => faithful_file (path_join dir (af_relative_path f)) f) files /\
  (length files <= length rels)%nat.
Proof.
  revert st st' files. induction rels as [|r rest IH]; intros st st' files; cbn [load_paths].
  { intros [= -> <-]. split_and!; [by apply adds_bytes_nil|constructor|done]. }
  destruct (load_context_file _ _ _ _ _ _ _ _ st) as [[st1 o]|] eqn:H1; [|done].
  destruct (load_paths _ _ _ _ _ _ _ st1) as [[st2 fs]|] eqn:H2; [|done].
  destruct (IH _ _ _ H2) as (Ha & Hf & Hl). pose proof (adds_bytes_trans _ _ _ _ _ (adds_bytes_one _ _ _ _ _ _ _ H1) Ha) as Hb.
  apply load_context_file_spec in H1. destruct o as [f|]; intros [= -> <-]; (split; [exact Hb|]).
  - destruct H1 as (H1 & _ & Hr & _). split; [constructor; [by rewrite Hr|done]|cbn; lia].
  - split; [done|cbn; lia].
Qed.

Lemma load_dynamic_spec dir subdir ext prefix st st' files :
  load_dynamic_context_files sha256_hex io s config dir subdir ext prefix st = Ok (st', files) ->
  adds_bytes st st' files /\ Forall (fun f => faithful_file (path_join dir (af_relative_path f)) f) files /\
  (length files <= Z.to_nat (al_max_dynamic_files_per_dir config))%nat.
Proof.
  assert (adds_bytes st st [] /\ Forall (fun f => faithful_file (path_join dir (af_relative_path f)) f) [] /\
    (length ([] : list AgentContextFile) <= Z.to_nat (al_max_dynamic_files_per_dir config))%nat) as H0
    by (split_and!; [by apply adds_bytes_nil|constructor|cbn; lia]).
  unfold load_dynamic_context_files. destruct (resolve_path _ _) as [d|]; [|by intros [= <- <-]].
  destruct (negb _); [by intros [= <- <-]|]. destruct (io _); [done|].
  intros (Ha & Hf & Hl)%load_paths_spec. split_and!; [done..|]. etrans; [exact Hl|].
  unfold dynamic_names. rewrite length_map, length_take. lia.
Qed.
End load.

(** C18: the limits of the loader hold of every snapshot: each file is the valid UTF-8
    text found at its path, with its true length and digest and at most the bytes of
    a file; all of them together are within the total; each directory gives at most
    its number of files; and every required file is loaded under its name or listed
    as missing, none twice. *)
Theorem snapshots_stay_within_the_limits sha uuid_text io s config now tenant agent snap
    (Htotal : 0 <= al_max_total_bytes config)
    (Hload : load_agent_context_snapshot sha uuid_text io s config now tenant agent = Ok snap) :
  Forall (fun f => faithful_file sha s config (path_join (as_source_dir snap) (af_slot f)) f) (as_required_files snap) /\
  Forall (fun f => faithful_file sha s config (path_join (as_source_dir snap) (af_relative_path f)) f)
    (as_memory_files snap ++ as_session_files snap) /\
  total_loaded_bytes snap <= al_max_total_bytes config /\
  Z.of_nat (length (as_memory_files snap)) <= Z.max 0 (al_max_dynamic_files_per_dir config) /\
  Z.of_nat (length (as_session_files snap)) <= Z.max 0 (al_max_dynamic_files_per_dir config) /\
  map af_slot (as_required_files snap) ++ as_missing_required_files snap ≡ₚ al_required_files config /\
  (as_source_dir snap = tenant_agent_dir uuid_text config tenant agent \/
   as_source_dir snap = flat_agent_dir uuid_text config agent).
Proof.
  revert Hload. unfold load_agent_context_snapshot. destruct (validate_loader_config config); [|done].
  destruct (resolve_source_dir uuid_text s config tenant agent) as [dir|] eqn:Hd; [|done].
  destruct (load_required _ _ _ _ _ _ _) as [[[st1 req] missing]|] eqn:H1; [|done].
  destruct (load_dynamic_context_files _ _ _ _ _ _ _ _ st1) as [[st2 mem]|] eqn:H2; [|done].
  destruct (load_dynamic_context_files _ _ _ _ _ _ _ _ st2) as [[st3 ses]|] eqn:H3; [|done].
  intros [= <-]. cbn. apply load_required_spec in H1 as (A1 & F1 & P1).
  apply load_dynamic_spec in H2 as (A2 & F2 & L2), H3 as (A3 & F3 & L3). split_and!; try done.
  - by apply Forall_app.
  - pose proof (adds_bytes_trans _ _ _ _ _ _ (adds_bytes_trans _ _ _ _ _ _ A1 A2) A3) as [A B]. cbn [ls_loaded_bytes] in A, B.
    unfold total_loaded_bytes, loaded_files. cbn [as_required_files as_memory_files as_session_files]. rewrite app_assoc. unfold sum_bytes in A. specialize (B Htotal). lia.
  - lia.
  - lia.
  - unfold resolve_source_dir in Hd. destruct (path_is_dir _ _); [left; by injection Hd as <-|].
    destruct (path_is_dir _ _); [right; by injection Hd as <-|done].
Qed.

(** Agent 7 of tenant t1, with files below [agents] and above the limits. *)
Definition t1_agent : real_path := ["srv"; "agents"; "t1"; "7"].
Definition demo_files (dir : real_path) (files : list (list string * string)) : file_store :=
  {| fs_nodes := list_to_map (map (fun i => (take i dir, Dir)) (seq 1 (length dir)) ++
                              [(dir ++ ["memory"], Dir); (dir ++ ["sessions"], Dir)] ++
                              map (fun '(p, _) => (dir ++ p, File)) files);
     fs_contents := list_to_map (map (fun '(p, c) => (dir ++ p, c)) files); fs_cwd := ["srv"] |}.
Definition demo_context : file_store :=
  demo_files t1_agent
    [(["USER.md"], "hi"); (["AGENTS.md"], "too long"); (["memory"; "a.md"], "abc"); (["memory"; "b.md"], "de");
     (["memory"; "c.txt"], "x"); (["sessions"; "s.jsonl"], "{}")].
Definition tight_config : AgentContextLoaderConfig :=
  {| al_root_dir := "agents"; al_required_files := ["AGENTS.md"; "USER.md"; "SOUL.md"]; al_max_file_bytes := 4;
     al_max_total_bytes := 5; al_max_dynamic_files_per_dir := 1 |}.

Definition demo_load := load_agent_context_snapshot (fun s => s) (fun _ => "7") (fun _ => None) demo_context tight_config 9 "t1" 7.

Example demo_load_reads :
  match demo_load with
  | Ok snap => map af_relative_path (loaded_files snap) = ["USER.md"; "memory/b.md"] /\
               as_missing_required_files snap = ["AGENTS.md"; "SOUL.md"] /\ length (as_warnings snap) = 2%nat
  | Err _ => False
  end.
Proof. vm_compute. done. Qed.

Lemma snapshots_stay_within_the_limits_witness :
  exists snap, demo_load = Ok snap /\ total_loaded_bytes snap <= 5 /\ Z.of_nat (length (as_memory_files snap)) <= 1.
Proof.
  assert (exists snap, demo_load = Ok snap) as [snap H] by (eexists; vm_compute; reflexivity).
  exists snap. destruct (snapshots_stay_within_the_limits (fun s => s) (fun _ => "7") (fun _ => None) demo_context
    tight_config 9 "t1" 7 snap ltac:(done) H) as (_ & _ & Ht & Hm & _).
  split_and!; [exact H|exact Ht|exact Hm].
Defined.

(** * Heartbeats *)

(** The bounds of a candidate. *)
Definition acceptable_options (inflight jitter : Z) : Prop := 1 <= inflight <= 1000 /\ 0 <= jitter <= 3600.

Definition acceptable (cron_error : string -> option string) (timezone_ok : string -> bool)
    (c : HeartbeatTriggerCandidate) : Prop :=
  acceptable_options (hc_max_inflight_runs c) (hc_jitter_seconds c) /\
  match hc_kind c with
  | Interval => exists n, hc_interval_seconds c = Some n /\ 60 <= n <= 31536000 /\
                          hc_cron_expression c = None /\ hc_timezone c = None
  | Cron => exists e z, hc_cron_expression c = Some e /\ hc_timezone c = Some z /\ hc_interval_seconds c = None /\
                        trim e = e /\ e <> "" /\ trim z = z /\ z <> "" /\ cron_error e = None /\ timezone_ok z = true
  end.

(** What the options hold while they are parsed. *)
Definition good_options (o : HeartbeatOptions) : Prop :=
  acceptable_options (ho_max_inflight_runs o) (ho_jitter_seconds o) /\
  (forall z, ho_timezone o = Some z -> trim z = z /\ z <> "").

Lemma bounded_option_Ok line lo hi v key code bcode bmsg n :
  bounded_option line lo hi v key code bcode bmsg = Ok n -> lo <= n <= hi.
Proof.
  unfold bounded_option. destruct (parse_i32 v) as [m|]; [|done]. cbn [ok_or].
  destruct (_ && _) eqn:B; [|done]. intros [= <-]. bool_hyps. lia.
Qed.

Lemma set_option_good line key v o o' :
  trim v = v -> v <> "" -> set_option line key v o = Ok o' -> good_options o -> good_options o'.
Proof.
  intros Hv Hne H [[[Hi1 Hi2] [Hj1 Hj2]] Hz]. revert H. unfold set_option.
  destruct (str_match key _) as [[|[|[|n]]]|]; [| | | |done].
  - by intros [= <-].
  - intros [= <-]. split; [done|]. by intros z [= <-].
  - destruct (bounded_option _ _ _ _ _ _ _ _) as [n|] eqn:B; [|done]. intros [= <-].
    apply bounded_option_Ok in B. split; [split; cbn; lia|done].
  - destruct (bounded_option _ _ _ _ _ _ _ _) as [m|] eqn:B; [|done]. intros [= <-].
    apply bounded_option_Ok in B. split; [split; cbn; lia|done].
Qed.

Lemma parse_options_good line tokens o o' :
  parse_options_loop line tokens o = Ok o' -> good_options o -> good_options o'.
Proof.
  revert o. induction tokens as [|token rest IH]; intros o; cbn [parse_options_loop]; [by intros [= <-]|].
  destruct (split_once "=" token) as [[k v]|]; [|done]. cbn [ok_or].
  destruct (is_empty (trim v)) eqn:Hv; [done|]. destruct (set_option _ _ _ _) as [o1|] eqn:H1; [|done].
  intros H2 Ho. apply (IH o1 H2). eapply set_option_good; [|..]; [| |exact H1|exact Ho]; [apply trim_idemp|].
  intros E. apply is_empty_spec in E. congruence.
Qed.

Lemma parse_heartbeat_options_good tokens line o : parse_heartbeat_options tokens line = Ok o -> good_options o.
Proof. intros H. eapply parse_options_good; [exact H|]. split; [unfold acceptable_options; cbn; lia|done]. Qed.

Section heartbeat.
Context (cron_error : string -> option string) (timezone_ok : string -> bool).
#[local] Abbreviation ok := (acceptable cron_error timezone_ok).

Lemma interval_line_acceptable tokens line src c :
  parse_interval_heartbeat_line tokens line src = Ok c -> ok c /\ hc_kind c = Interval.
Proof.
  unfold parse_interval_heartbeat_line. destruct tokens as [|d [|secs [|o os]]]; try done.
  destruct (parse_i64 secs) as [n|]; [|done]. cbn [ok_or]. destruct (_ && _) eqn:B; [|done].
  destruct (parse_heartbeat_options _ _) as [opts|] eqn:Ho; [|done].
  destruct (required_recipe _ _) as [r|]; [|done]. intros [= <-]. apply parse_heartbeat_options_good in Ho as [Hb _].
  split; [|done]. split; [exact Hb|]. cbn. exists n. bool_hyps. split_and!; try done; lia.
Qed.

Lemma cron_line_acceptable tokens line src c :
  parse_cron_heartbeat_line cron_error timezone_ok tokens line src = Ok c -> ok c /\ hc_kind c = Cron.
Proof.
  unfold parse_cron_heartbeat_line. destruct tokens as [|d [|expr [|o os]]]; try done.
  destruct (is_empty (trim expr)) eqn:He; [done|]. destruct (cron_error _) eqn:Hc; [done|].
  destruct (parse_heartbeat_options _ _) as [opts|] eqn:Ho; [|done].
  destruct (required_recipe _ _) as [r|]; [|done]. cbn zeta. destruct (timezone_ok _) eqn:Ht; [|done].
  intros [= <-]. apply parse_heartbeat_options_good in Ho as [Hb Hz]. split; [|done]. split; [exact Hb|]. cbn.
  exists (trim expr), (default "UTC" (ho_timezone opts)). split_and!; try done.
  - apply trim_idemp.
  - intros E. apply is_empty_spec in E. congruence.
  - destruct (ho_timezone opts) as [z|]; [by apply Hz|done].
  - destruct (ho_timezone opts) as [z|]; [by apply Hz|done].
Qed.

Lemma heartbeat_line_acceptable tokens first line src c :
  parse_heartbeat_line cron_error timezone_ok tokens first line src = Ok c -> ok c.
Proof.
  unfold parse_heartbeat_line. destruct (str_match _ _) as [[]|]; [| |done].
  - intros H. by apply interval_line_acceptable in H as [? _].
  - intros H. by apply cron_line_acceptable in H as [? _].
Qed.

Lemma compile_loop_candidates ls line found :
  let r := compile_loop cron_error timezone_ok ls line found in
  Forall (fun c => ok c /\ line <= hc_line c < line + Z.of_nat (length ls)) (hr_candidates r) /\
  Z.of_nat (length (hr_candidates r)) <= Z.max 0 (MAX_CANDIDATES - found) /\
  StronglySorted (fun a b => hc_line a < hc_line b) (hr_candidates r).
Proof.
  revert line found. induction ls as [|raw rest IH]; intros line found; cbn [compile_loop].
  { cbn. split_and!; [constructor|lia|constructor]. }
  destruct (heartbeat_directive raw) as [normalized|].
  2: { destruct (IH (line + 1) found) as (H1 & H2 & H3). split_and!; [|done..].
       eapply Forall_impl; [exact H1|]. cbn. intros c [? ?]. split; [done|lia]. }
  destruct (MAX_CANDIDATES <=? found) eqn:Hm; [cbn; split_and!; [constructor|lia|constructor]|].
  destruct (tokenize_heartbeat_line normalized) as [|first tokens].
  { destruct (IH (line + 1) found) as (H1 & H2 & H3). split_and!; [|done..].
    eapply Forall_impl; [exact H1|]. cbn. intros c [? ?]. split; [done|lia]. }
  destruct (parse_heartbeat_line _ _ _ _ _ _) as [c|i] eqn:Hp; cbn zeta.
  - pose proof (heartbeat_line_acceptable _ _ _ _ _ Hp) as Hc.
    assert (hc_line c = line) as Hl.
    { revert Hp. unfold parse_heartbeat_line, parse_interval_heartbeat_line, parse_cron_heartbeat_line.
      destruct (str_match _ _) as [[]|]; [| |done]; destruct tokens as [|t1 [|t2 ts]]; try done.
      - destruct (parse_i64 _); [|done]. cbn [ok_or]. destruct (_ && _); [|done].
        destruct (parse_heartbeat_options _ _); [|done]. destruct (required_recipe _ _); [|done]. by intros [= <-].
      - destruct (is_empty _); [done|]. destruct (cron_error _); [done|].
        destruct (parse_heartbeat_options _ _); [|done]. destruct (required_recipe _ _); [|done]. cbn zeta.
        destruct (timezone_ok _); [|done]. by intros [= <-]. }
    destruct (IH (line + 1) (found + 1)) as (H1 & H2 & H3). cbn. unfold MAX_CANDIDATES in *. bool_hyps. split_and!.
    + constructor; [split; [done|lia]|]. eapply Forall_impl; [exact H1|]. cbn. intros c' [? ?]. split; [done|lia].
    + lia.
    + constructor; [done|]. eapply Forall_impl; [exact H1|]. cbn. intros c' [_ ?]. lia.
  - destruct (IH (line + 1) found) as (H1 & H2 & H3). cbn. split_and!; [|done..].
    eapply Forall_impl; [exact H1|]. cbn. intros c [? ?]. split; [done|lia].
Qed.
End heartbeat.

(** The compiler returns at most 128 candidates, in the order of their lines, each
    within the bounds of a schedule. *)
Theorem heartbeat_candidates_are_acceptable cron_error timezone_ok markdown :
  let r := compile_heartbeat_markdown cron_error timezone_ok markdown in
  Forall (acceptable cron_error timezone_ok) (hr_candidates r) /\
  Z.of_nat (length (hr_candidates r)) <= MAX_CANDIDATES /\
  StronglySorted (fun a b => hc_line a < hc_line b) (hr_candidates r).
Proof.
  destruct (compile_loop_candidates cron_error timezone_ok (lines markdown) 1 0) as (H1 & H2 & H3).
  cbn. split_and!; [|done..]. eapply Forall_impl; [exact H1|]. by intros c [? _].
Qed.
