(* ===== verification/World.v ===== *)
(** The effects of a worker: a state and error monad over the database, a journal
    of what has been done, and the environment (clock, identifiers, failures,
    other sessions).  Every database call and every file write takes one tick,
    and the environment is indexed by ticks, so a theorem that quantifies over
    it holds for every timing, failure and interference.

    A failed database call may or may not have taken effect: the connection can
    break before or after the commit. *)
From S2P Require Import Prelude RustStr Json Sql Runs RunQueue Tables Action.
From S2P Require Import TriggerTables PaymentRoutes LlmTables MemoryTables.

(** [anyhow::Error]; a panic, which only a mock LLM endpoint can cause, is an
    error that [try] does not tell from the others. *)
Inductive error :=
| SqlError (e : db_error)
| DriverError (message : string)
| Anyhow (message : string)
| Context (context : string) (cause : error)
| Panicked.

(** A request to a payment rail: the URI it goes to, for which destination,
    operation, amount and row of [payment_requests]. *)
Record payment_submission := {
  ps_provider : string; ps_target : string; ps_route : string; ps_operation : string;
  ps_amount_msat : option Z; ps_request_id : Uuid;
}.

Inductive effect :=
| RunCreated (n : NewRun)
| Audited (e : NewAuditEvent)
| StepCreated (id : Uuid)
| StepClosed (id : Uuid) (status : string)
| RequestCreated (id : Uuid) (n : NewActionRequest)
| RequestStatus (id : Uuid) (status : string) (reason : option string)
| ResultStored (id : Uuid) (status : string)
| SkillReturned (requests : list SkillAction)
| Executing (id : Uuid) (action : SkillAction)
| FileWritten (path : string) (content : string)
| FileAppended (path : string) (content : string)
| RunsRequeued (n : Z)
| RunClaimed (run : RunLeaseRecord)
| RunRenewed (id : Uuid)
| RunFinished (id : Uuid) (status : run_status)
| SlackPosted (channel : string) (text : string)
| PaymentSubmitted (p : payment_submission)
| TriggerCreated (t : TriggerRecord)
| TriggerChanged (t : TriggerRecord)
| TriggerFired (r : TriggerDispatchRecord)
| EventQueued (trigger_id : Uuid) (event_id : string)
| TriggerAudited (n : NewTriggerAuditEvent)
| MemoryRecorded (n : NewMemoryRecord)
| MemoriesCompacted (ids : list Uuid)
| CompactionRecorded (n : NewMemoryCompactionRecord)
| MemoriesPurged (tenant_id : string) (as_of : Z) (deleted : Z)
| LlmPosted (purpose : string) (url : string) (request : ChatCompletionRequest)
| Slept (ms : Z).

(** What is outside the program: [env_fault t] is the failure of the call made
    at tick [t], with whether it was committed; [env_other t] is what other
    sessions did to the runs before it; [env_io t] the failure of a file
    operation; [env_stmt_clock t i] the time of the [i]-th statement of a call that
    makes several; [env_pool] is the database the process is connected to;
    [env_other_payments], [env_other_triggers], [env_other_llm] and [env_other_memory] are what other
    sessions did to the payment, trigger, LLM and memory tables. *)
Record env := {
  env_pool : DbPool;
  env_clock : nat -> Z;
  env_stmt_clock : nat -> nat -> Z;
  env_uuid : nat -> Uuid;
  env_fault : nat -> option (bool * string);
  env_io : nat -> option string;
  env_other : nat -> list run -> list run;
  env_other_payments : nat -> list PaymentRequestRecord * list PaymentResultRecord ->
                       list PaymentRequestRecord * list PaymentResultRecord;
  env_other_triggers : nat -> trigger_tables -> trigger_tables;
  env_other_llm : nat -> llm_tables -> llm_tables;
  env_other_memory : nat -> memory_tables -> memory_tables;
  env_uuid_text : Uuid -> string;
  env_time_json : Z -> json;
  env_sql_text : db_error -> string;
}.

(** [{error:#}] *)
Fixpoint render_error (E : env) (e : error) : string :=
  match e with
  | SqlError d => env_sql_text E d
  | DriverError m | Anyhow m => m
  | Context context cause => context +:+ ": " +:+ render_error E cause
  | Panicked => "panicked"
  end.

(** [error.to_string()] *)
Definition error_to_string (E : env) (e : error) : string :=
  match e with Context context _ => context | _ => render_error E e end.

Section world.
Context {X : Type}.

(** [w_ext] is the state of the executors that are arguments of the model,
    [w_routes] the process-wide map of the health of payment routes. *)
Record world := {
  w_db : db; w_journal : list effect; w_tick : nat; w_ext : X;
  w_routes : gmap string PaymentRouteHealthEntry; w_llm : llm_process;
}.

Definition M (A : Type) : Type := world -> result A error * world.

Definition ret {A} (a : A) : M A := fun w => (Ok a, w).
Definition throw {A} (e : error) : M A := fun w => (Err e, w).

(** [m.await?] followed by the rest. *)
Definition bind {A B} (m : M A) (k : A -> M B) : M B :=
  fun w => match m w with
           | (Ok a, w') => k a w'
           | (Err e, w') => (Err e, w')
           end.

(** [match m.await { Ok(a) => .., Err(e) => .. }] *)
Definition try {A B} (m : M A) (k : result A error -> M B) : M B :=
  fun w => let '(r, w') := m w in k r w'.

Definition lift {A} (r : result A error) : M A := fun w => (r, w).

Definition note (e : effect) : M unit :=
  fun w => (Ok tt, {| w_db := w_db w; w_journal := w_journal w ++ [e]; w_tick := w_tick w;
                      w_ext := w_ext w;
                  w_routes := w_routes w; w_llm := w_llm w |}).

Section with_env.
Context (E : env).

(** [Uuid::new_v4()] *)
Definition new_v4 : M Uuid :=
  fun w => (Ok (env_uuid E (w_tick w)),
            {| w_db := w_db w; w_journal := w_journal w; w_tick := S (w_tick w);
               w_ext := w_ext w;
                  w_routes := w_routes w; w_llm := w_llm w |}).

(** [OffsetDateTime::now_utc()] *)
Definition now_utc : M Z := fun w => (Ok (env_stmt_clock E (w_tick w) 0), w).

(** The database as this call finds it: other sessions may have moved runs. *)
Definition observed (w : world) : db :=
  let d := w_db w in
  let d := with_rows d (env_other E (w_tick w) (db_runs (d_core d))) in
  let d := with_triggers d (env_other_triggers E (w_tick w) (d_triggers d)) in
  let d := with_llm d (env_other_llm E (w_tick w) (d_llm d)) in
  let d := with_memory d (env_other_memory E (w_tick w) (d_memory d)) in
  let '(requests, results) :=
    env_other_payments E (w_tick w) (d_payment_requests d, d_payment_results d) in
  with_payments d requests results.

(** One database call. *)
Definition stmt {A} (f : Z -> db -> result (db * A) db_error) (log : A -> list effect) : M A :=
  fun w =>
    let d := observed w in
    let at_db d' j := {| w_db := d'; w_journal := w_journal w ++ j;
                         w_tick := S (w_tick w); w_ext := w_ext w;
                  w_routes := w_routes w; w_llm := w_llm w |} in
    match env_fault E (w_tick w) with
    | Some (false, m) => (Err (DriverError m), at_db d [])
    | fault =>
        match f (env_clock E (w_tick w)) d with
        | Err e => (Err (SqlError e), at_db d [])
        | Ok (d', a) =>
            (match fault with Some (_, m) => Err (DriverError m) | None => Ok a end,
             at_db d' (log a))
        end
    end.

(** A call on the runs that makes several statements: an error does not undo
    those before it. *)
Definition runs_call {A} (f : (nat -> Z) -> list run -> list run * result A db_error)
    (log : A -> list effect) : M A :=
  fun w =>
    let d := observed w in
    let at_db d' j := {| w_db := d'; w_journal := w_journal w ++ j;
                         w_tick := S (w_tick w); w_ext := w_ext w;
                  w_routes := w_routes w; w_llm := w_llm w |} in
    match env_fault E (w_tick w) with
    | Some (false, m) => (Err (DriverError m), at_db d [])
    | fault =>
        match f (env_stmt_clock E (w_tick w)) (db_runs (d_core d)) with
        | (rows', Err e) => (Err (SqlError e), at_db (with_rows d rows') [])
        | (rows', Ok a) =>
            (match fault with Some (_, m) => Err (DriverError m) | None => Ok a end,
             at_db (with_rows d rows') (log a))
        end
    end.

(** [fs::create_dir_all] of the parent and [fs::write]. *)
Definition fs_write (path content : string) : M unit :=
  fun w =>
    match env_io E (w_tick w) with
    | Some m => (Err (Anyhow m), {| w_db := w_db w; w_journal := w_journal w;
                                    w_tick := S (w_tick w); w_ext := w_ext w;
                  w_routes := w_routes w; w_llm := w_llm w |})
    | None => (Ok tt, {| w_db := w_db w; w_journal := w_journal w ++ [FileWritten path content];
                         w_tick := S (w_tick w); w_ext := w_ext w;
                  w_routes := w_routes w; w_llm := w_llm w |})
    end.
End with_env.

(** Work on the map of route health under its lock, at an instant. *)
Definition on_routes {A} (E : env)
    (f : Z -> gmap string PaymentRouteHealthEntry -> gmap string PaymentRouteHealthEntry * A) : M A :=
  fun w => let '(routes, a) := f (env_clock E (w_tick w)) (w_routes w) in
           (Ok a, {| w_db := w_db w; w_journal := w_journal w; w_tick := S (w_tick w);
                     w_ext := w_ext w; w_routes := routes; w_llm := w_llm w |}).

(** Work on the cache and the counters of the LLM gateway under their locks. *)
Definition on_llm {A} (f : llm_process -> llm_process * A) : M A :=
  fun w => let '(llm, a) := f (w_llm w) in
           (Ok a, {| w_db := w_db w; w_journal := w_journal w; w_tick := w_tick w; w_ext := w_ext w;
                     w_routes := w_routes w; w_llm := llm |}).

(** A call of code outside the program that answers and changes nothing here. *)
Definition ask {A} (f : nat -> A) : M A :=
  fun w => (Ok (f (w_tick w)), {| w_db := w_db w; w_journal := w_journal w;
                                  w_tick := S (w_tick w); w_ext := w_ext w;
                  w_routes := w_routes w; w_llm := w_llm w |}).
End world.
Arguments world : clear implicits.
Arguments M : clear implicits.

Declare Scope monad_scope.
Delimit Scope monad_scope with monad.
Notation "'let!' x ':=' m 'in' k" := (bind m (fun x => k))
  (at level 10, x pattern, m at level 100, k at level 200) : monad_scope.
Notation "m ;; k" := (bind m (fun _ => k)) (at level 100, k at level 200, right associativity) : monad_scope.
#[global] Open Scope monad_scope.

(** A statement that cannot fail in SQL. *)
Definition total {A} (f : Z -> db -> db * A) : Z -> db -> result (db * A) db_error :=
  fun now d => Ok (f now d).

Definition no_value (f : Z -> db -> result db db_error) : Z -> db -> result (db * unit) db_error :=
  fun now d => let? d' := f now d in Ok (d', tt).

(** * Journals *)

(** What a computation adds to the journal, whatever its outcome: [m] started in
    a world satisfying [P] only appends journals in [J], and [Q] holds after. *)
Definition appends {X A} (m : M X A) (w : world X) (j : list effect) : Prop :=
  w_journal (m w).2 = w_journal w ++ j.

Lemma appends_from_empty {X A} (m : M X A) (w : world X) :
  w_journal w = [] -> appends m w (w_journal (m w).2).
Proof. unfold appends. by intros ->. Qed.

Section triples.
Context {X : Type}.

(** Partial-correctness triples over journals: [T] relates the result to the
    appended journal. *)
Definition emits {A} (m : M X A) (T : result A error -> list effect -> Prop) : Prop :=
  forall w, exists j, appends m w j /\ T (m w).1 j.

Lemma emits_weaken {A} (m : M X A) (T T' : result A error -> list effect -> Prop) :
  emits m T -> (forall r j, T r j -> T' r j) -> emits m T'.
Proof. intros H HT w. destruct (H w) as (j & ? & ?). exists j. auto. Qed.

Lemma emits_ret {A} (a : A) : emits (ret a : M X A) (fun r j => r = Ok a /\ j = []).
Proof. intros w. exists []. unfold appends. simpl. by rewrite app_nil_r. Qed.

Lemma emits_throw {A} e : emits (throw e : M X A) (fun r j => r = Err e /\ j = []).
Proof. intros w. exists []. unfold appends. simpl. by rewrite app_nil_r. Qed.

Lemma emits_lift {A} (x : result A error) : emits (lift x : M X A) (fun r j => r = x /\ j = []).
Proof. intros w. exists []. unfold appends. simpl. by rewrite app_nil_r. Qed.

Lemma emits_note e : emits (note e : M X unit) (fun r j => r = Ok tt /\ j = [e]).
Proof. intros w. by exists [e]. Qed.

Lemma emits_try {A B} (m : M X A) (k : result A error -> M X B) T U :
  emits m T -> (forall r, emits (k r) (U r)) ->
  emits (try m k) (fun r j => exists r1 j1 j2, j = j1 ++ j2 /\ T r1 j1 /\ U r1 r j2).
Proof.
  intros Hm Hk w. destruct (Hm w) as (j1 & Hj1 & HT). unfold appends, try in *.
  destruct (m w) as [r1 w1]; simpl in *. destruct (Hk r1 w1) as (j2 & Hj2 & HU).
  exists (j1 ++ j2). unfold appends in Hj2. rewrite Hj2, Hj1, app_assoc. split; [done|].
  by exists r1, j1, j2.
Qed.

Lemma emits_bind_lift {A B} (x : result A error) (k : A -> M X B) T :
  (forall a, x = Ok a -> emits (k a) T) -> (forall e, T (Err e) []) -> emits (bind (lift x) k) T.
Proof.
  intros Hk He w. unfold appends, bind, lift. destruct x as [a|e]; [exact (Hk a eq_refl w)|].
  exists []. simpl. rewrite app_nil_r. split; [done|apply He].
Qed.

Lemma emits_bind_note {A} e (k : unit -> M X A) T :
  emits (k tt) T -> emits (bind (note e) k) (fun r j => exists j', j = e :: j' /\ T r j').
Proof.
  intros Hk w. unfold appends, bind, note.
  edestruct Hk as (j & Hj & HT). exists (e :: j). unfold appends in Hj. rewrite Hj.
  cbn [w_journal]. rewrite <- app_assoc. split; [done|]. by exists j.
Qed.

Lemma emits_appends {A} (m : M X A) T w j : emits m T -> appends m w j -> T (m w).1 j.
Proof.
  intros H Hj. destruct (H w) as (j' & Hj' & HT). unfold appends in *.
  rewrite Hj' in Hj. by apply app_inv_head in Hj as <-.
Qed.

(** The same from the worlds whose database satisfies [I], and computations that
    keep [I]. *)
Definition yields {A} (I : db -> Prop) (m : M X A) (T : result A error -> list effect -> Prop) : Prop :=
  forall w, I (w_db w) -> exists j, appends m w j /\ T (m w).1 j.

Definition keeps {A} (I : db -> Prop) (m : M X A) : Prop :=
  forall w, I (w_db w) -> I (w_db (m w).2).

Lemma yields_emits {A} I (m : M X A) T : emits m T -> yields I m T.
Proof. intros H w _. apply H. Qed.

Lemma yields_weaken {A} I (m : M X A) (T T' : result A error -> list effect -> Prop) :
  yields I m T -> (forall r j, T r j -> T' r j) -> yields I m T'.
Proof. intros H HT w Hw. destruct (H w Hw) as (j & ? & ?). exists j. auto. Qed.

Lemma yields_bind {A B} I (m : M X A) (k : A -> M X B) T U :
  keeps I m -> yields I m T -> (forall a, yields I (k a) (U a)) ->
  yields I (bind m k) (fun r j =>
    (exists e, r = Err e /\ T (Err e) j) \/
    (exists a j1 j2, j = j1 ++ j2 /\ T (Ok a) j1 /\ U a r j2)).
Proof.
  intros Hkeep Hm Hk w Hw. specialize (Hkeep w Hw).
  destruct (Hm w Hw) as (j1 & Hj1 & HT). unfold appends, bind in *.
  destruct (m w) as [[a|e] w1]; simpl in *.
  - destruct (Hk a w1 Hkeep) as (j2 & Hj2 & HU). exists (j1 ++ j2). unfold appends in Hj2.
    rewrite Hj2, Hj1, app_assoc. split; [done|]. right. by exists a, j1, j2.
  - exists j1. split; [done|]. left. by exists e.
Qed.

Lemma emits_bind {A B} (m : M X A) (k : A -> M X B) T U :
  emits m T -> (forall a, emits (k a) (U a)) ->
  emits (bind m k) (fun r j =>
    (exists e, r = Err e /\ T (Err e) j) \/
    (exists a j1 j2, j = j1 ++ j2 /\ T (Ok a) j1 /\ U a r j2)).
Proof.
  intros Hm Hk w. apply (yields_bind (fun _ => True)); [done| |intros a|done]; by apply yields_emits.
Qed.

Lemma yields_appends {A} I (m : M X A) T w j :
  yields I m T -> I (w_db w) -> appends m w j -> T (m w).1 j.
Proof.
  intros H Hw Hj. destruct (H w Hw) as (j' & Hj' & HT). unfold appends in *.
  rewrite Hj' in Hj. by apply app_inv_head in Hj as <-.
Qed.

Lemma keeps_ret {A} I (a : A) : keeps I (ret a : M X A).
Proof. by intros w Hw. Qed.

Lemma keeps_throw {A} I e : keeps I (throw e : M X A).
Proof. by intros w Hw. Qed.

Lemma keeps_lift {A} I (r : result A error) : keeps I (lift r : M X A).
Proof. by intros w Hw. Qed.

Lemma keeps_note I e : keeps I (note e : M X unit).
Proof. by intros w Hw. Qed.

Lemma keeps_ask {A} I (f : nat -> A) : keeps I (ask f : M X A).
Proof. by intros w Hw. Qed.

Lemma keeps_new_v4 I E : keeps I (new_v4 E : M X Uuid).
Proof. by intros w Hw. Qed.

Lemma keeps_on_routes {A} I E
    (f : Z -> gmap string PaymentRouteHealthEntry -> gmap string PaymentRouteHealthEntry * A) :
  keeps I (on_routes E f : M X A).
Proof. intros w Hw. unfold on_routes. by destruct (f _ _). Qed.

Lemma keeps_fs_write I E p c : keeps I (fs_write E p c : M X unit).
Proof. intros w Hw. unfold fs_write. by destruct (env_io E _). Qed.

Lemma keeps_try {A B} I (m : M X A) (k : result A error -> M X B) :
  keeps I m -> (forall r, keeps I (k r)) -> keeps I (try m k).
Proof.
  intros Hm Hk w Hw. specialize (Hm w Hw). unfold try. destruct (m w) as [r w1]. by apply Hk.
Qed.

Lemma keeps_bind {A B} I (m : M X A) (k : A -> M X B) :
  keeps I m -> (forall a, keeps I (k a)) -> keeps I (bind m k).
Proof.
  intros Hm Hk w Hw. specialize (Hm w Hw). unfold bind. destruct (m w) as [[a|e] w1]; [|done].
  by apply Hk.
Qed.

Lemma emits_new_v4 E : emits (new_v4 E : M X Uuid) (fun r j => is_ok r = true /\ j = []).
Proof. intros w. exists []. unfold appends. simpl. by rewrite app_nil_r. Qed.

Lemma emits_on_llm {A} (f : llm_process -> llm_process * A) :
  emits (on_llm f) (fun r j => is_ok r = true /\ j = []).
Proof.
  intros w. exists []. unfold appends, on_llm. destruct (f _). simpl. by rewrite app_nil_r.
Qed.

Lemma keeps_on_llm {A} I (f : llm_process -> llm_process * A) : keeps I (on_llm f).
Proof. intros w Hw. unfold on_llm. by destruct (f _). Qed.

Lemma emits_on_routes {A} E
    (f : Z -> gmap string PaymentRouteHealthEntry -> gmap string PaymentRouteHealthEntry * A) :
  emits (on_routes E f) (fun r j => is_ok r = true /\ j = []).
Proof.
  intros w. exists []. unfold appends, on_routes. destruct (f _ _). simpl. by rewrite app_nil_r.
Qed.

(** Interference and statements that preserve [I]. *)
Definition stable (I : db -> Prop) (E : env) : Prop :=
  forall w : world X, I (w_db w) -> I (observed E w).

Lemma keeps_stmt {A} I E (f : Z -> db -> result (db * A) db_error) log :
  stable I E -> (forall now d d' a, f now d = Ok (d', a) -> I d -> I d') ->
  keeps I (stmt E f log : M X A).
Proof.
  intros HI Hf w Hw%HI. unfold stmt.
  destruct (env_fault E (w_tick w)) as [[[] m]|]; [|done|];
    destruct (f _ _) as [[d' a]|e] eqn:F; cbn; try done; by eapply Hf.
Qed.

Lemma keeps_runs_call {A} I E (f : (nat -> Z) -> list run -> list run * result A db_error) log :
  stable I E -> (forall clock d, I d -> I (with_rows d (f clock (db_runs (d_core d))).1)) ->
  keeps I (runs_call E f log : M X A).
Proof.
  intros HI Hf w Hw%HI. unfold runs_call.
  destruct (env_fault E (w_tick w)) as [[[] m]|]; [|done|];
    specialize (Hf (env_stmt_clock E (w_tick w)) _ Hw);
    destruct (f _ _) as [rows' [a|e]]; by cbn.
Qed.

Lemma emits_ask {A} (f : nat -> A) : emits (ask f : M X A) (fun r j => is_ok r = true /\ j = []).
Proof. intros w. exists []. unfold appends. simpl. by rewrite app_nil_r. Qed.

(** A database call that succeeds has logged its effect; one that fails has
    logged it or nothing. *)
Lemma emits_stmt {A} E (f : Z -> db -> result (db * A) db_error) log :
  emits (stmt E f log : M X A) (fun r j =>
    match r with
    | Ok a => j = log a
    | Err _ => j = [] \/ exists a, j = log a
    end).
Proof.
  intros w. unfold appends, stmt.
  destruct (env_fault E (w_tick w)) as [[[] m]|]; simpl;
    [| |]; try destruct (f _ _) as [[d' a]|e]; simpl;
    eexists; (split; [reflexivity|]); eauto.
Qed.

Lemma stmt_Ok {A} E (f : Z -> db -> result (db * A) db_error) log (w w' : world X) a :
  stmt E f log w = (Ok a, w') ->
  exists now, f now (observed E w) = Ok (w_db w', a) /\ w_journal w' = w_journal w ++ log a.
Proof.
  unfold stmt. destruct (env_fault E (w_tick w)) as [[[] m]|];
    try destruct (f _ _) as [[d' a']|e] eqn:F; intros H; try discriminate H.
  injection H as <- <-. by eexists.
Qed.

(** The value it answers was computed by [f]. *)
Lemma emits_stmt_value {A} E (f : Z -> db -> result (db * A) db_error) log :
  emits (stmt E f log : M X A) (fun r j =>
    match r with
    | Ok a => j = log a /\ exists now d d', f now d = Ok (d', a)
    | Err _ => j = [] \/ exists a, j = log a /\ exists now d d', f now d = Ok (d', a)
    end).
Proof.
  intros w. unfold appends, stmt.
  destruct (env_fault E (w_tick w)) as [[[] m]|]; simpl;
    [| |]; try destruct (f _ _) as [[d' a]|e] eqn:F; simpl;
    first [by exists (log a); eauto 10|by exists []; rewrite app_nil_r; auto].
Qed.

Lemma emits_runs_call {A} E (f : (nat -> Z) -> list run -> list run * result A db_error) log :
  emits (runs_call E f log : M X A) (fun r j =>
    match r with
    | Ok a => j = log a
    | Err _ => j = [] \/ exists a, j = log a
    end).
Proof.
  intros w. unfold appends, runs_call.
  destruct (env_fault E (w_tick w)) as [[[] m]|]; simpl;
    [| |]; try destruct (f _ _) as [rows' [a|e]]; simpl;
    eexists; (split; [reflexivity|]); eauto.
Qed.

Lemma emits_fs_write E p c : emits (fs_write E p c : M X unit) (fun r j =>
  match r with Ok _ => j = [FileWritten p c] | Err _ => j = [] end).
Proof.
  intros w. unfold appends, fs_write. destruct (env_io E (w_tick w)); simpl.
  - exists []. by rewrite app_nil_r.
  - by exists [FileWritten p c].
Qed.
End triples.

(** * Safety of journals *)

(** Everything [m] adds to the journal, whatever its outcome, satisfies [P]. *)
Section only.
Context {X : Type}.

Definition only {A} (P : effect -> Prop) (m : M X A) : Prop :=
  forall w, exists j, appends m w j /\ Forall P j.

(** [a] is a possible result. *)
Definition returns {A} (m : M X A) (a : A) : Prop := exists w, (m w).1 = Ok a.

Lemma only_emits {A} P (m : M X A) T :
  emits m T -> (forall r j, T r j -> Forall P j) -> only P m.
Proof. intros H HT w. destruct (H w) as (j & ? & ?). eauto. Qed.

Lemma emits_only {A} (P : effect -> Prop) (m : M X A) : only P m -> emits m (fun _ j => Forall P j).
Proof. done. Qed.

Lemma only_ret {A} P (a : A) : only P (ret a : M X A).
Proof. eapply only_emits; [apply emits_ret|]. by intros ? ? [_ ->]. Qed.

Lemma only_throw {A} P e : only P (throw e : M X A).
Proof. eapply only_emits; [apply emits_throw|]. by intros ? ? [_ ->]. Qed.

Lemma only_lift {A} P (r : result A error) : only P (lift r : M X A).
Proof. eapply only_emits; [apply emits_lift|]. by intros ? ? [_ ->]. Qed.

Lemma only_note (P : effect -> Prop) e : P e -> only P (note e : M X unit).
Proof. intros H. eapply only_emits; [apply emits_note|]. intros ? ? [_ ->]. by constructor. Qed.

Lemma only_new_v4 P E : only P (new_v4 E : M X Uuid).
Proof. eapply only_emits; [apply emits_new_v4|]. by intros ? ? [_ ->]. Qed.

Lemma only_ask {A} P (f : nat -> A) : only P (ask f : M X A).
Proof. eapply only_emits; [apply emits_ask|]. by intros ? ? [_ ->]. Qed.

Lemma only_on_routes {A} P E
    (f : Z -> gmap string PaymentRouteHealthEntry -> gmap string PaymentRouteHealthEntry * A) :
  only P (on_routes E f : M X A).
Proof. eapply only_emits; [apply emits_on_routes|]. by intros ? ? [_ ->]. Qed.

Lemma only_on_llm {A} P (f : llm_process -> llm_process * A) : only P (on_llm f : M X A).
Proof. eapply only_emits; [apply emits_on_llm|]. by intros ? ? [_ ->]. Qed.

Lemma only_stmt {A} (P : effect -> Prop) E (f : Z -> db -> result (db * A) db_error) log :
  (forall a, Forall P (log a)) -> only P (stmt E f log : M X A).
Proof.
  intros H. eapply only_emits; [apply emits_stmt|].
  intros [a|e] j; [by intros ->|]. by intros [->|[a ->]].
Qed.

Lemma only_runs_call {A} (P : effect -> Prop) E (f : (nat -> Z) -> list run -> list run * result A db_error) log :
  (forall a, Forall P (log a)) -> only P (runs_call E f log : M X A).
Proof.
  intros H. eapply only_emits; [apply emits_runs_call|].
  intros [a|e] j; [by intros ->|]. by intros [->|[a ->]].
Qed.

Lemma only_fs_write (P : effect -> Prop) E p c :
  P (FileWritten p c) -> only P (fs_write E p c : M X unit).
Proof.
  intros H. eapply only_emits; [apply emits_fs_write|]. intros [a|e] j ->; by repeat constructor.
Qed.

Lemma only_bind {A B} P (m : M X A) (k : A -> M X B) :
  only P m -> (forall a, returns m a -> only P (k a)) -> only P (bind m k).
Proof.
  intros Hm Hk w. destruct (Hm w) as (j1 & H1 & F1). unfold appends, bind in *.
  destruct (m w) as [[a|e] w1] eqn:E; simpl in *; [|by exists j1].
  destruct (Hk a) with (w := w1) as (j2 & H2 & F2); [by exists w; rewrite E|].
  exists (j1 ++ j2). unfold appends in H2. rewrite H2, H1, app_assoc.
  split; [done|]. by apply Forall_app.
Qed.

(** [only], with a property of the result. *)
Definition only_ok {A} (P : effect -> Prop) (Q : A -> Prop) (m : M X A) : Prop :=
  emits m (fun r j => Forall P j /\ forall a, r = Ok a -> Q a).

Lemma only_only_ok {A} P (Q : A -> Prop) (m : M X A) : only P m -> (forall a, Q a) -> only_ok P Q m.
Proof. intros Hm HQ w. destruct (Hm w) as (j & Hj & HF). exists j. split; [exact Hj|]. by split. Qed.

Lemma only_ok_ret {A} P (Q : A -> Prop) a : Q a -> only_ok P Q (ret a : M X A).
Proof. intros HQ. eapply emits_weaken; [apply emits_ret|]. intros r j [-> ->]. by split; [|intros ? [= <-]]. Qed.

Lemma only_ok_bind {A B} P (Q : B -> Prop) (m : M X A) (k : A -> M X B) :
  only P m -> (forall a, only_ok P Q (k a)) -> only_ok P Q (bind m k).
Proof.
  intros Hm Hk. eapply emits_weaken;
    [apply (emits_bind m k (fun _ => Forall P) (fun _ r j => Forall P j /\ forall b, r = Ok b -> Q b) Hm Hk)|].
  cbn beta. intros r j [(e & -> & H)|(a & j1 & j2 & -> & H1 & H2 & H3)]; [done|].
  split; [by apply Forall_app|done].
Qed.

Lemma only_try {A B} P (m : M X A) (k : result A error -> M X B) :
  only P m -> (forall r, only P (k r)) -> only P (try m k).
Proof.
  intros Hm Hk w. destruct (Hm w) as (j1 & H1 & F1). unfold appends, try in *.
  destruct (m w) as [r w1]; simpl in *. destruct (Hk r w1) as (j2 & H2 & F2).
  exists (j1 ++ j2). unfold appends in H2. rewrite H2, H1, app_assoc.
  split; [done|]. by apply Forall_app.
Qed.

Lemma returns_lift {A} (r : result A error) a : returns (lift r : M X A) a -> r = Ok a.
Proof. by intros [w H]. Qed.

Lemma only_appends {A} P (m : M X A) w j : only P m -> appends m w j -> Forall P j.
Proof. apply (emits_appends m (fun _ => Forall P)). Qed.
End only.

#[export] Hint Resolve only_ret only_throw only_lift only_new_v4 only_ask only_on_routes
  only_on_llm keeps_on_llm keeps_ret keeps_throw keeps_lift keeps_note keeps_ask keeps_new_v4 keeps_on_routes keeps_fs_write : agnt.

(** Walks through a computation with the rules of [only], keeping what the
    pure steps returned. *)
Ltac only_step :=
  match goal with
  | |- only _ (bind (lift _) _) =>
      apply only_bind; [apply only_lift|let a := fresh "a" in let H := fresh "Hret" in
        intros a H; apply returns_lift in H]
  | |- only _ (bind _ _) => apply only_bind; [|let a := fresh "a" in intros a _]
  | |- only _ (try _ _) => apply only_try; [|let r := fresh "r" in intros r]
  | |- only _ (note _) => apply only_note
  | |- only _ (stmt _ _ _) => apply only_stmt; let a := fresh "a" in intros a; repeat constructor
  | |- only _ (fs_write _ _ _) => apply only_fs_write
  | |- only _ (let '_ := ?x in _) => destruct x
  | |- only _ (if ?b then _ else _) => destruct b eqn:?
  | |- only _ (match ?x with _ => _ end) => destruct x eqn:?
  | |- only _ _ => solve [auto with agnt]
  end.

(** * Triples on the database *)

(** From a database in [P], a success leaves one in [Q], a failure one in [F]. *)
Definition hoare {X A} (P : db -> Prop) (m : M X A) (Q : A -> db -> Prop) (F : db -> Prop) : Prop :=
  forall w, P (w_db w) -> match (m w).1 with
                          | Ok a => Q a (w_db (m w).2)
                          | Err _ => F (w_db (m w).2)
                          end.

Section hoare.
Context {X : Type}.

Lemma hoare_keeps {A} I (m : M X A) : hoare I m (fun _ => I) I <-> keeps I m.
Proof. split; intros H w Hw; specialize (H w Hw); by destruct (m w) as [[]]. Qed.

Lemma hoare_ret {A} P (a : A) (Q : A -> db -> Prop) F :
  (forall d, P d -> Q a d) -> hoare P (ret a : M X A) Q F.
Proof. intros H w Hw. by apply H. Qed.

Lemma hoare_throw {A} (P : db -> Prop) e (Q : A -> db -> Prop) (F : db -> Prop) :
  (forall d, P d -> F d) -> hoare P (throw e : M X A) Q F.
Proof. intros H w Hw. by apply H. Qed.

Lemma hoare_bind {A B} P (m : M X A) (k : A -> M X B) R Q F :
  hoare P m R F -> (forall a, hoare (R a) (k a) Q F) -> hoare P (bind m k) Q F.
Proof.
  intros Hm Hk w Hw. specialize (Hm w Hw). unfold bind. destruct (m w) as [[a|e] w1]; [|done].
  by apply Hk.
Qed.

Lemma hoare_try {A B} P (m : M X A) (k : result A error -> M X B) (R Q F : db -> Prop) :
  hoare P m (fun _ => R) R -> (forall r, hoare R (k r) (fun _ => Q) F) ->
  hoare P (try m k) (fun _ => Q) F.
Proof.
  intros Hm Hk w Hw. specialize (Hm w Hw). unfold try. destruct (m w) as [r w1] eqn:Em.
  apply Hk. by destruct r.
Qed.

Lemma hoare_weaken {A} (P P' : db -> Prop) (m : M X A) Q Q' (F F' : db -> Prop) :
  hoare P m Q F -> (forall d, P' d -> P d) -> (forall a d, Q a d -> Q' a d) ->
  (forall d, F d -> F' d) -> hoare P' m Q' F'.
Proof.
  intros H HP HQ HF w Hw. specialize (H w (HP _ Hw)). destruct (m w) as [[a|e] w1]; [by apply HQ|by apply HF].
Qed.

(** A computation that keeps [I], for a failure that needs less. *)
Lemma hoare_frame {A} (I F : db -> Prop) (m : M X A) :
  keeps I m -> (forall d, I d -> F d) -> hoare I m (fun _ => I) F.
Proof. intros H%hoare_keeps HF. by eapply hoare_weaken. Qed.
End hoare.

Ltac keeps_step :=
  match goal with
  | |- keeps _ (bind _ _) => apply keeps_bind; [|let a := fresh "a" in intros a]
  | |- keeps _ (try _ _) => apply keeps_try; [|let r := fresh "r" in intros r]
  | |- keeps _ (let '_ := ?x in _) => destruct x
  | |- keeps _ (if ?b then _ else _) => destruct b eqn:?
  | |- keeps _ (match ?x with _ => _ end) => destruct x eqn:?
  | |- keeps _ _ => solve [auto with agnt]
  end.

(** * Without interference *)

(** No failure and no other session between the calls. *)
Definition quiet (E : env) : Prop :=
  (forall t, env_fault E t = None) /\ (forall t rows, env_other E t rows = rows) /\
  (forall t p, env_other_payments E t p = p) /\ (forall t s, env_other_triggers E t s = s) /\
  (forall t s, env_other_llm E t s = s) /\ (forall t s, env_other_memory E t s = s).

Section quiet.
Context {X : Type} (E : env) (HE : quiet E).

Lemma observed_quiet (w : world X) : observed E w = w_db w.
Proof.
  destruct HE as (_ & Ho & Hp & Ht & Hl & Hm). unfold observed. rewrite Ho, Ht, Hl, Hm, Hp. by destruct (w_db w) as [[]].
Qed.

Lemma stmt_quiet {A} (f : Z -> db -> result (db * A) db_error) log (w w' : world X) a :
  stmt E f log w = (Ok a, w') -> f (env_clock E (w_tick w)) (w_db w) = Ok (w_db w', a).
Proof.
  unfold stmt. rewrite (proj1 HE), observed_quiet.
  destruct (f _ _) as [[d' a']|]; [|done]. by intros [= -> <-].
Qed.

Lemma stmt_quiet_run {A} (f : Z -> db -> result (db * A) db_error) log (w : world X) d' a :
  f (env_clock E (w_tick w)) (w_db w) = Ok (d', a) ->
  stmt E f log w = (Ok a, {| w_db := d'; w_journal := w_journal w ++ log a;
                             w_tick := S (w_tick w); w_ext := w_ext w; w_routes := w_routes w; w_llm := w_llm w |}).
Proof. intros H. unfold stmt. rewrite (proj1 HE), observed_quiet. by rewrite H. Qed.

Lemma stable_quiet I : stable (X := X) I E.
Proof. intros w Hw. by rewrite observed_quiet. Qed.

Lemma hoare_stmt {A} P (f : Z -> db -> result (db * A) db_error) log (Q : A -> db -> Prop) (F : db -> Prop) :
  (forall now d d' a, P d -> f now d = Ok (d', a) -> Q a d') -> (forall d, P d -> F d) ->
  hoare P (stmt E f log : M X A) Q F.
Proof.
  intros HQ HF w Hw. unfold stmt. rewrite (proj1 HE), observed_quiet.
  destruct (f _ _) as [[d' a]|] eqn:Ef; cbn; eauto.
Qed.
End quiet.
