(* ===== verification/Memory.v ===== *)
(** The memory plane as the API and the worker use it: the insertion of a record with
    its constraints, the listings of both backends, the statistics, the purge, and the
    compaction of old records (core/src/db.rs [compact_memory_records],
    core/src/db_worker_dual.rs [compact_memory_records_sqlite]), which is no
    transaction: a candidate query, then an update and an insertion for each group. *)
From S2P Require Import Prelude RustStr Json Sql Runs RunQueue TriggerTables LlmTables MemoryTables Tables World.

(** * Statements *)

Definition memory_id_free (id : Uuid) (d : db) : bool :=
  negb (existsb (fun r => mm_id r =? id) (mt_records (d_memory d))).

Definition memory_row (now : Z) (n : NewMemoryRecord) : MemoryRecord :=
  {| mm_new := n; mm_compacted_at := None; mm_created_at := now; mm_updated_at := now |}.

Definition add_memory (r : MemoryRecord) (d : db) : db :=
  with_memory d (with_records (d_memory d) (mt_records (d_memory d) ++ [r])).

Definition create_memory_record (now : Z) (n : NewMemoryRecord) (d : db) : result (db * MemoryRecord) db_error :=
  let? _ := require (str_in (nm_memory_kind n) memory_kinds && negb (is_empty (nm_scope n))) CheckViolation in
  let? _ := require (memory_id_free (nm_id n) d) UniqueViolation in
  let? _ := require (agent_exists (nm_agent_id n) d && opt_exists run_exists (nm_run_id n) d &&
                     opt_exists step_exists (nm_step_id n) d) ForeignKeyViolation in
  Ok (add_memory (memory_row now n) d, memory_row now n).

(** The columns that the statement leaves out get their defaults. *)
Definition create_memory_record_sqlite (now : Z) (n : NewMemoryRecord) (d : db) : result (db * MemoryRecord) db_error :=
  create_memory_record (current_timestamp now) n d.

Definition list_tenant_memory_records (text : json -> string) (tmax now : Z) : string -> option Uuid -> option string ->
    option string -> Z -> memory_tables -> list MemoryRecord :=
  @list_memory (PgEngine text tmax) pg_like_prefix now.
Definition list_tenant_memory_records_sqlite (SE : Engine) (now : Z) : string -> option Uuid -> option string ->
    option string -> Z -> memory_tables -> list MemoryRecord :=
  @list_memory SE sqlite_like_prefix now.

Definition list_tenant_handoff_memory_records (text : json -> string) (tmax : Z) (uuid_text : Uuid -> string) (now : Z)
    : string -> option Uuid -> option Uuid -> Z -> memory_tables -> list MemoryRecord :=
  @list_handoffs (PgEngine text tmax) pg_like_prefix uuid_text now.
Definition list_tenant_handoff_memory_records_sqlite (SE : Engine) (uuid_text : Uuid -> string) (now : Z)
    : string -> option Uuid -> option Uuid -> Z -> memory_tables -> list MemoryRecord :=
  @list_handoffs SE sqlite_like_prefix uuid_text now.

Definition get_tenant_memory_compaction_stats (text : json -> string) (tmax : Z) (tenant_id : string) (since : option Z)
    (t : memory_tables) : result MemoryCompactionStatsRecord db_error :=
  @memory_compaction_stats (PgEngine text tmax) tenant_id since t.

Definition purge_expired_tenant_memory_records (text : json -> string) (tmax : Z) (tenant_id : string) (as_of : Z)
    (t : memory_tables) : memory_tables * MemoryPurgeOutcome :=
  let '(t, n) := @purge_expired_memory_records (PgEngine text tmax) tenant_id as_of t in
  (t, {| po_tenant_id := tenant_id; po_deleted_count := n; po_as_of := as_of |}).

Definition create_memory_compaction_record (now : Z) (n : NewMemoryCompactionRecord) (d : db) : result db db_error :=
  let t := d_memory d in
  let? _ := require (str_in (nk_memory_kind n) memory_kinds && negb (is_empty (nk_scope n)) && (0 <? nk_source_count n))
              CheckViolation in
  let? _ := require (negb (existsb (fun r => nk_id (mk_new r) =? nk_id n) (mt_compactions t))) UniqueViolation in
  let? _ := require (opt_exists agent_exists (nk_agent_id n) d) ForeignKeyViolation in
  Ok (with_memory d (with_compactions t (mt_compactions t ++ [{| mk_new := n; mk_created_at := now |}]))).

(** The comparisons of a backend, and its [LIKE]. *)
Definition pool_engine (pool : DbPool) : Engine := @rs_engine (dual pool).
Definition pool_like (pool : DbPool) : string -> string -> bool := by_pool pool pg_like_prefix sqlite_like_prefix.

(** * Candidates *)

Record MemoryCompactionCandidate := {
  mx_tenant_id : string; mx_agent_id : Uuid; mx_memory_kind : string; mx_scope : string; mx_source_count : Z;
  mx_source_entry_ids : json; mx_representative_run_id : option Uuid; mx_representative_step_id : option Uuid;
}.

Definition uuid_array (uuid_text : Uuid -> string) (ids : list Uuid) : json := JArr (map (fun id => JStr (uuid_text id)) ids).

Definition parse_uuid_json_array (parse_uuid : string -> option Uuid) (value : json) : list Uuid :=
  match as_array value with
  | None => []
  | Some items => omap (fun v => as_str v ≫= parse_uuid) items
  end.

Section candidates.
Context `{Engine} (uuid_text : Uuid -> string).

(** A group has a row. *)
Definition candidate_of (g : list MemoryRecord) : option MemoryCompactionCandidate :=
  r ← head g; Some
    {| mx_tenant_id := nm_tenant_id (mm_new r); mx_agent_id := nm_agent_id (mm_new r);
       mx_memory_kind := nm_memory_kind (mm_new r); mx_scope := nm_scope (mm_new r);
       mx_source_count := Z.of_nat (length g); mx_source_entry_ids := uuid_array uuid_text (map (fun r => mm_id r) g);
       mx_representative_run_id := representative g ≫= (fun r => nm_run_id (mm_new r));
       mx_representative_step_id := representative g ≫= (fun r => nm_step_id (mm_new r)) |}.

(** [ORDER BY MIN(created_at) ASC, MIN(id) ASC]: the groups have no row in common, so
    the further keys of PostgreSQL decide nothing. *)
Definition group_order (a b : list MemoryRecord) : bool :=
  (group_created a <? group_created b) ||
  ((group_created a =? group_created b) && (group_least_id a <=? group_least_id b)).
(** SQLite has no second key. *)
Definition group_order_sqlite (a b : list MemoryRecord) : bool := group_created a <=? group_created b.

Definition compaction_candidates (order : list MemoryRecord -> list MemoryRecord -> bool) (now cutoff min_records max_groups : Z)
    (t : memory_tables) : list MemoryCompactionCandidate :=
  omap candidate_of (limit max_groups (order_by order (memory_groups now cutoff min_records t))).

(** The rows of a candidate on SQLite, read again. *)
Definition candidate_key (c : MemoryCompactionCandidate) : string * Uuid * string * string :=
  (mx_tenant_id c, mx_agent_id c, mx_memory_kind c, mx_scope c).
Definition source_rows (now cutoff : Z) (c : MemoryCompactionCandidate) (t : memory_tables) : list Uuid :=
  map (fun r => mm_id r) (order_by oldest_first (group_rows now cutoff (candidate_key c) t)).
End candidates.

(** * The passes *)

Section compaction.
Context {X : Type} (E : env) (parse_uuid : string -> option Uuid).
#[local] Abbreviation uuid_text := (env_uuid_text E).

(** A statement on the two tables. *)
Definition on_memory {A} (f : Z -> memory_tables -> memory_tables * A) (log : A -> list effect) : M X A :=
  stmt E (total (fun now d => let '(t, a) := f now (d_memory d) in (with_memory d t, a))) log.
Definition ask_memory {A} (f : Z -> memory_tables -> A) : M X A := on_memory (fun now t => (t, f now t)) (fun _ => []).

Definition compacted (ids : list Uuid) : list effect := match ids with [] => [] | _ => [MemoriesCompacted ids] end.

(** The row of a group, after its records were marked. *)
Definition record_compaction (c : MemoryCompactionCandidate) (ids : list Uuid) (counts : list (string * json))
    : M X MemoryCompactionGroupOutcome :=
  let count := Z.of_nat (length ids) in
  let source_entry_ids := uuid_array uuid_text ids in
  let! generated_at := now_utc E in
  let! id := new_v4 E in
  let n := {| nk_id := id; nk_tenant_id := mx_tenant_id c; nk_agent_id := Some (mx_agent_id c);
              nk_memory_kind := mx_memory_kind c; nk_scope := mx_scope c; nk_source_count := clamp 1 i32_max count;
              nk_source_entry_ids := source_entry_ids;
              nk_summary_json := jobject
                ([("memory_kind", JStr (mx_memory_kind c)); ("scope", JStr (mx_scope c))] ++ counts ++
                 [("source_count", jint count); ("generated_at", env_time_json E generated_at)]) |} in
  let! _ := stmt E (no_value (fun now => create_memory_compaction_record
                                           (by_pool (env_pool E) now (current_timestamp now)) n))
              (fun _ => [CompactionRecorded n]) in
  ret {| mg_tenant_id := mx_tenant_id c; mg_agent_id := mx_agent_id c; mg_memory_kind := mx_memory_kind c;
         mg_scope := mx_scope c; mg_source_count := count; mg_source_entry_ids := source_entry_ids;
         mg_representative_run_id := mx_representative_run_id c;
         mg_representative_step_id := mx_representative_step_id c |}.

(** [for candidate in candidates { .. continue .. outcomes.push(..) }] *)
Fixpoint compact_each (f : MemoryCompactionCandidate -> M X (option MemoryCompactionGroupOutcome))
    (l : list MemoryCompactionCandidate) : M X (list MemoryCompactionGroupOutcome) :=
  match l with
  | [] => ret []
  | c :: rest =>
      let! o := f c in
      let! os := compact_each f rest in
      ret (match o with Some g => g :: os | None => os end)
  end.

Definition compaction_stats (groups : list MemoryCompactionGroupOutcome) : MemoryCompactionRunStats :=
  {| ms_processed_groups := Z.of_nat (length groups);
     ms_compacted_source_records := foldr (fun g n => mg_source_count g + n) 0 groups; ms_groups := groups |}.

Definition compact_candidate (min_records : Z) (c : MemoryCompactionCandidate) : M X (option MemoryCompactionGroupOutcome) :=
  let source_ids := parse_uuid_json_array parse_uuid (mx_source_entry_ids c) in
  if Z.of_nat (length source_ids) <? min_records then ret None
  else
    let! ids := on_memory (fun now => mark_compacted now source_ids) compacted in
    if Z.of_nat (length ids) <? min_records then ret None
    else
      let! g := record_compaction c ids [("candidate_source_count", jint (mx_source_count c))] in
      ret (Some g).

Definition compact_memory_records (text : json -> string) (tmax older_than_or_equal min_records max_groups : Z)
    : M X MemoryCompactionRunStats :=
  let min_records := Z.max min_records 2 in
  let! candidates := ask_memory (fun now => @compaction_candidates (PgEngine text tmax) uuid_text
                       (@group_order (PgEngine text tmax)) now older_than_or_equal min_records (Z.max max_groups 1)) in
  let! groups := compact_each (compact_candidate min_records) candidates in
  ret (compaction_stats groups).

(** One update for each record; the identifiers of those it changed. *)
Fixpoint mark_each (ids : list Uuid) : M X (list Uuid) :=
  match ids with
  | [] => ret []
  | id :: rest =>
      let! marked := on_memory (fun now => mark_compacted (current_timestamp now) [id]) compacted in
      let! others := mark_each rest in
      ret (if Z.of_nat (length marked) =? 1 then id :: others else others)
  end.

Definition compact_candidate_sqlite (SE : Engine) (cutoff min_records : Z) (c : MemoryCompactionCandidate)
    : M X (option MemoryCompactionGroupOutcome) :=
  let! source_ids := ask_memory (fun now => @source_rows SE now cutoff c) in
  let! ids := mark_each source_ids in
  if Z.of_nat (length ids) <? min_records then ret None
  else let! g := record_compaction c ids [] in ret (Some g).

Definition compact_memory_records_sqlite (SE : Engine) (older_than_or_equal min_records max_groups : Z)
    : M X MemoryCompactionRunStats :=
  let min_records := Z.max min_records 2 in
  let! candidates := ask_memory (fun now => @compaction_candidates SE uuid_text (@group_order_sqlite SE) now
                       older_than_or_equal min_records (Z.max max_groups 1)) in
  let! groups := compact_each (compact_candidate_sqlite SE older_than_or_equal min_records) candidates in
  ret (compaction_stats groups).

Definition compact_memory_records_dual (older_than_or_equal min_records max_groups : Z) : M X MemoryCompactionRunStats :=
  match env_pool E with
  | Postgres text tmax => compact_memory_records text tmax older_than_or_equal min_records max_groups
  | Sqlite SE => compact_memory_records_sqlite SE older_than_or_equal min_records max_groups
  end.
End compaction.

(** * One walk through the compaction *)

(** What holds of the steps of a pass and is closed under sequencing holds of the
    pass. *)
Class CompactionRules {X : Type} (E : env) (Q : forall A, M X A -> Prop) : Prop := {
  mq_ret A (a : A) : Q A (ret a);
  mq_bind A B (m : M X A) (k : A -> M X B) : Q A m -> (forall a, Q B (k a)) -> Q B (bind m k);
  mq_clock : Q Z (now_utc E);
  mq_new_v4 : Q Uuid (new_v4 E);
  mq_ask A (f : Z -> memory_tables -> A) : Q A (ask_memory E f);
  mq_mark (clock : Z -> Z) ids : Q (list Uuid) (on_memory E (fun now => mark_compacted (clock now) ids) compacted);
  mq_record (f : Z -> db -> result db db_error) n :
    (forall now d d', f now d = Ok d' -> exists l, d' = with_memory d (with_compactions (d_memory d) l)) ->
    Q unit (stmt E (no_value f) (fun _ => [CompactionRecorded n]));
}.

Lemma compaction_record_other now n d d' :
  create_memory_compaction_record now n d = Ok d' -> exists l, d' = with_memory d (with_compactions (d_memory d) l).
Proof.
  unfold create_memory_compaction_record, require. destruct (_ && _); [|done]. destruct (negb _); [|done].
  destruct (opt_exists _ _ _); [|done]. intros [= <-]. eauto.
Qed.

Ltac compaction_step :=
  match goal with
  | |- _ (ret _) => apply mq_ret
  | |- _ (bind _ _) => apply mq_bind; [|intros ?]
  | |- _ (now_utc _) => apply mq_clock
  | |- _ (new_v4 _) => apply mq_new_v4
  | |- _ (ask_memory _ _) => apply mq_ask
  | |- _ (on_memory _ _ compacted) => first [apply (mq_mark current_timestamp) | apply (mq_mark (fun now => now))]
  | |- _ (stmt _ _ _) => apply mq_record; intros ? ? ?; apply compaction_record_other
  | |- _ (if ?b then _ else _) => destruct b
  end.

Section walk.
Context {X : Type} (E : env) (parse_uuid : string -> option Uuid) (Q : forall A, M X A -> Prop) `{!CompactionRules E Q}.
#[local] Arguments Q {A}.

Lemma compact_each_rule f l : (forall c, Q (f c)) -> Q (compact_each f l).
Proof. intros Hf. induction l as [|c l IH]; cbn [compact_each]; repeat first [apply Hf | apply IH | compaction_step]. Qed.

Lemma mark_each_rule ids : Q (mark_each E ids).
Proof. induction ids as [|id ids IH]; cbn [mark_each]; repeat first [apply IH | compaction_step]. Qed.

Lemma compact_candidate_rule min_records c : Q (compact_candidate E parse_uuid min_records c).
Proof. unfold compact_candidate, record_compaction. repeat compaction_step. Qed.

Lemma compact_candidate_sqlite_rule SE cutoff min_records c : Q (compact_candidate_sqlite E SE cutoff min_records c).
Proof. unfold compact_candidate_sqlite, record_compaction. repeat first [apply mark_each_rule | compaction_step]. Qed.

Lemma compaction_rule cutoff min_records max_groups : Q (compact_memory_records_dual E parse_uuid cutoff min_records max_groups).
Proof.
  unfold compact_memory_records_dual, compact_memory_records, compact_memory_records_sqlite.
  destruct (env_pool E); repeat first [apply compact_each_rule; intros ? | apply compact_candidate_rule
    | apply compact_candidate_sqlite_rule | compaction_step].
Qed.
End walk.

Section instances.
Context {X : Type} (E : env).

#[export] Instance only_compaction_rules (P : effect -> Prop) :
  (forall ids, P (MemoriesCompacted ids)) -> (forall n, P (CompactionRecorded n)) ->
  CompactionRules E (fun A (m : M X A) => only P m).
Proof.
  intros Hm Hr. split; intros; auto with agnt.
  - by apply only_bind; [|intros].
  - intros w. exists []. unfold appends, now_utc. cbn. by rewrite app_nil_r.
  - apply only_stmt. intros a. constructor.
  - apply only_stmt. intros [|x l]; cbn; repeat constructor. apply Hm.
  - apply only_stmt. intros a. by repeat constructor.
Qed.

Lemma keeps_on_memory (I : db -> Prop) {A} (f : Z -> memory_tables -> memory_tables * A) log :
  stable (X := X) I E -> (forall now d, I d -> I (with_memory d (f now (d_memory d)).1)) -> keeps I (on_memory (X := X) E f log).
Proof.
  intros HI Hf. apply keeps_stmt; [done|]. intros now d d' a. unfold total.
  destruct (f now (d_memory d)) eqn:F. intros [= <- _] Hd. specialize (Hf now d Hd). by rewrite F in Hf.
Qed.

(** Everything outside the memory tables is left alone. *)
#[export] Instance keeps_compaction_rules (I : db -> Prop) :
  stable (X := X) I E -> (forall d t, I d -> I (with_memory d t)) -> CompactionRules E (fun A (m : M X A) => keeps I m).
Proof.
  intros HI Ht. split; intros; auto with agnt.
  - by apply keeps_bind.
  - by intros w Hw.
  - apply keeps_on_memory; [done|]. intros now d Hd. by apply Ht.
  - apply keeps_on_memory; [done|]. intros now d Hd. by apply Ht.
  - apply keeps_stmt; [done|]. intros now d d' a. unfold no_value. destruct (f now d) as [d1|] eqn:F; [|done].
    intros [= <- _]. destruct (H now d d1 F) as [l ->]. by apply Ht.
Qed.
End instances.

Section compaction_frame.
Context {X : Type} (E : env) (parse_uuid : string -> option Uuid) (cutoff min_records max_groups : Z).
#[local] Abbreviation pass := (compact_memory_records_dual (X := X) E parse_uuid cutoff min_records max_groups).

Lemma only_compaction (P : effect -> Prop) :
  (forall ids, P (MemoriesCompacted ids)) -> (forall n, P (CompactionRecorded n)) -> only P pass.
Proof. intros Hm Hr. pose proof (only_compaction_rules (X := X) E P Hm Hr). apply (compaction_rule E parse_uuid (fun A m => only P m)). Qed.

Lemma keeps_compaction (I : db -> Prop) :
  stable (X := X) I E -> (forall d t, I d -> I (with_memory d t)) -> keeps I pass.
Proof. intros HI Ht. pose proof (keeps_compaction_rules E I HI Ht). apply (compaction_rule E parse_uuid (fun A m => keeps I m)). Qed.
End compaction_frame.
