(* ===== verification/LlmTableProps.v ===== *)
(** Theorems about the tables and the process state of the LLM gateway: the slots of
    a lane, the caches and their bounds. *)
From S2P Require Import Prelude RustStr Json Sql Runs LlmTables.

(** * Admission leases *)

(** The [PRIMARY KEY (namespace, lane, slot_index)] *)
Definition slot_key (r : LlmGatewayAdmissionLeaseRecord) : string * string * Z :=
  (gl_namespace r, gl_lane r, gl_slot_index r).
Definition distinct_slots (leases : list LlmGatewayAdmissionLeaseRecord) : Prop := ids_distinct slot_key leases.

(** The slots of the lane are those of its limit. *)
Definition slots_within (namespace lane : string) (limit : Z) (leases : list LlmGatewayAdmissionLeaseRecord) : Prop :=
  forall r, r ∈ leases -> in_lane namespace lane r = true -> 1 <= gl_slot_index r <= limit.

Definition live_in_lane (now : Z) (namespace lane : string) (leases : list LlmGatewayAdmissionLeaseRecord)
    : list LlmGatewayAdmissionLeaseRecord :=
  List.filter (fun r => in_lane namespace lane r && live_llm_lease now r) leases.

Lemma in_slot_key namespace lane slot r : in_slot namespace lane slot r = true <-> slot_key r = (namespace, lane, slot).
Proof.
  unfold in_slot, in_lane, slot_key. rewrite !andb_true_iff, !String.eqb_eq, Z.eqb_eq.
  split; [by intros [[-> ->] ->]|by intros [= -> -> ->]].
Qed.

Lemma free_slot_spec now namespace lane leases slot :
  free_slot now namespace lane leases slot = true <->
  forall r, r ∈ leases -> slot_key r = (namespace, lane, slot) -> live_llm_lease now r = false.
Proof.
  unfold free_slot. rewrite negb_true_iff, existsb_not_elem_of. apply forall_proper; intros r. apply forall_proper; intros _.
  rewrite <- in_slot_key. destruct (in_slot _ _ _ r); naive_solver.
Qed.

Lemma seqZ_elem m slot : slot ∈ seqZ 1 m <-> 1 <= slot <= m.
Proof. rewrite elem_of_seqZ. lia. Qed.

(** A distinct list of slots fits in the limit. *)
Lemma distinct_slots_bounded namespace lane limit rows :
  distinct_slots rows -> (forall r, r ∈ rows -> in_lane namespace lane r = true) -> slots_within namespace lane limit rows ->
  Z.of_nat (length rows) <= Z.max 0 limit.
Proof.
  intros Hd Hl Hs.
  assert (NoDup (map gl_slot_index rows)) as Hn.
  { unfold distinct_slots, ids_distinct in Hd. assert (map slot_key rows = map (fun s => (namespace, lane, s)) (map gl_slot_index rows)) as Heq.
    { rewrite map_map. apply map_ext_in. intros r Hr%list_elem_of_In. pose proof (Hl r Hr) as H. unfold in_lane in H. bool_hyps.
      unfold slot_key. by repeat match goal with H : String.eqb _ _ = true |- _ => apply String.eqb_eq in H as -> end. }
    rewrite Heq in Hd. by apply NoDup_fmap_1 in Hd. }
  assert (map gl_slot_index rows ⊆+ seqZ 1 limit) as Hsub.
  { apply NoDup_submseteq; [done|]. intros s (r & -> & Hr)%list_elem_of_fmap. apply seqZ_elem. apply Hs; auto. }
  apply submseteq_length in Hsub. rewrite length_map, length_seqZ in Hsub. lia.
Qed.

Section acquire.
Context (now : Z) (params : LlmGatewayAdmissionLeaseAcquireParams) (t : llm_tables).

(** A slot that is free is taken. *)
Lemma take_free_slot slot :
  free_slot now (ga_namespace params) (ga_lane params) (lt_leases t) slot = true ->
  let row := llm_lease_row now params slot in
  let taken := in_slot (ga_namespace params) (ga_lane params) slot in
  take_slot now params slot t =
  (with_llm_leases t (if existsb taken (lt_leases t) then map (fun x => if taken x then row else x) (lt_leases t)
                      else lt_leases t ++ [row]), Some row).
Proof.
  rewrite free_slot_spec. intros Hf row taken. unfold take_slot. fold row taken.
  assert (forall x, x ∈ lt_leases t -> taken x && negb (live_llm_lease now x) = taken x) as Hx.
  { intros x Hx. destruct (taken x) eqn:Ht; [|done]. apply in_slot_key in Ht. by rewrite Hf. }
  destruct (existsb taken (lt_leases t)) eqn:E; [|done]. apply existsb_elem_of in E as (r & Hr & Ht).
  rewrite (proj2 (existsb_elem_of _ _)) by (exists r; by rewrite Hx). do 3 f_equal. cbn.
  apply map_ext_in. intros x Hin%list_elem_of_In. by rewrite Hx.
Qed.

(** What an acquisition does to the table: the row of the least free slot. *)
Lemma acquire_cases t' r :
  try_acquire_llm_gateway_admission_lease now params t = (t', Some r) ->
  slot_key r = ((ga_namespace params), (ga_lane params), gl_slot_index r) /\ 1 <= gl_slot_index r <= ga_max_inflight params /\
  free_slot now (ga_namespace params) (ga_lane params) (lt_leases t) (gl_slot_index r) = true /\ gl_lease_id r = ga_lease_id params /\
  gl_lease_expires_at r = now + clamp_lease_ms (ga_lease_for params) * 1000 /\
  t' = with_llm_leases t
         (if existsb (in_slot (ga_namespace params) (ga_lane params) (gl_slot_index r)) (lt_leases t)
          then map (fun x => if in_slot (ga_namespace params) (ga_lane params) (gl_slot_index r) x then r else x) (lt_leases t)
          else lt_leases t ++ [r]).
Proof.
  unfold try_acquire_llm_gateway_admission_lease. destruct (candidate_slot now params t) as [slot|] eqn:Ef; [|done].
  apply find_some in Ef as [Hin%list_elem_of_In%seqZ_elem Hf]. rewrite take_free_slot by done. intros [= <- <-].
  by split_and!; cbn; try lia.
Qed.

Lemma acquire_none t' :
  try_acquire_llm_gateway_admission_lease now params t = (t', None) ->
  t' = t /\ forall slot, 1 <= slot <= ga_max_inflight params ->
    exists r, r ∈ lt_leases t /\ slot_key r = ((ga_namespace params), (ga_lane params), slot) /\ live_llm_lease now r = true.
Proof.
  unfold try_acquire_llm_gateway_admission_lease. destruct (candidate_slot now params t) as [slot|] eqn:Ef.
  { apply find_some in Ef as [_ Hf]. by rewrite take_free_slot. }
  intros [= <-]. split; [done|]. intros slot Hs. pose proof (find_none _ _ Ef slot) as H. unfold free_slot in H.
  rewrite negb_false_iff in H. apply existsb_elem_of in H as (r & Hr & Hx); [|by apply list_elem_of_In, seqZ_elem].
  bool_hyps. exists r. by rewrite <- in_slot_key.
Qed.

Lemma acquire_distinct : distinct_slots (lt_leases t) ->
  distinct_slots (lt_leases (try_acquire_llm_gateway_admission_lease now params t).1).
Proof.
  intros Hd. destruct (try_acquire_llm_gateway_admission_lease now params t) as [t' [r|]] eqn:Ha; cbn;
    [|by apply acquire_none in Ha as [-> _]].
  apply acquire_cases in Ha as (Hk & _ & _ & _ & _ & ->). cbn. destruct (existsb _ _) eqn:Ee.
  - unfold distinct_slots, ids_distinct. rewrite map_map. erewrite map_ext; [exact Hd|]. intros x. cbn.
    destruct (in_slot _ _ _ x) eqn:Ex; [|done]. apply in_slot_key in Ex. by rewrite Hk, Ex.
  - unfold distinct_slots, ids_distinct. rewrite map_app. apply NoDup_app. split_and!; [done| |apply NoDup_singleton].
    intros k (x & -> & Hx)%list_elem_of_fmap Hin%list_elem_of_singleton. rewrite existsb_not_elem_of in Ee.
    specialize (Ee x Hx). rewrite Hk in Hin. apply in_slot_key in Hin. congruence.
Qed.

Lemma acquire_elem t' r x :
  try_acquire_llm_gateway_admission_lease now params t = (t', Some r) -> x ∈ lt_leases t' -> x = r \/ x ∈ lt_leases t.
Proof.
  intros (_ & _ & _ & _ & _ & ->)%acquire_cases. cbn. destruct (existsb _ _).
  - intros (y & -> & Hy)%list_elem_of_fmap. destruct (in_slot _ _ _ y); auto.
  - rewrite elem_of_app, list_elem_of_singleton. naive_solver.
Qed.
End acquire.

(** The histories of the table; [limits] gives the limit of each lane. *)
Inductive lease_step (limits : string -> string -> Z) : llm_tables -> llm_tables -> Prop :=
| LeaseAcquire now params t :
    ga_max_inflight params = limits (ga_namespace params) (ga_lane params) ->
    lease_step limits t (try_acquire_llm_gateway_admission_lease now params t).1
| LeaseRelease lease t : lease_step limits t (release_llm_gateway_admission_lease lease t).1.

Definition leases_ok (limits : string -> string -> Z) (t : llm_tables) : Prop :=
  distinct_slots (lt_leases t) /\ forall namespace lane, slots_within namespace lane (limits namespace lane) (lt_leases t).

Lemma lease_step_ok limits t t' : lease_step limits t t' -> leases_ok limits t -> leases_ok limits t'.
Proof.
  intros [now params t0 Hm|lease t0] [Hd Hs].
  - split; [by apply acquire_distinct|].
    intros ns ln x Hx Hl. destruct (try_acquire_llm_gateway_admission_lease now params t0) as [t1 [r|]] eqn:Ha; cbn in Hx.
    + destruct (acquire_elem _ _ _ _ _ _ Ha Hx) as [->|Hin]; [|by apply (Hs ns ln)].
      apply acquire_cases in Ha as (Hk & Hb & _). unfold in_lane in Hl. bool_hyps.
      injection Hk as Hn Hln. repeat match goal with H : String.eqb _ _ = true |- _ => apply String.eqb_eq in H end.
      rewrite Hm in Hb. congruence.
    + apply acquire_none in Ha as [-> _]. by apply (Hs ns ln).
  - split; cbn; [by apply ids_distinct_filter|]. intros ns ln x [Hx _]%elem_of_filterb Hl. by apply (Hs ns ln).
Qed.

Lemma leases_reachable_ok limits t : rtc (lease_step limits) no_llm_tables t -> leases_ok limits t.
Proof.
  intros Hr. assert (leases_ok limits no_llm_tables) as H0.
  { split; [apply NoDup_nil_2|]. intros ns ln r Hr0. by apply not_elem_of_nil in Hr0. }
  revert H0. induction Hr as [|t t1 t2 Hst _ IH]; [done|]. eauto using lease_step_ok.
Qed.


Definition demo_acquire (lease : Uuid) : LlmGatewayAdmissionLeaseAcquireParams :=
  {| ga_namespace := "global"; ga_lane := "batch"; ga_max_inflight := 2; ga_lease_id := lease; ga_lease_owner := "worker-1";
     ga_lease_for := 30000 |}.


(** With distinct slots, the row that is released is the row of its slot. *)
Lemma release_selects leases r x :
  distinct_slots leases -> r ∈ leases -> x ∈ leases ->
  in_slot (gl_namespace r) (gl_lane r) (gl_slot_index r) x && (gl_lease_id x =? gl_lease_id r) =
  bool_decide (slot_key x = slot_key r).
Proof.
  intros Hd Hr Hx. destruct (in_slot _ _ _ x) eqn:Ei.
  - apply in_slot_key in Ei. rewrite bool_decide_true by done.
    by rewrite (ids_distinct_inj slot_key leases x r Hd Hx Hr Ei), Z.eqb_refl.
  - rewrite bool_decide_false; [done|]. intros Hk%in_slot_key. congruence.
Qed.

(** Once a slot without a live row was given away, the other live rows are those
    that were there. *)
Lemma others_live now namespace lane slot r l :
  slot_key r = (namespace, lane, slot) ->
  (forall x, x ∈ l -> slot_key x = (namespace, lane, slot) -> live_llm_lease now x = false) ->
  List.filter (fun x => live_llm_lease now x && negb (bool_decide (slot_key x = slot_key r)))
    (if existsb (in_slot namespace lane slot) l then map (fun x => if in_slot namespace lane slot x then r else x) l
     else l ++ [r]) = List.filter (live_llm_lease now) l.
Proof.
  intros Hk Hf.
  assert (forall x, x ∈ l -> live_llm_lease now x && negb (bool_decide (slot_key x = slot_key r)) = live_llm_lease now x) as Hx.
  { intros x Hx. rewrite Hk. destruct (bool_decide_reflect (slot_key x = (namespace, lane, slot))); [by rewrite Hf|].
    by rewrite andb_true_r. }
  destruct (existsb _ _).
  - clear Hf. induction l as [|x l IH]; [done|]. cbn [map List.filter]. rewrite IH by (intros; apply Hx; by right).
    specialize (Hx x ltac:(left)). destruct (in_slot _ _ _ x) eqn:Ei; [|by rewrite Hx].
    rewrite (bool_decide_true (slot_key r = slot_key r)), andb_false_r by done.
    apply in_slot_key in Ei. rewrite Ei, Hk, bool_decide_true, andb_false_r in Hx by done. by rewrite <- Hx.
  - rewrite List.filter_app. cbn. rewrite bool_decide_true, andb_false_r, app_nil_r by done.
    apply filter_ext_in. intros x Hin%list_elem_of_In. by apply Hx.
Qed.

(** The statement chooses the slot and takes it in two steps.  Two workers that choose at
    once choose the same slot, and the second is refused although another slot is free. *)
Theorem concurrent_acquisitions_can_collide :
  let t := no_llm_tables in
  let slot1 := candidate_slot 0 (demo_acquire 1) t in
  let slot2 := candidate_slot 0 (demo_acquire 2) t in
  let t1 := (take_slot 0 (demo_acquire 1) 1 t).1 in
  slot1 = Some 1 /\ slot2 = Some 1 /\
  (take_slot 0 (demo_acquire 2) 1 t1).2 = None /\ free_slot 0 "global" "batch" (lt_leases t1) 2 = true.
Proof. by split_and!. Qed.

(** Releasing the lease that an acquisition returned leaves the leases that are
    alive as they were before the acquisition: a call that is over takes no slot. *)
Theorem acquire_release_keeps_the_live_leases now params t t' r :
  distinct_slots (lt_leases t) ->
  try_acquire_llm_gateway_admission_lease now params t = (t', Some r) ->
  (release_llm_gateway_admission_lease r t').2 = true /\
  List.filter (live_llm_lease now) (lt_leases (release_llm_gateway_admission_lease r t').1) =
  List.filter (live_llm_lease now) (lt_leases t).
Proof.
  intros Hd Ha. pose proof (acquire_distinct now params t Hd) as Hd'. rewrite Ha in Hd'. cbn in Hd'.
  assert (r ∈ lt_leases t') as Hin.
  { apply acquire_cases in Ha as (_ & _ & _ & _ & _ & ->). cbn. destruct (existsb _ _) eqn:Ee.
    - apply existsb_elem_of in Ee as (x & Hx & Hsx). apply list_elem_of_fmap. exists x. by rewrite Hsx.
    - apply elem_of_app. right. by apply list_elem_of_singleton. }
  assert (forall x, x ∈ lt_leases t' -> in_slot (gl_namespace r) (gl_lane r) (gl_slot_index r) x && (gl_lease_id x =? gl_lease_id r) =
    bool_decide (slot_key x = slot_key r)) as Hsel by (intros x; by apply release_selects).
  split; cbn.
  - apply Z.eqb_eq, Z.le_antisymm.
    + apply (ids_distinct_count slot_key); [exact Hd'|]. intros x y Hx Hy. rewrite !Hsel by done.
      by intros ->%bool_decide_eq_true ->%bool_decide_eq_true.
    + apply (countb_pos _ _ r Hin). rewrite Hsel by done. by apply bool_decide_true.
  - rewrite filterb_filterb. apply acquire_cases in Ha as (Hk & _ & Hf & _ & _ & ->). rewrite free_slot_spec in Hf.
    rewrite <- (others_live now _ _ _ r (lt_leases t) Hk Hf). apply filter_ext_in. intros x Hx%list_elem_of_In.
    by rewrite Hsel.
Qed.

Lemma acquire_release_keeps_the_live_leases_witness :
  let t := (try_acquire_llm_gateway_admission_lease 0 (demo_acquire 1) no_llm_tables).1 in
  forall t' r, try_acquire_llm_gateway_admission_lease 1 (demo_acquire 2) t = (t', Some r) ->
    (release_llm_gateway_admission_lease r t').2 = true /\ length (lt_leases t') = 2%nat /\
    List.filter (live_llm_lease 1) (lt_leases (release_llm_gateway_admission_lease r t').1) =
    List.filter (live_llm_lease 1) (lt_leases t).
Proof.
  intros t t' r Ha.
  assert (distinct_slots (lt_leases t)) as Hd by (apply NoDup_singleton).
  destruct (acquire_release_keeps_the_live_leases 1 (demo_acquire 2) t t' r Hd Ha) as [H1 H2].
  split; [exact H1|]. split; [|exact H2]. vm_compute in Ha. by injection Ha as <- _.
Defined.

(** * The shared cache *)

(** Pruning leaves a namespace with at most its limit of cached completions, drops
    only those older than every one it keeps, and touches no other namespace. *)
Theorem pruning_bounds_a_namespace namespace max_entries l :
  0 < max_entries -> NoDup (map gc_cache_key_sha256 l) ->
  let kept := prune_overflow namespace max_entries l in
  countb (in_namespace namespace) kept <= max_entries /\
  (countb (in_namespace namespace) l <= max_entries -> kept = l) /\
  (forall r, r ∈ l -> in_namespace namespace r = false -> r ∈ kept) /\
  (forall r r', r ∈ kept -> in_namespace namespace r = true -> r' ∈ l -> r' ∉ kept -> gc_updated_at r' <= gc_updated_at r).
Proof.
  intros Hm Hd kept.
  set (rows := List.filter (in_namespace namespace) l).
  set (sorted := order_by newest_first rows).
  assert (sorted ≡ₚ rows) as Hperm by apply order_by_perm.
  set (n := Z.to_nat max_entries).
  assert (overflowing namespace max_entries l = map gc_cache_key_sha256 (drop n sorted)) as Hover by done.
  assert (forall r, r ∈ rows <-> r ∈ l /\ in_namespace namespace r = true) as Hrows by (intros; apply elem_of_filterb).
  assert (forall x, x ∈ drop n sorted -> x ∈ l) as Hdrop.
  { intros x Hx. assert (x ∈ sorted) as Hs by (rewrite <- (take_drop n sorted); apply elem_of_app; by right).
    rewrite Hperm in Hs. by apply Hrows in Hs as [? _]. }
  assert (forall r, r ∈ kept <-> r ∈ l /\ (in_namespace namespace r = true -> r ∉ drop n sorted)) as Hkept.
  { intros r. unfold kept, prune_overflow. rewrite elem_of_filterb, negb_true_iff, andb_false_iff, Hover.
    split; intros [Hr H]; (split; [done|]).
    - intros Hn Hin. rewrite Hn in H. destruct H as [H|H]; [done|].
      rewrite (proj2 (str_in_spec _ _)) in H; [done|]. by apply list_elem_of_fmap_2.
    - destruct (in_namespace namespace r) eqn:En; [right|by left]. destruct (str_in _ _) eqn:Es; [|done].
      apply str_in_spec, list_elem_of_fmap in Es as (x & Hx & Hin). exfalso. apply (H eq_refl).
      assert (r = x) as ->; [|done]. apply (ids_distinct_inj gc_cache_key_sha256 l); [exact Hd|done|auto|done]. }
  split_and!.
  - unfold countb, kept, prune_overflow. rewrite filterb_filterb.
    transitivity (countb (fun r => negb (str_in (gc_cache_key_sha256 r) (overflowing namespace max_entries l))) rows).
    { unfold countb, rows. rewrite filterb_filterb. apply inj_le, length_filterb_mono. intros r _.
      by destruct (in_namespace namespace r), (str_in _ _). }
    unfold countb. rewrite <- (Permutation_length (filterb_perm _ _ _ Hperm)), <- (take_drop n sorted), List.filter_app, length_app, Hover.
    rewrite (proj2 (filterb_nil _ (drop n sorted))).
    + pose proof (length_filterb_le (fun r => negb (str_in (gc_cache_key_sha256 r) (map gc_cache_key_sha256 (drop n sorted))))
        (take n sorted)) as Hl. rewrite length_take in Hl. cbn. lia.
    + intros r Hr. apply negb_false_iff, str_in_spec. by apply list_elem_of_fmap_2.
  - intros Hc. unfold kept, prune_overflow. rewrite Hover, drop_ge.
    + cbn. clear. induction l as [|r l IH]; cbn; [done|]. by rewrite andb_false_r, IH.
    + unfold sorted. rewrite length_order_by. unfold countb in Hc. fold rows in Hc. lia.
  - intros r Hr Hn. apply Hkept. split; [done|]. congruence.
  - intros r r' [Hr Hin]%Hkept Hn Hr' Hout.
    assert (r' ∈ drop n sorted) as Hd'.
    { destruct (decide (gc_cache_key_sha256 r' ∈ map gc_cache_key_sha256 (drop n sorted))) as [Hx|Hx].
      - apply list_elem_of_fmap in Hx as (x & Hx & Hxd).
        by rewrite (ids_distinct_inj gc_cache_key_sha256 l r' x Hd Hr' (Hdrop x Hxd) Hx).
      - exfalso. apply Hout, Hkept. split; [done|]. intros _ Hi. by apply Hx, list_elem_of_fmap_2. }
    assert (r ∈ take n sorted) as Ht.
    { assert (r ∈ sorted) as Hs by (rewrite Hperm; by apply Hrows). rewrite <- (take_drop n sorted) in Hs.
      apply elem_of_app in Hs as [|Hs]; [done|]. by destruct (Hin Hn). }
    assert (newest_first r r' = true) as Hle; [|unfold newest_first in Hle; by apply Z.leb_le].
    eapply (order_by_take_least newest_first); [..|exact Ht|exact Hd'].
    + intros x y. unfold newest_first. rewrite Z.leb_gt, Z.leb_le. lia.
    + intros x y z. unfold newest_first. rewrite !Z.leb_le. lia.
Qed.

Definition demo_entry (key : string) (at_time : Z) : LlmGatewayCacheEntryRecord :=
  {| gc_cache_key_sha256 := key; gc_namespace := "global"; gc_route := "local"; gc_model := "qwen"; gc_response_json := JNull;
     gc_expires_at := at_time + 1000; gc_created_at := at_time; gc_updated_at := at_time |}.

Lemma pruning_bounds_a_namespace_witness :
  let kept := prune_overflow "global" 1 [demo_entry "k1" 5; demo_entry "k2" 9; demo_entry "k3" 7] in
  kept = [demo_entry "k2" 9] /\ countb (in_namespace "global") kept <= 1.
Proof.
  split; [vm_compute; reflexivity|].
  refine (proj1 (pruning_bounds_a_namespace "global" 1 _ eq_refl _)).
  apply (bool_decide_unpack _). vm_compute. exact I.
Defined.

(** * The cache of the process *)

Lemma oldest_spec l : match oldest l with
  | Some x => x ∈ l /\ forall y, y ∈ l -> ce_inserted_at x.2 <= ce_inserted_at y.2
  | None => l = []
  end.
Proof.
  induction l as [|x l IH]; cbn; [done|]. destruct (oldest l) as [y|].
  - destruct IH as [Hy Hmin]. destruct (_ <=? _) eqn:E; bool_hyps.
    + split; [left|]. intros z [->|Hz]%elem_of_cons; [lia|]. specialize (Hmin z Hz). lia.
    + split; [by right|]. intros z [->|Hz]%elem_of_cons; [lia|auto].
  - subst l. split; [left|]. intros z [->|Hz]%elem_of_cons; [lia|]. by apply not_elem_of_nil in Hz.
Qed.

(** The process cache holds at most its limit of completions, an insertion evicts one
    completion at most, the oldest, and an answer is found under the key of its
    request alone, no later than its time to live. *)
Theorem process_cache_is_bounded now key value max_entries p :
  1 <= max_entries -> Z.of_nat (size (lp_entries p)) <= max_entries ->
  (forall k e, lp_entries p !! k = Some e -> ce_inserted_at e < now) ->
  let p' := cache_insert now key value max_entries p in
  Z.of_nat (size (lp_entries p')) <= max_entries /\
  (forall later ttl, (cache_lookup later key ttl p').2 = if ttl * 1000000000 <? Z.max 0 (later - now) then None else Some value) /\
  (forall k e, k <> key -> lp_entries p !! k = Some e -> lp_entries p' !! k = None ->
     forall k' e', lp_entries p' !! k' = Some e' -> ce_inserted_at e <= ce_inserted_at e').
Proof.
  intros Hm Hs Hnow. unfold cache_insert. set (entry := {| ce_value := value; ce_inserted_at := now |}).
  set (entries := <[key := entry]> (lp_entries p)).
  assert (entries !! key = Some entry) as Hkey by apply lookup_insert_eq.
  assert (forall later ttl m, m !! key = Some entry ->
    (cache_lookup later key ttl (with_entries p m)).2 = if ttl * 1000000000 <? Z.max 0 (later - now) then None else Some value) as Hget.
  { intros later ttl m Hl. unfold cache_lookup. cbn. rewrite Hl. cbn. by destruct (_ <? _). }
  assert (forall k e, entries !! k = Some e -> k = key /\ e = entry \/ k <> key /\ lp_entries p !! k = Some e) as Hcases.
  { intros k e. unfold entries. rewrite lookup_insert_Some. naive_solver. }
  destruct (_ <=? _) eqn:E; bool_hyps; cbn zeta; cbn [lp_entries with_entries].
  - split_and!; [done|auto|]. intros k e Hk Hin Hout. unfold entries in Hout. rewrite lookup_insert_ne in Hout; congruence.
  - assert (size (lp_entries p) < size entries)%nat as Hlt by lia.
    assert (lp_entries p !! key = None) as Hnew.
    { destruct (lp_entries p !! key) as [e|] eqn:Hl; [|done]. unfold entries in Hlt.
      rewrite map_size_insert_Some in Hlt by eauto. lia. }
    assert (size entries = S (size (lp_entries p))) as Hsize by (by apply map_size_insert_None).
    pose proof (oldest_spec (map_to_list entries)) as Ho. destruct (oldest _) as [[k0 e0]|].
    2: { apply (f_equal length) in Ho. rewrite length_map_to_list in Ho. cbn in Ho. lia. }
    destruct Ho as [Hin Hmin]. apply elem_of_map_to_list in Hin.
    assert (k0 <> key) as Hne.
    { intros ->. assert (exists k e, lp_entries p !! k = Some e) as (k & e & Hl).
      { destruct (decide (lp_entries p = ∅)) as [He|He]; [rewrite He, map_size_empty in *; lia|].
        by apply map_choose in He. }
      specialize (Hnow k e Hl). assert (entries !! k = Some e) as Hke.
      { unfold entries. rewrite lookup_insert_ne; congruence. }
      specialize (Hmin (k, e) (proj2 (elem_of_map_to_list _ _ _) Hke)). cbn in Hmin. rewrite Hkey in Hin.
      injection Hin as <-. cbn in Hmin. lia. }
    split_and!.
    + rewrite map_size_delete_Some by eauto. lia.
    + intros later ttl. apply Hget. by rewrite lookup_delete_ne.
    + intros k e Hk Hl Hout k' e' Hl'. apply lookup_delete_Some in Hl' as [_ Hl'].
      assert (k = k0) as ->.
      { apply lookup_delete_None in Hout as [->|Hout]; [done|]. unfold entries in Hout.
        rewrite lookup_insert_ne in Hout; congruence. }
      assert (e0 = e) as -> by (destruct (Hcases _ _ Hin) as [[? _]|[_ ?]]; congruence).
      exact (Hmin (k', e') (proj2 (elem_of_map_to_list _ _ _) Hl')).
Qed.

Definition demo_completion (text : string) : CachedCompletion :=
  {| cc_response_text := text; cc_prompt_tokens := None; cc_completion_tokens := None; cc_total_tokens := Some 30 |}.

Lemma process_cache_is_bounded_witness :
  let p := cache_insert 1 "k1" (demo_completion "one") 1 no_llm in
  let p' := cache_insert 2 "k2" (demo_completion "two") 1 p in
  Z.of_nat (size (lp_entries p')) <= 1 /\ (cache_lookup 3 "k2" 300 p').2 = Some (demo_completion "two") /\
  (cache_lookup 3 "k1" 300 p').2 = None.
Proof.
  intros p p'.
  destruct (process_cache_is_bounded 2 "k2" (demo_completion "two") 1 p) as (H1 & H2 & _).
  - reflexivity.
  - vm_compute. discriminate.
  - intros k e He. change (lp_entries p) with ({["k1" := {| ce_value := demo_completion "one"; ce_inserted_at := 1 |}]} : gmap string CacheEntry) in He.
    apply lookup_singleton_Some in He as [_ <-]. reflexivity.
  - split; [exact H1|]. split; [exact (H2 3 300)|vm_compute; reflexivity].
Defined.
