(* ===== verification/LlmText.v ===== *)
(** The text tools of the LLM gateway (worker/src/llm.rs): cutting UTF-8 text at
    character boundaries, summarising it to a budget, splitting it into chunks and
    ranking documents by the words they share with a query.  A string is its bytes,
    as a Rust [str]; offsets inside a text are [nat]. *)
From stdpp Require Import pretty.
From S2P Require Import Prelude RustStr Sql.

(** * Boundaries *)

(** [&s[..n]] and [&s[n..]] *)
Fixpoint sfirstn (n : nat) (s : string) : string :=
  match n, s with
  | S n, String c s => String c (sfirstn n s)
  | _, _ => ""
  end.
Fixpoint sskipn (n : nat) (s : string) : string :=
  match n, s with
  | O, s => s
  | S n, String c s => sskipn n s
  | S _, EmptyString => ""
  end.

(** A byte that is not the first of its character. *)
Definition is_continuation (c : ascii) : bool := (128 <=? byte_of c) && (byte_of c <? 192).

(** [str::is_char_boundary] *)
Definition is_char_boundary (value : string) (idx : nat) : bool :=
  match idx with
  | O => true
  | _ => match sskipn idx value with
         | String c _ => negb (is_continuation c)
         | EmptyString => (idx =? String.length value)%nat
         end
  end.

Fixpoint clamp_loop (value : string) (idx : nat) : nat :=
  match idx with
  | O => O
  | S i => if is_char_boundary value idx then idx else clamp_loop value i
  end.

Definition clamp_utf8_boundary (value : string) (idx : Z) : nat :=
  clamp_loop value (Z.to_nat (Z.min idx (len value))).

Definition truncate_text_for_budget (value : string) (budget_bytes : Z) : string :=
  if (budget_bytes =? 0) || is_empty value then ""
  else if len value <=? budget_bytes then value
  else sfirstn (clamp_utf8_boundary value budget_bytes) value.

Definition truncate_text_from_end_for_budget (value : string) (budget_bytes : Z) : string :=
  if (budget_bytes =? 0) || is_empty value then ""
  else if len value <=? budget_bytes then value
  else sskipn (clamp_utf8_boundary value (len value - budget_bytes)) value.

(** The products with 0.65 and 0.25 are of [f64]; below 2^50 bytes their integer
    part is the exact one. *)
Definition summarize_text_for_budget (text : string) (budget_bytes : Z) : string :=
  if len text <=? budget_bytes then text
  else
    let budget_bytes := Z.max budget_bytes 64 in
    let head := truncate_text_for_budget text (Z.max (budget_bytes * 65 / 100) 16) in
    let tail := truncate_text_from_end_for_budget text (Z.max (budget_bytes * 25 / 100) 16) in
    let newline := String (ascii_of_N 10) "" in
    truncate_text_for_budget
      ("[summary-trimmed]" +:+ newline +:+ head +:+ newline +:+ "..." +:+ newline +:+ tail) budget_bytes.

(** * Documents *)

Record LlmContextDocument := { cd_id : string; cd_text : string }.

(** The loop has the end of the text as its last turn; a turn that would not
    advance ends it. *)
Fixpoint chunks_loop (fuel : nat) (text : string) (chunk_bytes : Z) (start : nat) (made : nat)
    : list LlmContextDocument :=
  match fuel with
  | O => []
  | S fuel =>
      if (String.length text <=? start)%nat then []
      else
        let candidate_end := Z.min (Z.of_nat start + chunk_bytes) (len text) in
        let end_ := clamp_utf8_boundary text candidate_end in
        if (end_ <=? start)%nat then []
        else {| cd_id := "chunk-" +:+ pretty (Z.of_nat made + 1);
                cd_text := sfirstn (end_ - start) (sskipn start text) |}
             :: chunks_loop fuel text chunk_bytes end_ (S made)
  end.

Definition split_text_chunks (text : string) (chunk_bytes : Z) : list LlmContextDocument :=
  if is_empty text then [] else chunks_loop (String.length text) text (Z.max chunk_bytes 256) 0 0.

(** [value.split(sep)] for a set of characters. *)
Fixpoint split_by (sep : ascii -> bool) (s : string) : list string :=
  match s with
  | EmptyString => [""]
  | String c s =>
      if sep c then "" :: split_by sep s
      else match split_by sep s with
           | t :: rest => String c t :: rest
           | [] => [String c ""]
           end
  end.

Definition tokenize (value : string) : gset string :=
  list_to_set (map to_ascii_lowercase
    (List.filter (fun token => 2 <? len token) (map trim (split_by (fun c => negb (is_ascii_alphanumeric c)) value)))).

Definition token_overlap_score (query_tokens : gset string) (text : string) : Z :=
  if bool_decide (query_tokens = ∅) then 0 else Z.of_nat (size (query_tokens ∩ tokenize text)).

(** The order of [sort_by]: best score first, then as given. *)
Definition scored : Type := Z * Z * LlmContextDocument.
Definition ranks_before (left right : scored) : bool :=
  let '(i, s, d) := left in
  let '(j, t, e) := right in
  (t <? s) || (s =? t) && ((i <? j) || (i =? j) && (len (cd_text d) <=? len (cd_text e))).

Fixpoint select_loop (docs : list scored) (used_bytes max_bytes : Z) : list LlmContextDocument :=
  match docs with
  | [] => []
  | (_, _, doc) :: rest =>
      if max_bytes <=? used_bytes then []
      else
        let excerpt := truncate_text_for_budget (cd_text doc) (Z.max (Z.max 0 (max_bytes - used_bytes)) 64) in
        if is_empty excerpt then select_loop rest used_bytes max_bytes
        else {| cd_id := cd_id doc; cd_text := excerpt |}
             :: select_loop rest (Z.min u64_max (used_bytes + len excerpt)) max_bytes
  end.

Definition score_documents (query : string) (documents : list LlmContextDocument) : list scored :=
  imap (fun i doc => (Z.of_nat i, token_overlap_score (tokenize query) (cd_text doc), doc)) documents.

Definition rank_and_select_documents (query : string) (documents : list LlmContextDocument)
    (top_k max_bytes : Z) : list LlmContextDocument :=
  let scored := order_by ranks_before (score_documents query documents) in
  let selected := select_loop (take (Z.to_nat top_k) scored) 0 max_bytes in
  match selected, documents with
  | [], first :: _ =>
      [{| cd_id := cd_id first; cd_text := truncate_text_for_budget (cd_text first) (Z.max max_bytes 64) |}]
  | _, _ => selected
  end.

Definition document_block (doc : LlmContextDocument) : string :=
  let newline := String (ascii_of_N 10) "" in
  "---- " +:+ cd_id doc +:+ " ----" +:+ newline +:+ cd_text doc +:+ newline.

Definition build_retrieval_prompt (query : string) (selected : list LlmContextDocument) (max_bytes : Z) : string :=
  let newline := String (ascii_of_N 10) "" in
  truncate_text_for_budget
    ("Query:" +:+ newline +:+ query +:+ newline +:+ newline +:+ "Relevant context:" +:+ newline +:+
     String.concat "" (map document_block selected)) (Z.max max_bytes 256).

(** * Cutting text *)

Lemma sfirstn_length n s : String.length (sfirstn n s) = Nat.min n (String.length s).
Proof. revert s. induction n as [|n IH]; intros [|c s]; cbn; auto. Qed.

Lemma sskipn_length n s : String.length (sskipn n s) = (String.length s - n)%nat.
Proof. revert s. induction n as [|n IH]; intros [|c s]; cbn; auto. Qed.

Lemma sfirstn_sskipn n s : sfirstn n s +:+ sskipn n s = s.
Proof. revert s. induction n as [|n IH]; intros [|c s]; cbn; rewrite ?sapp_nil_l; try done. by rewrite sapp_cons, IH. Qed.

Lemma sskipn_sskipn n m s : sskipn n (sskipn m s) = sskipn (m + n) s.
Proof. revert s. induction m as [|m IH]; intros [|c s]; cbn; auto. by destruct n. Qed.

Lemma sskipn_all n s : (String.length s <= n)%nat -> sskipn n s = "".
Proof. revert s. induction n as [|n IH]; intros [|c s]; cbn; intros; try lia; auto with lia. Qed.

Lemma clamp_loop_le value i : (clamp_loop value i <= i)%nat.
Proof. induction i as [|i IH]; cbn [clamp_loop]; [done|]. destruct (is_char_boundary _ _); lia. Qed.

(** A slice at the position never splits a character. *)
Lemma clamp_loop_boundary value i : is_char_boundary value (clamp_loop value i) = true.
Proof. induction i as [|i IH]; cbn [clamp_loop]; [done|]. by destruct (is_char_boundary value (S i)) eqn:E. Qed.

Lemma clamp_le value i : 0 <= i -> Z.of_nat (clamp_utf8_boundary value i) <= i.
Proof. intros Hi. unfold clamp_utf8_boundary. pose proof (clamp_loop_le value (Z.to_nat (Z.min i (len value)))). lia. Qed.

Lemma truncate_length value budget : 0 <= budget -> len (truncate_text_for_budget value budget) <= budget.
Proof.
  intros Hb. unfold truncate_text_for_budget. destruct (_ || _); [exact Hb|].
  destruct (len value <=? budget) eqn:E; bool_hyps; [done|]. pose proof (clamp_le value budget Hb) as Hc.
  unfold len at 1. rewrite sfirstn_length. lia.
Qed.

Lemma truncate_prefix value budget : exists rest, value = truncate_text_for_budget value budget +:+ rest.
Proof.
  unfold truncate_text_for_budget. destruct (_ || _); [by exists value|].
  destruct (_ <=? _); [exists ""; by rewrite sapp_nil_r|]. eexists. symmetry. apply sfirstn_sskipn.
Qed.

Lemma summarize_length text budget : 0 <= budget -> len (summarize_text_for_budget text budget) <= Z.max budget 64.
Proof.
  intros Hb. unfold summarize_text_for_budget. destruct (len text <=? budget) eqn:E; bool_hyps; [lia|].
  apply truncate_length. lia.
Qed.

(** * Chunks *)

(** What every [str] satisfies: a character has at most three continuation bytes. *)
Fixpoint runs_ok (n : nat) (s : string) : bool :=
  match s with
  | EmptyString => true
  | String c s => if is_continuation c then match n with O => false | S n => runs_ok n s end else runs_ok 3 s
  end.
Definition utf8_text (s : string) : bool := runs_ok 0 s.

Lemma runs_ok_mono n m s : (n <= m)%nat -> runs_ok n s = true -> runs_ok m s = true.
Proof.
  revert n m. induction s as [|c s IH]; intros n m Hn; [done|]. cbn. destruct (is_continuation c); [|done].
  destruct n as [|n]; [done|]. destruct m as [|m]; [lia|]. apply IH. lia.
Qed.

Lemma runs_ok_skip k n s : (n <= 3)%nat -> runs_ok n s = true -> runs_ok 3 (sskipn k s) = true.
Proof.
  revert n s. induction k as [|k IH]; intros n [|c s] Hn H; try done.
  - by apply (runs_ok_mono n 3).
  - cbn in *. destruct (is_continuation c); [destruct n as [|n]; [done|]; apply (IH n); [lia|done]|by apply (IH 3%nat)].
Qed.

Lemma not_boundary value i : (0 < i < String.length value)%nat -> is_char_boundary value i = false ->
  exists c, sskipn i value = String c (sskipn (S i) value) /\ is_continuation c = true.
Proof.
  intros Hi. unfold is_char_boundary. destruct i as [|i]; [lia|]. destruct (sskipn (S i) value) as [|c r] eqn:E.
  - assert (String.length (sskipn (S i) value) = 0%nat) as H by by rewrite E. rewrite sskipn_length in H. lia.
  - intros Hc%negb_false_iff. exists c. split; [|done]. f_equal. replace (S (S i)) with (S i + 1)%nat by lia.
    by rewrite <- sskipn_sskipn, E.
Qed.

(** The cut loses less than a character. *)
Lemma clamp_loop_near value i : utf8_text value = true -> (i <= String.length value)%nat ->
  (i <= clamp_loop value i + 3)%nat.
Proof.
  intros Hu Hi. destruct (decide (i = String.length value)) as [->|Hne].
  { destruct (String.length value) as [|n] eqn:Hl; [lia|]. cbn [clamp_loop]. unfold is_char_boundary.
    rewrite sskipn_all by lia. rewrite Hl, Nat.eqb_refl. lia. }
  destruct i as [|[|[|[|j]]]]; try lia. cbn [clamp_loop].
  repeat match goal with |- context [is_char_boundary value ?k] =>
    destruct (is_char_boundary value k) eqn:?; [lia|] end.
  repeat match goal with H : is_char_boundary value _ = false |- _ =>
    apply not_boundary in H as (? & ? & ?); [|lia] end.
  pose proof (runs_ok_skip (S j) 0 value ltac:(lia) Hu) as Hr.
  repeat match goal with H : sskipn _ value = String _ _ |- _ => rewrite H in Hr; clear H end.
  cbn in Hr. by repeat match goal with H : is_continuation _ = true |- _ => rewrite H in Hr; clear H end.
Qed.

Lemma chunks_loop_text fuel text chunk_bytes start made :
  utf8_text text = true -> 256 <= chunk_bytes -> (start <= String.length text <= start + fuel)%nat ->
  String.concat "" (map cd_text (chunks_loop fuel text chunk_bytes start made)) = sskipn start text /\
  Forall (fun d => 0 < len (cd_text d) <= chunk_bytes) (chunks_loop fuel text chunk_bytes start made).
Proof.
  intros Hu Hc. revert start made. induction fuel as [|fuel IH]; intros start made Hs; cbn [chunks_loop].
  { split; [|constructor]. symmetry. apply sskipn_all. lia. }
  destruct (_ <=? _)%nat eqn:E; [apply Nat.leb_le in E|apply Nat.leb_gt in E].
  { split; [|constructor]. symmetry. apply sskipn_all. lia. }
  set (candidate := Z.min (Z.of_nat start + chunk_bytes) (len text)).
  assert (Z.of_nat (clamp_utf8_boundary text candidate) <= candidate <= Z.of_nat (clamp_utf8_boundary text candidate) + 3)
    as [Hle Hge].
  { split; [apply clamp_le; unfold candidate, len; lia|]. unfold clamp_utf8_boundary.
    pose proof (clamp_loop_near text (Z.to_nat (Z.min candidate (len text))) Hu). unfold candidate, len in *. lia. }
  assert (candidate = len text -> Z.of_nat (clamp_utf8_boundary text candidate) = len text) as Hend.
  { intros ->. unfold clamp_utf8_boundary. rewrite Z.min_id. unfold len. rewrite Nat2Z.id.
    destruct (String.length text) as [|n] eqn:Hl; [done|]. cbn [clamp_loop]. unfold is_char_boundary.
    rewrite sskipn_all by lia. by rewrite Hl, Nat.eqb_refl. }
  set (end_ := clamp_utf8_boundary text candidate) in *.
  assert ((start < end_ <= String.length text)%nat /\ Z.of_nat end_ - Z.of_nat start <= chunk_bytes) as (H1 & H2)
    by (unfold candidate, len in *; lia).
  destruct (end_ <=? start)%nat eqn:E2; [apply Nat.leb_le in E2; lia|].
  destruct (IH end_ (S made)) as [IH1 IH2]; [lia|]. split.
  - cbn [map String.concat cd_text]. destruct (map cd_text _) as [|x l] eqn:Hm.
    + cbn in IH1. rewrite <- (sfirstn_sskipn (end_ - start) (sskipn start text)) at 2.
      rewrite sskipn_sskipn. replace (start + (end_ - start))%nat with end_ by lia.
      by rewrite <- IH1, sapp_nil_r.
    + rewrite IH1, sapp_nil_l. rewrite <- (sfirstn_sskipn (end_ - start) (sskipn start text)) at 2.
      rewrite sskipn_sskipn. by replace (start + (end_ - start))%nat with end_ by lia.
  - constructor; [|done]. cbn. unfold len. rewrite sfirstn_length, sskipn_length. lia.
Qed.

(** * Selection *)

Definition excerpt_of (documents : list LlmContextDocument) (d : LlmContextDocument) : Prop :=
  exists doc rest, doc ∈ documents /\ cd_id d = cd_id doc /\ cd_text doc = cd_text d +:+ rest.

Lemma select_loop_excerpts docs used max_bytes :
  Forall (excerpt_of (map snd docs)) (select_loop docs used max_bytes) /\
  (length (select_loop docs used max_bytes) <= length docs)%nat.
Proof.
  revert used. induction docs as [|[[i s] doc] docs IH]; intros used; cbn [select_loop map]; [by split|].
  destruct (_ <=? _); [split; [constructor|cbn; lia]|].
  assert (forall u, Forall (excerpt_of (doc :: map snd docs)) (select_loop docs u max_bytes) /\
    (length (select_loop docs u max_bytes) <= length docs)%nat) as IH'.
  { intros u. destruct (IH u) as [H1 H2]. split; [|done]. eapply Forall_impl; [exact H1|].
    intros d (doc' & rest & Hin & H). exists doc', rest. split; [by right|done]. }
  destruct (is_empty _); [destruct (IH' used); split; [done|cbn; lia]|].
  match goal with |- context [select_loop docs ?u max_bytes] => destruct (IH' u) as [H1 H2] end.
  split; [|cbn; lia]. constructor; [|done].
  destruct (truncate_prefix (cd_text doc) (Z.max (Z.max 0 (max_bytes - used)) 64)) as [rest Hrest].
  exists doc, rest. split; [left|done].
Qed.

Lemma selected_excerpts query documents top_k max_bytes :
  1 <= top_k -> Forall (excerpt_of documents) (rank_and_select_documents query documents top_k max_bytes) /\
  Z.of_nat (length (rank_and_select_documents query documents top_k max_bytes)) <= top_k.
Proof.
  intros Hk. unfold rank_and_select_documents.
  set (ranked := take (Z.to_nat top_k) (order_by ranks_before (score_documents query documents))).
  destruct (select_loop_excerpts ranked 0 max_bytes) as [H1 H2].
  assert (Forall (excerpt_of documents) (select_loop ranked 0 max_bytes)) as H3.
  { eapply Forall_impl; [exact H1|]. intros d (doc & rest & Hin & H). exists doc, rest. split; [|done].
    apply list_elem_of_fmap in Hin as ([[i s] doc'] & -> & Hin). apply (subseteq_take _ _) in Hin.
    apply elem_of_order_by, elem_of_lookup_imap in Hin as (k & x & [= _ _ ->] & Hx).
    by apply list_elem_of_lookup_2 in Hx. }
  assert (length ranked <= Z.to_nat top_k)%nat as H4 by (unfold ranked; rewrite length_take; lia).
  pose proof (Nat.le_trans _ _ _ H2 H4) as H5.
  destruct (select_loop ranked 0 max_bytes) as [|d l]; [|split; [done|lia]].
  destruct documents as [|first rest]; [split; [done|cbn [length]; lia]|]. split; [|cbn; lia].
  constructor; [|constructor]. destruct (truncate_prefix (cd_text first) (Z.max max_bytes 64)) as [r Hr].
  exists first, r. split; [left|done].
Qed.
