(* ===== verification/LlmPlan.v ===== *)
(** From the arguments of an [llm.infer] action to the prompt, the route and the
    model (worker/src/llm.rs): the enumerations, the configuration, the parsing of
    the arguments, the defaults of a channel, the plan of the prompt, the choice of
    route, model and endpoint, and the scope that the policy engine checks.  The
    value of [LLM_CHANNEL_DEFAULTS_JSON] and the JSON parser are arguments. *)
From stdpp Require Import pretty.
From S2P Require Import Prelude RustStr Json Sql World LlmText.

(** * Enumerations *)

Inductive LlmMode := LocalOnly | LocalFirst | RemoteOnly.
Inductive LlmRoute := Local | Remote.
Inductive LlmRequestClass := Interactive | Batch.
Inductive LlmLargeInputPolicy := Direct | SummarizeFirst | ChunkAndRetrieve | EscalateRemote.
Inductive LlmRemoteEgressClass := NeverLeavesPrem | RedactedOnly | CloudAllowed.
Inductive LlmVerifierMode := Heuristic | Deterministic | ModelJudge | Hybrid.
Inductive LlmLocalTier := Workhorse | Small.

#[export] Instance LlmRoute_eq_dec : EqDecision LlmRoute.
Proof. solve_decision. Defined.
#[export] Instance LlmLocalTier_eq_dec : EqDecision LlmLocalTier.
Proof. solve_decision. Defined.

Definition LlmMode_as_str (m : LlmMode) : string :=
  match m with LocalOnly => "local_only" | LocalFirst => "local_first" | RemoteOnly => "remote_only" end.
Definition LlmRoute_as_str (r : LlmRoute) : string :=
  match r with Local => "local" | Remote => "remote" end.
Definition LlmRequestClass_as_str (c : LlmRequestClass) : string :=
  match c with Interactive => "interactive" | Batch => "batch" end.
Definition LlmLargeInputPolicy_as_str (p : LlmLargeInputPolicy) : string :=
  match p with
  | Direct => "direct" | SummarizeFirst => "summarize_first"
  | ChunkAndRetrieve => "chunk_and_retrieve" | EscalateRemote => "escalate_remote"
  end.
Definition LlmRemoteEgressClass_as_str (c : LlmRemoteEgressClass) : string :=
  match c with
  | NeverLeavesPrem => "never_leaves_prem" | RedactedOnly => "redacted_only" | CloudAllowed => "cloud_allowed"
  end.
Definition LlmVerifierMode_as_str (m : LlmVerifierMode) : string :=
  match m with
  | Heuristic => "heuristic" | Deterministic => "deterministic"
  | ModelJudge => "model_judge" | Hybrid => "hybrid"
  end.
Definition LlmLocalTier_as_str (t : LlmLocalTier) : string :=
  match t with Workhorse => "workhorse" | Small => "small" end.

(** [match raw.trim().to_ascii_lowercase()] with the last arm an error. *)
Definition parse_name {A} (raw : string) (arms : list (list string * A)) (err : string -> string) : result A error :=
  let name := to_ascii_lowercase (trim raw) in
  match str_match name arms with Some a => Ok a | None => Err (Anyhow (err name)) end.

Definition LlmRequestClass_parse (raw : string) : result LlmRequestClass error :=
  parse_name raw [([""; "interactive"], Interactive); (["batch"], Batch)]
    (fun other => "invalid llm request class `" +:+ other +:+ "` (supported: interactive, batch)").

Definition LlmLargeInputPolicy_parse (raw : string) : result LlmLargeInputPolicy error :=
  parse_name raw
    [([""; "summarize_first"], SummarizeFirst); (["direct"], Direct);
     (["chunk_and_retrieve"; "chunk_retrieve"], ChunkAndRetrieve); (["escalate_remote"; "remote"], EscalateRemote)]
    (fun other => "invalid LLM_LARGE_INPUT_POLICY `" +:+ other +:+
       "` (supported: direct, summarize_first, chunk_and_retrieve, escalate_remote)").

Definition LlmLocalTier_parse (raw key_name : string) : result LlmLocalTier error :=
  parse_name raw [([""; "workhorse"; "default"], Workhorse); (["small"], Small)]
    (fun other => "invalid " +:+ key_name +:+ " `" +:+ other +:+ "` (supported: workhorse, small)").

Definition parse_route_preference (raw : string) : result LlmRoute error :=
  let name := to_ascii_lowercase raw in
  match str_match name [(["local"], Local); (["remote"], Remote)] with
  | Some r => Ok r
  | None => Err (Anyhow ("invalid llm.infer args.prefer `" +:+ name +:+ "` (supported: local, remote)"))
  end.

(** * Configuration *)

Record LlmEndpointConfig := { ep_base_url : string; ep_model : string; ep_api_key : option string }.

(** Times in milliseconds or seconds as in the names; costs per token are left to
    the caller. *)
Record LlmConfig := {
  lm_mode : LlmMode; lm_timeout_ms : Z; lm_max_input_bytes : Z; lm_max_prompt_bytes : Z; lm_max_output_bytes : Z;
  lm_large_input_threshold_bytes : Z; lm_large_input_policy : LlmLargeInputPolicy;
  lm_large_input_summary_target_bytes : Z; lm_context_retrieval_top_k : Z; lm_context_retrieval_max_bytes : Z;
  lm_context_retrieval_chunk_bytes : Z; lm_admission_enabled : bool; lm_admission_interactive_max_inflight : Z;
  lm_admission_batch_max_inflight : Z; lm_cache_enabled : bool; lm_cache_ttl_secs : Z; lm_cache_max_entries : Z;
  lm_distributed_enabled : bool; lm_distributed_fail_open : bool; lm_distributed_owner : string;
  lm_distributed_admission_enabled : bool; lm_distributed_admission_lease_ms : Z;
  lm_distributed_cache_enabled : bool; lm_distributed_cache_namespace_max_entries : Z; lm_verifier_enabled : bool;
  lm_verifier_mode : LlmVerifierMode; lm_verifier_min_score_pct : Z; lm_verifier_escalate_remote : bool;
  lm_verifier_min_response_chars : Z; lm_verifier_judge : option LlmEndpointConfig; lm_verifier_judge_timeout_ms : Z;
  lm_verifier_judge_fail_open : bool; lm_slo_interactive_max_latency_ms : option Z;
  lm_slo_batch_max_latency_ms : option Z; lm_slo_alert_threshold_pct : option Z; lm_slo_breach_escalate_remote : bool;
  lm_local : option LlmEndpointConfig; lm_local_models : list string; lm_local_small : option LlmEndpointConfig;
  lm_local_small_models : list string; lm_local_interactive_tier : LlmLocalTier; lm_local_batch_tier : LlmLocalTier;
  lm_remote : option LlmEndpointConfig; lm_remote_models : list string; lm_remote_egress_enabled : bool;
  lm_remote_egress_class : LlmRemoteEgressClass; lm_remote_host_allowlist : list string;
  lm_remote_token_budget_per_run : option Z; lm_remote_token_budget_per_tenant : option Z;
  lm_remote_token_budget_per_agent : option Z; lm_remote_token_budget_per_model : option Z;
  lm_remote_token_budget_window_secs : Z; lm_remote_token_budget_soft_alert_threshold_pct : option Z;
  lm_remote_cost_per_1k_tokens_usd : number;
}.

Record LlmChannelRouteDefaults := {
  cr_prefer : option LlmRoute; cr_request_class : option LlmRequestClass; cr_local_tier : option LlmLocalTier;
}.

(** [temperature] is the number of the request; its cast to [f32] is left to the
    serializer. *)
Record LlmInferActionArgs := {
  ia_prompt : string; ia_channel : option string; ia_system : option string; ia_prefer : option LlmRoute;
  ia_prefer_explicit : bool; ia_request_class : LlmRequestClass; ia_request_class_explicit : bool;
  ia_local_tier : option LlmLocalTier; ia_local_tier_explicit : bool; ia_model : option string;
  ia_large_input_policy : option LlmLargeInputPolicy; ia_redacted : bool;
  ia_context_documents : list LlmContextDocument; ia_context_query : option string; ia_context_top_k : option Z;
  ia_context_max_bytes : option Z; ia_verifier_required : bool; ia_max_tokens : option Z;
  ia_temperature : option number;
}.

Record LlmPromptPlan := {
  pp_prompt : string; pp_channel : option string; pp_channel_defaults_applied : bool; pp_prefer : option LlmRoute;
  pp_request_class : LlmRequestClass; pp_local_tier : option LlmLocalTier; pp_model : option string;
  pp_large_input_policy : LlmLargeInputPolicy; pp_large_input_applied : bool; pp_large_input_reason_code : string;
  pp_prompt_bytes_original : Z; pp_prompt_bytes_effective : Z; pp_retrieval_candidate_documents : Z;
  pp_retrieval_selected_documents : Z;
}.

(** * Arguments *)

(** [.and_then(Value::as_str).map(str::trim).filter(|v| !v.is_empty())] *)
Definition trimmed_str (v : option json) : option string := (v ≫= as_str) ≫= non_empty_trimmed.

(** [args.get(a).or_else(|| args.get(b))] *)
Definition get_or (a b : string) (v : json) : option json :=
  match get a v with Some x => Some x | None => get b v end.

(** [.map(parse).transpose()?] *)
Definition transpose {A B} (f : A -> result B error) (o : option A) : result (option B) error :=
  match o with Some a => let? b := f a in Ok (Some b) | None => Ok None end.

Definition clamp (lo hi v : Z) : Z := Z.max lo (Z.min hi v).
Definition u32_max : Z := 2 ^ 32 - 1.

Definition normalize_channel_name (raw : string) : option string :=
  let trimmed := trim raw in
  let trimmed := trim (default trimmed (strip_prefix "#" trimmed)) in
  if is_empty trimmed then None else Some (to_ascii_lowercase trimmed).

Definition context_document (idx : Z) (item : json) : option LlmContextDocument :=
  match trimmed_str (get "text" item) with
  | None => None
  | Some text =>
      let id := match get "id" item with
                | Some v => Some v
                | None => get_or "path" "source" item
                end in
      Some {| cd_id := default ("doc-" +:+ pretty (idx + 1)) (trimmed_str id); cd_text := text |}
  end.

Definition parse_context_documents (value : option json) : list LlmContextDocument :=
  match value ≫= as_array with
  | Some items => omap id (imap (fun i item => context_document (Z.of_nat i) item) items)
  | None => []
  end.

Definition as_number (v : json) : option number := match v with JNum n => Some n | _ => None end.

Definition parse_action_args (args : json) (max_input_bytes : Z) : result LlmInferActionArgs error :=
  let? prompt := ok_or (trimmed_str (get "prompt" args)) (Anyhow "llm.infer args.prompt is required") in
  if max_input_bytes <? len prompt then
    Err (Anyhow ("llm.infer prompt exceeded " +:+ pretty max_input_bytes +:+ " bytes"))
  else
    let prefer_raw := trimmed_str (get "prefer" args) in
    let? prefer := transpose parse_route_preference prefer_raw in
    let class_raw := trimmed_str (get_or "request_class" "queue_class" args) in
    let? class := transpose LlmRequestClass_parse class_raw in
    let tier_raw := trimmed_str (get "local_tier" args) in
    let? tier := transpose (fun raw => LlmLocalTier_parse raw "llm.infer args.local_tier") tier_raw in
    let? policy := transpose LlmLargeInputPolicy_parse (get_str "large_input_policy" args) in
    Ok {| ia_prompt := prompt;
          ia_channel := (get_or "channel" "llm_channel" args ≫= as_str) ≫= normalize_channel_name;
          ia_system := trimmed_str (get "system" args); ia_prefer := prefer;
          ia_prefer_explicit := bool_decide (is_Some prefer_raw);
          ia_request_class := default Interactive class;
          ia_request_class_explicit := bool_decide (is_Some class_raw); ia_local_tier := tier;
          ia_local_tier_explicit := bool_decide (is_Some tier_raw); ia_model := trimmed_str (get "model" args);
          ia_large_input_policy := policy; ia_redacted := default false (get "redacted" args ≫= as_bool);
          ia_context_documents := parse_context_documents (get "context_documents" args);
          ia_context_query := trimmed_str (get "context_query" args);
          ia_context_top_k := clamp 1 32 <$> (get "context_top_k" args ≫= as_u64);
          ia_context_max_bytes := clamp 256 (512 * 1024) <$> (get "context_max_bytes" args ≫= as_u64);
          ia_verifier_required := default false (get_or "verify" "verifier_required" args ≫= as_bool);
          ia_max_tokens := Z.min u32_max <$> (get "max_tokens" args ≫= as_u64);
          ia_temperature := get "temperature" args ≫= as_number |}.

(** * Channels *)

Definition default_channel_defaults : gmap string LlmChannelRouteDefaults :=
  list_to_map
    [("general", {| cr_prefer := None; cr_request_class := Some Interactive; cr_local_tier := Some Workhorse |});
     ("inbox", {| cr_prefer := None; cr_request_class := Some Interactive; cr_local_tier := Some Small |});
     ("monitoring", {| cr_prefer := None; cr_request_class := Some Batch; cr_local_tier := Some Small |})].

Definition with_context {A} (context : string) (r : result A error) : result A error :=
  map_err (Context context) r.

Definition parse_channel_defaults_entry (channel : string) (value : json) : result LlmChannelRouteDefaults error :=
  match value with
  | JObj _ =>
      let? prefer :=
        with_context ("invalid LLM channel default `prefer` for channel `" +:+ channel +:+ "`")
          (transpose parse_route_preference (trimmed_str (get "prefer" value))) in
      let? class :=
        with_context ("invalid LLM channel default `request_class` for channel `" +:+ channel +:+ "`")
          (transpose LlmRequestClass_parse (trimmed_str (get_or "request_class" "queue_class" value))) in
      let? tier :=
        with_context ("invalid LLM channel default `local_tier` for `" +:+ channel +:+ "`")
          (transpose (fun raw => LlmLocalTier_parse raw "LLM_CHANNEL_DEFAULTS_JSON.local_tier")
             (trimmed_str (get "local_tier" value))) in
      Ok {| cr_prefer := prefer; cr_request_class := class; cr_local_tier := tier |}
  | _ => Err (Anyhow ("LLM_CHANNEL_DEFAULTS_JSON." +:+ channel +:+
                      " must be an object (or null to disable built-in default)"))
  end.

Fixpoint channel_defaults_loop (fields : jmap) (defaults : gmap string LlmChannelRouteDefaults)
    : result (gmap string LlmChannelRouteDefaults) error :=
  match fields with
  | [] => Ok defaults
  | (channel_raw, value) :: rest =>
      match normalize_channel_name channel_raw with
      | None => channel_defaults_loop rest defaults
      | Some channel =>
          match value with
          | JNull => channel_defaults_loop rest (delete channel defaults)
          | _ => let? entry := parse_channel_defaults_entry channel value in
                 channel_defaults_loop rest (<[channel := entry]> defaults)
          end
      end
  end.

(** The value of the environment variable, and [serde_json::from_str]. *)
Record channel_env := { ce_raw : option string; ce_from_str : string -> result json string }.

Definition resolve_channel_defaults_from_env (ce : channel_env) : result (gmap string LlmChannelRouteDefaults) error :=
  match ce_raw ce with
  | None => Ok default_channel_defaults
  | Some raw =>
      let? payload := with_context "invalid JSON in LLM_CHANNEL_DEFAULTS_JSON" (map_err Anyhow (ce_from_str ce raw)) in
      let? object := ok_or (as_object payload)
        (Anyhow "LLM_CHANNEL_DEFAULTS_JSON must be a JSON object mapping channel->defaults") in
      channel_defaults_loop object default_channel_defaults
  end.

(** * The prompt *)

Record RetrievalOutput := {
  ro_prompt : string; ro_candidate_documents : Z; ro_selected_documents : Z; ro_reason_code : string;
}.

Definition build_retrieved_prompt (parsed : LlmInferActionArgs) (config : LlmConfig) : RetrievalOutput :=
  let top_k := clamp 1 32 (default (lm_context_retrieval_top_k config) (ia_context_top_k parsed)) in
  let max_bytes := Z.max (default (lm_context_retrieval_max_bytes config) (ia_context_max_bytes parsed)) 256 in
  let query := default (ia_prompt parsed) (ia_context_query parsed) in
  let '(documents, reason_code) :=
    match ia_context_documents parsed with
    | [] => (split_text_chunks (ia_prompt parsed) (lm_context_retrieval_chunk_bytes config),
             "large_input_chunk_retrieve_prompt")
    | documents => (documents, "large_input_chunk_retrieve_documents")
    end in
  let selected := rank_and_select_documents query documents top_k max_bytes in
  {| ro_prompt := build_retrieval_prompt (truncate_text_for_budget query 1024) selected max_bytes;
     ro_candidate_documents := Z.of_nat (length documents);
     ro_selected_documents := Z.of_nat (length selected); ro_reason_code := reason_code |}.

(** What the channel fills in, and whether it filled in anything. *)
Definition channel_default {A} (explicit : bool) (own by_channel : option A) : option A * bool :=
  match by_channel with
  | Some a => if explicit then (own, false) else (Some a, true)
  | None => (own, false)
  end.

(** What the size of the input makes of the prompt: the prompt, the preferred
    route, whether anything was applied, the reason, and the documents. *)
Definition shape_prompt (parsed : LlmInferActionArgs) (config : LlmConfig) (policy : LlmLargeInputPolicy)
    (prefer : option LlmRoute) : string * option LlmRoute * bool * string * (Z * Z) :=
  let prompt := ia_prompt parsed in
  let retrieval := build_retrieved_prompt parsed config in
  let documents := (ro_candidate_documents retrieval, ro_selected_documents retrieval) in
  if lm_large_input_threshold_bytes config <? len prompt then
    match policy with
    | Direct => (prompt, prefer, false, "large_input_direct", (0, 0))
    | SummarizeFirst =>
        (summarize_text_for_budget prompt (lm_large_input_summary_target_bytes config), prefer, true,
         "large_input_summarize_first", (0, 0))
    | ChunkAndRetrieve => (ro_prompt retrieval, prefer, true, ro_reason_code retrieval, documents)
    | EscalateRemote => (prompt, Some Remote, true, "large_input_escalate_remote", (0, 0))
    end
  else match ia_context_documents parsed with
       | [] => (prompt, prefer, false, "direct", (0, 0))
       | _ => (ro_prompt retrieval, prefer, true, "context_retrieval_applied", documents)
       end.

Definition build_prompt_plan (ce : channel_env) (parsed : LlmInferActionArgs) (config : LlmConfig)
    : result LlmPromptPlan error :=
  let? defaults := resolve_channel_defaults_from_env ce in
  let policy := ia_channel parsed ≫= fun name => defaults !! name in
  let '(prefer, a1) := channel_default (ia_prefer_explicit parsed) (ia_prefer parsed) (policy ≫= cr_prefer) in
  let '(class, a2) := channel_default (ia_request_class_explicit parsed) (Some (ia_request_class parsed))
                        (policy ≫= cr_request_class) in
  let '(tier, a3) := channel_default (ia_local_tier_explicit parsed) (ia_local_tier parsed)
                       (policy ≫= cr_local_tier) in
  let large_input_policy := default (lm_large_input_policy config) (ia_large_input_policy parsed) in
  let '(prompt, prefer, applied, reason, (candidates, selected)) :=
    shape_prompt parsed config large_input_policy prefer in
  let trimmed := lm_max_prompt_bytes config <? len prompt in
  let prompt := if trimmed then summarize_text_for_budget prompt (lm_max_prompt_bytes config) else prompt in
  let reason := if trimmed && str_in reason ["direct"; "large_input_direct"] then "prompt_trimmed_to_budget"
                else reason in
  if is_empty (trim prompt) then
    Err (Anyhow "llm.infer prompt became empty after large-input policy processing")
  else
    Ok {| pp_prompt := prompt; pp_channel := ia_channel parsed; pp_channel_defaults_applied := a1 || a2 || a3;
          pp_prefer := prefer; pp_request_class := default (ia_request_class parsed) class; pp_local_tier := tier;
          pp_model := ia_model parsed; pp_large_input_policy := large_input_policy;
          pp_large_input_applied := applied || trimmed; pp_large_input_reason_code := reason;
          pp_prompt_bytes_original := len (ia_prompt parsed); pp_prompt_bytes_effective := len prompt;
          pp_retrieval_candidate_documents := candidates; pp_retrieval_selected_documents := selected |}.

(** * Route, model and endpoint *)

Record RouteDecision := { rd_route : LlmRoute; rd_reason_code : string }.

Definition select_route_with_reason (config : LlmConfig) (prefer : option LlmRoute) : result RouteDecision error :=
  let local_available := bool_decide (is_Some (lm_local config)) in
  let remote_available := bool_decide (is_Some (lm_remote config)) in
  match lm_mode config with
  | LocalOnly =>
      if negb local_available then Err (Anyhow "LLM_MODE=local_only but local model is not configured")
      else if bool_decide (prefer = Some Remote) then
        Err (Anyhow "llm.infer prefer=remote is not allowed when LLM_MODE=local_only")
      else Ok {| rd_route := Local; rd_reason_code := "mode_local_only" |}
  | RemoteOnly =>
      if negb remote_available then Err (Anyhow "LLM_MODE=remote_only but remote model is not configured")
      else if bool_decide (prefer = Some Local) then
        Err (Anyhow "llm.infer prefer=local is not allowed when LLM_MODE=remote_only")
      else Ok {| rd_route := Remote; rd_reason_code := "mode_remote_only" |}
  | LocalFirst =>
      if bool_decide (prefer = Some Remote) && remote_available then
        Ok {| rd_route := Remote; rd_reason_code := "prefer_remote_local_first" |}
      else if local_available then Ok {| rd_route := Local; rd_reason_code := "local_first_default_local" |}
      else if remote_available then
        Ok {| rd_route := Remote; rd_reason_code := "local_unavailable_remote_fallback" |}
      else Err (Anyhow "no LLM endpoint is configured (set local and/or remote endpoint env vars)")
  end.

Definition resolve_default_local_tier (request_class : LlmRequestClass) (config : LlmConfig) : LlmLocalTier :=
  match request_class with
  | Interactive => lm_local_interactive_tier config
  | Batch => lm_local_batch_tier config
  end.

Definition select_model_for_route (route : LlmRoute) (local_tier : option LlmLocalTier)
    (requested_model : option string) (local_models local_small_models remote_models : list string)
    (default_model : string) : result string error :=
  let allowed_models := match route with
                        | Local => match local_tier with Some Small => local_small_models | _ => local_models end
                        | Remote => remote_models
                        end in
  match requested_model ≫= non_empty_trimmed with
  | Some raw =>
      if bool_decide (allowed_models = []) && String.eqb default_model raw then Ok raw
      else if str_in raw allowed_models then Ok raw
      else Err (Anyhow ("llm.infer args.model `" +:+ raw +:+ "` is not permitted for route `" +:+
                        LlmRoute_as_str route +:+ "`"))
  | None =>
      match allowed_models with
      | model :: _ => Ok model
      | [] => if negb (is_empty default_model) then Ok default_model
              else Err (Anyhow ("no model configured for route `" +:+ LlmRoute_as_str route +:+
                                "` and no fallback model exists"))
      end
  end.

Record RouteEndpointSelection := {
  rs_endpoint : LlmEndpointConfig; rs_local_tier_requested : option LlmLocalTier;
  rs_local_tier_selected : option LlmLocalTier; rs_local_tier_reason_code : option string;
}.

Definition with_model (e : LlmEndpointConfig) (model : string) : LlmEndpointConfig :=
  {| ep_base_url := ep_base_url e; ep_model := model; ep_api_key := ep_api_key e |}.

(** The endpoint of the requested tier, or of the other one. *)
Definition local_endpoint (config : LlmConfig) (requested : LlmLocalTier)
    : option (LlmLocalTier * LlmEndpointConfig * string) :=
  match requested, lm_local_small config, lm_local config with
  | Small, Some e, _ => Some (Small, e, "local_tier_small")
  | Small, None, Some e => Some (Workhorse, e, "local_tier_small_fallback_workhorse")
  | Workhorse, _, Some e => Some (Workhorse, e, "local_tier_workhorse")
  | Workhorse, Some e, None => Some (Small, e, "local_tier_workhorse_fallback_small")
  | _, None, None => None
  end.

Definition choose_model (config : LlmConfig) (route : LlmRoute) (tier : option LlmLocalTier) (plan : LlmPromptPlan)
    (allow_model_override : bool) (endpoint : LlmEndpointConfig) : result LlmEndpointConfig error :=
  if allow_model_override then
    let? model := select_model_for_route route tier (pp_model plan) (lm_local_models config)
                    (lm_local_small_models config) (lm_remote_models config) (ep_model endpoint) in
    Ok (with_model endpoint model)
  else Ok endpoint.

Definition select_endpoint_for_route (config : LlmConfig) (route : LlmRoute) (plan : LlmPromptPlan)
    (allow_model_override : bool) : result RouteEndpointSelection error :=
  match route with
  | Local =>
      let requested := default (resolve_default_local_tier (pp_request_class plan) config) (pp_local_tier plan) in
      let? (selected_tier, endpoint, reason_code) := ok_or (local_endpoint config requested)
        (Anyhow "local route selected but no local endpoint is configured") in
      let? endpoint := choose_model config Local (Some selected_tier) plan allow_model_override endpoint in
      Ok {| rs_endpoint := endpoint; rs_local_tier_requested := Some requested;
            rs_local_tier_selected := Some selected_tier; rs_local_tier_reason_code := Some reason_code |}
  | Remote =>
      let? endpoint := ok_or (lm_remote config)
        (Anyhow "remote route selected but remote endpoint is not configured") in
      let? endpoint := choose_model config Remote None plan allow_model_override endpoint in
      Ok {| rs_endpoint := endpoint; rs_local_tier_requested := None; rs_local_tier_selected := None;
            rs_local_tier_reason_code := None |}
  end.

Definition scope_of (route : LlmRoute) (model : string) : string := LlmRoute_as_str route +:+ ":" +:+ model.

Definition policy_scope_for_action (ce : channel_env) (args : json) (config : LlmConfig) : result string error :=
  let? parsed := parse_action_args args (lm_max_input_bytes config) in
  let? plan := build_prompt_plan ce parsed config in
  let? decision := select_route_with_reason config (pp_prefer plan) in
  let? selection := select_endpoint_for_route config (rd_route decision) plan true in
  Ok (scope_of (rd_route decision) (ep_model (rs_endpoint selection))).

(** [error.to_string()] of an error of the functions above. *)
Definition plan_error_text (e : error) : string :=
  match e with Context context _ => context | Anyhow m | DriverError m => m | _ => "" end.

(** * Properties of the plan *)

(** The prompt that is sent is not blank, within its limit, and was not made longer
    than the limit by shaping it. *)
Lemma plan_bounds ce parsed config plan :
  0 <= lm_max_prompt_bytes config -> build_prompt_plan ce parsed config = Ok plan ->
  len (pp_prompt plan) <= Z.max (lm_max_prompt_bytes config) 64 /\ trim (pp_prompt plan) <> "" /\
  pp_prompt_bytes_effective plan = len (pp_prompt plan) /\ pp_prompt_bytes_original plan = len (ia_prompt parsed).
Proof.
  intros Hb. unfold build_prompt_plan. destruct (resolve_channel_defaults_from_env ce) as [defaults|]; [|done].
  repeat destruct (channel_default _ _ _).
  destruct (shape_prompt _ _ _ _) as [[[[prompt prefer] applied] reason] [candidates selected]]. cbn zeta.
  destruct (is_empty (trim _)) eqn:Ht; [done|]. intros [= <-]. cbn [pp_prompt pp_prompt_bytes_effective pp_prompt_bytes_original].
  split_and!; [|intros Hx; by rewrite Hx in Ht|done|done].
  destruct (_ <? len prompt) eqn:E; bool_hyps; [by apply summarize_length|lia].
Qed.

(** A local-only configuration never plans a remote call, and every chosen model is
    one the configuration lists for the route or its default. *)
Lemma select_model_allowed route tier requested l s r dflt m :
  select_model_for_route route tier requested l s r dflt = Ok m ->
  m = dflt \/ m ∈ match route with Local => match tier with Some Small => s | _ => l end | Remote => r end.
Proof.
  unfold select_model_for_route. set (allowed := match route with Local => _ | Remote => r end).
  destruct (requested ≫= non_empty_trimmed) as [raw|].
  - destruct (_ && _) eqn:E; [intros [= <-]; left; bool_hyps; symmetry; by apply String.eqb_eq|].
    destruct (str_in raw allowed) eqn:Hin; [|done]. intros [= <-]. right. by apply str_in_spec.
  - destruct allowed as [|a l'] eqn:Ha; [destruct (negb _); [intros [= <-]; by left|done]|].
    intros [= <-]. right. left.
Qed.

Lemma local_only_route config prefer d :
  lm_mode config = LocalOnly -> select_route_with_reason config prefer = Ok d -> rd_route d = Local.
Proof.
  intros Hm. unfold select_route_with_reason. rewrite Hm. destruct (negb _); [done|].
  destruct (bool_decide _); [done|]. by intros [= <-].
Qed.
