(* ===== verification/Messages.v ===== *)
(** Message and artifact executors of the worker (worker/src/lib.rs):
    destinations, allow-lists, Slack retries, [object.write], [message.send] and
    [message.receive].  The Nostr transport and the Slack endpoint are arguments
    of the model. *)
From S2P Require Import Prelude RustStr Json Sql Runs RunQueue LlmTables MemoryTables Tables Action Paths World.
From S2P Require Import TriggerTables.

(** * Destinations *)

Inductive MessageProvider := WhiteNoise | Slack.

#[export] Instance MessageProvider_eq_dec : EqDecision MessageProvider.
Proof. solve_decision. Defined.

Definition MessageProvider_as_str (p : MessageProvider) : string :=
  match p with WhiteNoise => "whitenoise" | Slack => "slack" end.

Record ParsedMessageDestination := { md_provider : MessageProvider; md_target : string }.

Definition ParsedMessageDestination_parse (action_type raw : string)
    : result ParsedMessageDestination string :=
  match split_once ":" raw with
  | None => Err (action_type +:+ " destination must be provider-scoped")
  | Some (provider_raw, target_raw) =>
      let name := to_ascii_lowercase (trim provider_raw) in
      match str_match name [(["whitenoise"], WhiteNoise); (["slack"], Slack)] with
      | None => Err (action_type +:+ " provider `" +:+ name +:+
                     "` is unsupported (expected whitenoise or slack)")
      | Some p =>
          let target := trim target_raw in
          if is_empty target
          then Err (action_type +:+ " destination target must not be empty: " +:+ raw)
          else Ok {| md_provider := p; md_target := target |}
      end
  end.

Record MessageConfig := {
  mc_whitenoise_allowlist : list string;
  mc_slack_allowlist : list string;
  mc_nostr_relays : list string;
  mc_slack_webhook_url : option string;
  mc_slack_max_attempts : Z;
  mc_slack_retry_backoff_ms : Z;
  mc_artifact_root : string;
}.

Definition enforce_message_destination_allowlist (c : MessageConfig) (d : ParsedMessageDestination)
    (action_type : string) : result unit string :=
  let '(allowlist, provider_name) :=
    match md_provider d with
    | WhiteNoise => (mc_whitenoise_allowlist c, "whitenoise")
    | Slack => (mc_slack_allowlist c, "slack")
    end in
  match allowlist with
  | [] => Ok tt
  | _ =>
      let target := trim (md_target d) in
      if existsb (fun candidate => String.eqb (trim candidate) target) allowlist then Ok tt
      else Err (action_type +:+ " target `" +:+ target +:+ "` is not allowlisted for provider `" +:+
                provider_name +:+ "`")
  end.

(** * Slack *)

Record SlackSendResult := { ss_channel : string; ss_status_code : Z; ss_response : string }.

(** What an attempt reports: the state, the result, the error, the context. *)
Record Delivery := {
  dl_state : string;
  dl_result : option json;
  dl_error : option string;
  dl_context : option json;
}.

Definition jopt (o : option json) : json := default JNull o.
Definition jstr_opt (o : option string) : json := default JNull (JStr <$> o).

(** [u64::saturating_mul] *)
Definition saturating_mul_u64 (a b : Z) : Z := Z.min u64_max (a * b).

Definition slack_backoff_ms (base : Z) (attempt : Z) : Z :=
  let exponent := Z.min (Z.max (attempt - 1) 0) 6 in
  saturating_mul_u64 base (Z.shiftl 1 exponent).

Section messages.
Context {X : Type}.
Context (E : env).
(** [slack::send_webhook_message], [nostr_signer.resolve_identity] (mode and
    public key), [attempt_whitenoise_publish] (result, error, context) and
    [serde_json::to_vec_pretty]. *)
Context (send_webhook_message : nat -> string -> string -> string -> result SlackSendResult string).
Context (resolve_identity : result (option (string * string)) string).
Context (whitenoise_publish : nat -> string -> string -> option json * option string * option json).
Context (to_vec_pretty : json -> string).
Context (c : MessageConfig).

(** [fuel] is the number of attempts left. *)
Fixpoint slack_loop (fuel : nat) (webhook_url channel content : string) (max_attempts attempt : Z)
    (errors : list string) : M X Delivery :=
  match fuel with
  | O => throw (Anyhow "")
  | S n =>
      let! _ := note (SlackPosted channel content) in
      let! posted := ask (fun t => send_webhook_message t webhook_url channel content) in
      match posted with
      | Ok r =>
          ret {| dl_state := "delivered_slack";
                 dl_result := Some (jobject
                   [("channel", JStr (ss_channel r)); ("status_code", jint (ss_status_code r));
                    ("response", JStr (ss_response r)); ("attempts", jint attempt)]);
                 dl_error := None;
                 dl_context := Some (jobject
                   [("transport", JStr "slack_webhook"); ("status", JStr "delivered");
                    ("attempts", jint attempt); ("max_attempts", jint max_attempts);
                    ("retry_backoff_ms", jint (mc_slack_retry_backoff_ms c))]) |}
      | Err error_text =>
          let errors := errors ++ [error_text] in
          if max_attempts <=? attempt
          then ret {| dl_state := "dead_lettered_local_outbox"; dl_result := None;
                      dl_error := Some error_text;
                      dl_context := Some (jobject
                        [("transport", JStr "slack_webhook"); ("status", JStr "dead_lettered");
                         ("attempts", jint attempt); ("max_attempts", jint max_attempts);
                         ("retry_backoff_ms", jint (mc_slack_retry_backoff_ms c));
                         ("errors", JArr (map JStr errors))]) |}
          else
            let! _ := note (Slept (slack_backoff_ms (mc_slack_retry_backoff_ms c) attempt)) in
            slack_loop n webhook_url channel content max_attempts (attempt + 1) errors
      end
  end.

Definition attempt_slack_send (channel content : string) : M X Delivery :=
  match mc_slack_webhook_url c with
  | None =>
      ret {| dl_state := "queued_local_outbox"; dl_result := None; dl_error := None;
             dl_context := Some (jobject
               [("transport", JStr "outbox_only");
                ("reason", JStr "SLACK_WEBHOOK_URL is not configured");
                ("status", JStr "queued_without_transport")]) |}
  | Some webhook_url =>
      let max_attempts := Z.max (mc_slack_max_attempts c) 1 in
      slack_loop (Z.to_nat max_attempts) webhook_url channel content max_attempts 1 []
  end.

(** * Executors *)

Definition anyhow {A} (r : result A string) : result A error := map_err Anyhow r.

Definition required_str (args : json) (k : string) (message : string) : result string error :=
  ok_or (get_str k args) (Anyhow message).

(** [args.text], or [args.content]. *)
Definition message_text (args : json) (message : string) : result string error :=
  match get_str "text" args with
  | Some s => Ok s
  | None => required_str args "content" message
  end.

(** The artifact row, the file and the JSON both share. *)
Definition store_artifact (run : RunLeaseRecord) (relative_path content_type full_path : string)
    (bytes : string) : M X (Uuid * Z) :=
  let! _ := fs_write E full_path bytes in
  let! id := new_v4 E in
  let! a := stmt E (fun now d => persist_artifact_metadata_dual (env_pool E) now
              {| nf_id := id; nf_run_id := l_id run; nf_path := relative_path;
                 nf_content_type := content_type; nf_size_bytes := len bytes;
                 nf_checksum := None; nf_storage_ref := full_path |} d) (fun _ => []) in
  ret (nf_id a, nf_size_bytes a).

Definition execute_object_write_action (run : RunLeaseRecord) (args : json) : M X json :=
  let! path := lift (required_str args "path" "object.write args.path is required") in
  let! content := lift (required_str args "content" "object.write args.content is required") in
  let! safe_rel_path := lift (anyhow (sanitize_relative_path path)) in
  let! tenant_root := lift (anyhow (tenant_scoped_artifact_root (mc_artifact_root c) (l_tenant_id run))) in
  let full_path := path_join tenant_root safe_rel_path in
  let! (id, size) := store_artifact run safe_rel_path "text/markdown" full_path content in
  ret (jobject [("artifact_id", JStr (env_uuid_text E id)); ("path", JStr safe_rel_path);
                ("size_bytes", jint size); ("storage_ref", JStr full_path)]).

(** The content after [{{llm_response}}] is filled in. *)
Definition fill_placeholder (content : string) (last_llm_response : option string)
    : result string error :=
  if contains "{{llm_response}}" content
  then let? llm_response := ok_or last_llm_response
         (Anyhow "message.send content placeholder requires prior llm.infer result") in
       Ok (replace "{{llm_response}}" llm_response content)
  else Ok content.

Definition signer_for (p : MessageProvider) : result (option (string * string)) error :=
  match p with
  | Slack => Ok None
  | WhiteNoise =>
      let? identity := anyhow resolve_identity in
      match identity with
      | Some i => Ok (Some i)
      | None => Err (Anyhow "message.send to White Noise requires a configured Nostr signer identity")
      end
  end.

Definition deliver (d : ParsedMessageDestination) (content : string) : M X Delivery :=
  match md_provider d with
  | WhiteNoise =>
      match mc_nostr_relays c with
      | [] => ret {| dl_state := "queued_local_outbox"; dl_result := None; dl_error := None;
                     dl_context := Some (jobject [("transport", JStr "outbox_only")]) |}
      | _ =>
          let! (res, err, ctx) := ask (fun t => whitenoise_publish t (md_target d) content) in
          match res with
          | Some r => ret {| dl_state := "published_nostr"; dl_result := Some r; dl_error := None;
                             dl_context := ctx |}
          | None => ret {| dl_state := "queued_local_outbox"; dl_result := None; dl_error := err;
                           dl_context := ctx |}
          end
      end
  | Slack => attempt_slack_send (md_target d) content
  end.

Definition execute_message_send_action (run : RunLeaseRecord) (args : json)
    (last_llm_response : option string) : M X json :=
  let! destination := lift (required_str args "destination" "message.send args.destination is required") in
  let! text := lift (message_text args "message.send args.text (or args.content) is required") in
  let! content := lift (fill_placeholder text last_llm_response) in
  let! d := lift (anyhow (ParsedMessageDestination_parse "message.send" destination)) in
  let! _ := lift (anyhow (enforce_message_destination_allowlist c d "message.send")) in
  let! signer := lift (signer_for (md_provider d)) in
  let! delivery := deliver d content in
  let provider := MessageProvider_as_str (md_provider d) in
  let outbox_message := jobject
    [("provider", JStr provider); ("destination", JStr destination);
     ("target", JStr (md_target d)); ("text", JStr content);
     ("nostr_signer_mode", jstr_opt (fst <$> signer));
     ("nostr_public_key", jstr_opt (snd <$> signer));
     ("delivery_state", JStr (dl_state delivery)); ("delivery_result", jopt (dl_result delivery));
     ("delivery_error", jstr_opt (dl_error delivery));
     ("delivery_context", jopt (dl_context delivery))] in
  let! file_id := new_v4 E in
  let relative_path := path_join (path_join "messages" provider)
                         (env_uuid_text E file_id +:+ ".json") in
  let! tenant_root := lift (anyhow (tenant_scoped_artifact_root (mc_artifact_root c) (l_tenant_id run))) in
  let full_path := path_join tenant_root relative_path in
  let! (id, size) := store_artifact run relative_path "application/json" full_path
                        (to_vec_pretty outbox_message) in
  ret (jobject
    [("provider", JStr provider); ("destination", JStr destination);
     ("delivery_state", JStr (dl_state delivery)); ("artifact_id", JStr (env_uuid_text E id));
     ("path", JStr relative_path); ("size_bytes", jint size); ("storage_ref", JStr full_path);
     ("nostr_public_key", jstr_opt (snd <$> signer));
     ("delivery_result", jopt (dl_result delivery)); ("delivery_error", jstr_opt (dl_error delivery));
     ("delivery_context", jopt (dl_context delivery))]).

Definition execute_message_receive_action (run : RunLeaseRecord) (args : json) : M X json :=
  let! source := lift (required_str args "source" "message.receive args.source is required") in
  let! content := lift (message_text args "message.receive args.text (or args.content) is required") in
  let! d := lift (anyhow (ParsedMessageDestination_parse "message.receive" source)) in
  let! _ := lift (anyhow (enforce_message_destination_allowlist c d "message.receive")) in
  let provider := MessageProvider_as_str (md_provider d) in
  let receive_message := jobject
    [("direction", JStr "inbound"); ("provider", JStr provider); ("source", JStr source);
     ("target", JStr (md_target d)); ("text", JStr content)] in
  let! file_id := new_v4 E in
  let relative_path := path_join (path_join (path_join "messages" provider) "received")
                         (env_uuid_text E file_id +:+ ".json") in
  let! tenant_root := lift (anyhow (tenant_scoped_artifact_root (mc_artifact_root c) (l_tenant_id run))) in
  let full_path := path_join tenant_root relative_path in
  let! (id, size) := store_artifact run relative_path "application/json" full_path
                        (to_vec_pretty receive_message) in
  ret (jobject
    [("direction", JStr "inbound"); ("provider", JStr provider); ("source", JStr source);
     ("artifact_id", JStr (env_uuid_text E id)); ("path", JStr relative_path);
     ("size_bytes", jint size); ("storage_ref", JStr full_path)]).
End messages.

(** * Properties *)

(** The posts and pauses of [n] attempts: the pause after attempt [k] doubles up
    to 64 times the base. *)
Fixpoint slack_trace (channel content : string) (base : Z) (k : Z) (n : nat) : list effect :=
  match n with
  | O => []
  | S O => [SlackPosted channel content]
  | S n' => SlackPosted channel content :: Slept (slack_backoff_ms base k)
            :: slack_trace channel content base (k + 1) n'
  end.

Lemma slack_loop_emits {X} send c fuel url channel content attempt errors :
  let max_attempts := attempt + Z.of_nat fuel - 1 in
  (0 < fuel)%nat ->
  emits (slack_loop (X := X) send c fuel url channel content max_attempts attempt errors)
    (fun r j => exists n d, r = Ok d /\ (0 < n <= fuel)%nat /\
       j = slack_trace channel content (mc_slack_retry_backoff_ms c) attempt n /\
       (dl_state d = "delivered_slack" \/ (dl_state d = "dead_lettered_local_outbox" /\ n = fuel))).
Proof.
  revert attempt errors. induction fuel as [|fuel IH]; intros attempt errors max Hf; [lia|].
  intros w. cbn [slack_loop]. unfold appends, bind, note, ask, ret.
  cbn [w_tick w_journal fst snd]. destruct (send (w_tick w) url channel content) as [r|e].
  - exists [SlackPosted channel content]. split; [done|]. exists 1%nat. eexists. split; [done|].
    split; [lia|]. split; [done|]. by left.
  - destruct (max <=? attempt) eqn:Em; bool_hyps.
    + exists [SlackPosted channel content]. split; [done|]. exists 1%nat. eexists. split; [done|].
      split; [lia|]. split; [done|]. right. split; [done|]. lia.
    + replace max with (attempt + 1 + Z.of_nat fuel - 1) by lia.
      edestruct (IH (attempt + 1) (errors ++ [e]) ltac:(lia)) as (j & Hj & n & d & Hr & Hn & -> & Hd).
      unfold appends in Hj. eexists. split.
      * rewrite Hj. cbn [w_journal]. by rewrite <- !app_assoc.
      * exists (S n), d. rewrite Hr. split_and!; [done|lia|lia| |].
        -- cbn [app slack_trace]. destruct n; [lia|done].
        -- destruct Hd as [?|[? ->]]; auto.
Qed.

(** C40: sending to Slack always ends with an outcome, after at most
    [max(1, slack_max_attempts)] posts separated by the exponential pauses; it
    gives up only after the last allowed attempt. *)
Theorem slack_retries_are_bounded X send c url channel content w
    (Hurl : mc_slack_webhook_url c = Some url) :
  exists n d, (attempt_slack_send (X := X) send c channel content w).1 = Ok d /\
    (0 < n)%nat /\ Z.of_nat n <= Z.max (mc_slack_max_attempts c) 1 /\
    appends (attempt_slack_send send c channel content) w
      (slack_trace channel content (mc_slack_retry_backoff_ms c) 1 n) /\
    (dl_state d = "delivered_slack" \/
     (dl_state d = "dead_lettered_local_outbox" /\
      Z.of_nat n = Z.max (mc_slack_max_attempts c) 1)).
Proof.
  unfold attempt_slack_send. rewrite Hurl. cbn zeta.
  set (m := Z.max (mc_slack_max_attempts c) 1).
  pose proof (slack_loop_emits (X := X) send c (Z.to_nat m) url channel content 1 [] ltac:(lia) w)
    as (j & Hj & n & d & Hr & Hn & -> & Hd).
  replace (1 + Z.of_nat (Z.to_nat m) - 1) with m in * by lia.
  exists n, d. split_and!; [done|lia|lia|done|]. destruct Hd as [?|[? ->]]; [by left|right].
  split; [done|lia].
Qed.

Definition demo_message_config : MessageConfig :=
  {| mc_whitenoise_allowlist := []; mc_slack_allowlist := ["C1"]; mc_nostr_relays := [];
     mc_slack_webhook_url := Some "https://hooks"; mc_slack_max_attempts := 3;
     mc_slack_retry_backoff_ms := 500; mc_artifact_root := "artifacts" |}.

Definition empty_db : db :=
  {| d_core := {| db_agents := []; db_users := []; db_runs := [] |}; d_steps := [];
     d_action_requests := []; d_action_results := []; d_audit_events := []; d_artifacts := []; d_siem := []; d_leases := [];
               d_payment_requests := []; d_payment_results := [];
               d_triggers := no_triggers; d_llm := no_llm_tables; d_memory := no_memory |}.

Definition empty_world : world unit :=
  {| w_db := empty_db; w_journal := []; w_tick := 0; w_ext := tt; w_routes := ∅; w_llm := no_llm |}.

Lemma slack_retries_are_bounded_witness :
  exists n d, (attempt_slack_send (fun _ _ _ _ => Err "timeout") demo_message_config "C1" "hi"
                 empty_world).1 = Ok d /\
    (0 < n)%nat /\ Z.of_nat n <= 3 /\
    appends (attempt_slack_send (fun _ _ _ _ => Err "timeout") demo_message_config "C1" "hi")
      empty_world (slack_trace "C1" "hi" 500 1 n) /\
    (dl_state d = "delivered_slack" \/
     (dl_state d = "dead_lettered_local_outbox" /\ Z.of_nat n = 3)).
Proof.
  exact (slack_retries_are_bounded unit (fun _ _ _ _ => Err "timeout") demo_message_config
    "https://hooks" "C1" "hi" empty_world eq_refl).
Defined.

(** The pause of Slack retries is the base times a power of two that stops
    doubling at 64, saturating at the 64-bit maximum: it never wraps and never
    shrinks from one attempt to the next. *)
Theorem slack_backoff_bounds base k
    (Hbase : 0 <= base <= u64_max) (Hk : 1 <= k) :
  slack_backoff_ms base k = Z.min u64_max (base * 2 ^ Z.min (k - 1) 6) /\
  base <= slack_backoff_ms base k <= Z.min u64_max (64 * base) /\
  slack_backoff_ms base k <= slack_backoff_ms base (k + 1).
Proof.
  assert (forall k, 1 <= k -> slack_backoff_ms base k = Z.min u64_max (base * 2 ^ Z.min (k - 1) 6)) as E.
  { intros i Hi. unfold slack_backoff_ms, saturating_mul_u64.
    rewrite Z.shiftl_mul_pow2, Z.mul_1_l by lia. by replace (Z.max (i - 1) 0) with (i - 1) by lia. }
  rewrite !E by lia. split; [done|].
  assert (2 ^ Z.min (k - 1) 6 <= 2 ^ 6) by (apply Z.pow_le_mono_r; lia).
  assert (2 ^ 0 <= 2 ^ Z.min (k - 1) 6) by (apply Z.pow_le_mono_r; lia).
  assert (2 ^ Z.min (k - 1) 6 <= 2 ^ Z.min (k + 1 - 1) 6) by (apply Z.pow_le_mono_r; lia).
  change (2 ^ 6) with 64 in *. change (2 ^ 0) with 1 in *. nia.
Qed.

Lemma slack_backoff_bounds_witness :
  slack_backoff_ms 500 3 = Z.min u64_max (500 * 2 ^ Z.min (3 - 1) 6) /\
  500 <= slack_backoff_ms 500 3 <= Z.min u64_max (64 * 500) /\
  slack_backoff_ms 500 3 <= slack_backoff_ms 500 (3 + 1).
Proof. apply (slack_backoff_bounds 500 3); [by vm_compute|lia]. Defined.

(** The destination passed the allow-list of its provider. *)
Definition destination_allowed (c : MessageConfig) (raw : string) (d : ParsedMessageDestination) : Prop :=
  (exists a b, split_once ":" raw = Some (a, b) /\ md_target d = trim b /\
     to_ascii_lowercase (trim a) = MessageProvider_as_str (md_provider d)) /\
  md_target d <> "" /\
  let allowlist := match md_provider d with WhiteNoise => mc_whitenoise_allowlist c
                                          | Slack => mc_slack_allowlist c end in
  (allowlist = [] \/ exists x, x ∈ allowlist /\ trim x = md_target d).

Lemma parse_destination_Ok t raw d : ParsedMessageDestination_parse t raw = Ok d ->
  exists a b, split_once ":" raw = Some (a, b) /\ md_target d = trim b /\ md_target d <> "" /\
    to_ascii_lowercase (trim a) = MessageProvider_as_str (md_provider d).
Proof.
  unfold ParsedMessageDestination_parse. destruct (split_once ":" raw) as [[a b]|]; [|done].
  destruct (str_match _ _) as [p|] eqn:E; [|done].
  destruct (is_empty (trim b)) eqn:Eb; [done|]. intros [= <-]. exists a, b.
  split_and!; [done|done| |].
  - intros Hn. simpl in Hn. by rewrite Hn in Eb.
  - str_match_cases E; by apply list_elem_of_singleton in Hs.
Qed.

Lemma allowlist_Ok c t raw d :
  ParsedMessageDestination_parse t raw = Ok d ->
  enforce_message_destination_allowlist c d t = Ok tt -> destination_allowed c raw d.
Proof.
  intros Hp H. apply parse_destination_Ok in Hp as (a & b & Hs & Ht & Hne & Hprov).
  split; [by exists a, b|]. split; [done|]. cbn zeta. revert H.
  unfold enforce_message_destination_allowlist.
  assert (trim (md_target d) = md_target d) as Htt by (rewrite Ht; apply trim_idemp). rewrite Htt.
  destruct (md_provider d).
  - destruct (mc_whitenoise_allowlist c) as [|x l]; [by left|].
    destruct (existsb _ _) eqn:E; [|done]. intros _. right.
    apply existsb_elem_of in E as (y & Hy & E%String.eqb_eq). by exists y.
  - destruct (mc_slack_allowlist c) as [|x l]; [by left|].
    destruct (existsb _ _) eqn:E; [|done]. intros _. right.
    apply existsb_elem_of in E as (y & Hy & E%String.eqb_eq). by exists y.
Qed.

Lemma anyhow_Ok {A} (r : result A string) a : anyhow r = Ok a -> r = Ok a.
Proof. destruct r; simpl; intros; by simplify_eq. Qed.

Lemma required_str_Ok args k m v : required_str args k m = Ok v -> get_str k args = Some v.
Proof. unfold required_str. destruct (get_str k args); simpl; intros; by simplify_eq. Qed.

Lemma slack_loop_only {X} P send c fuel url channel content m a e :
  P (SlackPosted channel content) -> (forall ms, P (Slept ms)) ->
  only P (slack_loop (X := X) send c fuel url channel content m a e).
Proof.
  intros HP Hs. revert a e. induction fuel as [|fuel IH]; intros a e; cbn [slack_loop];
    repeat first [apply IH | only_step]; auto.
Qed.

Lemma store_artifact_only {X} P E run p t full b :
  P (FileWritten full b) -> only P (store_artifact (X := X) E run p t full b).
Proof. intros H. unfold store_artifact. repeat only_step; auto. Qed.

Lemma deliver_only {X} P send pub c d content :
  (md_provider d = Slack -> P (SlackPosted (md_target d) content)) -> (forall ms, P (Slept ms)) ->
  only P (deliver (X := X) send pub c d content).
Proof.
  intros HP Hs. unfold deliver, attempt_slack_send.
  repeat first [apply slack_loop_only | only_step]; auto.
Qed.

(** What a [message.send] action may do, whatever it is asked and whatever
    fails: it posts to Slack only to the target of its own destination, and only
    when that target is on the Slack allow-list (or the list is empty); it
    writes files only below its tenant's directory, under [messages]. *)
Theorem message_send_respects_allowlist X E send ident pub pretty c run args last w j
    (Hj : appends (execute_message_send_action (X := X) E send ident pub pretty c run args last) w j) :
  Forall (fun e => match e with
    | SlackPosted channel _ =>
        exists raw d, get_str "destination" args = Some raw /\ destination_allowed c raw d /\
          md_provider d = Slack /\ channel = md_target d
    | FileWritten full _ =>
        exists troot id p, tenant_scoped_artifact_root (mc_artifact_root c) (l_tenant_id run) = Ok troot /\
          full = path_join troot (path_join (path_join "messages" (MessageProvider_as_str p))
                                    (env_uuid_text E id +:+ ".json"))
    | Slept _ => True
    | _ => False
    end) j.
Proof.
  refine (only_appends _ _ _ _ _ Hj). unfold execute_message_send_action.
  repeat first [apply deliver_only | apply store_artifact_only | only_step].
  - intros Hs. apply required_str_Ok in Hret. apply anyhow_Ok in Hret2, Hret3. destruct a3.
    exists a, a2. split_and!; [done| |done|done]. by eapply allowlist_Ok.
  - done.
  - apply anyhow_Ok in Hret5. eauto 6.
Qed.

Definition demo_lease : RunLeaseRecord :=
  {| l_id := 1; l_tenant_id := "acme"; l_agent_id := 7; l_triggered_by_user_id := None;
     l_recipe_id := "notify_v1"; l_status := running; l_input_json := JObj [];
     l_granted_capabilities := JArr []; l_attempts := 1; l_lease_owner := Some "w1";
     l_lease_expires_at := Some 100; l_created_at := 0; l_started_at := Some 1 |}.

Definition demo_env : env :=
  {| env_pool := Postgres (fun _ => "") (2 ^ 62); env_clock := fun t => Z.of_nat t;
     env_stmt_clock := fun t i => Z.of_nat (t + i); env_uuid := fun t => 1000 + Z.of_nat t;
     env_fault := fun _ => None; env_io := fun _ => None; env_other := fun _ rows => rows;
     env_other_payments := fun _ p => p; env_other_triggers := fun _ t => t; env_other_llm := fun _ t => t; env_other_memory := fun _ t => t;
     env_uuid_text := fun _ => "u"; env_time_json := fun _ => JNull; env_sql_text := fun _ => "sql" |}.

Lemma message_send_respects_allowlist_witness :
  Forall (fun e => match e with
    | SlackPosted channel _ =>
        exists raw d, get_str "destination"
            (JObj [("destination", JStr "slack:C1"); ("text", JStr "hi")]) = Some raw /\
          destination_allowed demo_message_config raw d /\ md_provider d = Slack /\
          channel = md_target d
    | FileWritten full _ =>
        exists troot id p, tenant_scoped_artifact_root "artifacts" "acme" = Ok troot /\
          full = path_join troot (path_join (path_join "messages" (MessageProvider_as_str p))
                                    (env_uuid_text demo_env id +:+ ".json"))
    | Slept _ => True
    | _ => False
    end) [SlackPosted "C1" "hi"; FileWritten "artifacts/tenants/acme/messages/slack/u.json" "{}"].
Proof.
  apply (message_send_respects_allowlist unit demo_env
    (fun _ _ _ _ => Ok {| ss_channel := "C1"; ss_status_code := 200; ss_response := "ok" |})
    (Ok None) (fun _ _ _ => (None, None, None)) (fun _ => "{}") demo_message_config demo_lease
    (JObj [("destination", JStr "slack:C1"); ("text", JStr "hi")]) None empty_world).
  vm_compute. reflexivity.
Defined.

Lemma store_artifact_emits {X} E run p t full b :
  emits (store_artifact (X := X) E run p t full b)
    (fun r j => j = [FileWritten full b] \/ (is_ok r = false /\ j = [])).
Proof.
  unfold store_artifact.
  eapply emits_weaken;
    [apply emits_bind; [apply emits_fs_write|intros ?; apply emits_bind;
      [apply emits_new_v4|intros ?; apply emits_bind; [apply emits_stmt|intros ?; apply emits_ret]]]|].
  intros r j [(e & -> & ->)|([] & j1 & j2 & -> & -> & H)]; [by right|left].
  assert (j2 = []) as ->; [|done].
  destruct H as [(e & _ & _ & ->)|(id & j3 & j4 & -> & [_ ->] & H)]; [done|].
  destruct H as [(e & _ & [->|[? ->]])|(a & j5 & j6 & -> & -> & _ & ->)]; done.
Qed.



Definition artifact_world : world unit :=
  {| w_db := {| d_core := {| db_agents := [7]; db_users := [];
                  db_runs := [{| r_id := 1; r_tenant_id := "acme"; r_agent_id := 7;
                    r_triggered_by_user_id := None; r_recipe_id := "notify_v1"; r_status := running;
                    r_input_json := JObj []; r_requested_capabilities := JArr [];
                    r_granted_capabilities := JArr []; r_created_at := 0; r_started_at := None;
                    r_finished_at := None; r_error_json := None; r_attempts := 1;
                    r_lease_owner := Some "w1"; r_lease_expires_at := Some 100;
                    r_semantic_dedupe_key := None |}] |};
               d_steps := []; d_action_requests := []; d_action_results := [];
               d_audit_events := []; d_artifacts := []; d_siem := []; d_leases := [];
               d_payment_requests := []; d_payment_results := [];
               d_triggers := no_triggers; d_llm := no_llm_tables; d_memory := no_memory |};
     w_journal := []; w_tick := 0; w_ext := tt; w_routes := ∅; w_llm := no_llm |}.

(** Writing the same artifact path a second time in a run, as a retried run
    does, replaces the file and then fails on the unique index of the metadata:
    the action is reported as failed although its effect happened. *)
Theorem rewriting_an_artifact_fails_after_the_write :
  exists args : json,
    let write := execute_object_write_action demo_env demo_message_config demo_lease args in
    let w1 := (write artifact_world).2 in
    is_ok (write artifact_world).1 = true /\
    (write w1).1 = Err (SqlError UniqueViolation) /\
    appends write w1 [FileWritten "artifacts/tenants/acme/a.md" "v"].
Proof. exists (JObj [("content", JStr "v"); ("path", JStr "a.md")]). by vm_compute. Qed.
