(* ===== verification/LlmGateway.v ===== *)
(** The LLM gateway (worker/src/llm.rs): egress policy, caches, the request to an
    endpoint, admission, the verifier, the latency objective with its escalations,
    and [execute_llm_infer].  The HTTP client, the URL parser, SHA-256, floats and
    the monotonic clock are arguments. *)
From stdpp Require Import pretty.
From S2P Require Import Prelude RustStr Json Sql Runs RunQueue LlmTables Tables TriggerDispatch World Messages.
From S2P Require Import LlmText LlmPlan.

(** * Arguments *)

Record Usage := { us_prompt_tokens : option Z; us_completion_tokens : option Z; us_total_tokens : option Z }.

(** What sending a request to an endpoint comes to, the contents of the choices. *)
Inductive http_outcome :=
| NotSent (message : string)
| BadStatus (message : string)
| BadBody (message : string)
| Answered (choices : list string) (usage : option Usage).

Record llm_externals := {
  lx_channel_env : channel_env;
  lx_instant : nat -> Z;
  lx_url_host : string -> result (option string) string;
  lx_build_client : nat -> option string;
  lx_post : nat -> Z -> string -> option string -> ChatCompletionRequest -> http_outcome;
  lx_sha256_hex : string -> string;
  lx_temperature_text : number -> string;
  lx_cost_positive : number -> bool;
  lx_cost : Z -> number -> number;
}.

(** * Texts *)

(** [s.trim_end_matches('/')], [s.trim_start_matches(p)] *)
Fixpoint trim_end_slashes (fuel : nat) (s : string) : string :=
  match fuel with
  | O => s
  | S fuel => match strip_suffix "/" s with Some r => trim_end_slashes fuel r | None => s end
  end.
Fixpoint trim_start_matches (fuel : nat) (p s : string) : string :=
  match fuel with
  | O => s
  | S fuel => match strip_prefix p s with Some r => trim_start_matches fuel p r | None => s end
  end.
Definition trim_slashes (s : string) : string :=
  trim_end_slashes (String.length s) (trim_start_matches (String.length s) "/" s).

Definition chat_url (endpoint : LlmEndpointConfig) : string :=
  trim_end_slashes (String.length (ep_base_url endpoint)) (ep_base_url endpoint) +:+ "/chat/completions".

Definition build_messages (system : option string) (prompt : string) : list ChatMessage :=
  match system with Some s => [{| cm_role := "system"; cm_content := s |}] | None => [] end
  ++ [{| cm_role := "user"; cm_content := prompt |}].

Fixpoint compact_chars (s : string) : string :=
  match s with
  | EmptyString => ""
  | String c s =>
      if is_continuation c then compact_chars s
      else String (if is_ascii_alphanumeric c || (byte_of c =? 95) || (byte_of c =? 45) then c else ascii_of_N 95)
             (compact_chars s)
  end.
Definition compact_reason (raw : string) : string := sfirstn 80 (compact_chars raw).

Definition combine_reason_code (prefix : string) (reasons : list string) : option string :=
  match reasons with [] => None | _ => Some (prefix +:+ ":" +:+ join "|" reasons) end.

Definition combine_optional_reason_codes (primary secondary : option string) : option string :=
  match primary, secondary with
  | None, None => None
  | Some p, None => Some p
  | None, Some s => Some s
  | Some p, Some s => Some (p +:+ "|" +:+ s)
  end.

(** * Completions as JSON *)

Definition json_of_cached (c : CachedCompletion) : json :=
  jobject [("response_text", JStr (cc_response_text c)); ("prompt_tokens", jopt (jint <$> cc_prompt_tokens c));
           ("completion_tokens", jopt (jint <$> cc_completion_tokens c));
           ("total_tokens", jopt (jint <$> cc_total_tokens c))].

Definition opt_u32 (v : json) : option (option Z) :=
  match v with
  | JNull => Some None
  | JNum (PosInt n) => if n <=? u32_max then Some (Some n) else None
  | _ => None
  end.
Definition opt_field (k : string) (m : jmap) : option (option Z) :=
  match map_get k m with Some v => opt_u32 v | None => Some None end.

(** The derived [Deserialize]: an object, or the sequence of the four fields. *)
Definition cached_of_json (v : json) : option CachedCompletion :=
  match v with
  | JObj m =>
      match map_get "response_text" m, opt_field "prompt_tokens" m, opt_field "completion_tokens" m,
            opt_field "total_tokens" m with
      | Some (JStr t), Some p, Some c, Some n =>
          Some {| cc_response_text := t; cc_prompt_tokens := p; cc_completion_tokens := c; cc_total_tokens := n |}
      | _, _, _, _ => None
      end
  | JArr [JStr t; p; c; n] =>
      match opt_u32 p, opt_u32 c, opt_u32 n with
      | Some p, Some c, Some n =>
          Some {| cc_response_text := t; cc_prompt_tokens := p; cc_completion_tokens := c; cc_total_tokens := n |}
      | _, _, _ => None
      end
  | _ => None
  end.

(** * The mock endpoint *)

(** [String::truncate], which panics inside a character. *)
Definition string_truncate (s : string) (new_len : Z) : result string error :=
  if new_len <? len s then
    if is_char_boundary s (Z.to_nat new_len) then Ok (sfirstn (Z.to_nat new_len) s) else Err Panicked
  else Ok s.

Definition token_estimate (bytes : Z) : Z := Z.min ((Z.max bytes 1 + 3) / 4) u32_max.

Definition mock_chat_completion (endpoint : LlmEndpointConfig) (messages : list ChatMessage)
    (parsed : LlmInferActionArgs) (config : LlmConfig) : result CachedCompletion error :=
  let url := ep_base_url endpoint in
  let label := to_ascii_lowercase (trim_slashes (trim (trim_start_matches (String.length url) "mock://" url))) in
  let tier := if is_empty label then "default" else label in
  let preview := trim (default "" (cm_content <$> List.find (fun m => String.eqb (cm_role m) "user") (rev messages))) in
  let preview := if is_empty preview then "no_prompt" else preview in
  let text := "mock:" +:+ tier +:+ ":" +:+ ep_model endpoint +:+ ": " +:+ preview in
  let max_tokens := Z.max (default 512 (ia_max_tokens parsed)) 1 in
  let? text := string_truncate text (Z.max (max_tokens * 4) 16) in
  let? text := string_truncate text (lm_max_output_bytes config) in
  let text := if is_empty text then "mock:empty" else text in
  let prompt_tokens := token_estimate (foldr (fun m n => len (cm_content m) + n) 0 messages) in
  let completion_tokens := token_estimate (len text) in
  Ok {| cc_response_text := text; cc_prompt_tokens := Some prompt_tokens;
        cc_completion_tokens := Some completion_tokens;
        cc_total_tokens := Some (Z.min u32_max (prompt_tokens + completion_tokens)) |}.

(** * Egress *)

Definition enforce_remote_egress_policy (url_host : string -> result (option string) string) (route : LlmRoute)
    (endpoint : LlmEndpointConfig) (config : LlmConfig) (args : LlmInferActionArgs) : result (option string) error :=
  match route with
  | Local => Ok None
  | Remote =>
      match lm_remote_egress_class config, ia_redacted args with
      | NeverLeavesPrem, _ =>
          Err (Anyhow "llm.infer remote route blocked: LLM_REMOTE_EGRESS_CLASS=never_leaves_prem")
      | RedactedOnly, false =>
          Err (Anyhow "llm.infer remote route blocked: LLM_REMOTE_EGRESS_CLASS=redacted_only requires args.redacted=true")
      | _, _ =>
          if negb (lm_remote_egress_enabled config) then
            Err (Anyhow "llm.infer remote route blocked: LLM_REMOTE_EGRESS_ENABLED is not enabled")
          else if bool_decide (lm_remote_host_allowlist config = []) then
            Err (Anyhow "llm.infer remote route blocked: LLM_REMOTE_HOST_ALLOWLIST is empty")
          else
            let? parsed := map_err (fun e => Context ("invalid remote base URL `" +:+ ep_base_url endpoint +:+ "`") (Anyhow e))
                             (url_host (ep_base_url endpoint)) in
            let? host := ok_or parsed (Anyhow ("remote base URL missing host: " +:+ ep_base_url endpoint)) in
            if existsb (fun allowed => eq_ignore_ascii_case allowed host) (lm_remote_host_allowlist config) then Ok (Some host)
            else Err (Anyhow ("llm.infer remote host `" +:+ host +:+ "` is not allowlisted"))
      end
  end.

(** * Verifier *)

Definition uncertain_phrases : list string :=
  ["i'm not sure"; "i am not sure"; "i do not know"; "i don't know"; "cannot assist"].

Definition deterministic_verifier_reason_codes (prompt response : string) (min_chars : Z) : list string :=
  let response := to_ascii_lowercase (trim response) in
  (if len response <? min_chars then ["short_response"] else [])
  ++ (if existsb (fun phrase => contains phrase response) uncertain_phrases then ["uncertain_response"] else [])
  ++ (if contains "json" (to_ascii_lowercase prompt) && negb (starts_with "{" response || starts_with "[" response)
      then ["json_expected_non_json_response"] else [])
  ++ (if (512 <? len prompt) && (len response <? Z.min u64_max (min_chars * 2)) then ["long_prompt_underanswered"] else []).

Definition reason_penalty (reason : string) : Z :=
  default 0 (str_match reason
    [(["short_response"], 35); (["uncertain_response"], 20); (["json_expected_non_json_response"], 25);
     (["long_prompt_underanswered"], 15)]).

Definition score_response (prompt response : string) (min_chars : Z) : Z :=
  clamp 0 100 (foldl (fun score reason => score - reason_penalty reason) 100
                 (deterministic_verifier_reason_codes prompt response min_chars)).

Record LlmVerifierJudgeOutcome := { jo_score_pct : Z; jo_reason_code : option string }.
Record LlmVerifierOutcome := { vo_score_pct : Z; vo_judge_score_pct : option Z; vo_reason_code : option string }.

(** The first run of digits that is a score; a [u16] has at most 65535. *)
Fixpoint first_score (tokens : list string) : option Z :=
  match tokens with
  | [] => None
  | token :: rest =>
      match (if is_empty token then None else parse_digits token 0) with
      | Some n => if n <=? 100 then Some n else first_score rest
      | None => first_score rest
      end
  end.

Definition parse_verifier_judge_response (from_str : string -> result json string) (raw : string)
    : result LlmVerifierJudgeOutcome error :=
  let by_digits :=
    match first_score (split_by (fun c => negb (is_ascii_digit c)) raw) with
    | Some n => Ok {| jo_score_pct := n; jo_reason_code := None |}
    | None => Err (Anyhow "verifier judge response did not include a parseable score_pct (0..100)")
    end in
  match from_str raw with
  | Ok parsed =>
      match get "score_pct" parsed ≫= as_u64 with
      | Some score => Ok {| jo_score_pct := Z.min score 100; jo_reason_code := trimmed_str (get "reason_code" parsed) |}
      | None => by_digits
      end
  | Err _ => by_digits
  end.

(** * Latency *)

Record LaneSloEvaluation := { se_status : string; se_reason_code : option string }.

Definition lane_slo_threshold_ms (request_class : LlmRequestClass) (config : LlmConfig) : option Z :=
  match request_class with
  | Interactive => lm_slo_interactive_max_latency_ms config
  | Batch => lm_slo_batch_max_latency_ms config
  end.

Definition evaluate_lane_slo (latency_ms : Z) (threshold_ms alert_threshold_pct : option Z) : LaneSloEvaluation :=
  match threshold_ms with
  | None => {| se_status := "not_configured"; se_reason_code := None |}
  | Some threshold =>
      if threshold =? 0 then {| se_status := "not_configured"; se_reason_code := Some "threshold_zero_disabled" |}
      else if threshold <? latency_ms then
        {| se_status := "breach";
           se_reason_code := Some ("latency_threshold_breach:" +:+ pretty latency_ms +:+ ">" +:+ pretty threshold) |}
      else
        match alert_threshold_pct with
        | Some alert =>
            let usage_pct := Z.min u64_max (latency_ms * 100) / threshold in
            if (0 <? alert) && (alert <=? usage_pct) then
              {| se_status := "warn";
                 se_reason_code := Some ("latency_threshold_near:" +:+ pretty usage_pct +:+ "pct>=" +:+
                                         pretty alert +:+ "pct") |}
            else {| se_status := "ok"; se_reason_code := None |}
        | None => {| se_status := "ok"; se_reason_code := None |}
        end
  end.

(** * The programs *)

(** [u as i64], [u as i32] *)
Definition as_i64 (n : Z) : Z := if n mod 2 ^ 64 <? 2 ^ 63 then n mod 2 ^ 64 else n mod 2 ^ 64 - 2 ^ 64.
Definition as_i32 (n : Z) : Z := if n mod 2 ^ 32 <? 2 ^ 31 then n mod 2 ^ 32 else n mod 2 ^ 32 - 2 ^ 32.

Section gateway.
Context {X : Type} (E : env) (lx : llm_externals) (config : LlmConfig).

(** [.with_context(..)?] *)
Definition in_context {A} (context : string) (m : M X A) : M X A :=
  try m (fun r => lift (map_err (Context context) r)).

(** A call on the LLM tables. *)
Definition lstmt {A} (f : Z -> llm_tables -> llm_tables * A) : M X A :=
  stmt E (total (fun now d => let '(t, a) := f now (d_llm d) in (with_llm d t, a))) (fun _ => []).

Definition instant : M X Z := ask (lx_instant lx).

(** The contexts of the errors of a request. *)
Record post_contexts := { pc_build : string; pc_send : string; pc_status : string; pc_decode : string }.

Definition post_chat (purpose : string) (pc : post_contexts) (timeout : Z) (endpoint : LlmEndpointConfig)
    (request : ChatCompletionRequest) : M X (list string * option Usage) :=
  let url := chat_url endpoint in
  let! built := ask (lx_build_client lx) in
  match built with
  | Some m => throw (Context (pc_build pc) (Anyhow m))
  | None =>
      let! _ := note (LlmPosted purpose url request) in
      let! outcome := ask (fun t => lx_post lx t timeout url (ep_api_key endpoint) request) in
      match outcome with
      | NotSent m => throw (Context (pc_send pc) (Anyhow m))
      | BadStatus m => throw (Context (pc_status pc) (Anyhow m))
      | BadBody m => throw (Context (pc_decode pc) (Anyhow m))
      | Answered choices usage => ret (choices, usage)
      end
  end.

Definition infer_contexts (route : LlmRoute) : post_contexts :=
  {| pc_build := "failed building LLM HTTP client";
     pc_send := "llm.infer request failed for route " +:+ LlmRoute_as_str route;
     pc_status := "llm.infer endpoint returned error for " +:+ LlmRoute_as_str route;
     pc_decode := "failed decoding llm.infer response JSON" |}.

Definition request_chat_completion (endpoint : LlmEndpointConfig) (messages : list ChatMessage)
    (parsed : LlmInferActionArgs) (route : LlmRoute) : M X CachedCompletion :=
  if starts_with "mock://" (ep_base_url endpoint) then lift (mock_chat_completion endpoint messages parsed config)
  else
    let! (choices, usage) :=
      post_chat (LlmRoute_as_str route) (infer_contexts route) (lm_timeout_ms config) endpoint
        {| ch_model := ep_model endpoint; ch_messages := messages; ch_max_tokens := ia_max_tokens parsed;
           ch_temperature := ia_temperature parsed |} in
    match choices with
    | [] => throw (Anyhow "llm.infer response missing choices[0].message.content")
    | text :: _ =>
        if lm_max_output_bytes config <? len text then
          throw (Anyhow ("llm.infer output exceeded " +:+ pretty (lm_max_output_bytes config) +:+ " bytes"))
        else ret {| cc_response_text := text; cc_prompt_tokens := usage ≫= us_prompt_tokens;
                    cc_completion_tokens := usage ≫= us_completion_tokens; cc_total_tokens := usage ≫= us_total_tokens |}
    end.

(** ** Caches *)

Definition message_text (m : ChatMessage) : string := cm_role m +:+ ":" +:+ cm_content m +:+ "|".

(** The bytes that are hashed. *)
Definition cache_key_text (namespace : string) (route : LlmRoute) (model : string) (messages : list ChatMessage)
    (max_tokens : option Z) (temperature : option number) : string :=
  namespace +:+ "|" +:+ LlmRoute_as_str route +:+ "|" +:+ model +:+ "|" +:+ String.concat "" (map message_text messages)
  +:+ pretty (default 0 max_tokens) +:+ "|" +:+ default "" (lx_temperature_text lx <$> temperature).

Definition compute_cache_key (namespace : string) (route : LlmRoute) (model : string) (messages : list ChatMessage)
    (max_tokens : option Z) (temperature : option number) : string :=
  lx_sha256_hex lx (cache_key_text namespace route model messages max_tokens temperature).

(** [prune_llm_gateway_cache_namespace], two statements. *)
Definition prune_llm_gateway_cache_namespace (namespace : string) (max_entries : Z) : M X unit :=
  let! _ := lstmt (fun now t => (with_llm_cache t (prune_expired now namespace (lt_cache t)), tt)) in
  if max_entries <=? 0 then ret tt
  else lstmt (fun _ t => (with_llm_cache t (prune_overflow namespace max_entries (lt_cache t)), tt)).

(** [let _ = call.await] *)
Definition ignoring {A} (m : M X A) : M X unit := try m (fun _ => ret tt).

Definition completion_result : Type := CachedCompletion * string * option string * option string.

Definition uses_pg_cache : bool :=
  lm_cache_enabled config && (0 <? lm_cache_ttl_secs config) && lm_distributed_enabled config &&
  lm_distributed_cache_enabled config.

Definition answer_from_pg (endpoint : LlmEndpointConfig) (messages : list ChatMessage) (parsed : LlmInferActionArgs)
    (route : LlmRoute) (namespace cache_key : string) (remote_host : option string)
    (found : option LlmGatewayCacheEntryRecord) : M X completion_result :=
  match found with
  | Some hit =>
      match cached_of_json (gc_response_json hit) with
      | Some completion => ret (completion, "distributed_hit", Some cache_key, remote_host)
      | None => throw (Context "invalid llm gateway cache payload (expected CachedCompletion)" (Anyhow "invalid type"))
      end
  | None =>
      let! completion := request_chat_completion endpoint messages parsed route in
      let! _ := ignoring (lstmt (fun now t =>
        (upsert_llm_gateway_cache_entry now
           {| nc_cache_key_sha256 := cache_key; nc_namespace := namespace; nc_route := LlmRoute_as_str route;
              nc_model := ep_model endpoint; nc_response_json := json_of_cached completion;
              nc_ttl := lm_cache_ttl_secs config * 1000 |} t, tt))) in
      let! _ := ignoring (prune_llm_gateway_cache_namespace namespace
                            (as_i64 (lm_distributed_cache_namespace_max_entries config))) in
      ret (completion, "distributed_miss", Some cache_key, remote_host)
  end.

(** The process cache, or no cache; [fell_back] when the shared one failed. *)
Definition answer_locally (endpoint : LlmEndpointConfig) (messages : list ChatMessage) (parsed : LlmInferActionArgs)
    (route : LlmRoute) (cache_key : string) (remote_host : option string) (fell_back : bool) : M X completion_result :=
  let status fallen plain := if fell_back : bool then fallen else plain in
  if lm_cache_enabled config && (0 <? lm_cache_ttl_secs config) then
    let! looked := instant in
    let! hit := on_llm (cache_lookup looked cache_key (lm_cache_ttl_secs config)) in
    match hit with
    | Some completion =>
        ret (completion, status "distributed_fail_open_local_hit" "hit", Some cache_key, remote_host)
    | None =>
        let! completion := request_chat_completion endpoint messages parsed route in
        let! inserted := instant in
        let! _ := on_llm (fun p => (cache_insert inserted cache_key completion (Z.max (lm_cache_max_entries config) 1) p, tt)) in
        ret (completion, status "distributed_fail_open_local_miss" "miss", Some cache_key, remote_host)
    end
  else
    let! completion := request_chat_completion endpoint messages parsed route in
    ret (completion, (if lm_cache_enabled config then status "distributed_fail_open_local_bypass_ttl0" "bypass_ttl0"
                      else "disabled"), None, remote_host).

Definition execute_route_completion (route : LlmRoute) (endpoint : LlmEndpointConfig) (parsed : LlmInferActionArgs)
    (plan : LlmPromptPlan) (cache_namespace : option string) (pg : bool) : M X completion_result :=
  let! remote_host := lift (enforce_remote_egress_policy (lx_url_host lx) route endpoint config parsed) in
  let messages := build_messages (ia_system parsed) (pp_prompt plan) in
  let namespace := default "global" cache_namespace in
  let cache_key := compute_cache_key namespace route (ep_model endpoint) messages (ia_max_tokens parsed)
                     (ia_temperature parsed) in
  let locally := answer_locally endpoint messages parsed route cache_key remote_host in
  if uses_pg_cache then
    if pg then
      try (lstmt (fun now t => (t, get_llm_gateway_cache_entry now namespace cache_key t))) (fun found =>
        match found with
        | Ok found => answer_from_pg endpoint messages parsed route namespace cache_key remote_host found
        | Err e =>
            if negb (lm_distributed_fail_open config) then
              throw (Context "llm.infer distributed cache lookup failed and fail-open is disabled" e)
            else locally true
        end)
    else if negb (lm_distributed_fail_open config) then
      throw (Anyhow "llm.infer distributed cache is enabled but no database pool was provided")
    else locally true
  else locally false.

(** ** Admission *)

Inductive AdmissionRelease :=
| ReleaseNone
| ReleaseLocal (request_class : LlmRequestClass)
| ReleaseDistributed (lease : LlmGatewayAdmissionLeaseRecord).

Definition lane_max_inflight (request_class : LlmRequestClass) : Z :=
  match request_class with
  | Interactive => Z.max (lm_admission_interactive_max_inflight config) 1
  | Batch => Z.max (lm_admission_batch_max_inflight config) 1
  end.

Definition inflight (request_class : LlmRequestClass) (p : llm_process) : Z :=
  match request_class with Interactive => lp_interactive_inflight p | Batch => lp_batch_inflight p end.

Definition add_inflight (request_class : LlmRequestClass) (n : Z) (p : llm_process) : llm_process :=
  {| lp_entries := lp_entries p;
     lp_interactive_inflight := lp_interactive_inflight p + (match request_class with Interactive => n | Batch => 0 end);
     lp_batch_inflight := lp_batch_inflight p + (match request_class with Interactive => 0 | Batch => n end) |}.

(** The compare-and-exchange loop, as one step. *)
Definition try_reserve_slot (request_class : LlmRequestClass) (max_inflight : Z) (p : llm_process) : llm_process * bool :=
  if max_inflight <=? inflight request_class p then (p, false) else (add_inflight request_class 1 p, true).

Definition admission_denied (request_class : LlmRequestClass) : error :=
  Anyhow ("llm.infer admission denied: request_class=" +:+ LlmRequestClass_as_str request_class +:+
          " saturated (max_inflight=" +:+ pretty (lane_max_inflight request_class) +:+ ")").

Definition acquire_local_admission (parsed : LlmInferActionArgs) (status : string) : M X (AdmissionRelease * string) :=
  let class := ia_request_class parsed in
  let! reserved := on_llm (try_reserve_slot class (lane_max_inflight class)) in
  if reserved : bool then ret (ReleaseLocal class, status) else throw (admission_denied class).

Definition acquire_admission (parsed : LlmInferActionArgs) (cache_namespace : option string) (pg : bool)
    : M X (AdmissionRelease * string) :=
  let class := ia_request_class parsed in
  if negb (lm_admission_enabled config) then ret (ReleaseNone, "disabled")
  else if lm_distributed_enabled config && lm_distributed_admission_enabled config then
    let locally := acquire_local_admission parsed "distributed_fail_open_local" in
    if pg then
      let! lease_id := new_v4 E in
      let params := {| ga_namespace := default "global" cache_namespace; ga_lane := LlmRequestClass_as_str class;
                       ga_max_inflight := as_i32 (lane_max_inflight class); ga_lease_id := lease_id;
                       ga_lease_owner := lm_distributed_owner config;
                       ga_lease_for := lm_distributed_admission_lease_ms config |} in
      try (lstmt (fun now t => try_acquire_llm_gateway_admission_lease now params t)) (fun lease =>
        match lease with
        | Ok (Some lease) => ret (ReleaseDistributed lease, "distributed_admitted")
        | Ok None => throw (admission_denied class)
        | Err e =>
            if negb (lm_distributed_fail_open config) then
              throw (Context "llm.infer distributed admission backend failed" e)
            else locally
        end)
    else if negb (lm_distributed_fail_open config) then
      throw (Anyhow "llm.infer distributed admission is enabled but no database pool was provided")
    else locally
  else acquire_local_admission parsed "admitted".

(** [Drop] of the guard; the release of a lease is a task of its own whose result
    is ignored. *)
Definition drop_admission (release : AdmissionRelease) : M X unit :=
  match release with
  | ReleaseNone => ret tt
  | ReleaseLocal class => on_llm (fun p => (add_inflight class (-1) p, tt))
  | ReleaseDistributed lease => ignoring (lstmt (fun _ => release_llm_gateway_admission_lease lease))
  end.

(** ** Verifier *)

Definition judge_messages (prompt response : string) : list ChatMessage :=
  let nl := String (ascii_of_N 10) "" in
  let q := String (ascii_of_N 34) "" in
  [{| cm_role := "system";
      cm_content := "You are a strict response verifier. Return compact JSON only: {" +:+ q +:+ "score_pct" +:+ q +:+
        ": <0-100>, " +:+ q +:+ "reason_code" +:+ q +:+ ": " +:+ q +:+ "<short_snake_case>" +:+ q +:+ "}." |};
   {| cm_role := "user";
      cm_content := "Prompt:" +:+ nl +:+ prompt +:+ nl +:+ nl +:+ "Response:" +:+ nl +:+ response +:+ nl +:+ nl +:+
        "Evaluate quality/safety/completeness." |}].

Definition judge_contexts : post_contexts :=
  {| pc_build := "failed building verifier judge HTTP client"; pc_send := "verifier judge request failed";
     pc_status := "verifier judge endpoint returned error";
     pc_decode := "failed decoding verifier judge response JSON" |}.

Definition request_verifier_judge_score (endpoint : LlmEndpointConfig) (prompt response : string)
    : M X LlmVerifierJudgeOutcome :=
  let! (choices, _) :=
    post_chat "judge" judge_contexts (lm_verifier_judge_timeout_ms config) endpoint
      {| ch_model := ep_model endpoint; ch_messages := judge_messages prompt response; ch_max_tokens := Some 96;
         ch_temperature := Some (Float 0) |} in
  match choices with
  | [] => throw (Anyhow "verifier judge response missing choices[0].message.content")
  | content :: _ => lift (parse_verifier_judge_response (ce_from_str (lx_channel_env lx)) content)
  end.

Definition is_hybrid : bool := match lm_verifier_mode config with Hybrid => true | _ => false end.

Definition evaluate_verifier (prompt response : string) : M X LlmVerifierOutcome :=
  let codes := deterministic_verifier_reason_codes prompt response (lm_verifier_min_response_chars config) in
  let score := score_response prompt response (lm_verifier_min_response_chars config) in
  let by_rules prefix :=
    ret {| vo_score_pct := score; vo_judge_score_pct := None; vo_reason_code := combine_reason_code prefix codes |} in
  match lm_verifier_mode config, lm_verifier_judge config with
  | Heuristic, _ | Deterministic, _ => by_rules "deterministic"
  | ModelJudge, None =>
      throw (Anyhow "LLM_VERIFIER_MODE=model_judge requires verifier judge endpoint configuration")
  | Hybrid, None => by_rules "hybrid_unconfigured_fallback"
  | _, Some endpoint =>
      try (request_verifier_judge_score endpoint prompt response) (fun r =>
        match r with
        | Ok judge =>
            let final := if is_hybrid then (score + jo_score_pct judge) / 2 else jo_score_pct judge in
            let reason := match jo_reason_code judge with Some code => "judge:" +:+ code | None => "judge:ok" end in
            ret {| vo_score_pct := final; vo_judge_score_pct := Some (jo_score_pct judge);
                   vo_reason_code := combine_reason_code (if is_hybrid then "hybrid" else "model_judge") (codes ++ [reason]) |}
        | Err e =>
            if negb (lm_verifier_judge_fail_open config) then
              throw (Context "verifier judge failed and fail-open is disabled" e)
            else
              ret {| vo_score_pct := score; vo_judge_score_pct := None;
                     vo_reason_code := combine_reason_code "judge_fail_open"
                       (codes ++ ["judge_failed:" +:+ compact_reason (error_to_string E e)]) |}
        end)
  end.

(** ** Controls *)

(** The answer so far: the mutable variables of [run_llm_with_controls]. *)
Record progress := {
  pg_route : LlmRoute; pg_selection : RouteEndpointSelection; pg_result : completion_result; pg_reason : string;
}.

Record LlmExecutionOutcome := {
  xo_route : LlmRoute; xo_model : string; xo_completion : CachedCompletion; xo_admission_status : string;
  xo_cache_status : string; xo_cache_key_sha256 : option string; xo_verifier_enabled : bool;
  xo_verifier_score_pct : option Z; xo_verifier_judge_score_pct : option Z; xo_verifier_escalated : bool;
  xo_verifier_reason_code : option string; xo_slo_threshold_ms : option Z; xo_slo_latency_ms : Z;
  xo_slo_status : string; xo_slo_reason_code : option string; xo_route_reason_code : string;
  xo_selection : RouteEndpointSelection; xo_remote_host : option string;
}.

Definition elapsed_ms (from to : Z) : Z := Z.min (Z.max 0 (to - from) / 1000000) u64_max.

(** The same request on the remote endpoint, whose model is its own; the answer it
    replaces is kept when it fails. *)
Definition escalate (parsed : LlmInferActionArgs) (plan : LlmPromptPlan) (cache_namespace : option string) (pg : bool)
    (reason : string) (p : progress) : M X (progress * option error) :=
  let! selection := lift (select_endpoint_for_route config Remote plan false) in
  try (execute_route_completion Remote (rs_endpoint selection) parsed plan cache_namespace pg) (fun r =>
    match r with
    | Ok result => ret ({| pg_route := Remote; pg_selection := selection; pg_result := result; pg_reason := reason |}, None)
    | Err e => ret (p, Some e)
    end).

Definition is_local (p : progress) : bool := match pg_route p with Local => true | Remote => false end.
Definition has_remote : bool := bool_decide (is_Some (lm_remote config)).

Definition slo_escalation (parsed : LlmInferActionArgs) (plan : LlmPromptPlan) (cache_namespace : option string)
    (pg : bool) (slo_status : string) (p : progress) : M X (progress * option string) :=
  if is_local p && String.eqb slo_status "breach" && lm_slo_breach_escalate_remote config && has_remote then
    let! (p, err) := escalate parsed plan cache_namespace pg "slo_escalated_remote_latency_breach" p in
    ret (p, Some match err with
                 | None => "latency_breach_remote_escalated"
                 | Some e => "latency_breach_remote_escalation_failed:" +:+ compact_reason (error_to_string E e)
                 end)
  else ret (p, None).

(** The answer, whether it was escalated, and what the verifier found. *)
Definition verification (parsed : LlmInferActionArgs) (plan : LlmPromptPlan) (cache_namespace : option string)
    (pg : bool) (p : progress) : M X (progress * bool * LlmVerifierOutcome) :=
  let! v := evaluate_verifier (pp_prompt plan) (cc_response_text (pg_result p).1.1.1) in
  let because reason := {| vo_score_pct := vo_score_pct v; vo_judge_score_pct := vo_judge_score_pct v;
                           vo_reason_code := Some reason |} in
  if is_local p && (vo_score_pct v <? lm_verifier_min_score_pct config) then
    if lm_verifier_escalate_remote config && has_remote then
      let! (p, err) := escalate parsed plan cache_namespace pg "verifier_escalated_remote_low_score" p in
      ret match err with
          | None => (p, true, because "low_score_remote_escalated")
          | Some e => (p, false, because ("low_score_remote_escalation_failed:" +:+ compact_reason (error_to_string E e)))
          end
    else ret (p, false, because "low_score_no_remote_escalation")
  else ret (p, false, v).

Definition run_llm_with_controls (parsed : LlmInferActionArgs) (plan : LlmPromptPlan) (cache_namespace : option string)
    (pg : bool) (admission_status : string) : M X LlmExecutionOutcome :=
  let! started := instant in
  let! decision := lift (select_route_with_reason config (pp_prefer plan)) in
  let route := rd_route decision in
  let! selection := lift (select_endpoint_for_route config route plan true) in
  let reason := match rs_local_tier_reason_code selection with
                | Some tier => rd_reason_code decision +:+ "|" +:+ tier
                | None => rd_reason_code decision
                end in
  let threshold := lane_slo_threshold_ms (ia_request_class parsed) config in
  let evaluate latency := evaluate_lane_slo latency threshold (lm_slo_alert_threshold_pct config) in
  let! first_started := instant in
  let! result := execute_route_completion route (rs_endpoint selection) parsed plan cache_namespace pg in
  let! first_ended := instant in
  let p := {| pg_route := route; pg_selection := selection; pg_result := result; pg_reason := reason |} in
  let! (p, slo_note) := slo_escalation parsed plan cache_namespace pg
                          (se_status (evaluate (elapsed_ms first_started first_ended))) p in
  let verifier_enabled := lm_verifier_enabled config || ia_verifier_required parsed in
  let! (p, escalated, verdict) :=
    if verifier_enabled then
      let! (p, escalated, v) := verification parsed plan cache_namespace pg p in ret (p, escalated, Some v)
    else ret (p, false, None) in
  let! ended := instant in
  let latency := elapsed_ms started ended in
  let final := evaluate latency in
  let '(completion, cache_status, cache_key, remote_host) := pg_result p in
  ret {| xo_route := pg_route p; xo_model := ep_model (rs_endpoint (pg_selection p)); xo_completion := completion;
         xo_admission_status := admission_status; xo_cache_status := cache_status; xo_cache_key_sha256 := cache_key;
         xo_verifier_enabled := verifier_enabled; xo_verifier_score_pct := vo_score_pct <$> verdict;
         xo_verifier_judge_score_pct := verdict ≫= vo_judge_score_pct; xo_verifier_escalated := escalated;
         xo_verifier_reason_code := verdict ≫= vo_reason_code; xo_slo_threshold_ms := threshold;
         xo_slo_latency_ms := latency; xo_slo_status := se_status final;
         xo_slo_reason_code := combine_optional_reason_codes (se_reason_code final) slo_note;
         xo_route_reason_code := pg_reason p; xo_selection := pg_selection p; xo_remote_host := remote_host |}.

(** [LlmGatewayDecision] as JSON. *)
Definition build_gateway_decision (outcome : LlmExecutionOutcome) (plan : LlmPromptPlan) : json :=
  let tier t := jstr_opt (LlmLocalTier_as_str <$> t) in
  let jnum o := jopt (jint <$> o) in
  let selection := xo_selection outcome in
  jobject
    [("version", JStr "m14i.v1"); ("mode", JStr (LlmMode_as_str (lm_mode config)));
     ("channel", jstr_opt (pp_channel plan)); ("channel_defaults_applied", JBool (pp_channel_defaults_applied plan));
     ("request_class", JStr (LlmRequestClass_as_str (pp_request_class plan)));
     ("queue_lane", JStr (LlmRequestClass_as_str (pp_request_class plan)));
     ("selected_route", JStr (LlmRoute_as_str (xo_route outcome))); ("reason_code", JStr (xo_route_reason_code outcome));
     ("local_tier_requested", tier (rs_local_tier_requested selection));
     ("local_tier_selected", tier (rs_local_tier_selected selection));
     ("local_tier_reason_code", jstr_opt (rs_local_tier_reason_code selection));
     ("prefer", jstr_opt (LlmRoute_as_str <$> pp_prefer plan));
     ("large_input_policy", JStr (LlmLargeInputPolicy_as_str (pp_large_input_policy plan)));
     ("large_input_applied", JBool (pp_large_input_applied plan));
     ("large_input_reason_code", JStr (pp_large_input_reason_code plan));
     ("prompt_bytes_original", jint (pp_prompt_bytes_original plan));
     ("prompt_bytes_effective", jint (pp_prompt_bytes_effective plan));
     ("retrieval_candidate_documents", jint (pp_retrieval_candidate_documents plan));
     ("retrieval_selected_documents", jint (pp_retrieval_selected_documents plan));
     ("admission_status", JStr (xo_admission_status outcome)); ("cache_status", JStr (xo_cache_status outcome));
     ("cache_key_sha256", jstr_opt (xo_cache_key_sha256 outcome));
     ("verifier_enabled", JBool (xo_verifier_enabled outcome));
     ("verifier_mode", JStr (LlmVerifierMode_as_str (lm_verifier_mode config)));
     ("verifier_score_pct", jnum (xo_verifier_score_pct outcome));
     ("verifier_judge_score_pct", jnum (xo_verifier_judge_score_pct outcome));
     ("verifier_threshold_pct",
       if xo_verifier_enabled outcome then jint (lm_verifier_min_score_pct config) else JNull);
     ("verifier_escalated", JBool (xo_verifier_escalated outcome));
     ("verifier_reason_code", jstr_opt (xo_verifier_reason_code outcome));
     ("slo_threshold_ms", jnum (xo_slo_threshold_ms outcome)); ("slo_latency_ms", jint (xo_slo_latency_ms outcome));
     ("slo_status", JStr (xo_slo_status outcome)); ("slo_reason_code", jstr_opt (xo_slo_reason_code outcome));
     ("local_available", JBool (bool_decide (is_Some (lm_local config)) || bool_decide (is_Some (lm_local_small config))));
     ("remote_available", JBool has_remote);
     ("remote_egress_class", JStr (LlmRemoteEgressClass_as_str (lm_remote_egress_class config)));
     ("remote_host", jstr_opt (xo_remote_host outcome))].

Record LlmInferResult := {
  li_route : LlmRoute; li_model : string; li_gateway : json; li_completion : CachedCompletion;
}.

(** [m] runs while the guard is alive; it is dropped whatever [m] comes to. *)
Definition guarded {A} (release : AdmissionRelease) (m : M X A) : M X A :=
  try m (fun r => let! _ := drop_admission release in lift r).

Definition execute_llm_infer (args : json) (cache_namespace : option string) (pg : bool) : M X LlmInferResult :=
  let! parsed := lift (parse_action_args args (lm_max_input_bytes config)) in
  let! (release, status) := acquire_admission parsed cache_namespace pg in
  let! (plan, outcome) := guarded release
    (let! plan := lift (build_prompt_plan (lx_channel_env lx) parsed config) in
     let! outcome := run_llm_with_controls parsed plan cache_namespace pg status in
     ret (plan, outcome)) in
  ret {| li_route := xo_route outcome; li_model := xo_model outcome; li_gateway := build_gateway_decision outcome plan;
         li_completion := xo_completion outcome |}.
End gateway.
