(* ===== verification/LlmExecutor.v ===== *)
(** The [llm.infer] action of the worker (worker/src/lib.rs,
    [execute_llm_infer_action]): the arguments completed from the input of the run,
    the token budgets of the run, the tenant, the agent and the model, the call of
    the gateway, the record of what was consumed and the alerts. *)
From stdpp Require Import pretty.
From S2P Require Import Prelude RustStr Json Sql Runs RunQueue LlmTables Tables TriggerDispatch World Messages.
From S2P Require Import LlmText LlmPlan LlmGateway.

(** * The usage table *)

(** [REFERENCES], [UNIQUE] and [CHECK] clauses of [llm_token_usage]. *)
Definition create_llm_token_usage_record (now : Z) (n : NewLlmTokenUsageRecord) (d : db)
    : result (db * LlmTokenUsageRecord) db_error :=
  let usage := lt_usage (d_llm d) in
  let? _ := require (str_in (nu_route n) ["local"; "remote"] && (0 <=? nu_consumed_tokens n) &&
                     (0 <? nu_window_duration_seconds n)) CheckViolation in
  let? _ := require (negb (existsb (fun r => (nu_id (lu_new r) =? nu_id n) ||
                                             (nu_action_request_id (lu_new r) =? nu_action_request_id n)) usage))
              UniqueViolation in
  let? _ := require (run_exists (nu_run_id n) d && request_exists (nu_action_request_id n) d &&
                     agent_exists (nu_agent_id n) d) ForeignKeyViolation in
  let row := {| lu_new := n; lu_created_at := now |} in
  Ok (with_llm d (with_usage (d_llm d) (usage ++ [row])), row).

Definition create_llm_token_usage_record_sqlite (now : Z) (n : NewLlmTokenUsageRecord) (d : db)
    : result (db * LlmTokenUsageRecord) db_error := create_llm_token_usage_record (current_timestamp now) n d.

Section dual.
Context (pool : DbPool).

Definition create_llm_token_usage_record_dual
    : Z -> NewLlmTokenUsageRecord -> db -> result (db * LlmTokenUsageRecord) db_error :=
  by_pool pool create_llm_token_usage_record create_llm_token_usage_record_sqlite.
Definition sum_llm_consumed_tokens_for_tenant_since_dual : string -> Z -> llm_tables -> result Z db_error :=
  by_pool pool sum_llm_consumed_tokens_for_tenant_since sum_llm_consumed_tokens_for_tenant_since_sqlite.
Definition sum_llm_consumed_tokens_for_agent_since_dual : string -> Uuid -> Z -> llm_tables -> result Z db_error :=
  by_pool pool sum_llm_consumed_tokens_for_agent_since sum_llm_consumed_tokens_for_agent_since_sqlite.
Definition sum_llm_consumed_tokens_for_model_since_dual : string -> string -> Z -> llm_tables -> result Z db_error :=
  by_pool pool sum_llm_consumed_tokens_for_model_since sum_llm_consumed_tokens_for_model_since_sqlite.
End dual.

(** * Arguments *)

(** [object.get(k)] of [v.get(o)], when that is an object. *)
Definition nested_channel (o : string) (input : json) : option string :=
  (get2 o "channel" input ≫= as_str) ≫= normalize_channel_name.

Definition infer_run_llm_channel (input : json) : option string :=
  match (get_or "llm_channel" "channel" input ≫= as_str) ≫= normalize_channel_name with
  | Some channel => Some channel
  | None =>
      match nested_channel "_trigger" input with
      | Some channel => Some channel
      | None => nested_channel "event_payload" input
      end
  end.

(** [if v.get(k).is_none() { if let Some(s) = value { obj.insert(k, s) } }] *)
Definition insert_missing (k : string) (value : option string) (v : json) : json :=
  match v, get k v, value with
  | JObj m, None, Some s => JObj (map_insert k (JStr s) m)
  | _, _, _ => v
  end.

Definition effective_args (run : RunLeaseRecord) (args : json) : json :=
  let input := l_input_json run in
  insert_missing "channel" (infer_run_llm_channel input)
    (insert_missing "request_class" (trimmed_str (get_or "queue_class" "llm_queue_class" input)) args).

(** * Budgets *)

Definition saturating_add (a b : Z) : Z := Z.min u64_max (a + b).
Definition saturating_sub (a b : Z) : Z := Z.max 0 (a - b).

Record LlmBudgets := { lb_run : option Z; lb_tenant : option Z; lb_agent : option Z; lb_model : option Z }.

Definition budget_exceeded (what : string) (remaining estimated : Z) (details : string) : error :=
  Anyhow ("llm.infer " +:+ what +:+ " token budget exceeded (remaining=" +:+ pretty remaining +:+
          ", requested_estimate=" +:+ pretty estimated +:+ details +:+ ")").

Definition llm_soft_alert (scope : string) (limit remaining : option Z) (threshold_pct : Z) (window_secs : option Z)
    (model_scope : option string) : list json :=
  match limit, remaining with
  | Some limit, Some remaining =>
      if limit =? 0 then []
      else
        let used := saturating_sub limit remaining in
        let usage_pct := Z.min u64_max (used * 100) / limit in
        if usage_pct <? threshold_pct then []
        else [jobject [("scope", JStr scope); ("threshold_pct", jint threshold_pct); ("usage_pct", jint usage_pct);
                       ("used_tokens", jint used); ("remaining_tokens", jint remaining); ("limit_tokens", jint limit);
                       ("window_secs", jopt (jint <$> window_secs)); ("model_scope", jstr_opt model_scope)]]
  | _, _ => []
  end.

(** The instant [n] seconds before [now]; outside the years of [OffsetDateTime] the
    subtraction panics. *)
Definition seconds_before (now n : Z) : result Z error :=
  let t := now - as_i64 n * 1000000 in
  if (-377705116800000000 <=? t) && (t <=? 253402300799999999) then Ok t else Err Panicked.

(** What the executor changes of the context of the run. *)
Record LlmContext := {
  lc_remote_llm_tokens_remaining : option Z;
  lc_last_llm_response_text : option string;
}.

Section executor.
Context {X : Type} (E : env) (lx : llm_externals) (config : LlmConfig).

Definition db_sum (f : Z -> llm_tables -> result Z db_error) (since : Z) : M X Z :=
  stmt E (fun _ d => let? n := f since (d_llm d) in Ok (d, n)) (fun _ => []).

(** One shared budget: what is left of it before the call. *)
Definition check_shared_budget (what : string) (lim : option Z) (estimated : Z) (details : string)
    (sum : Z -> llm_tables -> result Z db_error) (since : Z) : M X (option Z) :=
  match lim with
  | None => ret None
  | Some lim =>
      let! spent := db_sum sum since in
      let spent := Z.max spent 0 in
      if lim <? saturating_add spent estimated
      then throw (budget_exceeded what (saturating_sub lim spent) estimated details)
      else ret (Some (saturating_sub lim spent))
  end.

Definition check_remote_budgets (run : RunLeaseRecord) (scope : string) (estimated window since : Z)
    (remaining : option Z) : M X LlmBudgets :=
  let secs := ", window_secs=" +:+ pretty window in
  let pool := env_pool E in
  let! _ := lift match remaining with
                 | Some rest => if rest <? estimated then Err (budget_exceeded "remote" rest estimated "") else Ok tt
                 | None => Ok tt
                 end in
  let! tenant := check_shared_budget "tenant" (lm_remote_token_budget_per_tenant config) estimated secs
                   (sum_llm_consumed_tokens_for_tenant_since_dual pool (l_tenant_id run)) since in
  let! agent := check_shared_budget "agent" (lm_remote_token_budget_per_agent config) estimated secs
                  (sum_llm_consumed_tokens_for_agent_since_dual pool (l_tenant_id run) (l_agent_id run)) since in
  let! model := check_shared_budget "model" (lm_remote_token_budget_per_model config) estimated
                  (", model_scope=" +:+ scope +:+ secs)
                  (sum_llm_consumed_tokens_for_model_since_dual pool (l_tenant_id run) scope) since in
  ret {| lb_run := remaining; lb_tenant := tenant; lb_agent := agent; lb_model := model |}.

Definition spend (consumed : Z) (b : LlmBudgets) : LlmBudgets :=
  let less o := (fun rest => saturating_sub rest consumed) <$> o in
  {| lb_run := less (lb_run b); lb_tenant := less (lb_tenant b); lb_agent := less (lb_agent b); lb_model := less (lb_model b) |}.

Definition soft_alerts (scope : string) (window : Z) (b : LlmBudgets) : list json :=
  match lm_remote_token_budget_soft_alert_threshold_pct config with
  | None => []
  | Some pct =>
      llm_soft_alert "run" (lm_remote_token_budget_per_run config) (lb_run b) pct None None
      ++ llm_soft_alert "tenant" (lm_remote_token_budget_per_tenant config) (lb_tenant b) pct (Some window) None
      ++ llm_soft_alert "agent" (lm_remote_token_budget_per_agent config) (lb_agent b) pct (Some window) None
      ++ llm_soft_alert "model" (lm_remote_token_budget_per_model config) (lb_model b) pct (Some window) (Some scope)
  end.

Definition usage_record (run : RunLeaseRecord) (action_request_id : Uuid) (model : string) (consumed window since : Z)
    (cost : option number) (id : Uuid) : NewLlmTokenUsageRecord :=
  {| nu_id := id; nu_run_id := l_id run; nu_action_request_id := action_request_id; nu_tenant_id := l_tenant_id run;
     nu_agent_id := l_agent_id run; nu_route := "remote"; nu_model_key := "remote:" +:+ model;
     nu_consumed_tokens := as_i64 consumed; nu_estimated_cost_usd := cost; nu_window_started_at := since;
     nu_window_duration_seconds := as_i64 window |}.

Definition estimated_cost (consumed : Z) : option number :=
  let per_1k := lm_remote_cost_per_1k_tokens_usd config in
  if lx_cost_positive lx per_1k then Some (lx_cost lx consumed per_1k) else None.

Definition execute_llm_infer_action (run : RunLeaseRecord) (action_request_id : Uuid) (args : json)
    (remaining : option Z) : M X (json * LlmContext) :=
  let args := effective_args run args in
  let! scope := lift (policy_scope_for_action (lx_channel_env lx) args config) in
  let is_remote := starts_with "remote:" scope in
  let estimated := default 512 (get "max_tokens" args ≫= as_u64) in
  let window := Z.max (lm_remote_token_budget_window_secs config) 1 in
  let! now := ask (env_clock E) in
  let! since := lift (seconds_before now window) in
  let! budgets :=
    if is_remote then check_remote_budgets run scope estimated window since remaining
    else ret {| lb_run := remaining; lb_tenant := None; lb_agent := None; lb_model := None |} in
  let! result := execute_llm_infer E lx config args
    (Some ("tenant:" +:+ l_tenant_id run +:+ ":agent:" +:+ env_uuid_text E (l_agent_id run)))
    (negb (on_sqlite (env_pool E))) in
  let completion := li_completion result in
  let consumed := default estimated (cc_total_tokens completion) in
  let remote := match li_route result with Remote => true | Local => false end in
  let cost := if remote then estimated_cost consumed else None in
  let budgets := if remote then spend consumed budgets else budgets in
  let! _ :=
    if remote then
      let! id := new_v4 E in
      stmt E (fun now d => create_llm_token_usage_record_dual (env_pool E) now
                (usage_record run action_request_id (li_model result) consumed window since cost id) d) (fun _ => [])
      ;; ret tt
    else ret tt in
  let alerts := if remote then soft_alerts scope window budgets else [] in
  let jnum o := jopt (jint <$> o) in
  ret (jobject
    [("route", JStr (LlmRoute_as_str (li_route result))); ("model", JStr (li_model result));
     ("gateway", li_gateway result); ("response_text", JStr (cc_response_text completion));
     ("prompt_tokens", jnum (cc_prompt_tokens completion)); ("completion_tokens", jnum (cc_completion_tokens completion));
     ("total_tokens", jnum (cc_total_tokens completion));
     ("token_accounting", jobject
       [("estimated_tokens", jint estimated); ("consumed_tokens", jint consumed);
        ("remote_token_budget_remaining", jnum (lb_run budgets)); ("remote_budget_window_secs", jint window);
        ("remote_budget_window_started_at", env_time_json E since);
        ("remote_token_budget_remaining_tenant", jnum (lb_tenant budgets));
        ("remote_token_budget_remaining_agent", jnum (lb_agent budgets));
        ("remote_token_budget_remaining_model", jnum (lb_model budgets));
        ("soft_alert_threshold_pct", jnum (lm_remote_token_budget_soft_alert_threshold_pct config));
        ("soft_alerts", JArr alerts); ("estimated_cost_usd", jopt (JNum <$> cost))])],
    {| lc_remote_llm_tokens_remaining := lb_run budgets;
       lc_last_llm_response_text := Some (cc_response_text completion) |}).
End executor.

(** * A configuration *)

(** One local and one remote endpoint, the remote one behind an allowlist; the mode
    and the escalations vary. *)
Definition llm_config_of (mode : LlmMode) (verifier escalate : bool) (slo_ms : option Z) : LlmConfig :=
  {| lm_mode := mode; lm_timeout_ms := 12000; lm_max_input_bytes := 262144; lm_max_prompt_bytes := 32000;
     lm_max_output_bytes := 64000; lm_large_input_threshold_bytes := 12000; lm_large_input_policy := SummarizeFirst;
     lm_large_input_summary_target_bytes := 16000; lm_context_retrieval_top_k := 6;
     lm_context_retrieval_max_bytes := 32000; lm_context_retrieval_chunk_bytes := 2048; lm_admission_enabled := true;
     lm_admission_interactive_max_inflight := 8; lm_admission_batch_max_inflight := 2; lm_cache_enabled := true;
     lm_cache_ttl_secs := 300; lm_cache_max_entries := 1024; lm_distributed_enabled := true;
     lm_distributed_fail_open := true; lm_distributed_owner := "worker-1"; lm_distributed_admission_enabled := true;
     lm_distributed_admission_lease_ms := 30000; lm_distributed_cache_enabled := true;
     lm_distributed_cache_namespace_max_entries := 4096; lm_verifier_enabled := verifier; lm_verifier_mode := Heuristic;
     lm_verifier_min_score_pct := 65; lm_verifier_escalate_remote := escalate; lm_verifier_min_response_chars := 48;
     lm_verifier_judge := None; lm_verifier_judge_timeout_ms := 4000; lm_verifier_judge_fail_open := true;
     lm_slo_interactive_max_latency_ms := slo_ms; lm_slo_batch_max_latency_ms := None; lm_slo_alert_threshold_pct := None;
     lm_slo_breach_escalate_remote := bool_decide (is_Some slo_ms);
     lm_local := Some {| ep_base_url := "http://127.0.0.1:11434/v1"; ep_model := "qwen"; ep_api_key := None |};
     lm_local_models := ["qwen"]; lm_local_small := None; lm_local_small_models := [];
     lm_local_interactive_tier := Workhorse; lm_local_batch_tier := Workhorse;
     lm_remote := Some {| ep_base_url := "https://api.example.com/v1"; ep_model := "big"; ep_api_key := Some "key" |};
     lm_remote_models := ["big"]; lm_remote_egress_enabled := true; lm_remote_egress_class := CloudAllowed;
     lm_remote_host_allowlist := ["api.example.com"]; lm_remote_token_budget_per_run := Some 1000;
     lm_remote_token_budget_per_tenant := Some 5000; lm_remote_token_budget_per_agent := None;
     lm_remote_token_budget_per_model := None; lm_remote_token_budget_window_secs := 86400;
     lm_remote_token_budget_soft_alert_threshold_pct := Some 80; lm_remote_cost_per_1k_tokens_usd := PosInt 0 |}.

Definition demo_llm_config : LlmConfig := llm_config_of LocalFirst false false None.

Definition llm_externals_of (ce : channel_env) (answer : string) : llm_externals :=
  {| lx_channel_env := ce; lx_instant := fun t => Z.of_nat t;
     lx_url_host := fun u => Ok (if contains "example.com" u then Some "api.example.com" else Some "127.0.0.1");
     lx_build_client := fun _ => None;
     lx_post := fun _ _ _ _ _ => Answered [answer]
       (Some {| us_prompt_tokens := Some 10; us_completion_tokens := Some 20; us_total_tokens := Some 30 |});
     lx_sha256_hex := fun s => s; lx_temperature_text := fun _ => ""; lx_cost_positive := fun _ => false;
     lx_cost := fun _ n => n |}.

Definition demo_llm_externals : llm_externals :=
  llm_externals_of {| ce_raw := None; ce_from_str := fun _ => Err "json" |} "an answer".
