(* ===== verification/LlmFrame.v ===== *)
(** One walk through the LLM executor: what holds of its primitive steps and is
    closed under sequencing holds of the whole.  The instances say what its journal
    may contain and what of the database it leaves alone. *)
From S2P Require Import Prelude RustStr Json Sql Runs RunQueue LlmTables Tables TriggerDispatch World Messages.
From S2P Require Import LlmText LlmPlan LlmGateway LlmExecutor.

(** The admission counters of the process. *)
Definition counters (p : llm_process) : Z * Z := (lp_interactive_inflight p, lp_batch_inflight p).

(** The steps of one request: sequencing, the caches, the posts.  A statement on the
    LLM tables does not touch the usage rows, a step on the process leaves the
    counters alone. *)
Class RequestRules {X : Type} (E : env) (Q : forall A, M X A -> Prop) : Prop := {
  q_ret A (a : A) : Q A (ret a);
  q_throw A e : Q A (throw e);
  q_lift A (r : result A error) : Q A (lift r);
  q_bind A B (m : M X A) (k : A -> M X B) : Q A m -> (forall a, Q B (k a)) -> Q B (bind m k);
  q_try A B (m : M X A) (k : result A error -> M X B) : Q A m -> (forall r, Q B (k r)) -> Q B (try m k);
  q_ask A (f : nat -> A) : Q A (ask f);
  q_cache A (f : llm_process -> llm_process * A) : (forall p, counters (f p).1 = counters p) -> Q A (on_llm f);
  q_post purpose url request : Q unit (note (LlmPosted purpose url request));
  q_lstmt A (f : Z -> llm_tables -> llm_tables * A) : (forall now t, lt_usage (f now t).1 = lt_usage t) -> Q A (lstmt E f);
}.

(** With the admission counters, and a new identifier for a lease. *)
Class GatewayRules {X : Type} (E : env) (Q : forall A, M X A -> Prop) : Prop := {
  q_request :: RequestRules E Q;
  q_on_llm A (f : llm_process -> llm_process * A) : Q A (on_llm f);
  q_new_v4 : Q Uuid (new_v4 E);
}.

(** With the budgets and the usage record. *)
Class LlmRules {X : Type} (E : env) (Q : forall A, M X A -> Prop) : Prop := {
  q_gateway :: GatewayRules E Q;
  q_sum f since : Q Z (db_sum E f since);
  q_usage n : Q _ (stmt E (fun now d => create_llm_token_usage_record_dual (env_pool E) now n d) (fun _ => []));
}.

Lemma cache_lookup_counters now key ttl p : counters (cache_lookup now key ttl p).1 = counters p.
Proof. unfold cache_lookup. destruct (_ !! _) as [e|]; [|done]. by destruct (_ <? _). Qed.

Lemma acquire_lease_usage now params t : lt_usage (try_acquire_llm_gateway_admission_lease now params t).1 = lt_usage t.
Proof.
  unfold try_acquire_llm_gateway_admission_lease, take_slot. destruct (candidate_slot now params t); [|done].
  by repeat destruct (existsb _ _).
Qed.

Ltac llm_step :=
  match goal with
  | |- _ (ret _) => apply q_ret
  | |- _ (throw _) => apply q_throw
  | |- _ (lift _) => apply q_lift
  | |- _ (bind _ _) => apply q_bind; [|intros ?]
  | |- _ (try _ _) => apply q_try; [|intros ?]
  | |- _ (ask _) => apply q_ask
  | |- _ (on_llm _) => first [apply q_on_llm | apply q_cache; intros ?; first [apply cache_lookup_counters | reflexivity]]
  | |- _ (new_v4 _) => apply q_new_v4
  | |- _ (note _) => apply q_post
  | |- _ (lstmt _ _) => apply q_lstmt; intros ? ?; first [apply acquire_lease_usage | reflexivity]
  | |- _ (db_sum _ _ _) => apply q_sum
  | |- _ (stmt _ _ _) => apply q_usage
  | |- _ (let '_ := ?x in _) => destruct x
  | |- _ (if ?b then _ else _) => destruct b
  | |- _ (match ?x with _ => _ end) => destruct x
  end.

Section request.
Context {X : Type} (E : env) (lx : llm_externals) (config : LlmConfig).
Context (Q : forall A, M X A -> Prop) `{!RequestRules E Q}.
#[local] Arguments Q {A}.

Lemma post_chat_rule purpose pc timeout endpoint request : Q (post_chat lx purpose pc timeout endpoint request).
Proof. unfold post_chat. repeat llm_step. Qed.

Lemma request_rule endpoint messages parsed route : Q (request_chat_completion lx config endpoint messages parsed route).
Proof. unfold request_chat_completion. repeat first [apply post_chat_rule | llm_step]. Qed.

Lemma completion_rule route endpoint parsed plan ns pg :
  Q (execute_route_completion E lx config route endpoint parsed plan ns pg).
Proof.
  unfold execute_route_completion, answer_from_pg, answer_locally, ignoring, prune_llm_gateway_cache_namespace, instant.
  repeat first [apply request_rule | llm_step].
Qed.

Lemma escalate_rule parsed plan ns pg reason p : Q (escalate E lx config parsed plan ns pg reason p).
Proof. unfold escalate. repeat first [apply completion_rule | llm_step]. Qed.

Lemma controls_rule parsed plan ns pg status : Q (run_llm_with_controls E lx config parsed plan ns pg status).
Proof.
  unfold run_llm_with_controls, slo_escalation, verification, evaluate_verifier, request_verifier_judge_score, instant.
  repeat first [apply completion_rule | apply escalate_rule | apply post_chat_rule | llm_step].
Qed.

End request.

Section walk.
Context {X : Type} (E : env) (lx : llm_externals) (config : LlmConfig) (Q : forall A, M X A -> Prop).
#[local] Arguments Q {A}.

Lemma infer_rule `{!GatewayRules E (@Q)} args ns pg : Q (execute_llm_infer E lx config args ns pg).
Proof.
  unfold execute_llm_infer, acquire_admission, acquire_local_admission, guarded, drop_admission, ignoring.
  repeat first [apply (controls_rule E lx config (@Q)) | llm_step].
Qed.

Lemma llm_infer_rule `{!LlmRules E (@Q)} run id args remaining : Q (execute_llm_infer_action E lx config run id args remaining).
Proof.
  unfold execute_llm_infer_action, check_remote_budgets, check_shared_budget.
  repeat first [apply infer_rule | llm_step].
Qed.
End walk.

(** * Instances *)

Lemma create_usage_other now n d d' r : create_llm_token_usage_record now n d = Ok (d', r) ->
  exists t, d' = with_llm d t.
Proof.
  unfold create_llm_token_usage_record, require. destruct (_ && _); [|done]. destruct (negb _); [|done].
  destruct (_ && _); [|done]. intros [= <- _]. eauto.
Qed.

Lemma create_usage_dual_other pool now n d d' r : create_llm_token_usage_record_dual pool now n d = Ok (d', r) ->
  exists t, d' = with_llm d t.
Proof. destruct pool; apply create_usage_other. Qed.

Section instances.
Context {X : Type} (E : env).

#[export] Instance only_llm (P : effect -> Prop) :
  (forall purpose url request, P (LlmPosted purpose url request)) -> LlmRules E (fun A (m : M X A) => only P m).
Proof.
  intros HP. split; [split; [split|..]|..]; intros; auto with agnt.
  - by apply only_bind; [|intros].
  - by apply only_try.
  - by apply only_note.
  - apply only_stmt. intros a. constructor.
  - apply only_stmt. intros a. constructor.
  - apply only_stmt. intros a. constructor.
Qed.

(** Everything outside the LLM tables is left alone. *)
#[export] Instance keeps_llm (I : db -> Prop) :
  stable (X := X) I E -> (forall d t, I d -> I (with_llm d t)) -> LlmRules E (fun A (m : M X A) => keeps I m).
Proof.
  intros HI Ht. split; [split; [split|..]|..]; intros; auto with agnt.
  - by apply keeps_bind.
  - by apply keeps_try.
  - apply keeps_stmt; [done|]. intros now d d' a. unfold total. destruct (f now (d_llm d)). intros [= <- _]. by apply Ht.
  - apply keeps_stmt; [done|]. intros now d d' a. destruct (f since (d_llm d)); [|done]. by intros [= <- _].
  - apply keeps_stmt; [done|]. intros now d d' a (t & ->)%create_usage_dual_other. by apply Ht.
Qed.
End instances.

Section executor.
Context {X : Type} (E : env) (lx : llm_externals) (config : LlmConfig).

Lemma only_llm_infer (P : effect -> Prop) run id args remaining :
  (forall purpose url request, P (LlmPosted purpose url request)) ->
  only P (execute_llm_infer_action (X := X) E lx config run id args remaining).
Proof. intros HP. pose proof (only_llm (X := X) E P HP). apply (llm_infer_rule E lx config (fun A m => only P m)). Qed.

Lemma keeps_llm_infer (I : db -> Prop) run id args remaining :
  stable (X := X) I E -> (forall d t, I d -> I (with_llm d t)) ->
  keeps I (execute_llm_infer_action (X := X) E lx config run id args remaining).
Proof. intros HI Ht. pose proof (keeps_llm E I HI Ht). apply (llm_infer_rule E lx config (fun A m => keeps I m)). Qed.
End executor.
