(* ===== verification/LlmProps.v ===== *)
(** Theorems about the LLM executor: where its requests go and what they carry, the
    scope that the policy engine checks, the token budgets, admission and the
    caches. *)
From stdpp Require Import pretty.
From S2P Require Import Prelude RustStr Json Sql Runs RunQueue LlmTables Tables TriggerDispatch World Messages.
From S2P Require Import LlmText LlmPlan LlmGateway LlmExecutor LlmFrame.

(** * What is posted *)

(** The request of an answer on a route. *)
Definition infer_request (endpoint : LlmEndpointConfig) (parsed : LlmInferActionArgs) (plan : LlmPromptPlan)
    : ChatCompletionRequest :=
  {| ch_model := ep_model endpoint; ch_messages := build_messages (ia_system parsed) (pp_prompt plan);
     ch_max_tokens := ia_max_tokens parsed; ch_temperature := ia_temperature parsed |}.

Section posts.
Context {X : Type} (E : env) (lx : llm_externals) (config : LlmConfig).
Context (P : effect -> Prop) (parsed : LlmInferActionArgs) (plan : LlmPromptPlan).

Definition may_post (route : LlmRoute) (endpoint : LlmEndpointConfig) : Prop :=
  is_ok (enforce_remote_egress_policy (lx_url_host lx) route endpoint config parsed) = true ->
  P (LlmPosted (LlmRoute_as_str route) (chat_url endpoint) (infer_request endpoint parsed plan)).

Lemma only_lstmt {A} (f : Z -> llm_tables -> llm_tables * A) : only P (lstmt (X := X) E f).
Proof. apply only_stmt. intros a. constructor. Qed.

Lemma only_post purpose pc timeout endpoint request : P (LlmPosted purpose (chat_url endpoint) request) ->
  only P (post_chat (X := X) lx purpose pc timeout endpoint request).
Proof. intros HP. unfold post_chat. repeat first [exact HP | only_step]. Qed.

Lemma only_request route endpoint :
  P (LlmPosted (LlmRoute_as_str route) (chat_url endpoint) (infer_request endpoint parsed plan)) ->
  only P (request_chat_completion (X := X) lx config endpoint (build_messages (ia_system parsed) (pp_prompt plan)) parsed route).
Proof. intros HP. unfold request_chat_completion. repeat first [by apply only_post | only_step]. Qed.

Lemma only_completion route endpoint ns pg : may_post route endpoint ->
  only P (execute_route_completion (X := X) E lx config route endpoint parsed plan ns pg).
Proof.
  intros HP. unfold execute_route_completion. apply only_bind; [apply only_lift|]. intros host Hhost%returns_lift.
  assert (P (LlmPosted (LlmRoute_as_str route) (chat_url endpoint) (infer_request endpoint parsed plan))) as HP'
    by (apply HP; by rewrite Hhost).
  unfold answer_from_pg, answer_locally, ignoring, prune_llm_gateway_cache_namespace, instant.
  repeat first [by apply only_request | apply only_lstmt | only_step].
Qed.

Lemma only_escalate ns pg reason p :
  (forall e, lm_remote config = Some e -> may_post Remote e) ->
  only P (escalate (X := X) E lx config parsed plan ns pg reason p).
Proof.
  intros HP. unfold escalate. apply only_bind; [apply only_lift|]. intros sel Hsel%returns_lift.
  apply only_try; [|intros [r|e]; apply only_ret]. apply only_completion. apply HP.
  cbn in Hsel. destruct (lm_remote config); [|done]. by injection Hsel as <-.
Qed.

(** The judge of the verifier. *)
Definition judge_posts : Prop :=
  forall e request, lm_verifier_judge config = Some e -> ch_model request = ep_model e ->
    P (LlmPosted "judge" (chat_url e) request).

Lemma only_verifier prompt response : judge_posts -> only P (evaluate_verifier (X := X) E lx config prompt response).
Proof.
  intros HJ. unfold evaluate_verifier, request_verifier_judge_score.
  assert (forall e, lm_verifier_judge config = Some e -> forall B (k : _ -> M X B), (forall r, only P (k r)) ->
    only P (try (let! (choices, _) :=
      post_chat (X := X) lx "judge" judge_contexts (lm_verifier_judge_timeout_ms config) e
        {| ch_model := ep_model e; ch_messages := judge_messages prompt response; ch_max_tokens := Some 96;
           ch_temperature := Some (Float 0) |} in
      match choices with
      | [] => throw (Anyhow "verifier judge response missing choices[0].message.content")
      | content :: _ => lift (parse_verifier_judge_response (ce_from_str (lx_channel_env lx)) content)
      end) k)) as Hask.
  { intros e He B k Hk. apply only_try; [|done]. apply only_bind; [by apply only_post, HJ|].
    intros [[|c cs] u] _; auto with agnt. }
  destruct (lm_verifier_mode config), (lm_verifier_judge config) as [e|] eqn:Hj;
    first [apply Hask; [done|intros [j|x]; repeat only_step] | only_step].
Qed.

(** The answer on the chosen route, the escalations that are configured, the judge. *)
Lemma only_controls ns pg status :
  (forall d sel, select_route_with_reason config (pp_prefer plan) = Ok d ->
     select_endpoint_for_route config (rd_route d) plan true = Ok sel -> may_post (rd_route d) (rs_endpoint sel)) ->
  (lm_slo_breach_escalate_remote config = true \/
   (lm_verifier_escalate_remote config = true /\ lm_verifier_enabled config || ia_verifier_required parsed = true) ->
   forall e, lm_remote config = Some e -> may_post Remote e) ->
  judge_posts -> only P (run_llm_with_controls (X := X) E lx config parsed plan ns pg status).
Proof.
  intros HR HE HJ. unfold run_llm_with_controls, instant.
  apply only_bind; [apply only_ask|intros t0 _]. apply only_bind; [apply only_lift|]. intros d Hd%returns_lift.
  apply only_bind; [apply only_lift|]. intros sel Hsel%returns_lift.
  apply only_bind; [apply only_ask|intros t1 _].
  apply only_bind; [apply only_completion; by apply HR|intros r _].
  apply only_bind; [apply only_ask|intros t2 _]. apply only_bind.
  { unfold slo_escalation. destruct (_ && _ && lm_slo_breach_escalate_remote config && _) eqn:B; [|apply only_ret].
    bool_hyps. apply only_bind; [apply only_escalate; auto|intros [] _; apply only_ret]. }
  intros [p note] _. destruct (lm_verifier_enabled config || ia_verifier_required parsed) eqn:V.
  - apply only_bind; [|intros [[q esc] verdict] _; repeat only_step]. apply only_bind; [|intros [[]] _; apply only_ret].
    unfold verification. apply only_bind; [by apply only_verifier|intros v _].
    destruct (_ && _); [|apply only_ret]. destruct (lm_verifier_escalate_remote config && _) eqn:B; [|apply only_ret].
    bool_hyps. apply only_bind; [apply only_escalate; auto|intros [q err] _; apply only_ret].
  - apply only_bind; [apply only_ret|intros [[q esc] verdict] _]. repeat only_step.
Qed.
End posts.

(** The requests of an action are those of its gateway call. *)
Lemma only_action {X} E lx config (P : effect -> Prop) run id args remaining :
  (forall parsed plan ns pg status,
     parse_action_args (effective_args run args) (lm_max_input_bytes config) = Ok parsed ->
     build_prompt_plan (lx_channel_env lx) parsed config = Ok plan ->
     only P (run_llm_with_controls (X := X) E lx config parsed plan ns pg status)) ->
  only P (execute_llm_infer_action (X := X) E lx config run id args remaining).
Proof.
  intros HC. unfold execute_llm_infer_action.
  repeat match goal with
  | |- only _ (execute_llm_infer _ _ _ _ _ _) => fail 1
  | |- only _ (check_remote_budgets _ _ _ _ _ _ _ _) => unfold check_remote_budgets, check_shared_budget, db_sum
  | |- _ => only_step
  end.
  unfold execute_llm_infer. apply only_bind; [apply only_lift|]. intros parsed Hp%returns_lift.
  apply only_bind.
  { unfold acquire_admission, acquire_local_admission. repeat first [apply only_lstmt | only_step]. }
  intros [release status] _. apply only_bind; [|intros [] _; apply only_ret]. unfold guarded, drop_admission, ignoring.
  apply only_try; [|intros r; repeat first [apply only_lstmt | only_step]].
  apply only_bind; [apply only_lift|]. intros plan Hplan%returns_lift.
  apply only_bind; [by apply HC|intros o _; apply only_ret].
Qed.

Lemma action_post {X} E lx config (P : effect -> Prop) run id args remaining w j :
  (forall parsed plan ns pg status,
     parse_action_args (effective_args run args) (lm_max_input_bytes config) = Ok parsed ->
     build_prompt_plan (lx_channel_env lx) parsed config = Ok plan ->
     only P (run_llm_with_controls (X := X) E lx config parsed plan ns pg status)) ->
  appends (execute_llm_infer_action (X := X) E lx config run id args remaining) w j -> forall e, e ∈ j -> P e.
Proof. intros HC Hj. apply Forall_forall. eapply only_appends; [by apply only_action|exact Hj]. Qed.

(** * Where requests go *)

(** A remote endpoint that the configuration lets the prompt leave to. *)
Definition remote_allowed (lx : llm_externals) (config : LlmConfig) (parsed : LlmInferActionArgs)
    (endpoint : LlmEndpointConfig) : Prop :=
  lm_remote_egress_enabled config = true /\ lm_remote_egress_class config <> NeverLeavesPrem /\
  (lm_remote_egress_class config = RedactedOnly -> ia_redacted parsed = true) /\
  exists host, lx_url_host lx (ep_base_url endpoint) = Ok (Some host) /\
    exists allowed, allowed ∈ lm_remote_host_allowlist config /\ eq_ignore_ascii_case allowed host = true.

Lemma enforce_remote lx config parsed endpoint :
  is_ok (enforce_remote_egress_policy (lx_url_host lx) Remote endpoint config parsed) = true ->
  remote_allowed lx config parsed endpoint.
Proof.
  unfold enforce_remote_egress_policy, remote_allowed.
  destruct (lm_remote_egress_class config) eqn:Hc, (ia_redacted parsed) eqn:Hr; try done;
    (destruct (lm_remote_egress_enabled config) eqn:He; [|done]; destruct (bool_decide _); [done|];
     destruct (lx_url_host lx (ep_base_url endpoint)) as [[host|]|] eqn:Hh; [|done..];
     cbn; destruct (existsb _ _) eqn:Ha; [|done]; apply existsb_elem_of in Ha as (a & Ha1 & Ha2); intros _;
     split_and!; [done..|exists host; eauto]).
Qed.

(** The endpoint of a route is the configured one, up to its model. *)
Definition configured (config : LlmConfig) (route : LlmRoute) (endpoint : LlmEndpointConfig) : Prop :=
  match route with
  | Local => lm_local config = Some endpoint \/ lm_local_small config = Some endpoint
  | Remote => lm_remote config = Some endpoint
  end.

Lemma selected_endpoint config route plan allow sel :
  select_endpoint_for_route config route plan allow = Ok sel ->
  exists e, configured config route e /\ ep_base_url (rs_endpoint sel) = ep_base_url e /\ ep_api_key (rs_endpoint sel) = ep_api_key e.
Proof.
  assert (forall tier e e', choose_model config route tier plan allow e = Ok e' ->
    ep_base_url e' = ep_base_url e /\ ep_api_key e' = ep_api_key e) as Hm.
  { intros tier e e'. unfold choose_model. destruct allow; [|by intros [= <-]].
    destruct (select_model_for_route _ _ _ _ _ _ _); [|done]. by intros [= <-]. }
  unfold select_endpoint_for_route. destruct route.
  - set (req := default _ _). destruct (local_endpoint config req) as [[[tier e] reason]|] eqn:Hl; [|done]. cbn.
    destruct (choose_model _ _ _ _ _ _) as [e'|] eqn:Hc; [|done]. intros [= <-]. exists e.
    split; [|by apply (Hm (Some tier))]. unfold configured, local_endpoint in *.
    destruct req, (lm_local_small config), (lm_local config); simplify_eq; auto.
  - destruct (lm_remote config) as [e|] eqn:Hr; [|done]. cbn. destruct (choose_model _ _ _ _ _ _) as [e'|] eqn:Hc; [|done].
    intros [= <-]. exists e. split; [done|]. by apply (Hm None).
Qed.

(** A request of the executor: an answer on a route, or the judgement of one. *)
Inductive lawful_post (lx : llm_externals) (config : LlmConfig) (parsed : LlmInferActionArgs) (plan : LlmPromptPlan)
    : effect -> Prop :=
| AnswerPost route endpoint model :
    configured config route endpoint -> (route = Remote -> remote_allowed lx config parsed endpoint) ->
    lawful_post lx config parsed plan
      (LlmPosted (LlmRoute_as_str route) (chat_url endpoint) (infer_request (with_model endpoint model) parsed plan))
| JudgePost endpoint request :
    lm_verifier_judge config = Some endpoint -> ch_model request = ep_model endpoint ->
    lawful_post lx config parsed plan (LlmPosted "judge" (chat_url endpoint) request).

Lemma lawful_may_post lx config parsed plan route endpoint sent :
  configured config route endpoint -> ep_base_url sent = ep_base_url endpoint ->
  may_post lx config (lawful_post lx config parsed plan) parsed plan route sent.
Proof.
  intros Hc Hb Hok.
  assert (LlmPosted (LlmRoute_as_str route) (chat_url sent) (infer_request sent parsed plan) =
    LlmPosted (LlmRoute_as_str route) (chat_url endpoint) (infer_request (with_model endpoint (ep_model sent)) parsed plan)) as ->.
  { unfold chat_url. by rewrite Hb. }
  constructor; [done|]. intros ->. apply enforce_remote. unfold enforce_remote_egress_policy in *. by rewrite <- Hb.
Qed.

Lemma controls_lawful {X} E lx config parsed plan ns pg status :
  only (lawful_post lx config parsed plan) (run_llm_with_controls (X := X) E lx config parsed plan ns pg status).
Proof.
  apply only_controls.
  - intros d sel _ (e & Hc & Hb & _)%selected_endpoint. by apply (lawful_may_post _ _ _ _ _ e).
  - intros _ e He. by apply (lawful_may_post _ _ _ _ _ e).
  - intros e request He Hm. by constructor.
Qed.


(** * Concrete calls *)

Definition demo_args : json := jobject [("prompt", JStr "say hello")].
Definition demo_remote_args : json := jobject [("prompt", JStr "say hello"); ("prefer", JStr "remote")].

(** A run that came in on a channel. *)
Definition channel_lease (channel : string) : RunLeaseRecord :=
  {| l_id := 1; l_tenant_id := "acme"; l_agent_id := 7; l_triggered_by_user_id := None; l_recipe_id := "notify_v1";
     l_status := running; l_input_json := jobject [("channel", JStr channel)]; l_granted_capabilities := JArr [];
     l_attempts := 1; l_lease_owner := Some "w1"; l_lease_expires_at := Some 100; l_created_at := 0; l_started_at := Some 1 |}.

Definition demo_journal (lx : llm_externals) (config : LlmConfig) (run : RunLeaseRecord) (args : json)
    (remaining : option Z) : list effect :=
  w_journal (execute_llm_infer_action demo_env lx config run 5 args remaining empty_world).2.

Definition destinations (j : list effect) : list (string * string * string) :=
  flat_map (fun e => match e with LlmPosted p url request => [(p, url, ch_model request)] | _ => [] end) j.

(** A computation that starts with an empty journal appends what is in it at the end. *)
Lemma llm_journal_appends lx config run args remaining :
  appends (execute_llm_infer_action demo_env lx config run 5 args remaining) empty_world (demo_journal lx config run args remaining).
Proof. by apply appends_from_empty. Qed.


(** * The scope that was checked *)

(** When no escalation is configured and the run adds nothing to the arguments, every
    answer is asked of the route and the model of the scope that the policy engine
    was given for the action. *)
Theorem llm_requests_stay_in_the_checked_scope {X} E lx config run id args remaining w j purpose url request :
  effective_args run args = args ->
  lm_slo_breach_escalate_remote config = false -> lm_verifier_escalate_remote config = false ->
  appends (execute_llm_infer_action (X := X) E lx config run id args remaining) w j ->
  LlmPosted purpose url request ∈ j -> purpose <> "judge" ->
  policy_scope_for_action (lx_channel_env lx) args config = Ok (purpose +:+ ":" +:+ ch_model request).
Proof.
  intros Ha Hslo Hv Hj He Hp.
  refine (action_post E lx config (fun e => match e with
    | LlmPosted purpose _ request => purpose <> "judge" ->
        policy_scope_for_action (lx_channel_env lx) args config = Ok (purpose +:+ ":" +:+ ch_model request)
    | _ => True end) run id args remaining w j _ Hj _ He Hp).
  intros parsed plan ns pg status Hparse Hplan. rewrite Ha in Hparse. apply only_controls.
  - intros d sel Hd Hsel _ _. unfold policy_scope_for_action. by rewrite Hparse; cbn; rewrite Hplan; cbn; rewrite Hd; cbn; rewrite Hsel.
  - rewrite Hslo, Hv. by intros [?|[? _]].
  - by intros e r _ _ [].
Qed.

Lemma llm_requests_stay_in_the_checked_scope_witness :
  policy_scope_for_action (lx_channel_env demo_llm_externals) demo_remote_args demo_llm_config = Ok "remote:big".
Proof.
  apply (llm_requests_stay_in_the_checked_scope demo_env demo_llm_externals demo_llm_config demo_lease 5 demo_remote_args
    (Some 1000) empty_world _ "remote" "https://api.example.com/v1/chat/completions"
    {| ch_model := "big"; ch_messages := [{| cm_role := "user"; cm_content := "say hello" |}]; ch_max_tokens := None;
       ch_temperature := None |} eq_refl eq_refl eq_refl (llm_journal_appends _ _ _ _ _)); [|discriminate].
  vm_compute. left.
Defined.

(** The scope of the policy check comes from the arguments of the action; the call also
    uses the channel of the run.  With a channel that prefers the remote route, an action
    that was authorised for the local model is answered by the remote one. *)
Theorem channel_of_the_run_escapes_the_checked_scope :
  let lx := llm_externals_of {| ce_raw := Some "{}"; ce_from_str := fun _ =>
              Ok (jobject [("news", jobject [("prefer", JStr "remote")])]) |} "an answer" in
  policy_scope_for_action (lx_channel_env lx) demo_args demo_llm_config = Ok "local:qwen" /\
  destinations (demo_journal lx demo_llm_config (channel_lease "news") demo_args (Some 1000)) =
    [("remote", "https://api.example.com/v1/chat/completions", "big")].
Proof. split; vm_compute; reflexivity. Qed.

(** An answer the verifier finds weak is asked again of the remote endpoint, although
    the scope that was checked is local, the mode is local-only and nothing is left of the
    token budget of the run. *)
Theorem escalation_ignores_scope_mode_and_budget :
  let lx := llm_externals_of (lx_channel_env demo_llm_externals) "i'm not sure" in
  let config := llm_config_of LocalOnly true true None in
  policy_scope_for_action (lx_channel_env lx) demo_args config = Ok "local:qwen" /\
  destinations (demo_journal lx config demo_lease demo_args (Some 0)) =
    [("local", "http://127.0.0.1:11434/v1/chat/completions", "qwen");
     ("remote", "https://api.example.com/v1/chat/completions", "big")].
Proof. split; vm_compute; reflexivity. Qed.

(** * Texts and caches *)

(** Cutting a prompt into chunks loses nothing and splits no character: the chunks make up
    the text again, and each is at most the configured size (256 bytes at least). *)
Theorem chunks_rebuild_the_prompt text chunk_bytes :
  utf8_text text = true ->
  String.concat "" (map cd_text (split_text_chunks text chunk_bytes)) = text /\
  Forall (fun d => 0 < len (cd_text d) <= Z.max chunk_bytes 256) (split_text_chunks text chunk_bytes).
Proof.
  intros Hu. unfold split_text_chunks. destruct text as [|c s]; [split; [done|constructor]|].
  apply (chunks_loop_text _ (String c s) _ 0 0); [done|lia|cbn; lia].
Qed.

Lemma chunks_rebuild_the_prompt_witness :
  String.concat "" (map cd_text (split_text_chunks "plain text" 0)) = "plain text" /\
  map cd_id (split_text_chunks "plain text" 0) = ["chunk-1"].
Proof. split; [exact (proj1 (chunks_rebuild_the_prompt "plain text" 0 eq_refl))|vm_compute; reflexivity]. Defined.

Definition u32_tokens (o : option Z) : Prop := forall n, o = Some n -> 0 <= n <= u32_max.

(** A completion that went through the shared cache comes back as it was. *)
Theorem cached_completion_roundtrip c :
  u32_tokens (cc_prompt_tokens c) -> u32_tokens (cc_completion_tokens c) -> u32_tokens (cc_total_tokens c) ->
  cached_of_json (json_of_cached c) = Some c.
Proof.
  assert (forall o, u32_tokens o -> opt_u32 (jopt (jint <$> o)) = Some o) as Ho.
  { intros [n|] Hn; [|done]. specialize (Hn n eq_refl). cbn -[Z.leb u32_max]. rewrite (proj2 (Z.leb_le n u32_max)) by lia. done. }
  intros Hp%Ho Hc%Ho Ht%Ho. destruct c as [text p k n]. cbn [cc_prompt_tokens cc_completion_tokens cc_total_tokens] in *.
  unfold cached_of_json, json_of_cached, opt_field.
  cbn [cc_response_text cc_prompt_tokens cc_completion_tokens cc_total_tokens].
  generalize dependent (jopt (jint <$> p)). generalize dependent (jopt (jint <$> k)). generalize dependent (jopt (jint <$> n)).
  intros jn Hn jk Hk jp Hp. lazy -[opt_u32]. by rewrite Hp, Hk, Hn.
Qed.

Lemma cached_completion_roundtrip_witness :
  cached_of_json (json_of_cached {| cc_response_text := "hi"; cc_prompt_tokens := Some 3; cc_completion_tokens := None;
    cc_total_tokens := Some u32_max |}) =
  Some {| cc_response_text := "hi"; cc_prompt_tokens := Some 3; cc_completion_tokens := None; cc_total_tokens := Some u32_max |}.
Proof. apply cached_completion_roundtrip; cbn; intros n; [intros [= <-]|intros [=]|intros [= <-]]; vm_compute; by split. Defined.

(** The text that is hashed into a cache key does not determine the request: a system
    text with the separators of the format hashes like another system text and prompt. *)
Theorem cache_keys_do_not_determine_the_request lx namespace route model max_tokens temperature :
  let key system prompt :=
    compute_cache_key lx namespace route model (build_messages (Some system) prompt) max_tokens temperature in
  key "be brief|user:yes" "no" = key "be brief" "yes|user:no".
Proof. reflexivity. Qed.
