(* ===== verification/LlmBudgetProps.v ===== *)
(** Theorems about what an [llm.infer] action may consume: the token budgets, the
    usage that is recorded, the admission counters. *)
From S2P Require Import Prelude RustStr Json Sql Runs RunQueue RunProps LlmTables Tables TriggerDispatch World Messages.
From S2P Require Import LlmText LlmPlan LlmGateway LlmExecutor LlmFrame LlmProps.

(** * Admission counters *)

Section counters.
Context {X : Type} (E : env) (lx : llm_externals) (config : LlmConfig).

Definition counted {A} (m : M X A) : Prop := forall w, counters (w_llm (m w).2) = counters (w_llm w).

Lemma counted_bind {A B} (m : M X A) (k : A -> M X B) : counted m -> (forall a, counted (k a)) -> counted (bind m k).
Proof.
  intros Hm Hk w. unfold bind. specialize (Hm w). destruct (m w) as [[a|e] w1]; [|done]. by rewrite (Hk a w1).
Qed.

Lemma counted_try {A B} (m : M X A) (k : result A error -> M X B) : counted m -> (forall r, counted (k r)) -> counted (try m k).
Proof. intros Hm Hk w. unfold try. specialize (Hm w). destruct (m w) as [r w1]. by rewrite (Hk r w1). Qed.

Lemma counted_stmt {A} (f : Z -> db -> result (db * A) db_error) log : counted (stmt E f log).
Proof.
  intros w. unfold stmt.
  repeat match goal with |- context [match ?x with _ => _ end] => destruct x; try reflexivity end.
Qed.

#[export] Instance counted_request : RequestRules E (fun A (m : M X A) => counted m).
Proof.
  split; intros; try done.
  - by apply counted_bind.
  - by apply counted_try.
  - intros w. unfold on_llm. specialize (H (w_llm w)). by destruct (f (w_llm w)).
  - apply counted_stmt.
Qed.

(** What is reserved while the guard is alive. *)
Definition reserved (release : AdmissionRelease) (c : Z * Z) : Z * Z :=
  match release with
  | ReleaseLocal Interactive => (c.1 + 1, c.2)
  | ReleaseLocal Batch => (c.1, c.2 + 1)
  | _ => c
  end.

Definition acquires (m : M X (AdmissionRelease * string)) : Prop := forall w,
  counters (w_llm (m w).2) = match (m w).1 with
                             | Ok (release, _) => reserved release (counters (w_llm w))
                             | Err _ => counters (w_llm w)
                             end.

Lemma acquires_bind {A} (m : M X A) k : counted m -> (forall a, acquires (k a)) -> acquires (bind m k).
Proof.
  intros Hm Hk w. unfold bind. specialize (Hm w). destruct (m w) as [[a|e] w1]; [|exact Hm].
  cbn in Hm. rewrite <- Hm. apply Hk.
Qed.

Lemma acquires_try {A} (m : M X A) k : counted m -> (forall r, acquires (k r)) -> acquires (try m k).
Proof.
  intros Hm Hk w. unfold try. specialize (Hm w). destruct (m w) as [r w1]. cbn in Hm. rewrite <- Hm. apply Hk.
Qed.

Lemma acquire_local_counters parsed status : acquires (acquire_local_admission config parsed status).
Proof.
  intros w. unfold acquire_local_admission, on_llm, bind, try_reserve_slot. destruct (_ <=? _); [done|]. cbn.
  unfold counters. cbn. destruct (ia_request_class parsed); cbn; f_equal; lia.
Qed.

Lemma acquire_counters parsed ns pg : acquires (acquire_admission E config parsed ns pg).
Proof.
  unfold acquire_admission. destruct (negb (lm_admission_enabled config)); [done|].
  destruct (_ && _); [|apply acquire_local_counters].
  destruct pg; [|destruct (negb _); [done|apply acquire_local_counters]].
  apply acquires_bind; [done|intros id]. apply acquires_try; [apply counted_stmt|].
  intros [[lease|]|e]; [done..|]. destruct (negb _); [done|apply acquire_local_counters].
Qed.

Lemma drop_counters release (w : world X) c : counters (w_llm w) = reserved release c ->
  counters (w_llm (drop_admission E release w).2) = c.
Proof.
  intros Hw. destruct release as [|class|lease]; cbn in *; [done| |].
  - unfold counters in *. cbn. destruct class, c; cbn in *; injection Hw as -> ->; f_equal; lia.
  - rewrite <- Hw. apply (counted_try (lstmt E _)); [apply counted_stmt|done].
Qed.

(** Whatever becomes of a call - answered, refused, failed at any point - the counters of
    the calls in flight are afterwards what they were before. *)
Theorem llm_infer_restores_the_counters args ns pg (w : world X) :
  counters (w_llm (execute_llm_infer E lx config args ns pg w).2) = counters (w_llm w).
Proof.
  revert w. unfold execute_llm_infer. apply counted_bind; [done|intros parsed]. intros w. unfold bind at 1.
  pose proof (acquire_counters parsed ns pg w) as Ha. destruct (acquire_admission E config parsed ns pg w) as [[[release status]|e] w1];
    [|exact Ha]. cbn in Ha. unfold bind at 1, guarded, try.
  match goal with |- context [bind (lift _) ?k w1] => assert (counted (bind (X := X) (lift (build_prompt_plan (lx_channel_env lx) parsed config)) k)) as Hm end.
  { apply counted_bind; [done|intros plan]. apply counted_bind; [|done].
    apply (controls_rule E lx config (fun A (m : M X A) => counted m)). }
  specialize (Hm w1). destruct (bind (lift _) _ w1) as [r w2]. cbn in Hm. rewrite Ha in Hm.
  apply drop_counters in Hm. unfold bind at 1. destruct (drop_admission E release w2) as [[[]|e] w3] eqn:Hd; cbn in Hm.
  - destruct r as [[plan outcome]|e]; exact Hm.
  - exact Hm.
Qed.
End counters.

(** * Budgets *)

(** A computation that leaves no trace. *)
Definition silent {X A} (m : M X A) : Prop := only (fun _ => False) m.

Lemma bind_Ok {X A B} (m : M X A) (k : A -> M X B) w w' b :
  bind m k w = (Ok b, w') -> exists a w1, m w = (Ok a, w1) /\ k a w1 = (Ok b, w').
Proof. unfold bind. destruct (m w) as [[a|e] w1]; [|done]. eauto. Qed.

Lemma silent_journal {X A} (m : M X A) w : silent m -> w_journal (m w).2 = w_journal w.
Proof. intros Hm. destruct (Hm w) as (j & Hj & HF). destruct j; [|by inv HF]. unfold appends in Hj. by rewrite Hj, app_nil_r. Qed.

(** What follows a silent computation, when anything is done at all. *)
Lemma appends_bind_silent {X A B} (m : M X A) (k : A -> M X B) w j :
  silent m -> appends (bind m k) w j -> j <> [] -> exists a w', m w = (Ok a, w') /\ appends (k a) w' j.
Proof.
  intros Hm Hj Hne. pose proof (silent_journal m w Hm) as Hw. unfold appends, bind in *.
  destruct (m w) as [[a|e] w']; cbn in *.
  - exists a, w'. by rewrite Hw.
  - rewrite Hw in Hj. destruct Hne. rewrite <- (app_nil_r (w_journal w)) in Hj at 1. by apply app_inv_head in Hj.
Qed.

Section budgets.
Context {X : Type} (E : env) (HE : quiet E) (lx : llm_externals) (config : LlmConfig).

(** What a shared budget has left for a call. *)
Definition within (lim : option Z) (sum : Z -> llm_tables -> result Z db_error) (since estimated : Z) (t : llm_tables) : Prop :=
  forall limit, lim = Some limit -> exists spent, sum since t = Ok spent /\ saturating_add (Z.max spent 0) estimated <= limit.

Lemma check_shared_Ok what lim estimated details sum since (w w' : world X) r :
  check_shared_budget E what lim estimated details sum since w = (Ok r, w') ->
  w_db w' = w_db w /\ within lim sum since estimated (d_llm (w_db w)).
Proof.
  unfold check_shared_budget, within. destruct lim as [lim|]; [|by intros [= _ <-]].
  unfold bind. destruct (db_sum E sum since w) as [[spent|e] w1] eqn:Hs; [|done].
  apply (stmt_quiet E HE) in Hs. destruct (sum since (d_llm (w_db w))) as [n|] eqn:Hn; [|done]. injection Hs as Hdb ->.
  destruct (_ <? _) eqn:Hb; [done|]. intros [= _ <-]. bool_hyps. split; [done|]. intros limit [= <-]. eauto.
Qed.

Definition budgets_allow (run : RunLeaseRecord) (scope : string) (estimated since : Z) (remaining : option Z)
    (t : llm_tables) : Prop :=
  let pool := env_pool E in
  (forall rest, remaining = Some rest -> estimated <= rest) /\
  within (lm_remote_token_budget_per_tenant config) (sum_llm_consumed_tokens_for_tenant_since_dual pool (l_tenant_id run))
    since estimated t /\
  within (lm_remote_token_budget_per_agent config)
    (sum_llm_consumed_tokens_for_agent_since_dual pool (l_tenant_id run) (l_agent_id run)) since estimated t /\
  within (lm_remote_token_budget_per_model config)
    (sum_llm_consumed_tokens_for_model_since_dual pool (l_tenant_id run) scope) since estimated t.

Lemma check_remote_Ok run scope estimated window since remaining (w w' : world X) b :
  check_remote_budgets E config run scope estimated window since remaining w = (Ok b, w') ->
  w_db w' = w_db w /\ lb_run b = remaining /\ budgets_allow run scope estimated since remaining (d_llm (w_db w)).
Proof.
  unfold check_remote_budgets. intros ([] & w1 & Hr & H)%bind_Ok. cbn in Hr.
  assert (w1 = w /\ forall rest, remaining = Some rest -> estimated <= rest) as [-> Hrest].
  { destruct remaining as [rest|]; [|by injection Hr as <-]. destruct (rest <? estimated) eqn:Hb; [done|]. bool_hyps.
    injection Hr as <-. split; [done|]. by intros ? [= <-]. }
  apply bind_Ok in H as (tenant & w1 & [H1 T1]%check_shared_Ok & H).
  apply bind_Ok in H as (agent & w2 & [H2 T2]%check_shared_Ok & H).
  apply bind_Ok in H as (model & w3 & [H3 T3]%check_shared_Ok & [= <- <-]).
  rewrite H2, H1 in T3. rewrite H1 in T2. by rewrite H3, H2, H1.
Qed.

Lemma check_remote_silent run scope estimated window since remaining :
  silent (check_remote_budgets (X := X) E config run scope estimated window since remaining).
Proof. unfold silent, check_remote_budgets, check_shared_budget, db_sum. repeat only_step. Qed.

(** C24: when nobody interferes, a call whose scope is remote sends nothing unless its estimate
    fits into what is left of the run's budget and, with what was spent in the window,
    into the budgets of the tenant, the agent and the model. *)
Theorem remote_calls_stay_within_the_budgets run id args remaining scope (w : world X) j :
  policy_scope_for_action (lx_channel_env lx) (effective_args run args) config = Ok scope ->
  starts_with "remote:" scope = true ->
  appends (execute_llm_infer_action E lx config run id args remaining) w j -> j <> [] ->
  exists since, seconds_before (env_clock E (w_tick w)) (Z.max (lm_remote_token_budget_window_secs config) 1) = Ok since /\
    budgets_allow run scope (default 512 (get "max_tokens" (effective_args run args) ≫= as_u64)) since remaining
      (d_llm (w_db w)).
Proof.
  intros Hs Hr Hj Hne. unfold execute_llm_infer_action in Hj. rewrite Hs in Hj.
  apply appends_bind_silent in Hj as (s & w0 & [= <- <-] & Hj); [|apply only_lift|done].
  apply appends_bind_silent in Hj as (now & w1 & [= <- <-] & Hj); [|apply only_ask|done].
  apply appends_bind_silent in Hj as (since & w2 & Hsince & Hj); [|apply only_lift|done].
  injection Hsince as Hsince <-. exists since. split; [exact Hsince|].
  rewrite Hr in Hj. apply appends_bind_silent in Hj as (b & w3 & Hb & _); [|apply check_remote_silent|done].
  by apply check_remote_Ok in Hb as (_ & _ & Hb).
Qed.
End budgets.

(** * What is recorded *)

(** The gateway leaves the usage rows alone. *)
#[export] Instance keeps_usage {X} E u : quiet E ->
  GatewayRules E (fun A (m : M X A) => keeps (fun d => lt_usage (d_llm d) = u) m).
Proof.
  intros HE. split; [split|..]; intros; auto with agnt.
  - by apply keeps_bind.
  - by apply keeps_try.
  - apply keeps_stmt; [by apply stable_quiet|]. intros now d d' a. unfold total.
    specialize (H now (d_llm d)). destruct (f now (d_llm d)) as [t b]. intros [= <- _] <-. exact H.
Qed.

Section recorded.
Context {X : Type} (E : env) (HE : quiet E) (lx : llm_externals) (config : LlmConfig).

Lemma create_usage_dual_row pool now n d d' r : create_llm_token_usage_record_dual pool now n d = Ok (d', r) ->
  lt_usage (d_llm d') = lt_usage (d_llm d) ++ [r] /\ lu_new r = n.
Proof.
  assert (forall now, create_llm_token_usage_record now n d = Ok (d', r) ->
    lt_usage (d_llm d') = lt_usage (d_llm d) ++ [r] /\ lu_new r = n) as H.
  { intros t. unfold create_llm_token_usage_record, require. destruct (_ && _); [|done]. destruct (negb _); [|done].
    destruct (_ && _); [|done]. by intros [= <- <-]. }
  destruct pool; apply H.
Qed.

(** What an answered call consumed: a remote answer adds exactly one row to the usage
    table, with the run, the request, the tenant, the agent and the tokens consumed, and
    takes those tokens from the budget of the run; a local one adds none and takes none. *)
Theorem llm_usage_is_recorded run id args remaining (w w' : world X) v ctx :
  execute_llm_infer_action E lx config run id args remaining w = (Ok (v, ctx), w') ->
  exists consumed rows, lt_usage (d_llm (w_db w')) = lt_usage (d_llm (w_db w)) ++ rows /\
    get2 "token_accounting" "consumed_tokens" v = Some (jint consumed) /\
    (get "route" v = Some (JStr "remote") /\
     (exists r, rows = [r] /\ nu_run_id (lu_new r) = l_id run /\ nu_action_request_id (lu_new r) = id /\
        nu_tenant_id (lu_new r) = l_tenant_id run /\ nu_agent_id (lu_new r) = l_agent_id run /\
        nu_route (lu_new r) = "remote" /\ nu_consumed_tokens (lu_new r) = as_i64 consumed /\
        Some (JStr (nu_model_key (lu_new r))) = (fun m => JStr ("remote:" +:+ m)) <$> (get "model" v ≫= as_str)) /\
     lc_remote_llm_tokens_remaining ctx = (fun rest => saturating_sub rest consumed) <$> remaining \/
     get "route" v = Some (JStr "local") /\ rows = [] /\ lc_remote_llm_tokens_remaining ctx = remaining).
Proof.
  unfold execute_llm_infer_action.
  intros (scope & w1 & [= Hs <-] & H)%bind_Ok. apply bind_Ok in H as (now & w2 & [= <- <-] & H).
  apply bind_Ok in H as (since & w3 & [= Hsince <-] & H).
  apply bind_Ok in H as (b & w4 & Hb & H).
  match type of Hb with _ ?w = _ => assert (w_db w4 = w_db w /\ lb_run b = remaining) as [Hdb Hrem] end.
  { destruct (starts_with "remote:" scope); [by apply (check_remote_Ok E HE) in Hb as (? & ? & _)|by injection Hb as <- <-]. }
  cbn in Hdb. clear Hb. apply bind_Ok in H as (result & w5 & Hi & H).
  assert (lt_usage (d_llm (w_db w5)) = lt_usage (d_llm (w_db w))) as Hu.
  { pose proof (infer_rule E lx config (fun A (m : M X A) => keeps (fun d => lt_usage (d_llm d) = lt_usage (d_llm (w_db w))) m)
      (GatewayRules0 := keeps_usage E _ HE)) as Hk.
    match type of Hi with execute_llm_infer _ _ _ ?a ?ns ?pg ?w0 = _ => specialize (Hk a ns pg w0); rewrite Hi in Hk end.
    apply Hk. by rewrite Hdb. }
  set (consumed := default _ (cc_total_tokens _)) in H. exists consumed.
  apply bind_Ok in H as ([] & w6 & Hrow & H). injection H as <- <- <-. destruct (li_route result).
  - injection Hrow as <-. exists []. rewrite app_nil_r. split_and!; [exact Hu|reflexivity|]. right. by split_and!.
  - apply bind_Ok in Hrow as (uid & w7 & [= <- <-] & Hrow). apply bind_Ok in Hrow as (r & w8 & Hrow & [= <-]).
    apply (stmt_quiet E HE), create_usage_dual_row in Hrow as [Hrow Hnew]. exists [r].
    cbn in Hrow. rewrite Hrow, Hu. split_and!; [done|reflexivity|]. left. split_and!; [reflexivity| |].
    + exists r. rewrite Hnew. by split_and!.
    + cbn. by rewrite Hrem.
Qed.
End recorded.

(** * A concrete history *)

(** The tenant spent 4000 of the 5000 tokens of the window. *)
Definition llm_db : db :=
  let d := with_core empty_db {| db_agents := [7]; db_users := []; db_runs := [demo_run 1 running (Some "w1") (Some 100)] |} in
  let d := with_action_requests d [{| aq_id := 5; aq_step_id := 3; aq_action_type := "llm.infer"; aq_args_json := demo_args;
             aq_justification := None; aq_status := "approved"; aq_decision_reason := None; aq_created_at := 0 |}] in
  with_llm d (with_usage no_llm_tables
    [{| lu_new := {| nu_id := 90; nu_run_id := 1; nu_action_request_id := 4; nu_tenant_id := "acme"; nu_agent_id := 7;
                     nu_route := "remote"; nu_model_key := "remote:big"; nu_consumed_tokens := 4000;
                     nu_estimated_cost_usd := None; nu_window_started_at := 0; nu_window_duration_seconds := 86400 |};
        lu_created_at := 0 |}]).

Definition llm_world : world unit :=
  {| w_db := llm_db; w_journal := []; w_tick := 0; w_ext := tt; w_routes := ∅; w_llm := no_llm |}.

Definition llm_call (args : json) (remaining : option Z) : result (json * LlmContext) error * world unit :=
  execute_llm_infer_action demo_env demo_llm_externals demo_llm_config demo_lease 5 args remaining llm_world.

Lemma demo_env_quiet : quiet demo_env.
Proof. by split_and!. Qed.

(** The estimate of 512 tokens still fits, one of 1001 does not: nothing is sent. *)
Lemma remote_calls_stay_within_the_budgets_witness :
  destinations (w_journal (llm_call demo_remote_args (Some 1000)).2) =
    [("remote", "https://api.example.com/v1/chat/completions", "big")] /\
  destinations (w_journal (llm_call (insert_missing "max_tokens" None (JObj (map_insert "max_tokens" (JNum (PosInt 1001))
    (match demo_remote_args with JObj m => m | _ => [] end)))) (Some 5000)).2) = [] /\
  exists since, seconds_before 0 86400 = Ok since /\
    budgets_allow demo_env demo_llm_config demo_lease "remote:big" 512 since (Some 1000) (d_llm llm_db).
Proof.
  split; [vm_compute; reflexivity|]. split; [vm_compute; reflexivity|].
  apply (remote_calls_stay_within_the_budgets demo_env demo_env_quiet demo_llm_externals demo_llm_config demo_lease 5
    demo_remote_args (Some 1000) "remote:big" llm_world (w_journal (llm_call demo_remote_args (Some 1000)).2)).
  - vm_compute. reflexivity.
  - reflexivity.
  - vm_compute. reflexivity.
  - vm_compute. discriminate.
Defined.

Lemma llm_usage_is_recorded_witness :
  match execute_llm_infer_action demo_env demo_llm_externals demo_llm_config demo_lease 5 demo_remote_args (Some 1000) llm_world with
  | (Ok (v, ctx), w') =>
      lc_remote_llm_tokens_remaining ctx = Some 970 /\
      exists consumed rows, lt_usage (d_llm (w_db w')) = lt_usage (d_llm (w_db llm_world)) ++ rows /\
        get2 "token_accounting" "consumed_tokens" v = Some (jint consumed)
  | _ => False
  end.
Proof.
  assert (match (execute_llm_infer_action demo_env demo_llm_externals demo_llm_config demo_lease 5 demo_remote_args (Some 1000) llm_world).1 with
          | Ok (_, ctx) => lc_remote_llm_tokens_remaining ctx | Err _ => None end = Some 970) as Hc by (vm_compute; reflexivity).
  destruct (execute_llm_infer_action _ _ _ _ _ _ _ llm_world) as [[[v ctx]|e] w'] eqn:H; [|discriminate Hc].
  split; [exact Hc|].
  destruct (llm_usage_is_recorded demo_env demo_env_quiet demo_llm_externals demo_llm_config demo_lease 5 demo_remote_args
    (Some 1000) llm_world w' v ctx H) as (consumed & rows & H1 & H2 & _).
  exists consumed, rows. split; [exact H1|exact H2].
Defined.
