(* ===== verification/Payments.v ===== *)
(** The payment executor of the worker (worker/src/lib.rs,
    [execute_payment_send_action] and what it calls): the request row and its
    idempotency key, approval, budgets, the NWC and Cashu rails with their routes,
    and the record of the outcome.  The wallet connection (nip47_wallet.rs), the
    HTTP client and the URL parser are arguments of the model. *)
From stdpp Require Import pretty.
From S2P Require Import Prelude RustStr Json Redaction Sql Runs RunQueue Siem TriggerTables LlmTables MemoryTables Tables PaymentTables.
From S2P Require Import PaymentRoutes Action Paths World Messages.

(** [build_nwc_request]: the requests of NIP-47 that the executor builds. *)
Inductive NwcRequest :=
| PayInvoiceRequest (invoice : string) (amount : option Z)
| MakeInvoiceRequest (amount : Z) (description : option string)
| GetBalanceRequest.

(** [NwcRequestOutcome], with what the three conversions of its response give:
    preimage and fees; invoice, payment hash and amount; balance. *)
Record NwcOutcome := {
  no_relay : string; no_request_event_id : string; no_response_event_id : string;
  no_pay_invoice : result (string * option Z) string;
  no_make_invoice : result (string * json * option Z) string;
  no_get_balance : result Z string;
}.

Record CashuHttpRequest := {
  ch_post : bool; ch_endpoint : string; ch_mint_id : string; ch_auth : option (string * string);
  ch_body : option json; ch_timeout : Z;
}.

Record Url := { url_scheme : string; url_join : string -> result string string }.

Record payment_externals := {
  pe_route_hash : string -> string -> Z;
  pe_send_nwc : nat -> string -> NwcRequest -> Z -> result NwcOutcome string;
  (** status and body, whose reading can fail too *)
  pe_http : nat -> CashuHttpRequest -> result (Z * result string string) string;
  pe_parse_url : string -> result Url string;
  pe_from_str : string -> option json;
  pe_to_string : json -> string;
  pe_to_vec_pretty : json -> string;
  pe_simple : Uuid -> string;
}.

(** * The arguments of the action *)

Record PaymentCall := {
  pl_destination : string;
  pl_parsed : ParsedPaymentDestination;
  pl_operation : PaymentOperation;
  pl_idempotency_key : string;
  pl_amount_msat : option Z;
  pl_payment_approved : bool;
  pl_args : json;
}.

Definition parse_payment_call (args : json) : result PaymentCall error :=
  let? destination := required_str args "destination" "payment.send args.destination is required" in
  let? parsed := anyhow (ParsedPaymentDestination_parse destination) in
  let? operation_raw := required_str args "operation" "payment.send args.operation is required" in
  let? operation := anyhow (PaymentOperation_parse operation_raw) in
  let? idempotency_key := ok_or (get_str "idempotency_key" args ≫= non_empty_trimmed)
    (Anyhow "payment.send args.idempotency_key is required") in
  let amount_msat := get "amount_msat" args ≫= as_u64 in
  if requires_amount operation && match amount_msat with None => true | Some _ => false end
  then Err (Anyhow ("payment.send args.amount_msat is required for " +:+
                    PaymentOperation_as_str operation))
  else Ok {| pl_destination := destination; pl_parsed := parsed; pl_operation := operation;
             pl_idempotency_key := idempotency_key; pl_amount_msat := amount_msat;
             pl_payment_approved := default false (get "payment_approved" args ≫= as_bool);
             pl_args := args |}.

(** [value as i64] *)
Definition as_i64_cast (n : Z) : Z := if n <=? i64_max then n else n - u64_modulus.

Definition saturating_add_u64 (a b : Z) : Z := Z.min u64_max (a + b).
Definition saturating_sub_u64 (a b : Z) : Z := Z.max 0 (a - b).

Definition request_payload (c : PaymentCall) : json :=
  jobject
    [("destination", JStr (pl_destination c));
     ("operation", JStr (PaymentOperation_as_str (pl_operation c)));
     ("idempotency_key", JStr (pl_idempotency_key c));
     ("amount_msat", jopt (jint <$> pl_amount_msat c));
     ("payment_approved", JBool (pl_payment_approved c));
     ("invoice", jopt (get "invoice" (pl_args c)));
     ("description", jopt (get "description" (pl_args c)))].

Definition invoice_arg (args : json) : result string string :=
  ok_or (get_str "invoice" args ≫= non_empty_trimmed)
    "payment.send args.invoice is required for pay_invoice".

Definition build_nwc_request (operation : PaymentOperation) (args : json) (amount_msat : option Z)
    : result NwcRequest string :=
  match operation with
  | PayInvoice => let? invoice := invoice_arg args in Ok (PayInvoiceRequest invoice amount_msat)
  | MakeInvoice =>
      let? amount := ok_or amount_msat "payment.send args.amount_msat is required for make_invoice" in
      Ok (MakeInvoiceRequest amount (get_str "description" args ≫= non_empty_trimmed))
  | GetBalance => Ok GetBalanceRequest
  end.

(** * Fields of an HTTP answer *)

Definition extract_string_field (payload : json) (keys : list string) : option string :=
  head (omap (fun key => get_str key payload ≫= non_empty_trimmed) keys).

Definition u64_of_json (value : json) : option Z :=
  match as_u64 value with
  | Some n => Some n
  | None =>
      match match as_i64 value with
            | Some signed => if 0 <=? signed then Some signed else None
            | None => None
            end with
      | Some n => Some n
      | None =>
          match as_str value ≫= non_empty_trimmed with
          | Some raw => parse_u64 raw
          | None => None
          end
      end
  end.

Definition extract_u64_field (payload : json) (keys : list string) : option Z :=
  head (omap (fun key => get key payload ≫= u64_of_json) keys).

(** * Trying the routes *)

Record RouteAttempts (A : Type) := {
  ra_outcome : option A; ra_selected : option Z; ra_attempted : Z; ra_skipped : Z;
  ra_errors : list string;
}.
Arguments ra_outcome {A}. Arguments ra_selected {A}. Arguments ra_attempted {A}.
Arguments ra_skipped {A}. Arguments ra_errors {A}.

Definition no_attempts {A} : RouteAttempts A :=
  {| ra_outcome := None; ra_selected := None; ra_attempted := 0; ra_skipped := 0; ra_errors := [] |}.

(** The message when no route answered. *)
Definition routes_failed_message (rail : string) {A} (r : RouteAttempts A) : string :=
  match ra_errors r with
  | [] => if 0 <? ra_skipped r
          then rail +:+ " all candidate routes are temporarily unhealthy (skipped=" +:+
               pretty (ra_skipped r) +:+ ")"
          else ""
  | errors => if 0 <? ra_skipped r
              then join " | " errors +:+ " | skipped_unhealthy_routes=" +:+ pretty (ra_skipped r)
              else join " | " errors
  end.

Definition route_meta (strategy : PaymentNwcRouteStrategy) (fallback : bool) (rollout threshold cooldown : Z)
    (routes : ResolvedRoutes) {A} (r : RouteAttempts A) : json :=
  jobject
    [("strategy", JStr (PaymentNwcRouteStrategy_as_str strategy)); ("fallback_enabled", JBool fallback);
     ("rollout_percent", jint rollout); ("rollout_limited", JBool (rollout_limited routes));
     ("candidate_count", jint (Z.of_nat (length (candidates routes))));
     ("attempted_count", jint (ra_attempted r)); ("skipped_unhealthy_count", jint (ra_skipped r));
     ("selected_route_index", jopt (jint <$> ra_selected r));
     ("error_count", jint (Z.of_nat (length (ra_errors r))));
     ("health_fail_threshold", jint threshold); ("health_cooldown_secs", jint (cooldown / 1000000));
     ("errors", JArr (map JStr (ra_errors r)))].

Section payments.
Context {X : Type}.
Context (E : env) (pe : payment_externals) (pc : PaymentConfig) (worker_id artifact_root : string).

(** * Database calls *)

Definition db_create_or_get_payment_request (n : NewPaymentRequest) : M X PaymentRequestRecord :=
  stmt E (fun now => create_or_get_payment_request_dual (env_pool E) now n) (fun _ => []).

Definition db_create_payment_result (n : NewPaymentResult) : M X PaymentResultRecord :=
  stmt E (fun now => create_payment_result_dual (env_pool E) now n) (fun _ => []).

Definition db_get_latest_payment_result (id : Uuid) : M X (option PaymentResultRecord) :=
  stmt E (total (fun _ d => (d, get_latest_payment_result_dual (env_pool E) id d))) (fun _ => []).

Definition db_update_payment_request_status (id : Uuid) (status : string) : M X bool :=
  stmt E (total (fun now => update_payment_request_status_dual (env_pool E) now id status))
    (fun _ => []).

Definition db_sum_for_tenant (tenant_id : string) : M X Z :=
  stmt E (fun _ d => let? total := sum_executed_payment_amount_msat_for_tenant_dual (env_pool E) tenant_id d
                     in Ok (d, total)) (fun _ => []).

Definition db_sum_for_agent (tenant_id : string) (agent_id : Uuid) : M X Z :=
  stmt E (fun _ d => let? total := sum_executed_payment_amount_msat_for_agent_dual (env_pool E) tenant_id
                                    agent_id d in Ok (d, total)) (fun _ => []).

(** [let _ = call.await;] *)
Definition ignore {A} (m : M X A) : M X unit := try m (fun _ => ret tt).

Definition new_result (id request : Uuid) (status : string) (res err : option json) : NewPaymentResult :=
  {| ny_id := id; ny_payment_request_id := request; ny_status := status; ny_result_json := res;
     ny_error_json := err |}.

Definition persist_failed_payment_request (request : Uuid) (code message : string) : M X unit :=
  let! id := new_v4 E in
  let! _ := ignore (db_create_payment_result (new_result id request "failed" None
              (Some (jobject [("code", JStr code); ("message", JStr message)])))) in
  ignore (db_update_payment_request_status request "failed").

(** Persist the failure, then [return Err(anyhow!(message))]. *)
Definition refuse {A} (request : Uuid) (code message : string) : M X A :=
  let! _ := persist_failed_payment_request request code message in throw (Anyhow message).

(** * Approval and budgets *)

Definition check_approval (c : PaymentCall) (request : Uuid) : M X unit :=
  match pc_approval_threshold_msat pc, pl_amount_msat c with
  | Some threshold, Some amount =>
      if (threshold <=? amount) && negb (pl_payment_approved c)
      then refuse request "PAYMENT_APPROVAL_REQUIRED"
             ("payment.send requires approval for amount " +:+ pretty amount +:+ " msat (threshold=" +:+
              pretty threshold +:+ ")")
      else ret tt
  | _, _ => ret tt
  end.

(** [spent.saturating_add(amount) > limit], for one of the three budgets. *)
Definition check_budget (what code : string) (lim amount : option Z) (spent : M X Z) (request : Uuid)
    : M X unit :=
  match lim, amount with
  | Some lim, Some amount =>
      let! spent := spent in
      if lim <? saturating_add_u64 spent amount
      then refuse request code
             ("payment.send " +:+ what +:+ " spend budget exceeded (remaining=" +:+
              pretty (saturating_sub_u64 lim spent) +:+ ", requested=" +:+ pretty amount +:+ ")")
      else ret tt
  | _, _ => ret tt
  end.

Definition check_limits (run : RunLeaseRecord) (c : PaymentCall) (request : Uuid) (spend : Z) : M X unit :=
  match pl_operation c with
  | PayInvoice =>
      let! _ := check_approval c request in
      let! _ := check_budget "run" "PAYMENT_RUN_BUDGET_EXCEEDED" (pc_max_spend_msat_per_run pc)
                  (pl_amount_msat c) (ret spend) request in
      let! _ := check_budget "tenant" "PAYMENT_TENANT_BUDGET_EXCEEDED" (pc_max_spend_msat_per_tenant pc)
                  (pl_amount_msat c)
                  (let! total := db_sum_for_tenant (l_tenant_id run) in ret (Z.max total 0)) request in
      check_budget "agent" "PAYMENT_AGENT_BUDGET_EXCEEDED" (pc_max_spend_msat_per_agent pc)
        (pl_amount_msat c)
        (let! total := db_sum_for_agent (l_tenant_id run) (l_agent_id run) in ret (Z.max total 0)) request
  | _ => ret tt
  end.

(** * Routes *)

(** The loop over the candidates, which both rails write out. *)
Fixpoint try_routes {A} (ns target : string) (fail_threshold cooldown : Z) (fallback : bool)
    (send : string -> M X (result A string)) (routes : list string) (index : Z)
    (st : RouteAttempts A) : M X (RouteAttempts A) :=
  match routes with
  | [] => ret st
  | uri :: rest =>
      let key := payment_route_health_key worker_id ns target uri in
      let! go := on_routes E (fun now => should_attempt_payment_route key fail_threshold cooldown now) in
      if negb go then
        try_routes ns target fail_threshold cooldown fallback send rest (index + 1)
          {| ra_outcome := ra_outcome st; ra_selected := ra_selected st;
             ra_attempted := ra_attempted st; ra_skipped := ra_skipped st + 1;
             ra_errors := ra_errors st |}
      else
        let! answer := send uri in
        match answer with
        | Ok outcome =>
            let! _ := on_routes E (fun _ h => (mark_payment_route_success key fail_threshold h, tt)) in
            ret {| ra_outcome := Some outcome; ra_selected := Some (index + 1);
                   ra_attempted := ra_attempted st + 1; ra_skipped := ra_skipped st;
                   ra_errors := ra_errors st |}
        | Err error =>
            let! _ := on_routes E (fun now h =>
                        (mark_payment_route_failure key fail_threshold cooldown now h, tt)) in
            let st := {| ra_outcome := None; ra_selected := ra_selected st;
                         ra_attempted := ra_attempted st + 1; ra_skipped := ra_skipped st;
                         ra_errors := ra_errors st ++ ["route " +:+ pretty (index + 1) +:+ ": " +:+ error] |} in
            if fallback
            then try_routes ns target fail_threshold cooldown fallback send rest (index + 1) st
            else ret st
        end
  end.

Definition submission (c : PaymentCall) (request : Uuid) (uri : string) : payment_submission :=
  {| ps_provider := PaymentProvider_as_str (pd_provider (pl_parsed c));
     ps_target := pd_target (pl_parsed c); ps_route := uri;
     ps_operation := PaymentOperation_as_str (pl_operation c); ps_amount_msat := pl_amount_msat c;
     ps_request_id := request |}.

(** * The NWC rail *)

Definition send_nwc_request (c : PaymentCall) (request : Uuid) (nwc : NwcRequest) (uri : string)
    : M X (result NwcOutcome string) :=
  let! _ := note (PaymentSubmitted (submission c request uri)) in
  ask (fun t => pe_send_nwc pe t uri nwc (pc_nwc_timeout pc)).

Definition nwc_routes (c : PaymentCall) (request : Uuid) (nwc : NwcRequest) (routes : list string)
    : M X (RouteAttempts NwcOutcome) :=
  try_routes "nwc" (pd_target (pl_parsed c)) (pc_nwc_route_health_fail_threshold pc)
    (pc_nwc_route_health_cooldown pc) (pc_nwc_route_fallback_enabled pc)
    (send_nwc_request c request nwc) routes 0 no_attempts.

(** The conversion of the response, or [PAYMENT_NWC_RESPONSE_ERROR]. *)
Definition nwc_response {A} (request : Uuid) (r : result A string) : M X A :=
  match r with
  | Ok a => ret a
  | Err message => refuse request "PAYMENT_NWC_RESPONSE_ERROR" message
  end.

Definition nwc_output (c : PaymentCall) (request : Uuid) (o : NwcOutcome) (meta : json) : M X json :=
  let wallet := ("wallet", JStr (pd_target (pl_parsed c))) in
  let rail := ("rail", JStr "nwc_nip47") in
  let nwc := ("nwc", jobject
    [("relay", JStr (no_relay o)); ("request_event_id", JStr (no_request_event_id o));
     ("response_event_id", JStr (no_response_event_id o)); ("route", meta)]) in
  let amount := default 0 (pl_amount_msat c) in
  match pl_operation c with
  | PayInvoice =>
      let! (preimage, fees_paid) := nwc_response request (no_pay_invoice o) in
      ret (jobject [("settlement_status", JStr "settled"); ("payment_preimage", JStr preimage);
                    ("amount_msat", jint amount); ("fee_msat", jint (default 0 fees_paid));
                    wallet; rail; nwc])
  | MakeInvoice =>
      let! (invoice, payment_hash, invoice_amount) := nwc_response request (no_make_invoice o) in
      ret (jobject [("invoice", JStr invoice); ("payment_hash", payment_hash);
                    ("amount_msat", jint (default amount invoice_amount)); wallet; rail; nwc])
  | GetBalance =>
      let! balance := nwc_response request (no_get_balance o) in
      ret (jobject [("balance_msat", jint balance); wallet; rail; nwc])
  end.

Definition nwc_mock_output (c : PaymentCall) (request : Uuid) : json :=
  let wallet := ("wallet", JStr (pd_target (pl_parsed c))) in
  let rail := ("rail", JStr "nwc_mock") in
  let amount := default 0 (pl_amount_msat c) in
  match pl_operation c with
  | PayInvoice =>
      jobject [("settlement_status", JStr "settled");
               ("payment_hash", JStr ("mock-hash-" +:+ env_uuid_text E request));
               ("payment_preimage", JStr ("mock-preimage-" +:+ env_uuid_text E request));
               ("amount_msat", jint amount); ("fee_msat", jint 0); wallet; rail]
  | MakeInvoice =>
      jobject [("invoice", JStr ("lnbc" +:+ pretty amount +:+ "n1pmock" +:+ pe_simple pe request));
               ("amount_msat", jint amount); wallet; rail]
  | GetBalance => jobject [("balance_msat", jint (pc_nwc_mock_balance_msat pc)); wallet; rail]
  end.

Definition execute_nwc_payment (c : PaymentCall) (request : Uuid) : M X json :=
  let target := pd_target (pl_parsed c) in
  if negb (pc_nwc_enabled pc)
  then refuse request "PAYMENT_DISABLED" "payment.send is disabled; set PAYMENT_NWC_ENABLED=1"
  else if contains "nostr+walletconnect://" target
  then refuse request "PAYMENT_INVALID_DESTINATION"
         "payment.send destination target must be a logical wallet id; configure PAYMENT_NWC_URI/PAYMENT_NWC_URI_REF for credentials"
  else
    let resolved := resolve_nwc_uris_for_wallet (pe_route_hash pe) pc target (pl_idempotency_key c) in
    match candidates resolved with
    | [] =>
        if bool_decide (pc_nwc_wallet_uris pc = ∅) then ret (nwc_mock_output c request)
        else refuse request "PAYMENT_WALLET_NOT_CONFIGURED"
               ("payment wallet `" +:+ target +:+
                "` is not configured; set PAYMENT_NWC_WALLET_URIS/PAYMENT_NWC_WALLET_URIS_REF (or wildcard `*`)")
    | routes =>
        let! nwc := lift (anyhow (build_nwc_request (pl_operation c) (pl_args c) (pl_amount_msat c))) in
        let! attempts := nwc_routes c request nwc routes in
        match ra_outcome attempts with
        | None => refuse request "PAYMENT_NWC_REQUEST_FAILED" (routes_failed_message "payment.send" attempts)
        | Some outcome =>
            nwc_output c request outcome
              (route_meta (pc_nwc_route_strategy pc) (pc_nwc_route_fallback_enabled pc)
                 (pc_nwc_route_rollout_percent pc) (pc_nwc_route_health_fail_threshold pc)
                 (pc_nwc_route_health_cooldown pc) resolved attempts)
        end
    end.

(** * The Cashu rail *)

Definition build_cashu_endpoint_url (mint_uri endpoint_path : string) : result string string :=
  let normalized_base := match strip_suffix "/" mint_uri with
                         | Some _ => mint_uri
                         | None => mint_uri +:+ "/"
                         end in
  match pe_parse_url pe normalized_base with
  | Err e => Err ("invalid Cashu mint URI `" +:+ mint_uri +:+ "`: " +:+ e)
  | Ok base_url =>
      let? _ :=
        if String.eqb (url_scheme base_url) "https" then Ok tt
        else if String.eqb (url_scheme base_url) "http" then
          if pc_cashu_http_allow_insecure pc then Ok tt
          else Err ("Cashu mint URI `" +:+ mint_uri +:+
                    "` is insecure; set PAYMENT_CASHU_HTTP_ALLOW_INSECURE=1 only for local/dev usage")
        else Err ("Cashu mint URI `" +:+ mint_uri +:+ "` uses unsupported scheme `" +:+
                  url_scheme base_url +:+
                  "` (expected https, or http when PAYMENT_CASHU_HTTP_ALLOW_INSECURE=1)") in
      map_err (fun e => "failed joining endpoint `" +:+ endpoint_path +:+ "` to `" +:+ mint_uri +:+
                        "`: " +:+ e) (url_join base_url endpoint_path)
  end.

Definition cashu_endpoint (o : PaymentOperation) : string :=
  match o with
  | PayInvoice => "v1/pay_invoice" | MakeInvoice => "v1/make_invoice" | GetBalance => "v1/balance"
  end.

Definition cashu_body (c : PaymentCall) (request : Uuid) : result (option json) string :=
  let operation := ("operation", JStr (PaymentOperation_as_str (pl_operation c))) in
  let amount := ("amount_msat", jint (default 0 (pl_amount_msat c))) in
  let key := ("idempotency_key", JStr (env_uuid_text E request)) in
  let mint := ("mint_id", JStr (pd_target (pl_parsed c))) in
  match pl_operation c with
  | PayInvoice =>
      let? invoice := invoice_arg (pl_args c) in
      Ok (Some (jobject [operation; ("invoice", JStr invoice); amount; key; mint]))
  | MakeInvoice =>
      Ok (Some (jobject [operation; amount; ("description", jopt (get "description" (pl_args c)));
                         key; mint]))
  | GetBalance => Ok None
  end.

Definition cashu_result (c : PaymentCall) (upstream : json) : result json string :=
  let amount := default 0 (pl_amount_msat c) in
  match pl_operation c with
  | PayInvoice =>
      Ok (jobject
        [("settlement_status",
           JStr (default "settled" (extract_string_field upstream ["settlement_status"; "status"])));
         ("payment_hash", jstr_opt (extract_string_field upstream ["payment_hash"; "hash"]));
         ("payment_preimage", jstr_opt (extract_string_field upstream ["payment_preimage"; "preimage"]));
         ("amount_msat", jint amount);
         ("fee_msat", jint (default 0 (extract_u64_field upstream ["fee_msat"; "fees_paid"])))])
  | MakeInvoice =>
      let? invoice := ok_or (extract_string_field upstream ["invoice"; "bolt11"])
        "cashu HTTP make_invoice response missing invoice" in
      Ok (jobject
        [("invoice", JStr invoice);
         ("payment_hash", jstr_opt (extract_string_field upstream ["payment_hash"; "hash"]));
         ("amount_msat", jint (match extract_u64_field upstream ["amount_msat"; "amount"] with
                               | Some n => n
                               | None => amount
                               end))])
  | GetBalance =>
      let? balance := ok_or (extract_u64_field upstream ["balance_msat"; "balance"])
        "cashu HTTP get_balance response missing balance" in
      Ok (jobject [("balance_msat", jint balance)])
  end.

(** The answer of the mint. *)
Definition cashu_answer (c : PaymentCall) (mint_uri : string)
    (r : result (Z * result string string) string) : result json string :=
  match r with
  | Err e => Err ("cashu HTTP request failed: " +:+ e)
  | Ok (_, Err e) => Err ("failed reading cashu HTTP response body: " +:+ e)
  | Ok (http_status, Ok response_text) =>
      if negb ((200 <=? http_status) && (http_status <=? 299))
      then Err ("cashu HTTP request failed: status=" +:+ pretty http_status +:+ " body=" +:+
                take_chars 512 response_text)
      else
        let upstream := default (jobject [("raw_body", JStr response_text)])
                          (pe_from_str pe response_text) in
        let? normalized := cashu_result c upstream in
        Ok (jobject
          [("rail", JStr "cashu_http"); ("mint_id", JStr (pd_target (pl_parsed c)));
           ("mint_uri", JStr mint_uri);
           ("operation", JStr (PaymentOperation_as_str (pl_operation c)));
           ("amount_msat", jopt (jint <$> pl_amount_msat c)); ("http_status", jint http_status);
           ("upstream", upstream); ("result", normalized)])
  end.

Definition cashu_request (c : PaymentCall) (request : Uuid) (mint_uri : string)
    : result CashuHttpRequest string :=
  let? endpoint := build_cashu_endpoint_url mint_uri (cashu_endpoint (pl_operation c)) in
  let? body := cashu_body c request in
  Ok {| ch_post := match pl_operation c with GetBalance => false | _ => true end;
        ch_endpoint := endpoint; ch_mint_id := pd_target (pl_parsed c);
        ch_auth := (fun v => (pc_cashu_auth_header pc, v)) <$>
                   optional_auth_header (pc_cashu_auth_header pc) (pc_cashu_auth_token pc);
        ch_body := body; ch_timeout := pc_cashu_timeout pc |}.

Definition execute_cashu_payment_http (c : PaymentCall) (request : Uuid) (mint_uri : string)
    : M X (result json string) :=
  match cashu_request c request mint_uri with
  | Err e => ret (Err e)
  | Ok http =>
      let! _ := note (PaymentSubmitted (submission c request mint_uri)) in
      let! answer := ask (fun t => pe_http pe t http) in
      ret (cashu_answer c mint_uri answer)
  end.

Definition cashu_routes (c : PaymentCall) (request : Uuid) (routes : list string)
    : M X (RouteAttempts json) :=
  try_routes "cashu" (pd_target (pl_parsed c)) (pc_cashu_route_health_fail_threshold pc)
    (pc_cashu_route_health_cooldown pc) (pc_cashu_route_fallback_enabled pc)
    (execute_cashu_payment_http c request) routes 0 no_attempts.

Definition cashu_route_meta (resolved : ResolvedRoutes) (attempts : RouteAttempts json) : json :=
  route_meta (pc_cashu_route_strategy pc) (pc_cashu_route_fallback_enabled pc)
    (pc_cashu_route_rollout_percent pc) (pc_cashu_route_health_fail_threshold pc)
    (pc_cashu_route_health_cooldown pc) resolved attempts.

(** The closure's arguments when nothing is sent. *)
Definition first_route (attempted : Z) : RouteAttempts json :=
  {| ra_outcome := None; ra_selected := Some 1; ra_attempted := attempted; ra_skipped := 0;
     ra_errors := [] |}.

Definition cashu_mock_output (c : PaymentCall) (request : Uuid) (mint_uri : string)
    (resolved : ResolvedRoutes) : json :=
  let tail := [("mint_id", JStr (pd_target (pl_parsed c))); ("mint_uri", JStr mint_uri);
               ("rail", JStr "cashu_mock"); ("route", cashu_route_meta resolved (first_route 1));
               ("mock_mode", JBool true)] in
  let amount := default 0 (pl_amount_msat c) in
  jobject
    (match pl_operation c with
     | PayInvoice =>
         [("settlement_status", JStr "settled");
          ("payment_hash", JStr ("cashu-mock-hash-" +:+ pe_simple pe request));
          ("payment_preimage", JStr ("cashu-mock-preimage-" +:+ pe_simple pe request));
          ("amount_msat", jint amount); ("fee_msat", jint 0)]
     | MakeInvoice =>
         [("invoice", JStr ("cashu-invoice-" +:+ pe_simple pe request)); ("amount_msat", jint amount)]
     | GetBalance => [("balance_msat", jint (pc_cashu_mock_balance_msat pc))]
     end ++ tail).

Definition cashu_disabled_details (c : PaymentCall) (mint_uri : string) (resolved : ResolvedRoutes)
    : json :=
  jobject
    [("provider", JStr (PaymentProvider_as_str (pd_provider (pl_parsed c))));
     ("rail", JStr "cashu_http"); ("mint_id", JStr (pd_target (pl_parsed c)));
     ("mint_uri", JStr mint_uri); ("operation", JStr (PaymentOperation_as_str (pl_operation c)));
     ("amount_msat", jopt (jint <$> pl_amount_msat c));
     ("timeout_ms", jint (pc_cashu_timeout pc / 1000));
     ("route", cashu_route_meta resolved (first_route 0))].

(** The live transport. *)
Definition cashu_transport (c : PaymentCall) (request : Uuid) (resolved : ResolvedRoutes) : M X json :=
  let! attempts := cashu_routes c request (candidates resolved) in
  match ra_outcome attempts with
  | None => refuse request "PAYMENT_CASHU_HTTP_FAILED"
              (redact_text (routes_failed_message "cashu payment" attempts))
  | Some (JObj m) => ret (JObj (map_insert "route" (cashu_route_meta resolved attempts) m))
  | Some other => ret other
  end.

Definition cashu_over_limit (c : PaymentCall) : option (Z * Z) :=
  match pc_cashu_max_spend_msat_per_run pc, pl_amount_msat c with
  | Some lim, Some amount => if lim <? amount then Some (lim, amount) else None
  | _, _ => None
  end.

Definition execute_cashu_payment_scaffold (c : PaymentCall) (request : Uuid) : M X json :=
  let target := pd_target (pl_parsed c) in
  if negb (pc_cashu_enabled pc)
  then refuse request "PAYMENT_CASHU_DISABLED"
         "cashu rail is disabled; set PAYMENT_CASHU_ENABLED=1 to enable scaffold"
  else match cashu_over_limit c with
  | Some (lim, amount) =>
      refuse request "PAYMENT_CASHU_RUN_BUDGET_EXCEEDED"
        ("cashu scaffold run spend budget exceeded (limit=" +:+ pretty lim +:+ ", requested=" +:+
         pretty amount +:+ ")")
  | None =>
      if bool_decide (pc_cashu_mint_uris pc = ∅)
      then refuse request "PAYMENT_CASHU_MINTS_NOT_CONFIGURED"
             "cashu scaffold requires mint routing; set PAYMENT_CASHU_MINT_URIS/PAYMENT_CASHU_MINT_URIS_REF"
      else
        let resolved := resolve_cashu_mint_uris (pe_route_hash pe) pc target (pl_idempotency_key c) in
        match candidates resolved with
        | [] =>
            refuse request "PAYMENT_CASHU_MINT_NOT_CONFIGURED"
              ("cashu mint `" +:+ target +:+ "` is not configured; set PAYMENT_CASHU_MINT_URIS/PAYMENT_CASHU_MINT_URIS_REF or PAYMENT_CASHU_DEFAULT_MINT")
        | mint_uri :: _ =>
            if pc_cashu_mock_enabled pc then ret (cashu_mock_output c request mint_uri resolved)
            else if negb (pc_cashu_http_enabled pc) then
              let message := "cashu rail live transport is disabled; set PAYMENT_CASHU_HTTP_ENABLED=1 (operation=" +:+
                PaymentOperation_as_str (pl_operation c) +:+ ", mint=" +:+ target +:+ ")" in
              let! _ := persist_failed_payment_request request "PAYMENT_CASHU_HTTP_DISABLED" message in
              throw (Anyhow (message +:+ " (" +:+
                             pe_to_string pe (cashu_disabled_details c mint_uri resolved) +:+ ")"))
            else cashu_transport c request resolved
        end
  end.

(** * The executor *)

Definition payment_outbox_path (p : PaymentProvider) (id : Uuid) : string :=
  path_join (path_join "payments" (PaymentProvider_as_str p)) (env_uuid_text E id +:+ ".json").

(** What both rails do with an output: result row, status, spending, outbox file
    and artifact. *)
Definition record_payment (run : RunLeaseRecord) (c : PaymentCall) (request : PaymentRequestRecord)
    (execution_output : json) (spend : Z) : M X (json * Z) :=
  let! result_id := new_v4 E in
  let! payment_result := db_create_payment_result
    (new_result result_id (pq_id request) "executed" (Some execution_output) None) in
  let! _ := ignore (db_update_payment_request_status (pq_id request) "executed") in
  let spend := match pl_operation c with
               | PayInvoice => saturating_add_u64 spend (default 0 (pl_amount_msat c))
               | _ => spend
               end in
  let provider := PaymentProvider_as_str (pd_provider (pl_parsed c)) in
  let outbox_record := jobject
    [("provider", JStr provider); ("target", JStr (pd_target (pl_parsed c)));
     ("operation", JStr (PaymentOperation_as_str (pl_operation c)));
     ("request", request_payload c); ("result", execution_output)] in
  let! outbox_id := new_v4 E in
  let relative_path := payment_outbox_path (pd_provider (pl_parsed c)) outbox_id in
  let! tenant_root := lift (anyhow (tenant_scoped_artifact_root artifact_root (l_tenant_id run))) in
  let full_path := path_join tenant_root relative_path in
  let! (artifact_id, _) := store_artifact E run relative_path "application/json" full_path
                             (pe_to_vec_pretty pe outbox_record) in
  ret (jobject
    [("provider", JStr provider); ("destination", JStr (pl_destination c));
     ("operation", JStr (PaymentOperation_as_str (pl_operation c))); ("status", JStr "executed");
     ("payment_request_id", JStr (env_uuid_text E (pq_id request)));
     ("payment_result_id", JStr (env_uuid_text E (ny_id (py_result payment_result))));
     ("idempotency_key", JStr (pq_idempotency_key request));
     ("token_accounting", jobject
        [("payment_spend_msat", jint spend);
         ("payment_budget_msat", jopt (jint <$> pc_max_spend_msat_per_run pc));
         ("payment_approval_threshold_msat", jopt (jint <$> pc_approval_threshold_msat pc));
         ("payment_budget_tenant_msat", jopt (jint <$> pc_max_spend_msat_per_tenant pc));
         ("payment_budget_agent_msat", jopt (jint <$> pc_max_spend_msat_per_agent pc))]);
     ("result", execution_output); ("artifact_id", JStr (env_uuid_text E artifact_id));
     ("path", JStr relative_path); ("storage_ref", JStr full_path)], spend).

Definition duplicate_output (c : PaymentCall) (request : PaymentRequestRecord)
    (prior : option PaymentResultRecord) : json :=
  jobject
    [("provider", JStr (PaymentProvider_as_str (pd_provider (pl_parsed c))));
     ("destination", JStr (pl_destination c));
     ("operation", JStr (PaymentOperation_as_str (pl_operation c))); ("status", JStr "duplicate");
     ("payment_request_id", JStr (env_uuid_text E (pq_id request)));
     ("idempotency_key", JStr (pq_idempotency_key request));
     ("prior_request_status", JStr (pq_status request));
     ("prior_result_status", jstr_opt ((ny_status ∘ py_result) <$> prior));
     ("prior_result", jopt (prior ≫= ny_result_json ∘ py_result))].

Definition new_payment_request (run : RunLeaseRecord) (action_request_id : Uuid) (c : PaymentCall)
    (id : Uuid) : NewPaymentRequest :=
  {| np_id := id; np_action_request_id := action_request_id; np_run_id := l_id run;
     np_tenant_id := l_tenant_id run; np_agent_id := l_agent_id run;
     np_provider := PaymentProvider_as_str (pd_provider (pl_parsed c));
     np_operation := PaymentOperation_as_str (pl_operation c); np_destination := pl_destination c;
     np_idempotency_key := pl_idempotency_key c; np_amount_msat := as_i64_cast <$> pl_amount_msat c;
     np_request_json := request_payload c; np_status := "requested" |}.

Definition pay (run : RunLeaseRecord) (c : PaymentCall) (request : PaymentRequestRecord) (spend : Z)
    : M X (json * Z) :=
  let! _ := check_limits run c (pq_id request) spend in
  let! execution_output :=
    match pd_provider (pl_parsed c) with
    | Cashu => execute_cashu_payment_scaffold c (pq_id request)
    | Nwc => execute_nwc_payment c (pq_id request)
    end in
  record_payment run c request execution_output spend.

(** With the request row of the key: the report of a duplicate, or the payment. *)
Definition pay_unless_duplicate (run : RunLeaseRecord) (action_request_id : Uuid) (c : PaymentCall)
    (spend : Z) (request : PaymentRequestRecord) : M X (json * Z) :=
  if negb (pq_action_request_id request =? action_request_id) then
    let! prior := db_get_latest_payment_result (pq_id request) in
    ret (duplicate_output c request prior, spend)
  else pay run c request spend.

(** [spend] is [execution_context.payment_spend_msat]; the new value is part of
    the result, and an error ends the run, so that the context is not used again. *)
Definition execute_payment_send_action (run : RunLeaseRecord) (action_request_id : Uuid) (args : json)
    (spend : Z) : M X (json * Z) :=
  let! c := lift (parse_payment_call args) in
  let! id := new_v4 E in
  let! request := db_create_or_get_payment_request (new_payment_request run action_request_id c id) in
  pay_unless_duplicate run action_request_id c spend request.
End payments.

(** * What it writes *)

Section effects.
Context {X : Type} (E : env) (pe : payment_externals) (pc : PaymentConfig) (worker_id root : string).

Lemma try_routes_only {A} P ns target threshold cooldown fallback (send : string -> M X (result A string)) :
  forall routes index st, (forall uri, uri ∈ routes -> only P (send uri)) ->
  only P (try_routes E worker_id ns target threshold cooldown fallback send routes index st).
Proof.
  intros routes. induction routes as [|uri rest IH]; intros index st Hs; cbn [try_routes];
    repeat first [apply Hs; set_solver | apply IH; set_solver | only_step].
Qed.

Lemma refuse_only {A} P request code message :
  only P (refuse (X := X) (A := A) E request code message).
Proof.
  unfold refuse, persist_failed_payment_request, ignore, db_create_payment_result,
    db_update_payment_request_status. repeat only_step.
Qed.

Lemma check_limits_only P run c request spend :
  only P (check_limits (X := X) E pc run c request spend).
Proof.
  unfold check_limits, check_approval, check_budget, db_sum_for_tenant, db_sum_for_agent.
  repeat first [apply refuse_only | only_step].
Qed.

Lemma execute_payment_only P run id args spend :
  (forall p, P (PaymentSubmitted p)) -> (forall p c, P (FileWritten p c)) ->
  only P (execute_payment_send_action (X := X) E pe pc worker_id root run id args spend).
Proof.
  intros HP HF. unfold execute_payment_send_action, pay_unless_duplicate, db_create_or_get_payment_request,
    db_get_latest_payment_result, pay, execute_cashu_payment_scaffold, execute_nwc_payment,
    nwc_output, nwc_response, cashu_transport, nwc_routes, cashu_routes, record_payment,
    execute_cashu_payment_http, send_nwc_request, persist_failed_payment_request, ignore,
    db_create_payment_result, db_update_payment_request_status.
  repeat first [apply refuse_only | apply check_limits_only | apply try_routes_only; intros uri _
               |apply store_artifact_only | only_step]; auto.
Qed.
End effects.

(** * A concrete configuration *)

Definition demo_payment_config : PaymentConfig :=
  {| pc_nwc_enabled := true; pc_nwc_uri := None;
     pc_nwc_wallet_uris := {["w1" := "nwc://a | nwc://b"]}; pc_nwc_timeout := 5000000;
     pc_nwc_route_strategy := Ordered; pc_nwc_route_fallback_enabled := true;
     pc_nwc_route_rollout_percent := 100; pc_nwc_route_health_fail_threshold := 3;
     pc_nwc_route_health_cooldown := 60000000; pc_nwc_mock_balance_msat := 1000;
     pc_cashu_enabled := true; pc_cashu_mint_uris := {["m1" := "https://mint"]};
     pc_cashu_default_mint := None; pc_cashu_timeout := 5000000;
     pc_cashu_max_spend_msat_per_run := Some 10; pc_cashu_http_enabled := true;
     pc_cashu_http_allow_insecure := false; pc_cashu_auth_header := "authorization";
     pc_cashu_auth_token := None; pc_cashu_route_strategy := DeterministicHash;
     pc_cashu_route_fallback_enabled := false; pc_cashu_route_rollout_percent := 100;
     pc_cashu_route_health_fail_threshold := 3; pc_cashu_route_health_cooldown := 60000000;
     pc_cashu_mock_enabled := false; pc_cashu_mock_balance_msat := 1000;
     pc_max_spend_msat_per_run := Some 1000; pc_approval_threshold_msat := Some 500;
     pc_max_spend_msat_per_tenant := Some 5000; pc_max_spend_msat_per_agent := None |}.

(** The first wallet route is down, the second answers, the mint settles. *)
Definition demo_payment_externals : payment_externals :=
  {| pe_route_hash := fun _ _ => 7;
     pe_send_nwc := fun _ uri _ _ =>
       if String.eqb uri "nwc://a" then Err "timeout"
       else Ok {| no_relay := "wss://r"; no_request_event_id := "e1"; no_response_event_id := "e2";
                  no_pay_invoice := Ok ("preimage", Some 1);
                  no_make_invoice := Ok ("lnbc1", JNull, None); no_get_balance := Ok 5 |};
     pe_http := fun _ _ => Ok (200, Ok "{}");
     pe_parse_url := fun u => Ok {| url_scheme := "https"; url_join := fun e => Ok (u +:+ e) |};
     pe_from_str := fun _ => Some (JObj []); pe_to_string := fun _ => "{}";
     pe_to_vec_pretty := fun _ => "{}"; pe_simple := fun _ => "id" |}.

(** A run with two payment actions of the same tenant. *)
Definition demo_payment_env : env :=
  {| env_pool := Postgres (fun _ => "") (2 ^ 62); env_clock := fun t => Z.of_nat t;
     env_stmt_clock := fun t i => Z.of_nat (t + i); env_uuid := fun t => 1000 + Z.of_nat t;
     env_fault := fun _ => None; env_io := fun _ => None; env_other := fun _ rows => rows;
     env_other_payments := fun _ p => p; env_other_triggers := fun _ t => t; env_other_llm := fun _ t => t; env_other_memory := fun _ t => t; env_uuid_text := fun id => pretty id;
     env_time_json := fun _ => JNull; env_sql_text := fun _ => "sql" |}.

Definition demo_payment_action (id : Uuid) : action_request :=
  {| aq_id := id; aq_step_id := 40; aq_action_type := "payment.send"; aq_args_json := JObj [];
     aq_justification := None; aq_status := "allowed"; aq_decision_reason := None; aq_created_at := 0 |}.

Definition payment_world : world unit :=
  {| w_db := {| d_core := d_core (w_db artifact_world); d_steps := [];
                d_action_requests := [demo_payment_action 50; demo_payment_action 51];
                d_action_results := []; d_audit_events := []; d_artifacts := []; d_siem := [];
                d_leases := []; d_payment_requests := []; d_payment_results := [];
               d_triggers := no_triggers; d_llm := no_llm_tables; d_memory := no_memory |};
     w_journal := []; w_tick := 0; w_ext := tt; w_routes := ∅; w_llm := no_llm |}.

Definition pay_args (key : string) (amount : Z) : json :=
  JObj [("destination", JStr "nwc:w1"); ("operation", JStr "pay_invoice"); ("invoice", JStr "lnbc1");
        ("idempotency_key", JStr key); ("amount_msat", JNum (PosInt amount))].

Definition demo_pay (id : Uuid) (args : json) (spend : Z) : M unit (json * Z) :=
  execute_payment_send_action demo_payment_env demo_payment_externals demo_payment_config "w1" "artifacts"
    demo_lease id args spend.

(** The first route times out, the second pays; the same key again is a duplicate;
    an amount at the approval threshold is refused. *)
Example demo_pay_falls_back :
  let '(r, w) := demo_pay 50 (pay_args "k1" 400) 0 payment_world in
  let '(r', w') := demo_pay 51 (pay_args "k1" 400) 400 w in
  is_ok r = true /\ is_ok r' = true /\
  map pq_status (d_payment_requests (w_db w)) = ["executed"] /\ w_journal w' = w_journal w /\
  is_ok (demo_pay 50 (pay_args "k1" 500) 0 payment_world).1 = false.
Proof. vm_compute. by split_and!. Qed.
