(* ===== verification/PaymentProps.v ===== *)
(** Properties of the payment executor: which requests reach a payment rail and
    under which limits, idempotency keys, budgets, routes and their health. *)
From S2P Require Import Prelude RustStr Json Sql Runs RunQueue Tables PaymentTables PaymentRoutes.
From S2P Require Import Action Paths World Messages Payments.

(** * Arguments *)

Lemma parse_payment_call_Ok args c : parse_payment_call args = Ok c ->
  pl_amount_msat c = (get "amount_msat" args ≫= as_u64) /\ pl_args c = args /\
  (requires_amount (pl_operation c) = true -> is_Some (pl_amount_msat c)).
Proof.
  unfold parse_payment_call. intros H.
  destruct (required_str _ _ _); [|done]. destruct (anyhow _); [|done].
  destruct (required_str _ _ _); [|done]. destruct (anyhow _); [|done].
  destruct (ok_or _ _); [|done]. destruct (requires_amount _ && _) eqn:Hr; [done|].
  injection H as <-. split_and!; [done..|]. cbn. intros Ho. rewrite Ho in Hr.
  destruct (_ ≫= as_u64); eauto. done.
Qed.

(** * Submissions *)

Definition submission_of (e : effect) : option payment_submission :=
  match e with PaymentSubmitted p => Some p | _ => None end.

Definition no_pay (e : effect) : Prop := submission_of e = None.

Section submissions.
Context {X : Type} (E : env) (pe : payment_externals) (pc : PaymentConfig) (worker_id root : string).

(** A URI that the configuration gives to the rail of the call. *)
Definition allowed_route (c : PaymentCall) (uri : string) : Prop :=
  let target := pd_target (pl_parsed c) in
  match pd_provider (pl_parsed c) with
  | Nwc => pc_nwc_enabled pc = true /\ uri ∈ nwc_configured pc target
  | Cashu =>
      pc_cashu_enabled pc = true /\ pc_cashu_http_enabled pc = true /\
      pc_cashu_mock_enabled pc = false /\ uri ∈ cashu_configured pc target /\
      forall lim amount, pc_cashu_max_spend_msat_per_run pc = Some lim -> pl_amount_msat c = Some amount ->
        amount <= lim
  end.

Definition rail_effect (c : PaymentCall) (request : Uuid) (e : effect) : Prop :=
  no_pay e \/ exists uri, allowed_route c uri /\ e = PaymentSubmitted (submission c request uri).

(** Approval and the budget of the run. *)
Definition within_limits (c : PaymentCall) (spend : Z) : Prop :=
  pl_operation c = PayInvoice -> forall amount, pl_amount_msat c = Some amount ->
    (forall threshold, pc_approval_threshold_msat pc = Some threshold ->
       threshold <= amount -> pl_payment_approved c = true) /\
    (forall lim, pc_max_spend_msat_per_run pc = Some lim -> saturating_add_u64 spend amount <= lim).

Lemma order_candidates_subset strategy rollout fallback id key routes uri :
  uri ∈ candidates (order_candidates (pe_route_hash pe) strategy rollout fallback id key routes) ->
  uri ∈ routes.
Proof.
  assert (forall n l, uri ∈ take n l -> uri ∈ l) as Htake.
  { intros n l H. rewrite <- (take_drop n l). set_solver. }
  unfold order_candidates. destruct (_ <=? 1)%nat; [done|]. cbn [candidates]. intros H.
  assert (uri ∈ match strategy with
                | Ordered => routes
                | DeterministicHash => rotate_left (Z.to_nat (deterministic_route_offset
                    (pe_route_hash pe) id key (Z.of_nat (length routes)))) routes
                end) as H1 by (destruct fallback, (_ && _); eauto).
  destruct strategy; [done|]. unfold rotate_left in H1. rewrite elem_of_app in H1.
  destruct H1 as [H1|H1]; [|by eauto]. eapply elem_of_subseteq; [apply subseteq_drop|exact H1].
Qed.

(** ** The rails *)

Lemma nwc_only c request : pd_provider (pl_parsed c) = Nwc ->
  only (rail_effect c request) (execute_nwc_payment (X := X) E pe pc worker_id c request).
Proof.
  intros Hc. unfold execute_nwc_payment.
  destruct (pc_nwc_enabled pc) eqn:Hon; cbn [negb]; [|apply refuse_only].
  destruct (contains _ _); [apply refuse_only|].
  destruct (candidates _) as [|uri uris] eqn:Hr.
  { destruct (bool_decide _); [apply only_ret|apply refuse_only]. }
  only_step. apply only_bind.
  - apply try_routes_only. intros u Hu. rewrite <- Hr in Hu. unfold send_nwc_request. only_step; [|apply only_ask].
    apply only_note. right. exists u. split; [|done]. unfold allowed_route. rewrite Hc.
    split; [done|]. by apply order_candidates_subset in Hu.
  - intros attempts _. unfold nwc_output, nwc_response.
    repeat first [apply refuse_only | only_step].
Qed.

Lemma cashu_only c request : pd_provider (pl_parsed c) = Cashu ->
  only (rail_effect c request) (execute_cashu_payment_scaffold (X := X) E pe pc worker_id c request).
Proof.
  intros Hc. unfold execute_cashu_payment_scaffold.
  destruct (pc_cashu_enabled pc) eqn:Hon; cbn [negb]; [|apply refuse_only].
  destruct (cashu_over_limit pc c) as [[]|] eqn:Hlim; [apply refuse_only|].
  destruct (bool_decide _); [apply refuse_only|].
  destruct (candidates _) as [|uri uris] eqn:Hr; [apply refuse_only|].
  destruct (pc_cashu_mock_enabled pc) eqn:Hmock; [apply only_ret|].
  destruct (pc_cashu_http_enabled pc) eqn:Hhttp; cbn [negb].
  - unfold cashu_transport. apply only_bind.
    + apply try_routes_only. intros u Hu. unfold execute_cashu_payment_http.
      destruct (cashu_request _ _ _ _ _ _); [|apply only_ret]. repeat only_step.
      right. exists u. split; [|done]. unfold allowed_route. rewrite Hc. split_and!; try done.
      * by apply order_candidates_subset in Hu.
      * intros lim amount El Ea. unfold cashu_over_limit in Hlim. rewrite El, Ea in Hlim.
        destruct (lim <? amount) eqn:Hlt; [done|lia].
    + intros attempts _. repeat first [apply refuse_only | only_step].
  - unfold persist_failed_payment_request, ignore, db_create_payment_result,
      db_update_payment_request_status. repeat only_step.
Qed.

(** ** The limits *)

Lemma refuse_emits {A} request code message :
  emits (refuse (X := X) (A := A) E request code message) (fun r j => Forall no_pay j /\ is_ok r = false).
Proof.
  unfold refuse. eapply emits_weaken.
  - apply emits_bind; [apply (emits_only no_pay)|intros u; apply emits_throw].
    unfold persist_failed_payment_request, ignore, db_create_payment_result,
      db_update_payment_request_status. repeat only_step.
  - cbn beta. intros r j [(e & -> & H)|(u & j1 & j2 & -> & H & Hr & ->)]; [done|].
    by rewrite Hr, app_nil_r.
Qed.

(** A check sends nothing, and [G] holds when it passes. *)
Definition check_post (G : Prop) (r : result unit error) (j : list effect) : Prop :=
  Forall no_pay j /\ (is_ok r = true -> G).

Lemma check_ret (G : Prop) : G -> emits (ret tt : M X unit) (check_post G).
Proof. intros HG. eapply emits_weaken; [apply emits_ret|]. by intros r j [-> ->]. Qed.

Lemma check_refuse (G : Prop) request code message :
  emits (refuse (X := X) E request code message) (check_post G).
Proof. eapply emits_weaken; [apply refuse_emits|]. intros r j [H Hr]. split; [done|]. by rewrite Hr. Qed.

Lemma check_then (G H : Prop) (m k : M X unit) :
  emits m (check_post G) -> emits k (check_post H) -> emits (bind m (fun _ => k)) (check_post (G /\ H)).
Proof.
  intros Hm Hk. eapply emits_weaken; [apply emits_bind; [exact Hm|intros u; exact Hk]|].
  cbn beta. intros r j [(e & -> & [HF _])|(u & j1 & j2 & -> & H1 & H2)]; [by split|].
  destruct H1 as [F1 G1], H2 as [F2 G2]. split; [by apply Forall_app|]. intros Hr. split; [by apply G1|by apply G2].
Qed.

Lemma check_weaken (G H : Prop) (m : M X unit) :
  emits m (check_post G) -> (G -> H) -> emits m (check_post H).
Proof. intros Hm HGH. eapply emits_weaken; [exact Hm|]. intros r j [HF HG]. split; auto. Qed.

Lemma check_approval_emits c request : emits (check_approval (X := X) E pc c request)
  (check_post (forall threshold amount, pc_approval_threshold_msat pc = Some threshold ->
     pl_amount_msat c = Some amount -> threshold <= amount -> pl_payment_approved c = true)).
Proof.
  unfold check_approval.
  destruct (pc_approval_threshold_msat pc) as [t|]; [|by apply check_ret].
  destruct (pl_amount_msat c) as [a|]; [|by apply check_ret].
  destruct (_ && _) eqn:Hc; [apply check_refuse|]. apply check_ret.
  intros t' a' [= <-] [= <-] Hle. apply andb_false_iff in Hc as [Hc|Hc]; [lia|].
  by apply negb_false_iff in Hc.
Qed.

Lemma check_budget_emits what code lim amount spent request (Q : Z -> Prop) :
  emits spent (fun r j => Forall no_pay j /\ forall v, r = Ok v -> Q v) ->
  emits (check_budget (X := X) E what code lim amount spent request)
    (check_post (forall l a, lim = Some l -> amount = Some a ->
       exists v, Q v /\ saturating_add_u64 v a <= l)).
Proof.
  intros Hs. unfold check_budget. destruct lim as [l|]; [|by apply check_ret].
  destruct amount as [a|]; [|by apply check_ret]. eapply emits_weaken.
  - apply emits_bind; [exact Hs|intros v].
    instantiate (1 := fun v r j => check_post (saturating_add_u64 v a <= l) r j).
    destruct (l <? _) eqn:Hl; [apply check_refuse|]. apply check_ret. lia.
  - cbn beta. intros r j [(e & -> & [HF _])|(v & j1 & j2 & -> & [F1 HQ] & F2 & HG)]; [by split|].
    split; [by apply Forall_app|]. intros Hr ?? [= <-] [= <-]. eauto.
Qed.

Lemma spent_no_pay (f : db -> result Z db_error) (g : Z -> Z) :
  emits (let! total := stmt E (fun _ d => let? total := f d in Ok (d, total)) (fun _ => []) in
         ret (g total) : M X Z) (fun r j => Forall no_pay j /\ forall v, r = Ok v -> True).
Proof.
  assert (only no_pay (let! total := stmt E (fun _ d => let? total := f d in Ok (d, total)) (fun _ => []) in
         ret (g total) : M X Z)) as H by repeat only_step.
  intros w. destruct (H w) as (j & Hj & HF). eauto.
Qed.

Lemma check_limits_emits run c request spend :
  emits (check_limits (X := X) E pc run c request spend) (check_post (within_limits c spend)).
Proof.
  unfold check_limits, within_limits. destruct (pl_operation c); [|by apply check_ret..].
  eapply check_weaken.
  - apply check_then; [apply check_approval_emits|].
    apply check_then; [apply check_budget_emits with (Q := fun v => v = spend)|].
    { eapply emits_weaken; [apply emits_ret|]. intros r j [-> ->]. split; [done|]. congruence. }
    apply check_then; [apply check_budget_emits, spent_no_pay|].
    apply check_budget_emits, spent_no_pay.
  - cbn beta. intros (H1 & H2 & _) _ amount Ha. split; [eauto|].
    intros lim Hl. by destruct (H2 lim amount Hl Ha) as (v & -> & H).
Qed.

(** ** The executor *)

Definition spend_after (c : PaymentCall) (spend : Z) : Z :=
  match pl_operation c with
  | PayInvoice => saturating_add_u64 spend (default 0 (pl_amount_msat c))
  | _ => spend
  end.

Definition payment_outcome (args : json) (spend : Z) (r : result (json * Z) error) (j : list effect)
    : Prop :=
  (Forall no_pay j /\ forall a, r = Ok a -> a.2 = spend) \/
  exists c request, parse_payment_call args = Ok c /\ within_limits c spend /\
    Forall (rail_effect c request) j /\ forall a, r = Ok a -> a.2 = spend_after c spend.

Lemma record_payment_emits run c request output spend :
  only_ok no_pay (fun a => a.2 = spend_after c spend)
    (record_payment (X := X) E pe pc root run c request output spend).
Proof.
  unfold record_payment, ignore, db_create_payment_result, db_update_payment_request_status.
  repeat (apply only_ok_bind; [|intros]).
  all: try match goal with |- only_ok _ _ (let '_ := ?x in _) => destruct x end.
  all: first [by apply only_ok_ret | repeat first [by apply store_artifact_only | only_step]].
Qed.

Lemma pay_emits run c request spend : emits (pay (X := X) E pe pc worker_id root run c request spend)
  (fun r j => (Forall no_pay j /\ is_ok r = false) \/
     (within_limits c spend /\ Forall (rail_effect c (pq_id request)) j /\
      forall a, r = Ok a -> a.2 = spend_after c spend)).
Proof.
  unfold pay. eapply emits_weaken.
  - apply emits_bind; [apply check_limits_emits|intros u].
    apply emits_bind; [|intros output; apply record_payment_emits].
    apply (emits_only (rail_effect c (pq_id request))).
    destruct (pd_provider (pl_parsed c)) eqn:Hp; [by apply nwc_only|by apply cashu_only].
  - assert (forall j, Forall no_pay j -> Forall (rail_effect c (pq_id request)) j) as Hn.
    { intros j H. eapply Forall_impl; [exact H|]. by left. }
    cbn beta. intros r j [(e & -> & [HF _])|(u & j1 & j2 & -> & [F1 HW] & H)]; [by left|right].
    specialize (HW eq_refl). split; [done|].
    destruct H as [(e & -> & F2)|(o & j3 & j4 & -> & F3 & F4 & Hs)];
      (split; [rewrite !Forall_app; auto|done]).
Qed.

Lemma outcome_after {A} args spend (m : M X A) (k : A -> M X (json * Z)) :
  only no_pay m -> (forall a, emits (k a) (payment_outcome args spend)) ->
  emits (bind m k) (payment_outcome args spend).
Proof.
  intros Hm Hk. eapply emits_weaken;
    [apply (emits_bind m k (fun _ => Forall no_pay) (fun _ => payment_outcome args spend) Hm Hk)|].
  cbn beta. intros r j [(e & -> & H)|(x & j1 & j2 & -> & F1 & [[F2 Hr]|(c' & q & Hp & HW & HF & Hs)])];
    [by left|left|right].
  - split; [by apply Forall_app|done].
  - exists c', q. split_and!; try done. apply Forall_app. split; [|done].
    eapply Forall_impl; [exact F1|]. by left.
Qed.

Lemma execute_payment_emits run id args spend :
  emits (execute_payment_send_action (X := X) E pe pc worker_id root run id args spend)
    (payment_outcome args spend).
Proof.
  unfold execute_payment_send_action. apply emits_bind_lift; [|by left]. intros c Hc.
  apply outcome_after; [apply only_new_v4|intros row_id].
  apply outcome_after; [by apply only_stmt|intros request]. unfold pay_unless_duplicate. destruct (negb _).
  - apply outcome_after; [by apply only_stmt|intros prior]. eapply emits_weaken; [apply emits_ret|].
    intros r j [-> ->]. left. split; [done|]. by intros a [= <-].
  - eapply emits_weaken; [apply pay_emits|]. intros r j [[H Hr]|(HW & HF & Hs)]; [left|right].
    + split; [done|]. intros a ->. done.
    + by exists c, (pq_id request).
Qed.
End submissions.

(** Whatever happens around it, the executor of payment.send contacts a
    payment rail only for a call whose arguments parse, only on a URI configured
    for the wallet or mint it names and with the rail switched on, with the
    amount of the arguments; a payment at or above the approval threshold is
    approved in the arguments, and fits, with what the run has spent, into the
    budget of the run. *)
Theorem payments_stay_within_limits X E pe pc worker_id root run id args spend (w : world X) j p
    (Hj : appends (execute_payment_send_action E pe pc worker_id root run id args spend) w j)
    (Hp : PaymentSubmitted p ∈ j) :
  exists c, parse_payment_call args = Ok c /\ p = submission c (ps_request_id p) (ps_route p) /\
    allowed_route pc c (ps_route p) /\
    (pl_operation c = PayInvoice -> exists amount, pl_amount_msat c = Some amount /\
       (forall threshold, pc_approval_threshold_msat pc = Some threshold ->
          threshold <= amount -> pl_payment_approved c = true) /\
       (forall lim, pc_max_spend_msat_per_run pc = Some lim -> lim < u64_max -> spend + amount <= lim)).
Proof.
  apply (emits_appends _ _ _ _ (execute_payment_emits E pe pc worker_id root run id args spend)) in Hj.
  destruct Hj as [[HF _]|(c & request & Hc & HW & HF & _)]; rewrite Forall_forall in HF;
    specialize (HF _ Hp); [done|].
  destruct HF as [HF|(uri & Hr & [= ->])]; [done|]. exists c. split_and!; [done|done|done|].
  intros Ho. specialize (HW Ho).
  destruct (parse_payment_call_Ok args c Hc) as (_ & _ & [amount Ha]); [by rewrite Ho|].
  exists amount. destruct (HW amount Ha) as [H1 H2]. split_and!; [done|done|].
  intros lim Hl Hm. specialize (H2 lim Hl). unfold saturating_add_u64 in H2. lia.
Qed.

Lemma payments_stay_within_limits_witness :
  exists c, parse_payment_call (pay_args "k1" 400) = Ok c /\ allowed_route demo_payment_config c "nwc://b" /\
    pl_amount_msat c = Some 400.
Proof.
  destruct (payments_stay_within_limits unit demo_payment_env demo_payment_externals demo_payment_config
    "w1" "artifacts" demo_lease 50 (pay_args "k1" 400) 0 payment_world
    (w_journal (demo_pay 50 (pay_args "k1" 400) 0 payment_world).2)
    {| ps_provider := "nwc"; ps_target := "w1"; ps_route := "nwc://b"; ps_operation := "pay_invoice";
       ps_amount_msat := Some 400; ps_request_id := 1000 |})
    as (c & Hc & Hp & Hr & _).
  - vm_compute. reflexivity.
  - rewrite list_elem_of_lookup. exists 1%nat. vm_compute. reflexivity.
  - exists c. split; [exact Hc|]. split; [exact Hr|]. injection Hp as _ _ _ Ha. symmetry. exact Ha.
Defined.
