(* ===== verification/PaymentRouteProps.v ===== *)
(** Properties of the payment routes: which candidates a wallet or a mint has,
    the order in which they are tried, and when a route is taken out of use. *)
From S2P Require Import Prelude RustStr Json Sql Runs RunQueue Tables PaymentTables PaymentRoutes.
From S2P Require Import Action Paths World Messages Payments PaymentProps.

(** * Candidates *)

Lemma rotate_left_perm {A} k (l : list A) : rotate_left k l ≡ₚ l.
Proof. unfold rotate_left. rewrite Permutation_app_comm. by rewrite take_drop. Qed.

Lemma route_offset_bounds route_hash id key n : 0 < n ->
  0 <= deterministic_route_offset route_hash id key n < n.
Proof.
  intros Hn. unfold deterministic_route_offset. destruct (n =? 0) eqn:H; [lia|]. by apply Z.mod_pos_bound.
Qed.

(** The route that a payment tries first. *)
Definition preferred_index (route_hash : string -> string -> Z) (strategy : PaymentNwcRouteStrategy)
    (id key : string) (n : nat) : nat :=
  match strategy with
  | DeterministicHash => Z.to_nat (deterministic_route_offset route_hash id key (Z.of_nat n))
  | Ordered => 0
  end.

(** The candidate routes are the configured ones, rotated so that the
    preferred one comes first: none is lost or invented when fallback is on and
    the rollout does not limit the payment, and otherwise only the preferred one
    is left; there is no candidate only when none is configured. *)
Theorem candidate_routes_are_a_rotation route_hash strategy rollout fallback id key routes :
  let r := order_candidates route_hash strategy rollout fallback id key routes in
  head (candidates r) = routes !! preferred_index route_hash strategy id key (length routes) /\
  (candidates r = [] <-> routes = []) /\
  (fallback = true -> rollout_limited r = false -> candidates r ≡ₚ routes) /\
  ((fallback = false \/ rollout_limited r = true) -> (length (candidates r) <= 1)%nat).
Proof.
  cbn zeta. unfold order_candidates.
  destruct routes as [|u [|v rest]]; cbn [length Nat.leb candidates rollout_limited].
  - rewrite lookup_nil. split_and!; try done. cbn. lia.
  - split_and!; try done.
    assert (preferred_index route_hash strategy id key 1 = 0%nat) as ->; [|done].
    unfold preferred_index. destruct strategy; try done.
    pose proof (route_offset_bounds route_hash id key 1 ltac:(lia)). change (Z.of_nat 1) with 1. lia.
  - set (l := u :: v :: rest). change (S (S (length rest))) with (length l).
    set (k := preferred_index route_hash strategy id key (length l)).
    assert (k < length l)%nat as Hk.
    { unfold k, preferred_index. destruct strategy; [cbn; lia|].
      pose proof (route_offset_bounds route_hash id key (Z.of_nat (length l)) ltac:(cbn; lia)). lia. }
    assert ((match strategy with
             | DeterministicHash => rotate_left (Z.to_nat (deterministic_route_offset route_hash id key
                                      (Z.of_nat (length l)))) l
             | Ordered => l end) = rotate_left k l) as ->.
    { unfold k, preferred_index. destruct strategy; [|done]. unfold rotate_left. by rewrite drop_0, take_0, app_nil_r. }
    assert (exists x xs, rotate_left k l = x :: xs /\ l !! k = Some x) as (x & xs & Hr & Hx).
    { destruct (lookup_lt_is_Some_2 l k Hk) as [x Hx]. unfold rotate_left.
      rewrite (drop_S l x k Hx). by eexists x, _. }
    pose proof (rotate_left_perm k l) as Hp. rewrite Hr in Hp |- *. rewrite Hx.
    destruct (_ && _) eqn:Hlimited, fallback; cbn [take candidates rollout_limited head length];
      (split_and!; [done|split; [done|]|..]); try done; try lia; naive_solver lia.
Qed.

Lemma candidate_routes_are_a_rotation_witness :
  candidates (order_candidates (fun _ _ => 7) DeterministicHash 100 true "w" "k" ["a"; "b"; "c"]) ≡ₚ
    ["a"; "b"; "c"] /\
  candidates (order_candidates (fun _ _ => 7) DeterministicHash 100 true "w" "k" ["a"; "b"; "c"]) =
    ["b"; "c"; "a"].
Proof.
  split; [|reflexivity].
  destruct (candidate_routes_are_a_rotation (fun _ _ => 7) DeterministicHash 100 true "w" "k" ["a"; "b"; "c"])
    as (_ & _ & H & _).
  apply H; reflexivity.
Defined.

(** * Order of the attempts *)

Section order.
Context {X : Type} (E : env) (pe : payment_externals) (pc : PaymentConfig) (worker_id root : string).

(** The submissions of a journal, in order. *)
Definition submissions (j : list effect) : list payment_submission := omap submission_of j.

(** The routes in a journal that submits [c] only. *)
Definition tried (c : PaymentCall) (request : Uuid) (uris : list string) (j : list effect) : Prop :=
  submissions j = map (submission c request) uris.

Lemma submissions_no_pay j : Forall no_pay j -> submissions j = [].
Proof. unfold submissions. induction 1 as [|e j He _ IH]; [done|]. cbn. by rewrite He. Qed.

Lemma tried_app c request u1 u2 j1 j2 : tried c request u1 j1 -> tried c request u2 j2 ->
  tried c request (u1 ++ u2) (j1 ++ j2).
Proof. unfold tried, submissions. intros H1 H2. by rewrite omap_app, H1, H2, map_app. Qed.

(** [c] is submitted to some of the routes, in their order, each at most once. *)
Definition in_order (c : PaymentCall) (request : Uuid) (routes : list string) (j : list effect) : Prop :=
  exists uris, uris `sublist_of` routes /\ tried c request uris j.

Definition tries {A} (c : PaymentCall) (request : Uuid) (routes : list string) (m : M X A) : Prop :=
  emits m (fun _ => in_order c request routes).

Lemma order_none {A} c request routes (m : M X A) : only no_pay m -> tries c request routes m.
Proof.
  intros Hm w. destruct (Hm w) as (j & Hj & HF). exists j. split; [done|]. exists [].
  split; [apply sublist_nil_l|]. by apply submissions_no_pay.
Qed.

Lemma order_bind {A B} c request r1 r2 routes (m : M X A) (k : A -> M X B) :
  tries c request r1 m -> (forall a, tries c request r2 (k a)) ->
  r1 ++ r2 `sublist_of` routes -> tries c request routes (bind m k).
Proof.
  intros Hm Hk Hs. eapply emits_weaken;
    [apply (emits_bind m k (fun _ => in_order c request r1) (fun _ _ => in_order c request r2) Hm Hk)|].
  cbn beta.
  intros r j [(e & -> & us & Hu & Ht)|(a & j1 & j2 & -> & (u1 & Hu1 & Ht1) & u2 & Hu2 & Ht2)].
  - exists us. split; [|done]. rewrite <- Hs. rewrite Hu. by apply sublist_inserts_r.
  - exists (u1 ++ u2). split; [|by apply tried_app]. rewrite <- Hs. by apply sublist_app.
Qed.

Lemma order_after {A B} c request routes (m : M X A) (k : A -> M X B) :
  only no_pay m -> (forall a, tries c request routes (k a)) -> tries c request routes (bind m k).
Proof.
  intros Hm Hk. eapply (order_bind _ _ [] routes); [by apply order_none|exact Hk|done].
Qed.

Lemma order_before {A B} c request routes (m : M X A) (k : A -> M X B) :
  tries c request routes m -> (forall a, only no_pay (k a)) -> tries c request routes (bind m k).
Proof.
  intros Hm Hk. eapply (order_bind _ _ routes []); [exact Hm|intros; by apply order_none|by rewrite app_nil_r].
Qed.

Lemma try_routes_order {A} ns target threshold cooldown fallback c request
    (send : string -> M X (result A string)) : (forall uri, tries c request [uri] (send uri)) ->
  forall routes index st, tries c request routes
    (try_routes E worker_id ns target threshold cooldown fallback send routes index st).
Proof.
  intros Hs routes. induction routes as [|uri rest IH]; intros index st; cbn [try_routes];
    [apply order_none, only_ret|].
  apply order_after; [apply only_on_routes|intros go]. destruct (negb go).
  - eapply emits_weaken; [apply IH|]. intros r j (us & Hu & Ht). exists us. split; [|done]. by apply sublist_cons.
  - apply (order_bind c request [uri] rest); [apply Hs| |done]. intros [o|e].
    + apply order_none. repeat only_step.
    + apply order_after; [apply only_on_routes|intros _].
      destruct fallback; [apply IH|apply order_none, only_ret].
Qed.

Lemma send_nwc_tries c request nwc uri :
  tries c request [uri] (send_nwc_request (X := X) pe pc c request nwc uri).
Proof.
  eapply emits_weaken; [apply emits_bind_note, emits_ask|].
  intros r j (j' & -> & _ & ->). by exists [uri].
Qed.

Lemma cashu_http_tries c request uri :
  tries c request [uri] (execute_cashu_payment_http (X := X) E pe pc c request uri).
Proof.
  unfold execute_cashu_payment_http.
  destruct (cashu_request _ _ _ _ _ _) as [http|e]; [|apply order_none, only_ret].
  eapply emits_weaken; [apply emits_bind_note, (emits_only no_pay); repeat only_step|].
  intros r j (j' & -> & HF). exists [uri]. split; [done|].
  change (submission c request uri :: submissions j' = [submission c request uri]).
  by rewrite (submissions_no_pay j' HF).
Qed.

(** The candidates of the rail of a call. *)
Definition call_candidates (c : PaymentCall) : list string :=
  let target := pd_target (pl_parsed c) in
  candidates match pd_provider (pl_parsed c) with
             | Nwc => resolve_nwc_uris_for_wallet (pe_route_hash pe) pc target (pl_idempotency_key c)
             | Cashu => resolve_cashu_mint_uris (pe_route_hash pe) pc target (pl_idempotency_key c)
             end.

Lemma nwc_tries c request : pd_provider (pl_parsed c) = Nwc ->
  tries c request (call_candidates c) (execute_nwc_payment (X := X) E pe pc worker_id c request).
Proof.
  intros Hc. unfold execute_nwc_payment, call_candidates. rewrite Hc.
  destruct (negb _); [apply order_none, refuse_only|]. destruct (contains _ _); [apply order_none, refuse_only|].
  destruct (candidates _) as [|uri uris] eqn:Hr.
  { apply order_none. destruct (bool_decide _); [apply only_ret|apply refuse_only]. }
  apply order_after; [apply only_lift|intros nwc]. apply order_before.
  - apply try_routes_order. intros u. apply send_nwc_tries.
  - intros attempts. unfold nwc_output, nwc_response. repeat first [apply refuse_only | only_step].
Qed.

Lemma cashu_tries c request : pd_provider (pl_parsed c) = Cashu ->
  tries c request (call_candidates c) (execute_cashu_payment_scaffold (X := X) E pe pc worker_id c request).
Proof.
  intros Hc. unfold execute_cashu_payment_scaffold, call_candidates. rewrite Hc.
  destruct (negb _); [apply order_none, refuse_only|].
  destruct (cashu_over_limit pc c) as [[]|]; [apply order_none, refuse_only|].
  destruct (bool_decide _); [apply order_none, refuse_only|].
  destruct (candidates _) as [|uri uris] eqn:Hr; [apply order_none, refuse_only|].
  destruct (pc_cashu_mock_enabled pc); [apply order_none, only_ret|].
  destruct (negb _).
  - apply order_none. unfold persist_failed_payment_request, ignore, db_create_payment_result,
      db_update_payment_request_status. repeat only_step.
  - unfold cashu_transport. rewrite Hr. apply order_before.
    + apply try_routes_order. intros u. apply cashu_http_tries.
    + intros attempts. repeat first [apply refuse_only | only_step].
Qed.

Lemma record_payment_no_pay run c request output spend :
  only no_pay (record_payment (X := X) E pe pc root run c request output spend).
Proof.
  unfold record_payment, ignore, db_create_payment_result, db_update_payment_request_status.
  repeat first [by apply store_artifact_only | only_step].
Qed.

Lemma pay_tries run c request spend :
  tries c (pq_id request) (call_candidates c) (pay (X := X) E pe pc worker_id root run c request spend).
Proof.
  unfold pay. apply order_after; [apply check_limits_only|intros _].
  apply order_before; [|intros output; apply record_payment_no_pay].
  destruct (pd_provider (pl_parsed c)) eqn:Hp; [by apply nwc_tries|by apply cashu_tries].
Qed.

Lemma after_no_pay {A B} c routes (m : M X A) (k : A -> M X B) : only no_pay m ->
  (forall a, emits (k a) (fun _ j => exists request, in_order c request routes j)) ->
  emits (bind m k) (fun _ j => exists request, in_order c request routes j).
Proof.
  intros Hm Hk. eapply emits_weaken; [apply (emits_bind m k (fun _ => Forall no_pay) _ Hm Hk)|]. cbn beta.
  assert (forall j, Forall no_pay j -> in_order c 0 routes j) as Hn.
  { intros j H. exists []. split; [apply sublist_nil_l|]. by apply submissions_no_pay. }
  intros r j [(e & -> & H)|(a & j1 & j2 & -> & H & request & us & Hu & Ht)]; [by exists 0; apply Hn|].
  exists request, us. split; [done|]. apply (tried_app c request [] us); [|done]. by apply submissions_no_pay.
Qed.

Lemma execute_tries run id args c spend : parse_payment_call args = Ok c ->
  emits (execute_payment_send_action (X := X) E pe pc worker_id root run id args spend)
    (fun _ j => exists request, in_order c request (call_candidates c) j).
Proof.
  intros Hc. unfold execute_payment_send_action. rewrite Hc.
  apply emits_bind_lift; [|by intros e; exists 0, []; split; [apply sublist_nil_l|]]. intros c' [= <-].
  apply after_no_pay; [apply only_new_v4|intros row].
  apply after_no_pay; [by apply only_stmt|intros request].
  eapply emits_weaken with (T := fun _ => in_order c (pq_id request) (call_candidates c)); [|by exists (pq_id request)].
  unfold pay_unless_duplicate. destruct (negb _); [|apply pay_tries].
  apply order_none. apply only_bind; [by apply only_stmt|intros; apply only_ret].
Qed.
End order.

(** One execution of payment.send tries the candidate routes of its wallet or
    mint in their order and each position at most once, whatever they answer and
    whatever fails; with the routes' health it may leave some out. *)
Theorem routes_are_tried_in_order X E pe pc worker_id root run id args c spend (w : world X) j
    (Hc : parse_payment_call args = Ok c)
    (Hj : appends (execute_payment_send_action E pe pc worker_id root run id args spend) w j) :
  map ps_route (submissions j) `sublist_of` call_candidates pe pc c.
Proof.
  destruct (emits_appends _ _ _ _ (execute_tries E pe pc worker_id root run id args c spend Hc) Hj)
    as (request & us & Hu & Ht).
  unfold tried in Ht. rewrite Ht, map_map. cbn [submission ps_route]. by rewrite map_id.
Qed.

Lemma routes_are_tried_in_order_witness :
  map ps_route (submissions (w_journal (demo_pay 50 (pay_args "k1" 400) 0 payment_world).2)) =
    ["nwc://a"; "nwc://b"] /\
  exists c, ["nwc://a"; "nwc://b"] `sublist_of` call_candidates demo_payment_externals demo_payment_config c.
Proof.
  assert (map ps_route (submissions (w_journal (demo_pay 50 (pay_args "k1" 400) 0 payment_world).2)) =
            ["nwc://a"; "nwc://b"]) as H by (vm_compute; reflexivity).
  split; [exact H|].
  destruct (parse_payment_call (pay_args "k1" 400)) as [c|e] eqn:Hc; [|vm_compute in Hc; discriminate].
  exists c. rewrite <- H.
  apply (routes_are_tried_in_order unit demo_payment_env demo_payment_externals demo_payment_config
    "w1" "artifacts" demo_lease 50 (pay_args "k1" 400) c 0 payment_world); [exact Hc|].
  exact (appends_from_empty (demo_pay 50 (pay_args "k1" 400) 0) payment_world eq_refl).
Defined.

(** * Health *)

(** No route is out of use, or close to it. *)
Definition no_quarantine (h : gmap string PaymentRouteHealthEntry) : Prop :=
  map_Forall (fun _ e => unhealthy_until e = None /\ consecutive_failures e <= 1) h.

(** The threshold is off, or asks for more than one failure. *)
Definition above_one (threshold : Z) : Prop := threshold = 0 \/ 2 <= threshold.

Lemma healthy_attempt key threshold cooldown now h : no_quarantine h ->
  (should_attempt_payment_route key threshold cooldown now h).2 = true.
Proof.
  intros Hh. unfold should_attempt_payment_route. destruct (_ || _); [done|].
  destruct (h !! key) as [e|] eqn:He; [|done]. destruct (Hh _ _ He) as [-> _]. done.
Qed.

(** An attempt clears the failures of its route. *)
Definition cleared (key : string) (threshold cooldown : Z) (h : gmap string PaymentRouteHealthEntry) : Prop :=
  no_quarantine h /\ (threshold = 0 \/ cooldown = 0 \/ forall e, h !! key = Some e -> consecutive_failures e = 0).

Lemma attempt_clears key threshold cooldown now h : no_quarantine h ->
  cleared key threshold cooldown (should_attempt_payment_route key threshold cooldown now h).1.
Proof.
  intros Hh. unfold should_attempt_payment_route, cleared.
  destruct (threshold =? 0) eqn:Ht; [split; [done|left; lia]|].
  destruct (cooldown =? 0) eqn:Hd; [split; [done|right; left; lia]|]. cbn [orb].
  destruct (h !! key) as [e|] eqn:He; cbn [fst].
  - destruct (Hh _ _ He) as [-> _]. cbn [fst]. split.
    + apply map_Forall_insert_2; [done|exact Hh].
    + right. right. intros e'. rewrite lookup_insert_eq. by intros [= <-].
  - split; [done|]. right. right. intros e'. by rewrite He.
Qed.

Lemma failure_below_threshold key threshold cooldown now h : above_one threshold ->
  cleared key threshold cooldown h -> no_quarantine (mark_payment_route_failure key threshold cooldown now h).
Proof.
  intros Ht [Hh Hc]. unfold mark_payment_route_failure.
  destruct (threshold =? 0) eqn:E0; [done|]. destruct (cooldown =? 0) eqn:E1; [done|]. cbn [orb].
  set (e := default _ (h !! key)).
  assert (consecutive_failures e = 0 /\ unhealthy_until e = None) as [-> ->].
  { unfold e. destruct (h !! key) as [e'|] eqn:He; cbn [default]; [|done].
    split; [destruct Hc as [? | [? | Hc]]; [lia..|by apply Hc]|by destruct (Hh _ _ He)]. }
  assert ((threshold <=? Z.min (0 + 1) u32_max) = false) as ->.
  { unfold u32_max. destruct Ht; lia. }
  apply map_Forall_insert_2; [|exact Hh]. split; [done|]. cbn [consecutive_failures]. lia.
Qed.

Lemma success_no_quarantine key threshold h : no_quarantine h ->
  no_quarantine (mark_payment_route_success key threshold h).
Proof. intros Hh. unfold mark_payment_route_success. destruct (_ =? _); [done|]. by apply map_Forall_delete. Qed.

(** What a computation preserves of the route health, whatever it returns. *)
Definition routes_kept {X A} (R : gmap string PaymentRouteHealthEntry -> Prop) (m : M X A) : Prop :=
  forall w, R (w_routes w) -> R (w_routes (m w).2).

(** It does not touch them. *)
Definition routes_untouched {X A} (m : M X A) : Prop := forall w, w_routes (m w).2 = w_routes w.

Section health.
Context {X : Type} (E : env) (pe : payment_externals) (pc : PaymentConfig) (worker_id root : string).

Lemma untouched_ret {A} (a : A) : routes_untouched (ret a : M X A).
Proof. done. Qed.
Lemma untouched_throw {A} e : routes_untouched (throw e : M X A).
Proof. done. Qed.
Lemma untouched_lift {A} (x : result A error) : routes_untouched (lift x : M X A).
Proof. intros w. by destruct x. Qed.
Lemma untouched_note e : routes_untouched (note e : M X unit).
Proof. done. Qed.
Lemma untouched_ask {A} (f : nat -> A) : routes_untouched (ask f : M X A).
Proof. done. Qed.
Lemma untouched_new_v4 : routes_untouched (new_v4 E : M X Uuid).
Proof. done. Qed.
Lemma untouched_fs_write p c : routes_untouched (fs_write E p c : M X unit).
Proof. intros w. unfold fs_write. by destruct (env_io E _). Qed.
Lemma untouched_stmt {A} (f : Z -> db -> result (db * A) db_error) log :
  routes_untouched (stmt E f log : M X A).
Proof. intros w. unfold stmt. by repeat case_match. Qed.

Lemma untouched_bind {A B} (m : M X A) (k : A -> M X B) :
  routes_untouched m -> (forall a, routes_untouched (k a)) -> routes_untouched (bind m k).
Proof.
  intros Hm Hk w. specialize (Hm w). unfold bind. destruct (m w) as [[a|e] w1]; cbn in *; [|done].
  by rewrite (Hk a w1).
Qed.

Lemma untouched_try {A B} (m : M X A) (k : result A error -> M X B) :
  routes_untouched m -> (forall r, routes_untouched (k r)) -> routes_untouched (try m k).
Proof.
  intros Hm Hk w. specialize (Hm w). unfold try. destruct (m w) as [r w1]; cbn in *. by rewrite (Hk r w1).
Qed.
End health.

#[local] Hint Resolve untouched_ret untouched_throw untouched_lift untouched_note untouched_ask
  untouched_new_v4 untouched_fs_write untouched_stmt : agnt.

Ltac untouched_step :=
  match goal with
  | |- routes_untouched (bind _ _) => apply untouched_bind; [|let a := fresh "a" in intros a]
  | |- routes_untouched (try _ _) => apply untouched_try; [|let r := fresh "r" in intros r]
  | |- routes_untouched (let '_ := ?x in _) => destruct x
  | |- routes_untouched (if ?b then _ else _) => destruct b
  | |- routes_untouched (match ?x with _ => _ end) => destruct x
  | |- routes_untouched _ => solve [auto with agnt]
  end.

Section quarantine.
Context {X : Type} (E : env) (pe : payment_externals) (pc : PaymentConfig) (worker_id root : string).
#[local] Abbreviation kept := (routes_kept (X := X) no_quarantine).

Lemma kept_untouched {A} (m : M X A) : routes_untouched m -> kept m.
Proof. intros H w. by rewrite H. Qed.

Lemma kept_bind {A B} (m : M X A) (k : A -> M X B) : kept m -> (forall a, kept (k a)) -> kept (bind m k).
Proof.
  intros Hm Hk w Hw. specialize (Hm w Hw). unfold bind. destruct (m w) as [[a|e] w1]; cbn in *; [|done].
  by apply Hk.
Qed.

Lemma refuse_untouched {A} request code message : routes_untouched (refuse (X := X) (A := A) E request code message).
Proof.
  unfold refuse, persist_failed_payment_request, ignore, db_create_payment_result,
    db_update_payment_request_status. repeat untouched_step.
Qed.

Lemma limits_untouched run c request spend : routes_untouched (check_limits (X := X) E pc run c request spend).
Proof.
  unfold check_limits, check_approval, check_budget, db_sum_for_tenant, db_sum_for_agent.
  repeat first [apply refuse_untouched | untouched_step].
Qed.

Lemma record_untouched run c request output spend :
  routes_untouched (record_payment (X := X) E pe pc root run c request output spend).
Proof.
  unfold record_payment, store_artifact, ignore, db_create_payment_result, db_update_payment_request_status.
  repeat untouched_step.
Qed.

Lemma try_routes_kept {A} ns target threshold cooldown fallback (send : string -> M X (result A string)) :
  above_one threshold -> (forall uri, routes_untouched (send uri)) ->
  forall routes index st, kept (try_routes E worker_id ns target threshold cooldown fallback send routes index st).
Proof.
  intros Ht Hs routes. induction routes as [|uri rest IH]; intros index st w Hw; [done|].
  cbn [try_routes]. set (key := payment_route_health_key worker_id ns target uri).
  pose proof (healthy_attempt key threshold cooldown (env_clock E (w_tick w)) (w_routes w) Hw) as Hgo.
  pose proof (attempt_clears key threshold cooldown (env_clock E (w_tick w)) (w_routes w) Hw) as Hc.
  unfold bind at 1, on_routes at 1.
  destruct (should_attempt_payment_route _ _ _ _ _) as [h go]. cbn [fst snd] in Hgo, Hc. subst go. cbn [negb].
  match goal with |- context [bind (send uri) _ ?w1] => set (w' := w1) end.
  unfold bind at 1. pose proof (Hs uri w') as Hr. destruct (send uri w') as [[[o|e]|e] w1]; cbn [fst snd] in *.
  - unfold bind, on_routes, ret. cbn. rewrite Hr. apply success_no_quarantine, Hc.
  - unfold bind at 1, on_routes at 1. cbn zeta. rewrite Hr. destruct fallback; [apply IH|]; cbn [w_routes];
      by apply failure_below_threshold.
  - rewrite Hr. apply Hc.
Qed.

Lemma nwc_kept c request : above_one (pc_nwc_route_health_fail_threshold pc) ->
  kept (execute_nwc_payment (X := X) E pe pc worker_id c request).
Proof.
  intros Ht. unfold execute_nwc_payment.
  destruct (negb _); [apply kept_untouched, refuse_untouched|].
  destruct (contains _ _); [apply kept_untouched, refuse_untouched|].
  destruct (candidates _) as [|uri uris].
  { apply kept_untouched. destruct (bool_decide _); [done|apply refuse_untouched]. }
  apply kept_bind; [apply kept_untouched; untouched_step|intros nwc]. apply kept_bind.
  - apply try_routes_kept; [done|]. intros u. unfold send_nwc_request. repeat untouched_step.
  - intros attempts. apply kept_untouched. unfold nwc_output, nwc_response.
    repeat first [apply refuse_untouched | untouched_step].
Qed.

Lemma cashu_kept c request : above_one (pc_cashu_route_health_fail_threshold pc) ->
  kept (execute_cashu_payment_scaffold (X := X) E pe pc worker_id c request).
Proof.
  intros Ht. unfold execute_cashu_payment_scaffold.
  destruct (negb _); [apply kept_untouched, refuse_untouched|].
  destruct (cashu_over_limit pc c) as [[]|]; [apply kept_untouched, refuse_untouched|].
  destruct (bool_decide _); [apply kept_untouched, refuse_untouched|].
  destruct (candidates _) as [|uri uris]; [apply kept_untouched, refuse_untouched|].
  destruct (pc_cashu_mock_enabled pc); [by apply kept_untouched|]. destruct (negb _).
  - apply kept_untouched. unfold persist_failed_payment_request, ignore, db_create_payment_result,
      db_update_payment_request_status. repeat untouched_step.
  - unfold cashu_transport. apply kept_bind.
    + apply try_routes_kept; [done|]. intros u. unfold execute_cashu_payment_http. repeat untouched_step.
    + intros attempts. apply kept_untouched. repeat first [apply refuse_untouched | untouched_step].
Qed.

Lemma execute_kept run id args spend : above_one (pc_nwc_route_health_fail_threshold pc) ->
  above_one (pc_cashu_route_health_fail_threshold pc) ->
  kept (execute_payment_send_action (X := X) E pe pc worker_id root run id args spend).
Proof.
  intros Hn Hc. unfold execute_payment_send_action, pay_unless_duplicate, pay.
  apply kept_bind; [apply kept_untouched; untouched_step|intros c].
  apply kept_bind; [apply kept_untouched; untouched_step|intros row].
  apply kept_bind; [apply kept_untouched, untouched_stmt|intros request]. destruct (negb _).
  - apply kept_untouched. unfold db_get_latest_payment_result. repeat untouched_step.
  - apply kept_bind; [apply kept_untouched, limits_untouched|intros _].
    apply kept_bind; [|intros output; apply kept_untouched, record_untouched].
    destruct (pd_provider _); [by apply nwc_kept|by apply cashu_kept].
Qed.
End quarantine.

(** With a failure threshold above one, as the default of three, no number of
    failed attempts ever takes a route out of use: each attempt clears the
    failures counted before it, so that after any execution of payment.send every
    route of every wallet and mint would still be attempted. *)
Theorem quarantine_needs_a_threshold_of_one X E pe pc worker_id root (w : world X)
    (Hnwc : above_one (pc_nwc_route_health_fail_threshold pc))
    (Hcashu : above_one (pc_cashu_route_health_fail_threshold pc)) (Hw : no_quarantine (w_routes w))
    (calls : list (RunLeaseRecord * Uuid * json * Z)) :
  let w' := fold_left (fun w call => let '(run, id, args, spend) := call in
              (execute_payment_send_action E pe pc worker_id root run id args spend w).2) calls w in
  no_quarantine (w_routes w') /\
  forall key threshold cooldown now, (should_attempt_payment_route key threshold cooldown now (w_routes w')).2 = true.
Proof.
  cbn zeta. enough (no_quarantine (w_routes (fold_left (fun w call => let '(run, id, args, spend) := call in
    (execute_payment_send_action E pe pc worker_id root run id args spend w).2) calls w))) as H
    by (split; [exact H|intros; by apply healthy_attempt]).
  revert w Hw. induction calls as [|[[[run id] args] spend] calls IH]; intros w Hw; cbn [fold_left]; [done|].
  apply IH. by apply execute_kept.
Qed.

(** The first route of the wallet fails in each of two calls and stays in use. *)
Lemma quarantine_needs_a_threshold_of_one_witness :
  let calls := [(demo_lease, 50, pay_args "k1" 1, 0); (demo_lease, 51, pay_args "k2" 1, 1)] in
  let w' := fold_left (fun w call => let '(run, id, args, spend) := call in
    (execute_payment_send_action demo_payment_env demo_payment_externals demo_payment_config "w1" "artifacts"
       run id args spend w).2) calls payment_world in
  (w_routes w' !! payment_route_health_key "w1" "nwc" "w1" "nwc://a") =
    Some {| consecutive_failures := 1; unhealthy_until := None |} /\
  (should_attempt_payment_route (payment_route_health_key "w1" "nwc" "w1" "nwc://a") 3 60000000 100
     (w_routes w')).2 = true.
Proof.
  split; [vm_compute; reflexivity|].
  apply (quarantine_needs_a_threshold_of_one unit demo_payment_env demo_payment_externals demo_payment_config
    "w1" "artifacts" payment_world).
  - right. vm_compute. discriminate.
  - right. vm_compute. discriminate.
  - exact (map_Forall_empty _).
Defined.

(** With a threshold of one a failed route rests for the cooldown. *)
Lemma failed_route_rests key cooldown failed now h : 0 < cooldown ->
  (forall e, h !! key = Some e -> 0 <= consecutive_failures e) ->
  (should_attempt_payment_route key 1 cooldown now
     (mark_payment_route_failure key 1 cooldown failed h)).2 = (failed + cooldown <=? now).
Proof.
  intros Hd Hh. unfold mark_payment_route_failure, should_attempt_payment_route.
  replace (cooldown =? 0) with false by lia. cbn [Z.eqb orb].
  assert (0 <= consecutive_failures (default {| consecutive_failures := 0; unhealthy_until := None |} (h !! key))) as H0.
  { destruct (h !! key) as [e|] eqn:He; cbn; [by apply Hh|lia]. }
  replace (1 <=? Z.min _ u32_max) with true by (unfold u32_max; lia).
  rewrite lookup_insert_eq. cbn [unhealthy_until]. destruct (now <? failed + cooldown) eqn:Hn; cbn [snd]; lia.
Qed.

(** The Cashu limit per run is compared with each payment alone: two payments of
    the whole limit pass in one run. *)
Definition cashu_args (key : string) : json :=
  JObj [("destination", JStr "cashu:m1"); ("operation", JStr "pay_invoice"); ("invoice", JStr "lnbc1");
        ("idempotency_key", JStr key); ("amount_msat", JNum (PosInt 10))].

Example cashu_run_limit_is_per_payment :
  let '(r1, w1) := demo_pay 50 (cashu_args "k1") 0 payment_world in
  let '(r2, w2) := demo_pay 51 (cashu_args "k2") 10 w1 in
  pc_cashu_max_spend_msat_per_run demo_payment_config = Some 10 /\ is_ok r1 = true /\ is_ok r2 = true /\
  map pq_status (d_payment_requests (w_db w2)) = ["executed"; "executed"].
Proof. vm_compute. by split_and!. Qed.
