(* ===== verification/PaymentLedger.v ===== *)
(** The payment ledger under the executor: an idempotency key has one owner for
    ever, so a payment is sent at most once per key, and the executed payments of
    a tenant stay within its budget. *)
From stdpp Require Import pretty.
From S2P Require Import Prelude RustStr Json Sql Runs RunQueue Tables PaymentTables PaymentRoutes.
From S2P Require Import Action Paths World Messages Payments PaymentProps.

(** * Who owns a key *)

(** The action whose request holds the key of a tenant. *)
Definition key_owner (tenant_id key : string) (rows : list PaymentRequestRecord) : option Uuid :=
  pq_action_request_id <$> List.find (has_payment_key tenant_id key) rows.

Definition preserves_keys (old new : list PaymentRequestRecord) : Prop :=
  forall tenant_id key owner, key_owner tenant_id key old = Some owner ->
    key_owner tenant_id key new = Some owner.

#[export] Instance preserves_keys_preorder : PreOrder preserves_keys.
Proof. split; [by intros rows t k o|]. intros a b c H1 H2 t k o Ho. by apply H2, H1. Qed.

Lemma find_map {A} (p q : A -> bool) (f : A -> A) l :
  (forall x, p (f x) = p x) ->
  List.find p (map (fun x => if q x then f x else x) l) =
  (fun x => if q x then f x else x) <$> List.find p l.
Proof.
  intros Hp. induction l as [|x l IH]; simpl; [done|].
  assert (p (if q x then f x else x) = p x) as -> by (by destruct (q x)). by destruct (p x).
Qed.

Lemma find_app {A} (p : A -> bool) l1 l2 :
  List.find p (l1 ++ l2) = match List.find p l1 with Some x => Some x | None => List.find p l2 end.
Proof. induction l1 as [|x l IH]; simpl; [done|]. by destruct (p x). Qed.

Lemma preserves_keys_append rows row : preserves_keys rows (rows ++ [row]).
Proof.
  intros t k o. unfold key_owner. rewrite find_app. by destruct (List.find _ rows).
Qed.

(** [UPDATE payment_requests SET status = .. WHERE id = ..] *)
Definition with_status (id : Uuid) (status : string) (now : Z) (rows : list PaymentRequestRecord)
    : list PaymentRequestRecord :=
  map (fun r => if pq_id r =? id then set_payment_status status now r else r) rows.

Lemma preserves_keys_status status now id rows : preserves_keys rows (with_status id status now rows).
Proof.
  intros t k o. unfold key_owner, with_status. rewrite find_map by done.
  destruct (List.find _ rows) as [r|]; [|done]. simpl. by destruct (pq_id r =? id).
Qed.

(** ** The statements *)

Lemma insert_or_get_Ok now n d d' r : insert_or_get now n d = Ok (d', r) ->
  preserves_keys (d_payment_requests d) (d_payment_requests d') /\
  List.find (has_payment_key (np_tenant_id n) (np_idempotency_key n)) (d_payment_requests d') = Some r /\
  ((d' = d) \/ (List.find (has_payment_key (np_tenant_id n) (np_idempotency_key n)) (d_payment_requests d) = None /\
    r = payment_row now n /\ d_payment_requests d' = d_payment_requests d ++ [r] /\
    forall x, x ∈ d_payment_requests d -> pq_id x <> np_id n)).
Proof.
  unfold insert_or_get. destruct (List.find _ (d_payment_requests d)) as [r0|] eqn:F.
  { intros [= <- <-]. by split_and!; [| |left]. }
  destruct (require (negb _) _) eqn:R; [|done]. destruct (require _ ForeignKeyViolation); [|done].
  intros [= <- <-]. cbn [with_payments d_payment_requests].
  split_and!; [apply preserves_keys_append| |right; split_and!; try done].
  - rewrite find_app, F. cbn [List.find]. unfold has_payment_key. cbn. by rewrite !String.eqb_refl.
  - intros x Hx Hid. unfold require in R. destruct (existsb _ _) eqn:Ex; [done|].
    apply not_true_iff_false in Ex. apply Ex, existsb_exists.
    exists x. split; [by apply list_elem_of_In|]. by rewrite Hid, Z.eqb_refl.
Qed.

Lemma create_or_get_dual_Ok pool now n d d' r :
  create_or_get_payment_request_dual pool now n d = Ok (d', r) ->
  known_rail n = true /\ exists t, insert_or_get t n d = Ok (d', r).
Proof.
  unfold create_or_get_payment_request_dual, by_pool, create_or_get_payment_request,
    create_or_get_payment_request_sqlite, require.
  destruct pool; (destruct (known_rail n); [|done]); [destruct (key_and_amount_ok n); [|done]|];
    intros H; (split; [done|]); [by exists now|by exists (current_timestamp now)].
Qed.

Lemma create_result_requests pool now n d d' r :
  create_payment_result_dual pool now n d = Ok (d', r) -> d_payment_requests d' = d_payment_requests d.
Proof.
  unfold create_payment_result_dual, by_pool, create_payment_result_sqlite, create_payment_result.
  destruct pool; (destruct (require (negb _) _); [|done]); (destruct (require _ _); [|done]);
    by intros [= <- _].
Qed.

Lemma update_status_requests pool now id status d :
  exists t, d_payment_requests (update_payment_request_status_dual pool now id status d).1 =
    with_status id status t (d_payment_requests d).
Proof.
  unfold update_payment_request_status_dual, by_pool, update_payment_request_status_sqlite,
    update_payment_request_status. destruct pool; by eexists.
Qed.

(** ** Computations that keep a property of the requests *)

Section kept.
Context {X : Type} (E : env) (pe : payment_externals) (pc : PaymentConfig) (worker_id root : string).
Context (I : list PaymentRequestRecord -> Prop).
#[local] Abbreviation inv := (fun d => I (d_payment_requests d)).
Context (HI : stable (X := X) inv E).

Lemma kept_same {A} (f : Z -> db -> result (db * A) db_error) log :
  (forall now d d' a, f now d = Ok (d', a) -> d_payment_requests d' = d_payment_requests d) ->
  keeps inv (stmt E f log : M X A).
Proof. intros Hf. apply keeps_stmt; [done|]. intros now d d' a F. by rewrite (Hf now d d' a F). Qed.

Lemma kept_query {A} (f : db -> result A db_error) :
  keeps inv (stmt E (fun _ d => let? a := f d in Ok (d, a)) (fun _ => []) : M X A).
Proof. apply kept_same. intros now d d' a. destruct (f d); [|done]. by intros [= <- _]. Qed.

Lemma kept_create_result n : keeps inv (db_create_payment_result (X := X) E n).
Proof. apply kept_same. intros now d d' a. apply create_result_requests. Qed.

Lemma kept_latest id : keeps inv (db_get_latest_payment_result (X := X) E id).
Proof. apply kept_same. by intros now d d' a [= <- _]. Qed.

Lemma kept_status id status :
  (forall now rows, I rows -> I (with_status id status now rows)) ->
  keeps inv (db_update_payment_request_status (X := X) E id status).
Proof.
  intros Hs. apply keeps_stmt; [done|]. intros now d d' a F. unfold total in F.
  destruct (update_status_requests (env_pool E) now id status d) as [t Ht].
  destruct (update_payment_request_status_dual _ _ _ _ _) as [d1 b]. injection F as <- _.
  cbn [fst] in Ht. rewrite Ht. by apply Hs.
Qed.

Lemma kept_store run path ty full bytes : keeps inv (store_artifact (X := X) E run path ty full bytes).
Proof.
  unfold store_artifact. repeat keeps_step. apply kept_same. intros now d d' r.
  unfold persist_artifact_metadata_dual, by_pool, persist_artifact_metadata_sqlite,
    persist_artifact_metadata.
  destruct (env_pool E); (destruct (require _ UniqueViolation); [|done]);
    (destruct (require _ ForeignKeyViolation); [|done]); by intros [= <- _].
Qed.

Lemma kept_try_routes {A} ns target threshold cooldown fallback (send : string -> M X (result A string))
    routes : (forall uri, keeps inv (send uri)) -> forall index st,
  keeps inv (try_routes E worker_id ns target threshold cooldown fallback send routes index st).
Proof.
  intros Hs. induction routes as [|uri rest IH]; intros index st; cbn [try_routes];
    repeat first [apply Hs | apply IH | keeps_step].
Qed.

Section request.
Context (request : Uuid) (Hfailed : forall now rows, I rows -> I (with_status request "failed" now rows)).

Lemma kept_persist_failed code message :
  keeps inv (persist_failed_payment_request (X := X) E request code message).
Proof.
  unfold persist_failed_payment_request, ignore.
  repeat first [apply kept_create_result | by apply kept_status | keeps_step].
Qed.

Lemma kept_refuse {A} code message : keeps inv (refuse (X := X) (A := A) E request code message).
Proof. unfold refuse. repeat first [apply kept_persist_failed | keeps_step]. Qed.

Lemma refuse_hoare {A} code message (Q : A -> db -> Prop) (F : db -> Prop) :
  (forall d, inv d -> F d) -> hoare inv (refuse (X := X) (A := A) E request code message) Q F.
Proof.
  intros HF. unfold refuse. apply hoare_bind with (R := fun _ => inv).
  - by apply hoare_frame; [apply kept_persist_failed|].
  - intros u. by apply hoare_throw.
Qed.

Lemma kept_budget what code lim amount spent : keeps inv spent ->
  keeps inv (check_budget (X := X) E what code lim amount spent request).
Proof. intros Hs. unfold check_budget. repeat first [exact Hs | apply kept_refuse | keeps_step]. Qed.

Lemma kept_approval c : keeps inv (check_approval (X := X) E pc c request).
Proof. unfold check_approval. repeat first [apply kept_refuse | keeps_step]. Qed.

Lemma kept_limits run c spend : keeps inv (check_limits (X := X) E pc run c request spend).
Proof.
  unfold check_limits, db_sum_for_tenant, db_sum_for_agent.
  repeat first [apply kept_approval | apply kept_budget | apply kept_query | keeps_step].
Qed.

Lemma kept_rail c :
  keeps inv (execute_nwc_payment (X := X) E pe pc worker_id c request) /\
  keeps inv (execute_cashu_payment_scaffold (X := X) E pe pc worker_id c request).
Proof.
  unfold execute_cashu_payment_scaffold, execute_nwc_payment, nwc_output, nwc_response, cashu_transport,
    nwc_routes, cashu_routes, execute_cashu_payment_http, send_nwc_request.
  split; repeat first [apply kept_refuse | apply kept_persist_failed
    | apply kept_try_routes; intros uri | keeps_step].
Qed.
End request.
End kept.

(** ** The executor *)

Section keys.
Context {X : Type} (E : env) (pe : payment_externals) (pc : PaymentConfig) (worker_id root : string).
Context (Hothers : forall t p, preserves_keys p.1 (env_other_payments E t p).1).

Section one_key.
Context (tenant_id key : string) (owner : Uuid).
#[local] Abbreviation owns := (fun rows => key_owner tenant_id key rows = Some owner).
#[local] Abbreviation owned := (fun d => key_owner tenant_id key (d_payment_requests d) = Some owner).

Lemma owned_stable : stable (X := X) owned E.
Proof.
  intros w Hw. unfold observed. set (d := with_rows _ _).
  pose proof (Hothers (w_tick w) (d_payment_requests d, d_payment_results d)) as H.
  destruct (env_other_payments E _ _) as [requests results]. by apply H.
Qed.

Lemma owns_status id status now rows : owns rows -> owns (with_status id status now rows).
Proof. apply preserves_keys_status. Qed.

Lemma kept_create_or_get n : keeps owned (db_create_or_get_payment_request (X := X) E n).
Proof.
  apply keeps_stmt; [apply owned_stable|]. intros now d d' a (_ & t & H)%create_or_get_dual_Ok.
  apply insert_or_get_Ok in H as [H _]. by apply H.
Qed.

Lemma kept_pay run c request spend :
  keeps owned (pay (X := X) E pe pc worker_id root run c request spend).
Proof.
  pose proof owned_stable as HI.
  assert (forall id status now rows, owns rows -> owns (with_status id status now rows)) as HS
    by apply owns_status.
  destruct (kept_rail (X := X) E pe pc worker_id owns HI (pq_id request) (HS _ _) c) as [Hn Hc].
  unfold pay. apply keeps_bind; [apply (kept_limits E pc owns HI _ (HS _ _))|intros u].
  apply keeps_bind; [by destruct (pd_provider (pl_parsed c))|intros output].
  unfold record_payment, ignore.
  repeat first [apply (kept_store E owns HI) | apply (kept_create_result E owns HI)
    | apply (kept_status E owns HI _ _ (HS _ _)) | keeps_step].
Qed.

(** A payment never changes who owns a key. *)
Lemma kept_execute run id args spend :
  keeps owned (execute_payment_send_action (X := X) E pe pc worker_id root run id args spend).
Proof.
  unfold execute_payment_send_action, pay_unless_duplicate.
  repeat first [apply kept_create_or_get | apply (kept_latest E owns), owned_stable | apply kept_pay
               |keeps_step].
Qed.
End one_key.

(** ** At most once per key *)

(** The row that the insertion answers holds the key. *)
Lemma create_or_get_owner run id c row_id (w w' : world X) request :
  db_create_or_get_payment_request E (new_payment_request run id c row_id) w = (Ok request, w') ->
  key_owner (l_tenant_id run) (pl_idempotency_key c) (d_payment_requests (w_db w')) =
    Some (pq_action_request_id request) /\ w_journal w' = w_journal w.
Proof.
  intros H. apply stmt_Ok in H as (now & (_ & t & F)%create_or_get_dual_Ok & Hj).
  rewrite app_nil_r in Hj. apply insert_or_get_Ok in F as (_ & F & _). split; [|done].
  unfold key_owner. cbn [new_payment_request np_tenant_id np_idempotency_key] in F. by rewrite F.
Qed.

Lemma create_or_get_known tenant_id key owner run id c row_id :
  l_tenant_id run = tenant_id -> pl_idempotency_key c = key ->
  yields (fun d => key_owner tenant_id key (d_payment_requests d) = Some owner)
    (db_create_or_get_payment_request (X := X) E (new_payment_request run id c row_id))
    (fun r j => j = [] /\ forall request, r = Ok request -> pq_action_request_id request = owner).
Proof.
  intros <- <- w Hw. pose proof (kept_create_or_get _ _ owner (new_payment_request run id c row_id) w Hw) as Hk.
  destruct (emits_stmt E (fun now => create_or_get_payment_request_dual (env_pool E) now
    (new_payment_request run id c row_id)) (fun _ => []) w) as (j & Hj & HT).
  exists j. split; [exact Hj|]. unfold db_create_or_get_payment_request in *.
  destruct (stmt _ _ _ w) as [[request|e] w'] eqn:S; cbn [fst snd] in *.
  - split; [done|]. intros r [= <-]. apply create_or_get_owner in S as [S _]. congruence.
  - split; [|done]. by destruct HT as [->|[? ->]].
Qed.

(** The call, once its arguments are parsed and its identifier drawn. *)
Lemma execute_payment_eq run id args c spend (w : world X) :
  parse_payment_call args = Ok c ->
  execute_payment_send_action E pe pc worker_id root run id args spend w =
    (let! request := db_create_or_get_payment_request E
       (new_payment_request run id c (env_uuid E (w_tick w))) in
     pay_unless_duplicate E pe pc worker_id root run id c spend request) (new_v4 E w).2.
Proof. intros Hc. unfold execute_payment_send_action. by rewrite Hc. Qed.

Lemma duplicate_emits run id c spend request : pq_action_request_id request <> id ->
  emits (pay_unless_duplicate (X := X) E pe pc worker_id root run id c spend request)
    (fun r j => Forall no_pay j /\ forall v s, r = Ok (v, s) -> s = spend /\
       exists prior, v = duplicate_output E c request prior).
Proof.
  intros Hid%Z.eqb_neq. unfold pay_unless_duplicate. rewrite Hid. cbn [negb]. eapply emits_weaken.
  - apply emits_bind; [apply (emits_only no_pay); by apply only_stmt|intros prior; apply emits_ret].
  - cbn beta. intros r j [(e & -> & H)|(prior & j1 & j2 & -> & H & -> & ->)]; [done|].
    rewrite app_nil_r. split; [done|]. intros v s [= <- <-]. eauto.
Qed.

(** A request that reaches a rail owns its key. *)
Lemma submitted_owns_key run id args spend (w : world X) j p :
  appends (execute_payment_send_action E pe pc worker_id root run id args spend) w j ->
  PaymentSubmitted p ∈ j ->
  exists c, parse_payment_call args = Ok c /\
    key_owner (l_tenant_id run) (pl_idempotency_key c) (d_payment_requests (w_db
      (execute_payment_send_action E pe pc worker_id root run id args spend w).2)) = Some id.
Proof.
  intros Hj Hp. destruct (parse_payment_call args) as [c|e] eqn:Hc.
  2:{ apply (emits_appends _ _ _ _ (execute_payment_emits E pe pc worker_id root run id args spend)) in Hj.
      destruct Hj as [[HF _]|(c & q & Hc' & _)]; [|congruence].
      rewrite Forall_forall in HF. by specialize (HF _ Hp). }
  exists c. split; [done|]. unfold appends in Hj. rewrite (execute_payment_eq _ _ _ c) in * by done.
  unfold bind in *. set (w1 := (new_v4 E w).2) in *. change (w_journal w) with (w_journal w1) in Hj.
  destruct (db_create_or_get_payment_request _ _ w1) as [[request|e] w2] eqn:S; cbn [fst snd] in *.
  - apply create_or_get_owner in S as [S Sj]. destruct (decide (pq_action_request_id request = id)) as [Hid|Hid].
    + rewrite Hid in S. unfold pay_unless_duplicate. rewrite (proj2 (Z.eqb_eq _ _) Hid). by apply kept_pay.
    + exfalso. rewrite <- Sj in Hj.
      apply (emits_appends _ _ _ _ (duplicate_emits run id c spend request Hid)) in Hj as [HF _].
      rewrite Forall_forall in HF. by specialize (HF _ Hp).
  - exfalso. assert (only no_pay (db_create_or_get_payment_request (X := X) E
      (new_payment_request run id c (env_uuid E (w_tick w))))) as Hn by by apply only_stmt.
    assert (appends (db_create_or_get_payment_request E
      (new_payment_request run id c (env_uuid E (w_tick w)))) w1 j) as Ha.
    { unfold appends. by rewrite S. }
    apply (only_appends _ _ _ _ Hn) in Ha. rewrite Forall_forall in Ha. by specialize (Ha _ Hp).
Qed.

(** A call whose key belongs to another action sends nothing. *)
Lemma foreign_key_is_duplicate run id args c spend owner (w : world X) :
  parse_payment_call args = Ok c -> owner <> id ->
  key_owner (l_tenant_id run) (pl_idempotency_key c) (d_payment_requests (w_db w)) = Some owner ->
  exists j, appends (execute_payment_send_action E pe pc worker_id root run id args spend) w j /\
    Forall no_pay j /\
    forall v s, (execute_payment_send_action E pe pc worker_id root run id args spend w).1 = Ok (v, s) ->
      s = spend /\ exists request prior, v = duplicate_output E c request prior /\
                     pq_action_request_id request = owner.
Proof.
  intros Hc Hid Hw. unfold appends. rewrite (execute_payment_eq _ _ _ c) by done. unfold bind.
  set (w1 := (new_v4 E w).2). change (w_journal w) with (w_journal w1).
  destruct (create_or_get_known _ _ owner run id c (env_uuid E (w_tick w)) eq_refl eq_refl w1 Hw)
    as (j1 & Hj1 & -> & Hr). unfold appends in Hj1. rewrite app_nil_r in Hj1.
  destruct (db_create_or_get_payment_request _ _ w1) as [[request|e] w2]; cbn [fst snd] in *.
  - specialize (Hr request eq_refl).
    destruct (duplicate_emits run id c spend request ltac:(congruence) w2) as (j & Hj & HF & Hv).
    exists j. unfold appends in Hj. rewrite Hj, Hj1. split_and!; [done|done|].
    intros v s H. destruct (Hv v s H) as [-> [prior ->]]. eauto.
  - exists []. by rewrite app_nil_r.
Qed.
End keys.

(** C21: a payment is sent at most once per idempotency key: once an execution has
    contacted a payment rail, no execution of another action of the tenant with
    that key contacts one, on any worker, with any arguments, failures and
    interleaving of other sessions that do not rewrite the ledger; if it succeeds
    it is the report of a duplicate and spends nothing. *)
Theorem idempotency_key_is_paid_once X E1 E2 pe1 pe2 pc1 pc2 worker1 worker2 root1 root2
    run1 run2 id1 id2 args1 args2 spend1 spend2 (w1 w2 : world X) j1 p c1 c2
    (Hothers1 : forall t q, preserves_keys q.1 (env_other_payments E1 t q).1)
    (Hothers2 : forall t q, preserves_keys q.1 (env_other_payments E2 t q).1)
    (Htenant : l_tenant_id run1 = l_tenant_id run2)
    (Hparse1 : parse_payment_call args1 = Ok c1) (Hparse2 : parse_payment_call args2 = Ok c2)
    (Hkey : pl_idempotency_key c1 = pl_idempotency_key c2) (Hid : id1 <> id2)
    (Hj1 : appends (execute_payment_send_action E1 pe1 pc1 worker1 root1 run1 id1 args1 spend1) w1 j1)
    (Hsent : PaymentSubmitted p ∈ j1)
    (Hlater : preserves_keys
       (d_payment_requests (w_db (execute_payment_send_action E1 pe1 pc1 worker1 root1 run1 id1 args1
                                    spend1 w1).2))
       (d_payment_requests (w_db w2))) :
  exists j2, appends (execute_payment_send_action E2 pe2 pc2 worker2 root2 run2 id2 args2 spend2) w2 j2 /\
    (forall q, ~ PaymentSubmitted q ∈ j2) /\
    forall v s, (execute_payment_send_action E2 pe2 pc2 worker2 root2 run2 id2 args2 spend2 w2).1 = Ok (v, s) ->
      s = spend2 /\ exists request prior, v = duplicate_output E2 c2 request prior /\
                      pq_action_request_id request = id1.
Proof.
  destruct (submitted_owns_key E1 pe1 pc1 worker1 root1 Hothers1 run1 id1 args1 spend1 w1 j1 p Hj1 Hsent)
    as (c & Hc & Hown). rewrite Hparse1 in Hc. injection Hc as <-.
  apply Hlater in Hown. rewrite Htenant, Hkey in Hown.
  destruct (foreign_key_is_duplicate E2 pe2 pc2 worker2 root2 Hothers2 run2 id2 args2 c2 spend2 id1 w2
    Hparse2 Hid Hown) as (j & Hj & HF & Hv).
  exists j. split_and!; [done| |done]. intros q Hq. rewrite Forall_forall in HF. by specialize (HF _ Hq).
Qed.

Lemma idempotency_key_is_paid_once_witness :
  let w1 := (demo_pay 50 (pay_args "k1" 400) 0 payment_world).2 in
  exists j2, appends (demo_pay 51 (pay_args "k1" 400) 400) w1 j2 /\ (forall q, ~ PaymentSubmitted q ∈ j2) /\
    is_ok (demo_pay 51 (pay_args "k1" 400) 400 w1).1 = true.
Proof.
  destruct (parse_payment_call (pay_args "k1" 400)) as [c|e] eqn:Hc; [|vm_compute in Hc; discriminate].
  destruct (idempotency_key_is_paid_once unit demo_payment_env demo_payment_env demo_payment_externals
    demo_payment_externals demo_payment_config demo_payment_config "w1" "w1" "artifacts" "artifacts"
    demo_lease demo_lease 50 51 (pay_args "k1" 400) (pay_args "k1" 400) 0 400 payment_world
    (demo_pay 50 (pay_args "k1" 400) 0 payment_world).2
    (w_journal (demo_pay 50 (pay_args "k1" 400) 0 payment_world).2)
    {| ps_provider := "nwc"; ps_target := "w1"; ps_route := "nwc://b"; ps_operation := "pay_invoice";
       ps_amount_msat := Some 400; ps_request_id := 1000 |} c c) as (j2 & Hj2 & Hno & _).
  - intros t q tenant_id key owner H. exact H.
  - intros t q tenant_id key owner H. exact H.
  - reflexivity.
  - exact Hc.
  - exact Hc.
  - reflexivity.
  - discriminate.
  - vm_compute. reflexivity.
  - rewrite list_elem_of_lookup. exists 1%nat. vm_compute. reflexivity.
  - intros tenant_id key owner H. exact H.
  - exists j2. split; [exact Hj2|]. split; [exact Hno|]. vm_compute. reflexivity.
Defined.
