(* ===== verification/PaymentBudget.v ===== *)
(** The budget of a tenant: while no other session interferes, the executed
    payments of a tenant never exceed its configured maximum. *)
From stdpp Require Import pretty.
From S2P Require Import Prelude RustStr Json Sql Runs RunQueue Tables PaymentTables PaymentRoutes.
From S2P Require Import Action Paths World Messages Payments PaymentProps PaymentLedger.

(** * What a ledger has spent *)

(** What a request adds to the sum of its tenant. *)
Definition contribution (tenant_id : string) (r : PaymentRequestRecord) : Z :=
  if String.eqb (pq_tenant_id r) tenant_id && executed_payment r then default 0 (pq_amount_msat r) else 0.

Definition spent (tenant_id : string) (rows : list PaymentRequestRecord) : Z :=
  foldr (fun r total => contribution tenant_id r + total) 0 rows.

Lemma spent_payments tenant_id d :
  sum_amounts (tenant_payments tenant_id d) = spent tenant_id (d_payment_requests d).
Proof.
  unfold tenant_payments, sum_amounts. induction (d_payment_requests d) as [|r rows IH]; [done|].
  cbn [List.filter spent foldr]. unfold contribution at 1.
  destruct (String.eqb (pq_tenant_id r) tenant_id && executed_payment r); cbn [foldr]; rewrite IH;
    unfold spent; lia.
Qed.

Section budget.
Context (tenant_id : string) (lim : Z).

(** Nothing negative is counted, and the sum is within the maximum. *)
Definition within_budget (rows : list PaymentRequestRecord) : Prop :=
  Forall (fun r => 0 <= contribution tenant_id r) rows /\ spent tenant_id rows <= lim /\
  ids_distinct pq_id rows.

(** It would still be if request [id] were executed. *)
Definition affordable (id : Uuid) (rows : list PaymentRequestRecord) : Prop :=
  within_budget rows /\ within_budget (with_status id "executed" 0 rows).

(** Request [id] is there, as the call asked. *)
Definition requested (c : PaymentCall) (id : Uuid) (rows : list PaymentRequestRecord) : Prop :=
  within_budget rows /\ exists r, r ∈ rows /\ pq_id r = id /\
    pq_operation r = PaymentOperation_as_str (pl_operation c) /\
    pq_amount_msat r = as_i64_cast <$> pl_amount_msat c.

Lemma contribution_status status now r : status <> "executed" ->
  contribution tenant_id (set_payment_status status now r) = 0.
Proof.
  intros Hs%String.eqb_neq. unfold contribution, executed_payment. cbn. rewrite Hs. by rewrite !andb_false_r.
Qed.

Lemma status_ids id status now rows : map pq_id (with_status id status now rows) = map pq_id rows.
Proof. unfold with_status. rewrite map_map. apply map_ext. intros r. by destruct (pq_id r =? id). Qed.

Lemma status_distinct id status now rows :
  ids_distinct pq_id (with_status id status now rows) <-> ids_distinct pq_id rows.
Proof. unfold ids_distinct. by rewrite status_ids. Qed.

Lemma status_within id status now rows : status <> "executed" ->
  within_budget rows -> within_budget (with_status id status now rows).
Proof.
  intros Hs (HF & Hle & Hd). split_and!; [| |by apply status_distinct].
  - unfold with_status. apply Forall_map. eapply Forall_impl; [exact HF|]. intros r Hr. cbn.
    destruct (pq_id r =? id); [by rewrite contribution_status|done].
  - etrans; [|exact Hle]. clear Hle Hd. induction HF as [|r rows Hr _ IH]; cbn; [done|].
    destruct (pq_id r =? id); [rewrite contribution_status by done|]; unfold spent, with_status in IH; lia.
Qed.

(** The last status counts, whenever it was set. *)
Lemma status_status id s1 t1 s2 t2 rows :
  spent tenant_id (with_status id s1 t1 (with_status id s2 t2 rows)) = spent tenant_id (with_status id s1 0 rows) /\
  (Forall (fun r => 0 <= contribution tenant_id r) (with_status id s1 0 rows) ->
   Forall (fun r => 0 <= contribution tenant_id r) (with_status id s1 t1 (with_status id s2 t2 rows))).
Proof.
  assert (forall r, contribution tenant_id (if pq_id (if pq_id r =? id then set_payment_status s2 t2 r else r) =? id
      then set_payment_status s1 t1 (if pq_id r =? id then set_payment_status s2 t2 r else r)
      else (if pq_id r =? id then set_payment_status s2 t2 r else r)) =
    contribution tenant_id (if pq_id r =? id then set_payment_status s1 0 r else r)) as HC.
  { intros r. destruct (pq_id r =? id) eqn:Hid; cbn [set_payment_status pq_id]; by rewrite Hid. }
  split.
  - unfold spent, with_status. induction rows as [|r rows IH]; cbn [map foldr]; [done|].
    by rewrite HC, IH.
  - unfold with_status. rewrite !Forall_map, !Forall_forall. intros H r Hr. cbn. rewrite HC. by apply H.
Qed.

Lemma failed_affordable id now rows : affordable id rows -> affordable id (with_status id "failed" now rows).
Proof.
  intros [H1 (HF & Hle & Hd)]. split; [by apply status_within|].
  destruct (status_status id "executed" 0 "failed" now rows) as [Hs HF'].
  split_and!; [by apply HF'|by rewrite Hs|by rewrite !status_distinct in *].
Qed.

Lemma executed_within id now rows : affordable id rows -> within_budget (with_status id "executed" now rows).
Proof.
  intros [_ (HF & Hle & Hd)].
  destruct (status_status id "executed" now "executed" now rows) as [Hs HF'].
  assert (with_status id "executed" now (with_status id "executed" now rows) =
          with_status id "executed" now rows) as Heq.
  { unfold with_status. rewrite map_map. apply map_ext. intros r.
    destruct (pq_id r =? id) eqn:Hid; cbn [set_payment_status pq_id]; by rewrite Hid. }
  rewrite Heq in Hs, HF'.
  split_and!; [by apply HF'|by rewrite Hs|by rewrite !status_distinct in *].
Qed.

Lemma failed_requested c id now rows : requested c id rows -> requested c id (with_status id "failed" now rows).
Proof.
  intros [H (r & Hr & Hid & Ho & Ha)]. split; [by apply status_within|].
  exists (set_payment_status "failed" now r). split_and!; try done. unfold with_status.
  apply list_elem_of_fmap. exists r. by rewrite Hid, Z.eqb_refl.
Qed.

(** Executing one request adds at most its amount. *)
Lemma executed_spent id a rows :
  ids_distinct pq_id rows -> 0 <= a ->
  (forall r, r ∈ rows -> pq_id r = id -> contribution tenant_id (set_payment_status "executed" 0 r) = a \/
                                         contribution tenant_id (set_payment_status "executed" 0 r) = 0) ->
  Forall (fun r => 0 <= contribution tenant_id r) rows ->
  Forall (fun r => 0 <= contribution tenant_id r) (with_status id "executed" 0 rows) /\
  spent tenant_id (with_status id "executed" 0 rows) <= spent tenant_id rows + a.
Proof.
  unfold with_status. intros Hd H0 Ha HF.
  induction HF as [|r rows Hr HF IH]; cbn [map spent foldr]; [split; [done|lia]|].
  unfold ids_distinct in Hd. cbn [map] in Hd. apply NoDup_cons in Hd as [Hnot Hd].
  destruct (pq_id r =? id) eqn:Hid.
  - assert (map (fun r => if pq_id r =? id then set_payment_status "executed" 0 r else r) rows = rows) as ->.
    { rewrite <- (map_id rows) at 2. apply map_ext_in. intros x Hx. destruct (pq_id x =? id) eqn:Hx'; [|done].
      bool_hyps. exfalso. apply Hnot. apply list_elem_of_fmap. exists x. split; [congruence|].
      by apply list_elem_of_In. }
    bool_hyps. destruct (Ha r ltac:(left) Hid) as [He|He]; rewrite He;
      (split; [constructor; [lia|done]|fold (spent tenant_id rows); lia]).
  - destruct IH as [IHF IHs]; [done|intros x Hx; apply Ha; by right|].
    split; [by constructor|]. unfold spent in IHs. lia.
Qed.
End budget.

(** * The executor within a budget *)

Section executor.
Context {X : Type} (E : env) (pe : payment_externals) (pc : PaymentConfig) (worker_id root : string).
Context (HE : quiet E) (lim : Z) (Hlim : pc_max_spend_msat_per_tenant pc = Some lim) (Hmax : lim <= i64_max).
Context (run : RunLeaseRecord).
#[local] Abbreviation tenant := (l_tenant_id run).
#[local] Abbreviation on_rows P := (fun d => P (d_payment_requests d)).
#[local] Abbreviation good := (on_rows (within_budget tenant lim)).

Lemma quiet_kept (P : list PaymentRequestRecord -> Prop) : stable (X := X) (on_rows P) E.
Proof. by apply stable_quiet. Qed.

Lemma affordable_good id d : affordable tenant lim id (d_payment_requests d) -> good d.
Proof. by intros [H _]. Qed.

Lemma requested_good c id d : requested tenant lim c id (d_payment_requests d) -> good d.
Proof. by intros [H _]. Qed.

(** A call other than a payment costs nothing. *)
Lemma free_affordable c id rows : pl_operation c <> PayInvoice ->
  requested tenant lim c id rows -> affordable tenant lim id rows.
Proof.
  intros Ho [(HF & Hle & Hd) (r & Hr & Hid & Hop & _)]. split; [done|].
  destruct (executed_spent tenant id 0 rows Hd ltac:(done)) as [H1 H2]; [|done|].
  - intros x Hx Hxid. right. assert (x = r) as -> by (by apply (ids_distinct_inj pq_id rows); [..|congruence]).
    unfold contribution, executed_payment. cbn. rewrite Hop. destruct (pl_operation c); [done|..];
      by rewrite andb_false_r.
  - split_and!; [done|lia|by apply status_distinct].
Qed.

(** A payment is affordable when its amount fits. *)
Lemma fitting_affordable c id amount rows : pl_amount_msat c = Some amount -> 0 <= amount ->
  Z.max (spent tenant rows) 0 + amount <= lim ->
  requested tenant lim c id rows -> affordable tenant lim id rows.
Proof.
  intros Ha H0 Hfit [(HF & Hle & Hd) (r & Hr & Hid & Hop & Hra)]. split; [done|].
  rewrite Ha in Hra. cbn in Hra. unfold as_i64_cast in Hra.
  assert ((amount <=? i64_max) = true) as Hc by lia. rewrite Hc in Hra.
  destruct (executed_spent tenant id amount rows Hd H0) as [H1 H2]; [|done|].
  - intros x Hx Hxid. assert (x = r) as -> by (by apply (ids_distinct_inj pq_id rows); [..|congruence]).
    unfold contribution. cbn. rewrite Hra. destruct (_ && _); auto.
  - split_and!; [done|lia|by apply status_distinct].
Qed.

Lemma tenant_check_hoare c id amount :
  pl_amount_msat c = Some amount -> 0 <= amount ->
  hoare (X := X) (on_rows (requested tenant lim c id))
    (check_budget E "tenant" "PAYMENT_TENANT_BUDGET_EXCEEDED" (pc_max_spend_msat_per_tenant pc)
       (pl_amount_msat c) (let! total := db_sum_for_tenant E tenant in ret (Z.max total 0)) id)
    (fun _ => on_rows (affordable tenant lim id)) good.
Proof.
  intros Ha H0. unfold check_budget. rewrite Hlim, Ha.
  apply hoare_bind with (R := fun v d => requested tenant lim c id (d_payment_requests d) /\
                                         v = Z.max (spent tenant (d_payment_requests d)) 0).
  - apply hoare_bind with (R := fun v d => requested tenant lim c id (d_payment_requests d) /\
                                           v = spent tenant (d_payment_requests d)).
    + apply hoare_stmt; [done| |intros d; apply requested_good]. intros _ d d' a Hd.
      unfold sum_executed_payment_amount_msat_for_tenant_dual, by_pool,
        sum_executed_payment_amount_msat_for_tenant, sum_executed_payment_amount_msat_for_tenant_sqlite,
        sum_i64. cbn zeta.
      destruct (env_pool E); rewrite spent_payments; (destruct (require _ _); [|done]); by intros [= <- <-].
    + intros v. apply hoare_ret. by intros d [Hd ->].
  - intros v. destruct (lim <? saturating_add_u64 v amount) eqn:Hl.
    + apply (hoare_weaken (on_rows (requested tenant lim c id)) _ _
        (fun _ => on_rows (affordable tenant lim id)) _ good _); [|by intros d [Hd _]|done|done].
      apply (refuse_hoare E _ (quiet_kept _)); [|intros d; apply requested_good].
      intros now rows. apply failed_requested.
    + apply hoare_ret. intros d [Hd ->]. apply (fitting_affordable c id amount); try done.
      unfold saturating_add_u64, u64_max, i64_max in *. lia.
Qed.

Lemma limits_hoare c id spend :
  (pl_operation c = PayInvoice -> exists amount, pl_amount_msat c = Some amount /\ 0 <= amount) ->
  hoare (X := X) (on_rows (requested tenant lim c id)) (check_limits E pc run c id spend)
    (fun _ => on_rows (affordable tenant lim id)) good.
Proof.
  intros Hamount. unfold check_limits. destruct (pl_operation c) eqn:Ho;
    [|apply hoare_ret; intros d; apply free_affordable; by rewrite Ho..].
  destruct (Hamount eq_refl) as (amount & Ha & H0).
  assert (forall now rows, requested tenant lim c id rows ->
    requested tenant lim c id (with_status id "failed" now rows)) as HF by (intros; by apply failed_requested).
  assert (forall now rows, affordable tenant lim id rows ->
    affordable tenant lim id (with_status id "failed" now rows)) as HF' by (intros; by apply failed_affordable).
  apply hoare_bind with (R := fun _ => on_rows (requested tenant lim c id)).
  { apply hoare_frame; [|apply requested_good]. by apply (kept_approval E pc _ (quiet_kept _)). }
  intros _. apply hoare_bind with (R := fun _ => on_rows (requested tenant lim c id)).
  { apply hoare_frame; [|apply requested_good]. apply (kept_budget E _ (quiet_kept _) id HF). apply keeps_ret. }
  intros _. apply hoare_bind with (R := fun _ => on_rows (affordable tenant lim id)).
  { by apply (tenant_check_hoare c id amount). }
  intros _. apply hoare_frame; [|apply affordable_good]. apply (kept_budget E _ (quiet_kept _) id HF').
  unfold db_sum_for_agent. apply keeps_bind; [apply (kept_query E _ (quiet_kept _))|intros a; apply keeps_ret].
Qed.

Lemma record_hoare c request output spend :
  hoare (X := X) (on_rows (affordable tenant lim (pq_id request)))
    (record_payment E pe pc root run c request output spend) (fun _ => good) good.
Proof.
  unfold record_payment.
  apply hoare_bind with (R := fun _ => on_rows (affordable tenant lim (pq_id request))).
  { apply hoare_frame; [apply keeps_new_v4|apply affordable_good]. }
  intros result_id. apply hoare_bind with (R := fun _ => on_rows (affordable tenant lim (pq_id request))).
  { apply hoare_frame; [apply (kept_create_result E _ (quiet_kept _))|apply affordable_good]. }
  intros payment_result. apply hoare_bind with (R := fun _ => good).
  { unfold ignore. apply hoare_try with (R := good).
    - apply hoare_stmt; [done| |apply affordable_good]. intros now d d' a Hd F. unfold total in F.
      destruct (update_status_requests (env_pool E) now (pq_id request) "executed" d) as [t Ht].
      destruct (update_payment_request_status_dual _ _ _ _ _) as [d1 b]. injection F as <- _.
      cbn [fst] in Ht. rewrite Ht. by apply executed_within.
    - intros r. by apply hoare_ret. }
  intros _. apply hoare_frame; [|done].
  repeat first [apply (kept_store E _ (quiet_kept _)) | keeps_step].
Qed.

Lemma pay_hoare c request spend :
  (pl_operation c = PayInvoice -> exists amount, pl_amount_msat c = Some amount /\ 0 <= amount) ->
  hoare (X := X) (on_rows (requested tenant lim c (pq_id request)))
    (pay E pe pc worker_id root run c request spend) (fun _ => good) good.
Proof.
  intros Hamount. unfold pay.
  apply hoare_bind with (R := fun _ => on_rows (affordable tenant lim (pq_id request))).
  { by apply limits_hoare. }
  intros _. apply hoare_bind with (R := fun _ => on_rows (affordable tenant lim (pq_id request))).
  { apply hoare_frame; [|apply affordable_good].
    destruct (kept_rail (X := X) E pe pc worker_id _ (quiet_kept _) (pq_id request)
      (fun now rows => failed_affordable tenant lim (pq_id request) now rows) c) as [Hn Hc].
    by destruct (pd_provider (pl_parsed c)). }
  intros output. apply record_hoare.
Qed.

(** The new row. *)
Lemma create_hoare c action row_id :
  hoare (X := X) (fun d => good d /\ forall r, r ∈ d_payment_requests d -> pq_action_request_id r <> action)
    (db_create_or_get_payment_request E (new_payment_request run action c row_id))
    (fun request d => good d /\ (pq_action_request_id request = action ->
       requested tenant lim c (pq_id request) (d_payment_requests d))) good.
Proof.
  apply hoare_stmt; [done| |by intros d []]. intros now d d' r [Hg Hfresh] (_ & t & H)%create_or_get_dual_Ok.
  apply insert_or_get_Ok in H as (_ & Hfind & [->|(_ & -> & Hrows & Hid)]).
  - split; [done|]. intros Ha. exfalso. apply List.find_some in Hfind as [Hin _].
    by apply (Hfresh r); [apply list_elem_of_In|].
  - set (row := payment_row t (new_payment_request run action c row_id)) in *.
    assert (contribution tenant row = 0) as H0.
    { unfold contribution, executed_payment. cbn. by rewrite !andb_false_r. }
    assert (within_budget tenant lim (d_payment_requests d')) as Hg'.
    { destruct Hg as (HF & Hle & Hd). rewrite Hrows. split_and!.
      - apply Forall_app. split; [done|]. constructor; [lia|done].
      - unfold spent in *. rewrite foldr_app. cbn. rewrite H0. done.
      - unfold ids_distinct in *. rewrite map_app. apply NoDup_app. split_and!; [done| |].
        + intros x Hx. apply list_elem_of_fmap in Hx as (y & -> & Hy). intros [Heq|[]%elem_of_nil]%elem_of_cons.
          by apply (Hid y).
        + apply NoDup_singleton. }
    split; [done|]. intros _. split; [done|]. exists row. rewrite Hrows.
    split_and!; [set_solver|done|done|done].
Qed.
End executor.


