(* ===== verification/Worker.v ===== *)
(** The worker's execution of a claimed run (worker/src/lib.rs): from the step row
    to the last action, every database call included, payments among them.  The
    skill process, the agent-context loader and the local-exec executor are arguments
    of the model. *)
From S2P Require Import Prelude RustStr Json Policy Capabilities Redaction Sql Runs Tables.
From S2P Require Import Action Paths PaymentRoutes World Messages Payments LlmTables LlmPlan LlmGateway LlmExecutor.

(** * Configuration and context *)

Record WorkerConfig := {
  cf_worker_id : string;
  cf_approval_required_action_types : list string;
  cf_messages : MessageConfig;
  cf_payments : PaymentConfig;
  cf_llm : LlmConfig;
  cf_agent_context_enabled : bool;
  cf_agent_context_required : bool;
  cf_skill_command : string;
  cf_skill_args : list string;
  cf_skill_recipe_commands : gmap string (list string);
  cf_skill_script_sha256 : option string;
  cf_skill_timeout_ms : Z;
}.

Record ActionExecutionContext := {
  ec_remote_llm_tokens_remaining : option Z;
  ec_payment_spend_msat : Z;
  ec_last_llm_response_text : option string;
}.

(** What the LLM executor changes of it, and what the payment executor does. *)
Definition after_llm (ctx : ActionExecutionContext) (c : LlmContext) : ActionExecutionContext :=
  {| ec_remote_llm_tokens_remaining := lc_remote_llm_tokens_remaining c;
     ec_payment_spend_msat := ec_payment_spend_msat ctx;
     ec_last_llm_response_text := lc_last_llm_response_text c |}.

Definition after_payment (ctx : ActionExecutionContext) (spend : Z) : ActionExecutionContext :=
  {| ec_remote_llm_tokens_remaining := ec_remote_llm_tokens_remaining ctx;
     ec_payment_spend_msat := spend;
     ec_last_llm_response_text := ec_last_llm_response_text ctx |}.

(** * The skill protocol *)

Record SkillCapabilityGrant := { sg_capability : string; sg_scope : string }.

Record InvokeRequest := {
  iv_id : string;
  iv_tenant_id : string;
  iv_run_id : string;
  iv_step_id : string;
  iv_time_budget_ms : Z;
  iv_trace_id : option string;
  iv_granted_capabilities : list SkillCapabilityGrant;
  iv_input : json;
}.

Record InvokeResult := { ir_output : json; ir_action_requests : list SkillAction }.

Inductive AgentContext :=
| ContextLoaded (summary skill_context : json)
| ContextNotFound (searched_paths : json)
| ContextError (message : string).

(** The code and services the worker calls; [nat] is the tick of the call. *)
Record externals := {
  x_to_vec : json -> string;
  x_to_vec_pretty : json -> string;
  x_send_webhook_message : nat -> string -> string -> string -> result SlackSendResult string;
  x_resolve_identity : result (option (string * string)) string;
  x_whitenoise_publish : nat -> string -> string -> option json * option string * option json;
  x_read_file : nat -> string -> result string string;
  x_sha256_hex : string -> string;
  x_invoke : nat -> string -> list string -> InvokeRequest -> result InvokeResult string;
  x_load_agent_context : nat -> string -> Uuid -> AgentContext;
  x_payments : payment_externals;
  x_llm : llm_externals;
  x_local_exec : nat -> json -> result json string;
}.

(** [llm_policy_scope_for_action(..).map_err(|error| error.to_string())]; its errors
    are messages and contexts. *)
Definition llm_scope (ext : externals) (cfg : WorkerConfig) (args : json) : result string string :=
  map_err plan_error_text (policy_scope_for_action (lx_channel_env (x_llm ext)) args (cf_llm cfg)).

(** * Pure helpers *)

Definition extract_trace_id_from_run_input (input_json : json) : option string :=
  get_str "_trace" input_json.

Definition append_trace_to_audit_payload (payload : json) (trace_id : string) : json :=
  match payload with
  | JObj m => JObj (map_insert "trace_id" (JStr trace_id) m)
  | other => jobject [("payload", other); ("trace_id", JStr trace_id)]
  end.

Definition inject_agent_context_payload (input agent_context : json) : json :=
  match input with
  | JObj m => JObj (map_insert "agent_context" agent_context m)
  | other => jobject [("input", other); ("agent_context", agent_context)]
  end.

Definition inject_runtime_metadata_payload (E : env) (input : json) (run : RunLeaseRecord) : json :=
  let metadata := jobject
    [("tenant_id", JStr (l_tenant_id run)); ("agent_id", JStr (env_uuid_text E (l_agent_id run)));
     ("run_id", JStr (env_uuid_text E (l_id run))); ("recipe_id", JStr (l_recipe_id run))] in
  match input with
  | JObj m => JObj (match map_get "runtime" m with
                    | Some _ => m
                    | None => map_insert "runtime" metadata m
                    end)
  | other => jobject [("input", other); ("runtime", metadata)]
  end.

Definition resolve_skill_command_for_run (cfg : WorkerConfig) (recipe_id : string)
    : result (string * list string) string :=
  match cf_skill_recipe_commands cfg !! recipe_id with
  | Some [] => Err ("WORKER_SKILL_RECIPE_COMMANDS entry for `" +:+ recipe_id +:+ "` is empty")
  | Some (command :: args) => Ok (command, args)
  | None => Ok (cf_skill_command cfg, cf_skill_args cfg)
  end.

(** The file whose digest is checked. *)
Definition provenance_script_path (command : string) (args : list string) : string :=
  match args with
  | first_arg :: _ => if starts_with "-" first_arg then command else first_arg
  | [] => command
  end.

Definition extract_llm_budget_soft_alerts (result_json : json) : list json :=
  default [] (get2 "token_accounting" "soft_alerts" result_json ≫= as_array).

Definition extract_llm_slo_alerts (result_json : json) : list json :=
  let gateway k := get2 "gateway" k result_json in
  let status := default "not_configured" (gateway "slo_status" ≫= as_str) in
  if negb (String.eqb status "warn") && negb (String.eqb status "breach") then []
  else [jobject
    [("status", JStr status); ("request_class", jstr_opt (gateway "request_class" ≫= as_str));
     ("threshold_ms", jopt (jint <$> (gateway "slo_threshold_ms" ≫= as_u64)));
     ("latency_ms", jopt (jint <$> (gateway "slo_latency_ms" ≫= as_u64)));
     ("reason_code", jstr_opt (gateway "slo_reason_code" ≫= as_str))]].

Section worker.
Context {X : Type}.
Context (E : env) (ext : externals) (cfg : WorkerConfig).

(** * Audit *)

Definition append_audit_event_redacted (event : NewAuditEvent) : M X unit :=
  let event :=
    {| ne_id := ne_id event; ne_run_id := ne_run_id event; ne_step_id := ne_step_id event;
       ne_tenant_id := ne_tenant_id event; ne_agent_id := ne_agent_id event;
       ne_user_id := ne_user_id event; ne_actor := ne_actor event;
       ne_event_type := ne_event_type event;
       ne_payload_json := redact_json (ne_payload_json event) |} in
  stmt E (no_value (fun now => append_audit_event_dual (env_pool E) now event)) (fun _ => [Audited event]).

Definition append_audit_event_with_trace (event : NewAuditEvent) (run_trace_id : option string)
    : M X unit :=
  append_audit_event_redacted
    {| ne_id := ne_id event; ne_run_id := ne_run_id event; ne_step_id := ne_step_id event;
       ne_tenant_id := ne_tenant_id event; ne_agent_id := ne_agent_id event;
       ne_user_id := ne_user_id event; ne_actor := ne_actor event;
       ne_event_type := ne_event_type event;
       ne_payload_json := match run_trace_id with
                          | Some t => append_trace_to_audit_payload (ne_payload_json event) t
                          | None => ne_payload_json event
                          end |}.

(** The event literal every call site repeats. *)
Definition run_event (run : RunLeaseRecord) (trace : option string) (step : option Uuid)
    (event_type : string) (payload : json) : M X unit :=
  let! id := new_v4 E in
  append_audit_event_with_trace
    {| ne_id := id; ne_run_id := l_id run; ne_step_id := step; ne_tenant_id := l_tenant_id run;
       ne_agent_id := Some (l_agent_id run); ne_user_id := l_triggered_by_user_id run;
       ne_actor := "worker:" +:+ cf_worker_id cfg; ne_event_type := event_type;
       ne_payload_json := payload |} trace.

(** * Database calls *)

Definition db_create_step (n : NewStep) : M X StepRecord :=
  stmt E (fun now => create_step_dual (env_pool E) now n) (fun r => [StepCreated (sr_id r)]).

Definition db_mark_step_failed (id : Uuid) (err : json) : M X bool :=
  stmt E (total (fun now => mark_step_failed_dual (env_pool E) now id err))
    (fun b => if b then [StepClosed id "failed"] else []).

Definition db_mark_step_succeeded (id : Uuid) (output : json) : M X bool :=
  stmt E (total (fun now => mark_step_succeeded_dual (env_pool E) now id output))
    (fun b => if b then [StepClosed id "succeeded"] else []).

Definition db_create_action_request (n : NewActionRequest) : M X unit :=
  stmt E (no_value (fun now => create_action_request_dual (env_pool E) now n))
    (fun _ => [RequestCreated (na_id n) n]).

Definition db_update_action_request_status (id : Uuid) (status : string) (reason : option string)
    : M X bool :=
  stmt E (fun _ => update_action_request_status_dual (env_pool E) id status reason)
    (fun _ => [RequestStatus id status reason]).

Definition db_create_action_result (id : Uuid) (status : string) (res err : option json)
    : M X unit :=
  let! rid := new_v4 E in
  stmt E (no_value (fun now => create_action_result_dual (env_pool E) now
            {| nr_id := rid; nr_action_request_id := id; nr_status := status;
               nr_result_json := res; nr_error_json := err |}))
    (fun _ => [ResultStored id status]).

(** * Preparing and invoking the skill *)

Definition prepare_skill_input_with_agent_context (run : RunLeaseRecord) (step_id : Uuid)
    (trace : option string) : M X json :=
  let input := inject_runtime_metadata_payload E (l_input_json run) run in
  if negb (cf_agent_context_enabled cfg) then ret input else
  let! loaded := ask (fun t => x_load_agent_context ext t (l_tenant_id run) (l_agent_id run)) in
  match loaded with
  | ContextLoaded summary skill_context =>
      let! _ := run_event run trace (Some step_id) "agent.context.loaded" summary in
      ret (inject_agent_context_payload input skill_context)
  | ContextNotFound searched_paths =>
      let! _ := run_event run trace (Some step_id) "agent.context.not_found"
        (jobject [("searched_paths", searched_paths);
                  ("required", JBool (cf_agent_context_required cfg))]) in
      if cf_agent_context_required cfg
      then throw (Anyhow ("agent context profile required but not found for agent " +:+
                          env_uuid_text E (l_agent_id run)))
      else ret input
  | ContextError message =>
      let! _ := run_event run trace (Some step_id) "agent.context.error"
        (jobject [("error", JStr (redact_text message));
                  ("required", JBool (cf_agent_context_required cfg))]) in
      if cf_agent_context_required cfg
      then throw (Anyhow ("agent context profile load failed: " +:+ message))
      else ret input
  end.

Definition verify_skill_script_provenance (command : string) (args : list string) : M X unit :=
  match cf_skill_script_sha256 cfg with
  | None => ret tt
  | Some expected_digest =>
      let script_path := provenance_script_path command args in
      if is_empty (trim script_path)
      then throw (Anyhow "WORKER_SKILL_SCRIPT_SHA256 requires WORKER_SKILL_SCRIPT or executable path")
      else
        let! content := ask (fun t => x_read_file ext t script_path) in
        let! script_bytes := lift (anyhow content) in
        let actual_digest := x_sha256_hex ext script_bytes in
        if String.eqb actual_digest expected_digest then ret tt
        else throw (Anyhow ("WORKER_SKILL_SCRIPT_SHA256 mismatch for " +:+ script_path +:+
                            " (expected=" +:+ expected_digest +:+ ", got=" +:+ actual_digest +:+ ")"))
  end.

Definition invoke_skill (run : RunLeaseRecord) (step_id : Uuid) (trace : option string)
    (input : json) (gs : GrantSet) : M X InvokeResult :=
  let! (command, args) := lift (anyhow (resolve_skill_command_for_run cfg (l_recipe_id run))) in
  let! _ := verify_skill_script_provenance command args in
  let granted_capabilities :=
    map (fun g => {| sg_capability := capability_kind_to_action_type (kind g);
                     sg_scope := scope g |}) (grants gs) in
  let! request_id := new_v4 E in
  let request :=
    {| iv_id := env_uuid_text E request_id; iv_tenant_id := l_tenant_id run;
       iv_run_id := env_uuid_text E (l_id run); iv_step_id := env_uuid_text E step_id;
       iv_time_budget_ms := Z.min (Z.max (cf_skill_timeout_ms cfg) 1) u64_max;
       iv_trace_id := trace; iv_granted_capabilities := granted_capabilities;
       iv_input := input |} in
  let! answer := ask (fun t => x_invoke ext t command args request) in
  let! res := lift (anyhow answer) in
  let! _ := note (SkillReturned (ir_action_requests res)) in
  ret res.

(** * Executing one action *)

(** The [match] on the action type. *)
Definition dispatch_action (run : RunLeaseRecord) (action_request_id : Uuid) (a : SkillAction)
    (ctx : ActionExecutionContext) : M X (json * ActionExecutionContext) :=
  let args := sk_args a in
  let same_ctx m := let! v := m in ret (v, ctx) in
  let mc := cf_messages cfg in
  match str_match (sk_action_type a)
    [(["object.write"], same_ctx (execute_object_write_action E mc run args));
     (["message.send"], same_ctx (execute_message_send_action E (x_send_webhook_message ext)
        (x_resolve_identity ext) (x_whitenoise_publish ext) (x_to_vec_pretty ext) mc run args
        (ec_last_llm_response_text ctx)));
     (["message.receive"], same_ctx (execute_message_receive_action E (x_to_vec_pretty ext) mc run args));
     (["payment.send"],
        let! (v, spend) := execute_payment_send_action E (x_payments ext) (cf_payments cfg)
          (cf_worker_id cfg) (mc_artifact_root mc) run action_request_id args
          (ec_payment_spend_msat ctx) in
        ret (v, after_payment ctx spend));
     (["llm.infer"],
        let! (v, c) := execute_llm_infer_action E (x_llm ext) (cf_llm cfg) run action_request_id args
          (ec_remote_llm_tokens_remaining ctx) in
        ret (v, after_llm ctx c));
     (["local.exec"], same_ctx (let! r := ask (fun t => x_local_exec ext t args) in lift (anyhow r)))] with
  | Some m => m
  | None => throw (Anyhow ("unsupported action type: " +:+ sk_action_type a))
  end.

Definition execute_action (run : RunLeaseRecord) (action_request_id : Uuid) (a : SkillAction)
    (ctx : ActionExecutionContext) : M X (json * ActionExecutionContext) :=
  let! _ := note (Executing action_request_id a) in
  dispatch_action run action_request_id a ctx.

(** * The life of one action request *)

(** Recording a refusal or a failure: the request's status, its result, the
    audit event, the step; then the error that ends the run. *)
Definition close_action (run : RunLeaseRecord) (trace : option string) (step_id id : Uuid)
    (status reason : string) (result_error : list (string * json))
    (event_type : string) (event_payload : list (string * json))
    (step_error : list (string * json)) : M X unit :=
  let! _ := db_update_action_request_status id status (Some reason) in
  let! _ := db_create_action_result id status None (Some (redact_json (jobject result_error))) in
  let! _ := run_event run trace (Some step_id) event_type (jobject event_payload) in
  let! _ := db_mark_step_failed step_id (redact_json (jobject step_error)) in
  ret tt.

Definition deny_by_contract (run : RunLeaseRecord) (trace : option string) (step_id id : Uuid)
    (a : SkillAction) (e : ContractValidationError) : M X ActionExecutionContext :=
  let reason_str := DenyReason_as_str (cve_reason e) in
  let! _ := close_action run trace step_id id "denied" reason_str
    [("code", JStr "POLICY_DENIED"); ("reason", JStr reason_str); ("detail", JStr (cve_detail e))]
    "action.denied"
    [("action_type", JStr (sk_action_type a)); ("reason", JStr reason_str);
     ("source", JStr "contract"); ("detail", JStr (cve_detail e))]
    [("code", JStr "ACTION_DENIED"); ("reason", JStr reason_str)] in
  throw (Anyhow "action denied by contract validation").

Definition deny_by_governance (run : RunLeaseRecord) (trace : option string) (step_id id : Uuid)
    (req : ActionRequest) : M X ActionExecutionContext :=
  let reason_str := "approval_required" in
  let! _ := close_action run trace step_id id "denied" reason_str
    [("code", JStr "POLICY_DENIED"); ("reason", JStr reason_str)]
    "action.denied"
    [("action_type", JStr (action_type req)); ("reason", JStr reason_str);
     ("source", JStr "governance")]
    [("code", JStr "ACTION_DENIED"); ("reason", JStr reason_str)] in
  throw (Anyhow ("action denied by governance approval gate: " +:+ reason_str)).

Definition deny_by_policy (run : RunLeaseRecord) (trace : option string) (step_id id : Uuid)
    (req : ActionRequest) (reason : DenyReason) : M X ActionExecutionContext :=
  let reason_str := DenyReason_as_str reason in
  let! _ := close_action run trace step_id id "denied" reason_str
    [("code", JStr "POLICY_DENIED"); ("reason", JStr reason_str)]
    "action.denied" [("action_type", JStr (action_type req)); ("reason", JStr reason_str)]
    [("code", JStr "ACTION_DENIED"); ("reason", JStr reason_str)] in
  throw (Anyhow ("action denied by policy: " +:+ reason_str)).

Definition fail_action (run : RunLeaseRecord) (trace : option string) (step_id id : Uuid)
    (req : ActionRequest) (e : error) : M X ActionExecutionContext :=
  let error_message := redact_text (render_error E e) in
  let! _ := close_action run trace step_id id "failed" "execution_failed"
    [("code", JStr "ACTION_EXECUTION_FAILED"); ("message", JStr error_message)]
    "action.failed"
    [("action_type", JStr (action_type req)); ("error", JStr error_message)]
    [("code", JStr "ACTION_EXECUTION_FAILED"); ("message", JStr error_message)] in
  throw (Anyhow ("action execution failed: " +:+ error_message)).

(** An alert event, when there is something to alert about. *)
Definition alert_event (run : RunLeaseRecord) (trace : option string) (step_id id : Uuid)
    (req : ActionRequest) (event_type : string) (alerts : list json) : M X unit :=
  match alerts with
  | [] => ret tt
  | _ => run_event run trace (Some step_id) event_type
           (jobject [("action_type", JStr (action_type req));
                     ("action_request_id", JStr (env_uuid_text E id)); ("alerts", JArr alerts)])
  end.

Definition finish_action (run : RunLeaseRecord) (trace : option string) (step_id id : Uuid)
    (req : ActionRequest) (result_json : json) : M X unit :=
  let! _ := db_update_action_request_status id "executed" None in
  let is_llm := String.eqb (action_type req) "llm.infer" in
  let soft_alerts := if is_llm then extract_llm_budget_soft_alerts result_json else [] in
  let slo_alerts := if is_llm then extract_llm_slo_alerts result_json else [] in
  let! _ := db_create_action_result id "executed" (Some (redact_json result_json)) None in
  let! _ := alert_event run trace step_id id req "llm.budget.soft_alert" soft_alerts in
  let! _ := alert_event run trace step_id id req "llm.slo.alert" slo_alerts in
  run_event run trace (Some step_id) "action.executed"
    (jobject [("action_type", JStr (action_type req)); ("result", result_json)]).

(** [PolicyDecision::Allow] *)
Definition allowed_action (run : RunLeaseRecord) (trace : option string) (step_id id : Uuid)
    (a : SkillAction) (req : ActionRequest) (ctx : ActionExecutionContext)
    : M X ActionExecutionContext :=
  if requires_governance_approval (cf_approval_required_action_types cfg) (action_type req)
     && negb (is_action_governance_approved a)
  then deny_by_governance run trace step_id id req
  else
    let! _ := db_update_action_request_status id "allowed" None in
    let! _ := run_event run trace (Some step_id) "action.allowed"
                (jobject [("action_type", JStr (action_type req))]) in
    try (execute_action run id a ctx) (fun outcome =>
      match outcome with
      | Ok (result_json, ctx') =>
          let! _ := finish_action run trace step_id id req result_json in ret ctx'
      | Err e => fail_action run trace step_id id req e
      end).

Definition new_request (step_id id : Uuid) (a : SkillAction) : NewActionRequest :=
  {| na_id := id; na_step_id := step_id; na_action_type := sk_action_type a;
     na_args_json := redact_json (sk_args a);
     na_justification := Some (redact_text (sk_justification a));
     na_status := "requested"; na_decision_reason := None |}.

(** The body of the loop over [invoke_result.action_requests]. *)
Definition process_action (run : RunLeaseRecord) (trace : option string) (step_id : Uuid)
    (gs : GrantSet) (ctx : ActionExecutionContext) (raw : SkillAction)
    : M X ActionExecutionContext :=
  let a := normalize_skill_action raw in
  let! id := new_v4 E in
  let! _ := db_create_action_request (new_request step_id id a) in
  let! _ := run_event run trace (Some step_id) "action.requested"
              (jobject [("action_id", JStr (sk_action_id a)); ("action_type", JStr (sk_action_type a))]) in
  match to_policy_request (x_to_vec ext) (llm_scope ext cfg) a with
  | Err e => deny_by_contract run trace step_id id a e
  | Ok req =>
      match is_action_allowed gs req with
      | Allow => allowed_action run trace step_id id a req ctx
      | Deny reason => deny_by_policy run trace step_id id req reason
      end
  end.

Fixpoint process_actions (run : RunLeaseRecord) (trace : option string) (step_id : Uuid)
    (gs : GrantSet) (ctx : ActionExecutionContext) (raws : list SkillAction) : M X unit :=
  match raws with
  | [] => ret tt
  | raw :: rest =>
      let! ctx' := process_action run trace step_id gs ctx raw in
      process_actions run trace step_id gs ctx' rest
  end.

(** * The run *)

Definition start_step (run : RunLeaseRecord) (trace : option string) : M X StepRecord :=
  let! id := new_v4 E in
  let! step := db_create_step
    {| ns_id := id; ns_run_id := l_id run; ns_tenant_id := l_tenant_id run;
       ns_agent_id := l_agent_id run; ns_user_id := l_triggered_by_user_id run;
       ns_name := l_recipe_id run; ns_status := "running"; ns_input_json := l_input_json run;
       ns_error_json := None |} in
  let! _ := run_event run trace (Some (sr_id step)) "step.started"
              (jobject [("step_name", JStr (sr_name step))]) in
  ret step.

Definition skill_failed (run : RunLeaseRecord) (trace : option string) (step_id : Uuid) (e : error)
    : M X unit :=
  let error_message := redact_text (render_error E e) in
  let! _ := db_mark_step_failed step_id (redact_json (jobject
              [("code", JStr "SKILL_INVOKE_FAILED"); ("message", JStr error_message)])) in
  let! _ := run_event run trace (Some step_id) "step.failed"
              (jobject [("error", JStr error_message)]) in
  throw e.

(** After the skill has answered. *)
Definition run_actions (run : RunLeaseRecord) (trace : option string) (step_id : Uuid)
    (gs : GrantSet) (res : InvokeResult) : M X unit :=
  let! _ := run_event run trace (Some step_id) "skill.invoked"
    (jobject [("action_request_count", jint (Z.of_nat (length (ir_action_requests res))));
              ("agent_context_enabled", JBool (cf_agent_context_enabled cfg))]) in
  let ctx := {| ec_remote_llm_tokens_remaining := lm_remote_token_budget_per_run (cf_llm cfg);
                ec_payment_spend_msat := 0; ec_last_llm_response_text := None |} in
  let! _ := process_actions run trace step_id gs ctx (ir_action_requests res) in
  let! _ := db_mark_step_succeeded step_id (ir_output res) in
  run_event run trace (Some step_id) "step.completed" (jobject []).

Definition process_claimed_run (run : RunLeaseRecord) (trace : option string) : M X unit :=
  let! step := start_step run trace in
  let gs := parse_grant_set (l_granted_capabilities run) in
  let! skill_input := prepare_skill_input_with_agent_context run (sr_id step) trace in
  try (invoke_skill run (sr_id step) trace skill_input gs) (fun invoked =>
    match invoked with
    | Err e => skill_failed run trace (sr_id step) e
    | Ok res => run_actions run trace (sr_id step) gs res
    end).
End worker.
