(* ===== verification/WorkerFrame.v ===== *)
(** What the execution of a claimed run leaves alone: no action, payments
    included, and no record of an action changes the runs, the triggers, their
    events or their ledger. *)
From S2P Require Import Prelude RustStr Json Policy Capabilities Redaction Sql Runs RunQueue Tables.
From S2P Require Import TriggerTables PaymentTables PaymentRoutes Action Paths World Messages LlmExecutor LlmFrame Payments.
From S2P Require Import Worker.

(** The tables that the queue and the triggers work on. *)
Definition same_queue (d d' : db) : Prop := d_core d' = d_core d /\ d_triggers d' = d_triggers d.

Lemma same_queue_refl d : same_queue d d.
Proof. done. Qed.

#[export] Hint Resolve same_queue_refl : agnt.

(** Every statement of [f] that succeeds leaves them. *)
Ltac same_queue :=
  intros ? d d' ?;
  unfold no_value, total, create_step_dual, mark_step_failed_dual, mark_step_succeeded_dual,
    create_action_request_dual, update_action_request_status_dual, create_action_result_dual,
    append_audit_event_dual, persist_artifact_metadata_dual, create_payment_result_dual,
    create_or_get_payment_request_dual, update_payment_request_status_dual,
    create_step_sqlite, mark_step_failed_sqlite, mark_step_succeeded_sqlite,
    create_action_request_sqlite, update_action_request_status_sqlite, create_action_result_sqlite,
    append_audit_event_sqlite, persist_artifact_metadata_sqlite, create_payment_result_sqlite,
    create_or_get_payment_request_sqlite, update_payment_request_status_sqlite,
    create_step, mark_step_failed, mark_step_succeeded, create_action_request,
    update_action_request_status, create_action_result, append_audit_event,
    persist_artifact_metadata, create_payment_result, create_or_get_payment_request, insert_or_get,
    update_payment_request_status, require, by_pool, ensure;
  intros ?; split_matches; by simplify_eq.

Section frame.
Context {X : Type} (E : env) (I : run_db -> trigger_tables -> Prop).
#[local] Abbreviation inv := (fun d : db => I (d_core d) (d_triggers d)).
Context (HI : stable (X := X) inv E).
#[local] Abbreviation kept := (keeps (X := X) inv).

Lemma kept_frame {A} (f : Z -> db -> result (db * A) db_error) log :
  (forall now d d' a, f now d = Ok (d', a) -> same_queue d d') -> kept (stmt E f log).
Proof. intros Hf. apply keeps_stmt; [done|]. intros now d d' a F. by destruct (Hf now d d' a F) as [-> ->]. Qed.

Lemma kept_llm lx config run id args remaining : kept (execute_llm_infer_action E lx config run id args remaining).
Proof. by apply keeps_llm_infer. Qed.

(** ** Calls *)

Lemma kept_db_create_step n : kept (db_create_step E n).
Proof. apply kept_frame. same_queue. Qed.
Lemma kept_db_mark_step_failed id err : kept (db_mark_step_failed E id err).
Proof. apply kept_frame. same_queue. Qed.
Lemma kept_db_mark_step_succeeded id output : kept (db_mark_step_succeeded E id output).
Proof. apply kept_frame. same_queue. Qed.
Lemma kept_db_create_action_request n : kept (db_create_action_request E n).
Proof. apply kept_frame. same_queue. Qed.
Lemma kept_db_update_action_request_status id status reason :
  kept (db_update_action_request_status E id status reason).
Proof. apply kept_frame. same_queue. Qed.
Lemma kept_db_create_action_result id status res err : kept (db_create_action_result E id status res err).
Proof. unfold db_create_action_result. keeps_step; [auto with agnt|]. apply kept_frame. same_queue. Qed.
Lemma kept_append_audit e trace : kept (append_audit_event_with_trace E e trace).
Proof. apply kept_frame. same_queue. Qed.
Lemma kept_run_event cfg run trace step ty p : kept (run_event E cfg run trace step ty p).
Proof. unfold run_event. keeps_step; [auto with agnt|]. apply kept_append_audit. Qed.
Lemma kept_store_artifact run path ty full bytes : kept (store_artifact E run path ty full bytes).
Proof. unfold store_artifact. repeat first [apply kept_frame; same_queue | keeps_step]. Qed.

#[local] Hint Resolve kept_db_create_step kept_db_mark_step_failed kept_db_mark_step_succeeded
  kept_db_create_action_request kept_db_update_action_request_status kept_db_create_action_result
  kept_run_event kept_store_artifact kept_llm : agnt.

(** ** Payments *)

Lemma kept_ignore {A} (m : M X A) : kept m -> kept (ignore m).
Proof. intros Hm. unfold ignore. by repeat keeps_step. Qed.
Lemma kept_db_create_or_get n : kept (db_create_or_get_payment_request E n).
Proof. apply kept_frame. same_queue. Qed.
Lemma kept_db_create_payment_result n : kept (db_create_payment_result E n).
Proof. apply kept_frame. same_queue. Qed.
Lemma kept_db_latest id : kept (db_get_latest_payment_result E id).
Proof. apply kept_frame. same_queue. Qed.
Lemma kept_db_payment_status id status : kept (db_update_payment_request_status E id status).
Proof. apply kept_frame. same_queue. Qed.
Lemma kept_db_tenant_sum tenant : kept (db_sum_for_tenant E tenant).
Proof. apply kept_frame. same_queue. Qed.
Lemma kept_db_agent_sum tenant agent : kept (db_sum_for_agent E tenant agent).
Proof. apply kept_frame. same_queue. Qed.

#[local] Hint Resolve kept_ignore kept_db_create_or_get kept_db_create_payment_result kept_db_latest
  kept_db_payment_status kept_db_tenant_sum kept_db_agent_sum : agnt.

Lemma kept_persist_failed_request request code message :
  kept (persist_failed_payment_request E request code message).
Proof. unfold persist_failed_payment_request. repeat keeps_step. Qed.

#[local] Hint Resolve kept_persist_failed_request : agnt.

Lemma kept_refused {A} request code message : kept (refuse (A := A) E request code message).
Proof. unfold refuse. repeat keeps_step. Qed.

#[local] Hint Resolve kept_refused : agnt.

Lemma kept_check_limits pc run c request spend : kept (check_limits E pc run c request spend).
Proof. unfold check_limits, check_approval, check_budget. repeat keeps_step. Qed.

Lemma kept_routes {A} worker_id ns target threshold cooldown fallback (send : string -> M X (result A string))
    routes : (forall uri, kept (send uri)) -> forall index st,
  kept (try_routes E worker_id ns target threshold cooldown fallback send routes index st).
Proof.
  intros Hs. induction routes as [|uri rest IH]; intros index st; cbn [try_routes];
    repeat first [apply Hs | apply IH | keeps_step].
Qed.

Lemma kept_payment pe pc worker_id root run id args spend :
  kept (execute_payment_send_action E pe pc worker_id root run id args spend).
Proof.
  unfold execute_payment_send_action, pay_unless_duplicate, pay, record_payment,
    execute_cashu_payment_scaffold, execute_nwc_payment, nwc_output, nwc_response, cashu_transport,
    nwc_routes, cashu_routes, execute_cashu_payment_http, send_nwc_request.
  repeat first [apply kept_check_limits | apply kept_routes; intros uri | keeps_step].
Qed.

(** ** Messages *)

Lemma kept_slack_loop send mc fuel url channel content max attempt errors :
  kept (slack_loop send mc fuel url channel content max attempt errors).
Proof.
  revert attempt errors. induction fuel as [|fuel IH]; intros attempt errors; cbn [slack_loop];
    repeat first [apply IH | keeps_step].
Qed.

Lemma kept_message_send post identity publish pretty mc run args last :
  kept (execute_message_send_action E post identity publish pretty mc run args last).
Proof.
  unfold execute_message_send_action, deliver, attempt_slack_send.
  repeat first [apply kept_slack_loop | keeps_step].
Qed.

(** ** The run *)

Lemma kept_dispatch_action ext cfg run id a ctx : kept (dispatch_action E ext cfg run id a ctx).
Proof.
  unfold dispatch_action. destruct (str_match _ _) as [m|] eqn:Em; [|auto with agnt].
  str_match_cases Em; unfold execute_object_write_action, execute_message_receive_action;
    repeat first [apply kept_payment | apply kept_message_send | keeps_step].
Qed.

Lemma kept_close_action cfg run trace step id status reason re ty p se :
  kept (close_action E cfg run trace step id status reason re ty p se).
Proof. unfold close_action. repeat keeps_step. Qed.

#[local] Hint Resolve kept_close_action : agnt.

Lemma kept_process_actions ext cfg run trace step gs raws : forall ctx,
  kept (process_actions E ext cfg run trace step gs ctx raws).
Proof.
  induction raws as [|raw rest IH]; intros ctx; cbn [process_actions]; [auto with agnt|].
  apply keeps_bind; [|done]. unfold process_action, allowed_action, deny_by_contract, deny_by_policy,
    deny_by_governance, fail_action, finish_action, alert_event, execute_action.
  repeat first [apply kept_dispatch_action | keeps_step].
Qed.

Lemma kept_process_claimed_run ext cfg run trace : kept (process_claimed_run E ext cfg run trace).
Proof.
  unfold process_claimed_run, start_step, prepare_skill_input_with_agent_context, invoke_skill,
    verify_skill_script_provenance, skill_failed, run_actions.
  repeat first [apply kept_process_actions | keeps_step].
Qed.
End frame.
