(* ===== verification/WorkerProps.v ===== *)
(** Properties of the worker's execution of a run: no action without
    authorisation, order, fail-stop, completeness, and what reaches the audit
    log.  They hold in every environment: any clock, any failure of any database
    call before or after its commit, any interference on the runs. *)
From S2P Require Import Prelude RustStr Json Policy Capabilities Redaction Sql Runs LlmTables Tables.
From S2P Require Import Action Paths PaymentRoutes World Messages LlmExecutor LlmFrame Payments Worker.

(** * Classes of effects *)

Definition is_exec (e : effect) : bool := match e with Executing _ _ => true | _ => false end.

Definition is_refusal (e : effect) : bool :=
  match e with RequestStatus _ s _ => str_in s ["denied"; "failed"] | _ => false end.

Definition nonexec (e : effect) : Prop := is_exec e = false.
Definition neutral (e : effect) : Prop := is_exec e = false /\ is_refusal e = false.

(** The actions a journal executes, in order. *)
Definition executed (j : list effect) : list SkillAction :=
  omap (fun e => match e with Executing _ a => Some a | _ => None end) j.

Lemma executed_app j1 j2 : executed (j1 ++ j2) = executed j1 ++ executed j2.
Proof. apply omap_app. Qed.

Lemma executed_nonexec j : Forall nonexec j -> executed j = [].
Proof. induction 1 as [|e j He _ IH]; [done|]. destruct e; try done; by simpl. Qed.

Lemma neutral_nonexec e : neutral e -> nonexec e.
Proof. by intros []. Qed.

Lemma neutral_nonexec_all j : Forall neutral j -> Forall nonexec j.
Proof. intros H. eapply Forall_impl; [exact H|]. apply neutral_nonexec. Qed.

Lemma only_impl {X A} (P Q : effect -> Prop) (m : M X A) :
  (forall e, P e -> Q e) -> only P m -> only Q m.
Proof. intros HPQ H w. destruct (H w) as (j & ? & HF). exists j. split; [done|]. by eapply Forall_impl. Qed.

Section calm.
Context {X : Type} (E : env) (ext : externals) (cfg : WorkerConfig).

(** ** Audit events *)

(** The event that a call site records. *)
Definition event_for (run : RunLeaseRecord) (step : option Uuid) (ty : string) (e : NewAuditEvent)
    : Prop :=
  ne_event_type e = ty /\ ne_run_id e = l_id run /\ ne_step_id e = step /\
  ne_tenant_id e = l_tenant_id run /\ clean_json (ne_payload_json e).

Lemma run_event_emits run trace step ty payload :
  emits (run_event (X := X) E cfg run trace step ty payload) (fun r j =>
    (is_ok r = false /\ j = []) \/ exists e, j = [Audited e] /\ event_for run step ty e).
Proof.
  unfold run_event. eapply emits_weaken.
  - apply emits_bind; [apply emits_new_v4|]. intros id. apply emits_stmt.
  - cbn beta. intros r j [(e & -> & _ & ->)|(id & j1 & j2 & -> & [_ ->] & H)]; [by left|].
    assert (forall p q, event_for run step ty
      {| ne_id := id; ne_run_id := l_id run; ne_step_id := step; ne_tenant_id := l_tenant_id run;
         ne_agent_id := p; ne_user_id := l_triggered_by_user_id run; ne_actor := q;
         ne_event_type := ty;
         ne_payload_json := redact_json match trace with
           | Some t => append_trace_to_audit_payload payload t | None => payload end |}) as Hev.
    { intros p q. split_and!; try done. apply redact_json_is_clean. }
    destruct r as [u|e]; [right; rewrite H; eauto|].
    destruct H as [->|[u ->]]; [by left|right; eauto].
Qed.

Lemma run_event_only P run trace step ty payload :
  (forall e, event_for run step ty e -> P (Audited e)) ->
  only P (run_event (X := X) E cfg run trace step ty payload).
Proof.
  intros HP. eapply only_emits; [apply run_event_emits|].
  intros r j [[_ ->]|(e & -> & He)]; [done|]. constructor; [by apply HP|done].
Qed.

Lemma run_event_neutral run trace step ty payload :
  only neutral (run_event (X := X) E cfg run trace step ty payload).
Proof. by apply run_event_only. Qed.

(** ** Computations that execute nothing and refuse nothing *)

Lemma db_create_step_neutral n : only neutral (db_create_step (X := X) E n).
Proof. unfold db_create_step. by only_step. Qed.

Lemma db_mark_step_failed_neutral id v : only neutral (db_mark_step_failed (X := X) E id v).
Proof. apply only_stmt. intros []; by repeat constructor. Qed.

Lemma db_mark_step_succeeded_neutral id v : only neutral (db_mark_step_succeeded (X := X) E id v).
Proof. apply only_stmt. intros []; by repeat constructor. Qed.

Lemma db_create_action_request_neutral n : only neutral (db_create_action_request (X := X) E n).
Proof. unfold db_create_action_request. by only_step. Qed.

Lemma db_create_action_result_neutral id st a b :
  only neutral (db_create_action_result (X := X) E id st a b).
Proof. unfold db_create_action_result. by repeat only_step. Qed.

Lemma db_update_status_neutral id st reason :
  str_in st ["denied"; "failed"] = false ->
  only neutral (db_update_action_request_status (X := X) E id st reason).
Proof. intros H. apply only_stmt. intros _. by repeat constructor. Qed.

Lemma db_update_status_nonexec id st reason :
  only nonexec (db_update_action_request_status (X := X) E id st reason).
Proof. apply only_stmt. intros _. by repeat constructor. Qed.
End calm.

#[export] Hint Resolve run_event_neutral db_create_step_neutral db_mark_step_failed_neutral
  db_mark_step_succeeded_neutral db_create_action_request_neutral db_create_action_result_neutral
  : agnt.

Section calm2.
Context {X : Type} (E : env) (ext : externals) (cfg : WorkerConfig).

Lemma neutral_as_nonexec {A} (m : M X A) : only neutral m -> only nonexec m.
Proof. apply only_impl, neutral_nonexec. Qed.

Lemma prepare_neutral run step trace :
  only neutral (prepare_skill_input_with_agent_context (X := X) E ext cfg run step trace).
Proof. unfold prepare_skill_input_with_agent_context. repeat only_step. Qed.

Lemma start_step_neutral run trace : only neutral (start_step (X := X) E cfg run trace).
Proof. unfold start_step. repeat only_step. Qed.

Lemma skill_failed_neutral run trace step e :
  only neutral (skill_failed (X := X) E cfg run trace step e).
Proof. unfold skill_failed. repeat only_step. Qed.

Lemma finish_action_neutral run trace step id req v :
  only neutral (finish_action (X := X) E cfg run trace step id req v).
Proof.
  unfold finish_action, alert_event.
  repeat first [by apply db_update_status_neutral | only_step].
Qed.

Lemma close_action_nonexec run trace step id st reason re ty pl se :
  only nonexec (close_action (X := X) E cfg run trace step id st reason re ty pl se).
Proof.
  unfold close_action.
  repeat first [apply db_update_status_nonexec | only_step | apply neutral_as_nonexec; only_step].
Qed.

(** ** The executors: everything they record is neutral *)

Lemma dispatch_only P run id a ctx :
  (forall ch tx, P (SlackPosted ch tx)) -> (forall ms, P (Slept ms)) ->
  (forall p c, P (FileWritten p c)) -> (forall p, P (PaymentSubmitted p)) ->
  (forall purpose url request, P (LlmPosted purpose url request)) ->
  only P (dispatch_action (X := X) E ext cfg run id a ctx).
Proof.
  intros HP HS HW HY HL. unfold dispatch_action.
  destruct (str_match _ _) as [m|] eqn:Em; [|apply only_throw].
  str_match_cases Em.
  - apply only_bind; [|intros v _; apply only_ret]. unfold execute_object_write_action.
    repeat first [apply store_artifact_only | only_step]; auto.
  - apply only_bind; [|intros v _; apply only_ret]. unfold execute_message_send_action.
    repeat first [apply deliver_only | apply store_artifact_only | only_step]; auto.
  - apply only_bind; [|intros v _; apply only_ret]. unfold execute_message_receive_action.
    repeat first [apply store_artifact_only | only_step]; auto.
  - apply only_bind; [by apply execute_payment_only|intros [] _; apply only_ret].
  - apply only_bind; [by apply only_llm_infer|intros [] _; apply only_ret].
  - apply only_bind; [|intros v _; apply only_ret]. repeat only_step.
Qed.

Lemma executor_emits run id a ctx :
  emits (execute_action (X := X) E ext cfg run id a ctx)
    (fun _ j => exists j', j = Executing id a :: j' /\ Forall neutral j').
Proof.
  apply (emits_bind_note _ _ (fun _ => Forall neutral)).
  change (only neutral (dispatch_action (X := X) E ext cfg run id a ctx)). by apply dispatch_only.
Qed.
End calm2.

(** * One action *)

Section action.
Context {X : Type} (E : env) (ext : externals) (cfg : WorkerConfig).

Definition refused {A} (r : result A error) (j : list effect) : Prop :=
  is_ok r = false /\ Forall nonexec j.

Lemma refused_throw {A B} (m : M X A) (e : error) :
  only nonexec m -> emits (bind m (fun _ => throw (A := B) e)) refused.
Proof.
  intros Hm w. destruct (Hm w) as (j & Hj & HF). exists j. unfold appends, bind in *.
  by destruct (m w) as [[a|x] w'].
Qed.

Lemma deny_refused run trace step id a req :
  (forall e, emits (deny_by_contract (X := X) E cfg run trace step id a e) refused) /\
  emits (deny_by_governance (X := X) E cfg run trace step id req) refused /\
  (forall reason, emits (deny_by_policy (X := X) E cfg run trace step id req reason) refused) /\
  (forall e, emits (fail_action (X := X) E cfg run trace step id req e) refused).
Proof. split_and!; intros; by apply refused_throw, close_action_nonexec. Qed.

(** What an executed action records: allowed, then executed. *)
Definition executed_journal (run : RunLeaseRecord) (step id : Uuid) (a : SkillAction)
    (r : bool) (j : list effect) : Prop :=
  exists e1 j', j = RequestStatus id "allowed" None :: Audited e1 :: Executing id a :: j' /\
    event_for run (Some step) "action.allowed" e1 /\ Forall nonexec j' /\
    (r = true -> Forall neutral j').

Definition governance_ok (a : SkillAction) (req : ActionRequest) : Prop :=
  requires_governance_approval (cf_approval_required_action_types cfg) (action_type req) = true ->
  is_action_governance_approved a = true.

Lemma try_execute_emits run trace step id a req ctx :
  emits (try (execute_action (X := X) E ext cfg run id a ctx) (fun outcome =>
      match outcome with
      | Ok (result_json, ctx') =>
          let! _ := finish_action (X := X) E cfg run trace step id req result_json in ret ctx'
      | Err e => fail_action E cfg run trace step id req e
      end))
    (fun r j => exists j', j = Executing id a :: j' /\ Forall nonexec j' /\
                           (is_ok r = true -> Forall neutral j')).
Proof.
  eapply emits_weaken.
  - eapply (emits_try _ _ _ (fun _ r j => Forall nonexec j /\ (is_ok r = true -> Forall neutral j)));
      [apply executor_emits|].
    intros [[v ctx']|e].
    + eapply emits_weaken with (T := fun _ j => Forall neutral j).
      * apply only_bind; [apply finish_action_neutral|intros; apply only_ret].
      * intros r j H. split; [by apply neutral_nonexec_all|done].
    + eapply emits_weaken; [apply (deny_refused run trace step id a req)|].
      intros r j [Hr HF]. split; [done|]. by rewrite Hr.
  - intros r j (r1 & j1 & j2 & -> & (j' & -> & HN) & HF & HO). exists (j' ++ j2).
    split; [done|]. split.
    + apply Forall_app. split; [by apply neutral_nonexec_all|done].
    + intros Hr. apply Forall_app. auto.
Qed.

Lemma allowed_action_emits run trace step id a req ctx :
  emits (allowed_action (X := X) E ext cfg run trace step id a req ctx) (fun r j =>
    refused r j \/ (governance_ok a req /\ executed_journal run step id a (is_ok r) j)).
Proof.
  unfold allowed_action.
  destruct (requires_governance_approval _ _) eqn:Hreq; cbn [andb];
    [destruct (is_action_governance_approved a) eqn:Happ; cbn [negb]|].
  2: { eapply emits_weaken; [apply (deny_refused run trace step id a req)|]. by left. }
  all: eapply emits_weaken;
    [apply emits_bind; [apply emits_stmt|intros b; apply emits_bind;
      [apply run_event_emits|intros u; apply try_execute_emits]]|].
  all: intros r j [(e & -> & [->|[b ->]])|(b & j1 & j2 & -> & -> & [(e & -> & H)|
    (u & j3 & j4 & -> & [[? _]|(e1 & -> & He1)] & j' & -> & HF & HO)])];
    try (left; split; [done|]; by repeat constructor); try done.
  all: try (left; split; [done|]; destruct H as [[_ ->]|(e1 & -> & _)]; by repeat constructor).
  all: right; split; [intros H; congruence|]; exists e1, j'; auto.
Qed.

(** Why an action may be executed. *)
Definition authorized (gs : GrantSet) (a : SkillAction) : Prop :=
  exists req, to_policy_request (x_to_vec ext) (llm_scope ext cfg) a = Ok req /\
    is_action_allowed gs req = Allow /\ governance_ok a req.

Definition action_journal (run : RunLeaseRecord) (step : Uuid) (gs : GrantSet) (raw : SkillAction)
    {A} (r : result A error) (j : list effect) : Prop :=
  refused r j \/
  exists id e0 j', j = RequestCreated id (new_request step id (normalize_skill_action raw))
                       :: Audited e0 :: j' /\
    authorized gs (normalize_skill_action raw) /\
    executed_journal run step id (normalize_skill_action raw) (is_ok r) j'.

Lemma process_action_emits run trace step gs ctx raw :
  emits (process_action (X := X) E ext cfg run trace step gs ctx raw) (action_journal run step gs raw).
Proof.
  unfold process_action. set (a := normalize_skill_action raw).
  assert (forall id, emits
    (match to_policy_request (x_to_vec ext) (llm_scope ext cfg) a with
     | Err e => deny_by_contract (X := X) E cfg run trace step id a e
     | Ok req => match is_action_allowed gs req with
                 | Allow => allowed_action E ext cfg run trace step id a req ctx
                 | Deny reason => deny_by_policy E cfg run trace step id req reason
                 end
     end) (fun r j => refused r j \/ (authorized gs a /\ executed_journal run step id a (is_ok r) j)))
    as Htail.
  { intros id. unfold authorized. destruct (to_policy_request _ _ a) as [req|e] eqn:Hreq.
    + destruct (is_action_allowed gs req) as [|reason] eqn:Hall.
      * eapply emits_weaken; [apply allowed_action_emits|]. intros r j [?|[? ?]]; [by left|right].
        split; [by exists req|done].
      * eapply emits_weaken; [apply (deny_refused run trace step id a req)|]. by left.
    + eapply emits_weaken;
        [apply (proj1 (deny_refused run trace step id a {| action_type := ""; req_scope := ""; payload_bytes := 0 |}))|].
      by left. }
  eapply emits_weaken.
  - apply emits_bind; [apply emits_new_v4|intros id]. apply emits_bind; [apply emits_stmt|intros u].
    apply emits_bind; [apply run_event_emits|intros u']. apply Htail.
  - cbn beta. intros r j [(e & -> & [? _])|(id & j1 & j2 & -> & [_ ->] & H)]; [done|].
    destruct H as [(e & -> & [->|[? ->]])|(u & j3 & j4 & -> & -> & H)];
      [left; split; [done|]; by repeat constructor..|].
    destruct H as [(e & -> & H)|(u' & j5 & j6 & -> & [[? _]|(e0 & -> & He0)] & H)]; [| |].
    + left. split; [done|]. destruct H as [[_ ->]|(e1 & -> & _)]; by repeat constructor.
    + done.
    + destruct H as [[Hr HF]|[Ha Hx]].
      * left. split; [done|]. by repeat constructor.
      * right. exists id, e0, j6. done.
Qed.
End action.

(** * All actions of a run *)

(** Every execution in the journal satisfies [auth], given what precedes it. *)
Definition guarded (auth : list effect -> Uuid -> SkillAction -> Prop) (j : list effect) : Prop :=
  forall j1 id a j2, j = j1 ++ Executing id a :: j2 -> auth j1 id a.

(** After a refusal or a failure nothing is executed. *)
Definition fail_stop (j : list effect) : Prop :=
  forall j1 e j2, j = j1 ++ e :: j2 -> is_refusal e = true -> executed j2 = [].

Lemma app_cons_split {A} (j1 j2 k1 k2 : list A) x :
  j1 ++ j2 = k1 ++ x :: k2 ->
  (exists l, j1 = k1 ++ x :: l /\ k2 = l ++ j2) \/ (exists l, k1 = j1 ++ l /\ j2 = l ++ x :: k2).
Proof.
  revert k1. induction j1 as [|y j1 IH]; intros [|z k1] H.
  - right. by exists [].
  - right. by exists (z :: k1).
  - left. injection H as -> <-. by exists j1.
  - injection H as -> H. destruct (IH _ H) as [(l & -> & ->)|(l & -> & ->)]; [left|right]; by exists l.
Qed.

Lemma nonexec_no_split j j1 id a j2 : Forall nonexec j -> j <> j1 ++ Executing id a :: j2.
Proof. intros H ->. apply Forall_app in H as [_ H]. by inv H. Qed.

Section guarded.
Context (auth : list effect -> Uuid -> SkillAction -> Prop).
Context (mono : forall l j1 id a, auth j1 id a -> auth (l ++ j1) id a).

Lemma guarded_nonexec j : Forall nonexec j -> guarded auth j.
Proof. intros H j1 id a j2 E. by apply nonexec_no_split in E. Qed.

Lemma guarded_app j1 j2 : guarded auth j1 -> guarded auth j2 -> guarded auth (j1 ++ j2).
Proof.
  intros H1 H2 k1 id a k2 E.
  apply app_cons_split in E as [(l & -> & _)|(l & -> & ->)]; [by eapply H1|].
  apply mono. by eapply H2.
Qed.

Lemma guarded_exec pre id a j :
  Forall nonexec pre -> auth pre id a -> Forall nonexec j -> guarded auth (pre ++ Executing id a :: j).
Proof.
  intros Hpre Ha Hj k1 id' a' k2 E.
  apply app_cons_split in E as [(l & -> & _)|(l & -> & E)].
  - apply Forall_app in Hpre as [_ H]. by inv H.
  - destruct l as [|e l]; injection E; [intros; subst; by rewrite app_nil_r|].
    intros E' _. by apply nonexec_no_split in E'.
Qed.
End guarded.

Lemma fail_stop_nonexec j : Forall nonexec j -> fail_stop j.
Proof.
  intros H j1 e j2 -> _. apply executed_nonexec. apply Forall_app in H as [_ H]. by inv H.
Qed.

Lemma fail_stop_app j1 j2 :
  Forall (fun e => is_refusal e = false) j1 -> fail_stop j2 -> fail_stop (j1 ++ j2).
Proof.
  intros H1 H2 k1 e k2 E He.
  apply app_cons_split in E as [(l & -> & _)|(l & -> & ->)]; [|by eapply H2].
  apply Forall_app in H1 as [_ H]. inv H. congruence.
Qed.

Section actions.
Context {X : Type} (E : env) (ext : externals) (cfg : WorkerConfig).
Context (run : RunLeaseRecord) (step : Uuid) (gs : GrantSet).

(** The evidence, in the journal before it, for an execution. *)
Definition evidence (j1 : list effect) (id : Uuid) (a : SkillAction) : Prop :=
  authorized ext cfg gs a /\
  (exists n, RequestCreated id n ∈ j1 /\ na_step_id n = step /\ na_action_type n = sk_action_type a) /\
  RequestStatus id "allowed" None ∈ j1 /\
  (exists e, Audited e ∈ j1 /\ event_for run (Some step) "action.allowed" e).

Lemma evidence_mono l j1 id a : evidence j1 id a -> evidence (l ++ j1) id a.
Proof.
  intros (H1 & (n & Hn & ?) & H3 & (e & He & ?)). unfold evidence. setoid_rewrite elem_of_app.
  split_and!; eauto.
Qed.

Definition actions_journal (raws : list SkillAction) (ok : bool) (j : list effect) : Prop :=
  guarded evidence j /\ fail_stop j /\
  executed j `prefix_of` map normalize_skill_action raws /\
  (ok = true -> executed j = map normalize_skill_action raws /\
                Forall (fun e => is_refusal e = false) j).

Lemma neutral_not_refusal j : Forall neutral j -> Forall (fun e => is_refusal e = false) j.
Proof. intros H. eapply Forall_impl; [exact H|]. by intros e []. Qed.

Lemma one_action_journal raw {A} (r : result A error) j :
  action_journal ext cfg run step gs raw r j -> actions_journal [raw] (is_ok r) j.
Proof.
  intros [[Hr HF]|(id & e0 & j' & -> & Ha & (e1 & j'' & -> & He1 & HF & HO))].
  - split_and!; [by apply guarded_nonexec|by apply fail_stop_nonexec| |by rewrite Hr].
    rewrite executed_nonexec by done. apply prefix_nil.
  - set (a := normalize_skill_action raw) in *.
    set (pre := [RequestCreated id (new_request step id a); Audited e0;
                 RequestStatus id "allowed" None; Audited e1]).
    assert (executed (pre ++ Executing id a :: j'') = [a]) as Hx.
    { simpl. by rewrite executed_nonexec. }
    split_and!.
    + apply (guarded_exec evidence pre id a j''); [by repeat constructor| |done].
      unfold evidence, pre. split_and!; [done| |set_solver|].
      * exists (new_request step id a). split; [set_solver|done].
      * exists e1. split; [set_solver|done].
    + apply (fail_stop_app (pre ++ [Executing id a]) j''); [by repeat constructor|].
      by apply fail_stop_nonexec.
    + change (executed (pre ++ Executing id a :: j'') `prefix_of` [a]). by rewrite Hx.
    + intros Hr. split; [exact Hx|]. repeat constructor. by apply neutral_not_refusal, HO.
Qed.

Lemma process_actions_emits trace raws ctx :
  emits (process_actions (X := X) E ext cfg run trace step gs ctx raws)
    (fun r j => actions_journal raws (is_ok r) j).
Proof.
  revert ctx. induction raws as [|raw raws IH]; intros ctx; cbn [process_actions].
  - eapply emits_weaken; [apply emits_ret|]. intros r j [_ ->].
    split_and!; [by apply guarded_nonexec|by apply fail_stop_nonexec|done|done].
  - eapply emits_weaken; [apply emits_bind; [apply process_action_emits|intros ctx'; apply IH]|].
    intros r j [(e & -> & H)|(ctx' & j1 & j2 & -> & H1 & H2)].
    + apply one_action_journal in H as (? & ? & Hp & _). split_and!; [done|done| |done].
      etrans; [exact Hp|]. by exists (map normalize_skill_action raws).
    + apply one_action_journal in H1 as (G1 & _ & _ & O1). destruct (O1 eq_refl) as [X1 N1].
      destruct H2 as (G2 & F2 & P2 & O2). split_and!.
      * apply guarded_app; [apply evidence_mono|done|done].
      * by apply fail_stop_app.
      * rewrite executed_app, X1. by apply prefix_cons.
      * intros Hr. destruct (O2 Hr) as [X2 N2]. rewrite executed_app, X1, X2.
        split; [done|]. by apply Forall_app.
Qed.
End actions.

(** * The whole run *)

Definition returned (j : list effect) : list (list SkillAction) :=
  omap (fun e => match e with SkillReturned l => Some l | _ => None end) j.

Section run.
Context {X : Type} (E : env) (ext : externals) (cfg : WorkerConfig).
Context (run : RunLeaseRecord) (trace : option string).

Definition unanswered (e : effect) : Prop :=
  neutral e /\ match e with SkillReturned _ => False | _ => True end.

Definition run_journal (ok : bool) (j : list effect) : Prop :=
  (ok = false /\ Forall neutral j) \/
  exists step j1 reqs j2, j = j1 ++ SkillReturned reqs :: j2 /\ Forall neutral j1 /\
    actions_journal ext cfg run step (parse_grant_set (l_granted_capabilities run)) reqs ok j2.

Lemma actions_journal_nil step gs raws :
  actions_journal ext cfg run step gs raws false [].
Proof.
  split_and!; [by apply guarded_nonexec|by apply fail_stop_nonexec|apply prefix_nil|done].
Qed.

Lemma actions_journal_neutral step gs raws ok j1 j2 :
  Forall neutral j1 -> actions_journal ext cfg run step gs raws ok j2 ->
  actions_journal ext cfg run step gs raws ok (j1 ++ j2).
Proof.
  intros Hn (G & F & P & O).
  assert (executed (j1 ++ j2) = executed j2) as Hx.
  { rewrite executed_app, executed_nonexec; [done|by apply neutral_nonexec_all]. }
  unfold actions_journal. rewrite Hx. split_and!; [| |done|].
  - apply guarded_app; [apply evidence_mono| |done].
    by apply guarded_nonexec, neutral_nonexec_all.
  - apply fail_stop_app; [by apply neutral_not_refusal|done].
  - intros Hr. destruct (O Hr). split; [done|]. apply Forall_app.
    split; [by apply neutral_not_refusal|done].
Qed.

Lemma actions_journal_weaken step gs raws ok ok' j1 j2 :
  actions_journal ext cfg run step gs raws ok j1 -> Forall neutral j2 ->
  (ok' = true -> ok = true) -> actions_journal ext cfg run step gs raws ok' (j1 ++ j2).
Proof.
  intros (G & F & P & O) Hn Hok.
  assert (executed j2 = []) as Hx2 by (by apply executed_nonexec, neutral_nonexec_all).
  unfold actions_journal. rewrite executed_app, Hx2, app_nil_r. split_and!; [| |done|].
  - apply guarded_app; [apply evidence_mono|done|by apply guarded_nonexec, neutral_nonexec_all].
  - intros k1 e k2 Heq He. apply app_cons_split in Heq as [(l & -> & ->)|(l & -> & ->)].
    + rewrite executed_app, (F k1 e l eq_refl He). done.
    + rewrite executed_app in Hx2. apply app_nil in Hx2 as [_ Hx2]. by destruct e.
  - intros Hr. destruct (O (Hok Hr)). split; [done|]. apply Forall_app.
    split; [done|by apply neutral_not_refusal].
Qed.

Lemma run_actions_emits step gs res :
  emits (run_actions (X := X) E ext cfg run trace step gs res)
    (fun r j => actions_journal ext cfg run step gs (ir_action_requests res) (is_ok r) j).
Proof.
  unfold run_actions. eapply emits_weaken.
  - apply emits_bind; [apply emits_only, run_event_neutral|intros u].
    apply emits_bind; [apply process_actions_emits|intros u'].
    apply (emits_only neutral). apply only_bind; [apply db_mark_step_succeeded_neutral|].
    intros b _. apply run_event_neutral.
  - cbn beta. intros r j [(e & -> & H)|(u & j1 & j2 & -> & H1 & H2)].
    + rewrite <- (app_nil_r j). apply actions_journal_neutral; [exact H|apply actions_journal_nil].
    + apply actions_journal_neutral; [done|].
      destruct H2 as [(e & -> & H)|(u' & j3 & j4 & -> & H3 & H4)]; [done|].
      by eapply actions_journal_weaken.
Qed.

Lemma invoke_skill_emits step input gs :
  emits (invoke_skill (X := X) E ext cfg run step trace input gs) (fun r j =>
    match r with
    | Ok res => exists j1, j = j1 ++ [SkillReturned (ir_action_requests res)] /\ Forall neutral j1
    | Err _ => Forall neutral j
    end).
Proof.
  unfold invoke_skill. apply emits_bind_lift; [intros [command args] _|done].
  eapply emits_weaken.
  - apply emits_bind with (T := fun _ j => Forall neutral j).
    { change (only neutral (verify_skill_script_provenance (X := X) ext cfg command args)).
      unfold verify_skill_script_provenance. repeat only_step. }
    intros u. apply emits_bind; [apply emits_new_v4|intros id].
    apply emits_bind; [apply emits_ask|intros answer].
    apply (emits_bind_lift _ _ (fun r j => match r with
      | Ok res => j = [SkillReturned (ir_action_requests res)] | Err _ => j = [] end)); [|done].
    intros res _. eapply emits_weaken; [apply emits_bind_note, emits_ret|].
    by intros r j (j' & -> & -> & ->).
  - cbn beta.
    intros r j [(e & -> & H)|(u & j1 & j2 & -> & H & [(e & -> & [? _])|(id & j3 & j4 & -> & [_ ->] & H4)])];
      [done|done|].
    destruct H4 as [(e & -> & [? _])|(ans & j5 & j6 & -> & [_ ->] & H6)]; [done|].
    destruct r as [res|e]; subst j6; [by exists j1|]. by rewrite app_nil_r.
Qed.

Lemma process_claimed_run_emits :
  emits (process_claimed_run (X := X) E ext cfg run trace) (fun r j => run_journal (is_ok r) j).
Proof.
  unfold process_claimed_run. eapply emits_weaken.
  - apply emits_bind; [apply emits_only, start_step_neutral|intros step].
    apply emits_bind; [apply emits_only, prepare_neutral|intros input].
    eapply (emits_try _ _ _ (fun r1 r j => match r1 with
      | Err _ => is_ok r = false /\ Forall neutral j
      | Ok res => actions_journal ext cfg run (sr_id step)
          (parse_grant_set (l_granted_capabilities run)) (ir_action_requests res) (is_ok r) j end));
      [apply invoke_skill_emits|].
    intros [res|e]; [apply run_actions_emits|].
    intros w. destruct (skill_failed_neutral E cfg run trace (sr_id step) e w) as (j & Hj & HF).
    exists j. split; [done|]. split; [|done].
    unfold skill_failed, bind, throw. destruct (db_mark_step_failed _ _ _ _) as [[b|x] w1]; [|done].
    by destruct (run_event _ _ _ _ _ _ _ _) as [[?|?] ?].
  - cbn beta. intros r j [(e & -> & H)|(step & j1 & j2 & -> & H1 & H2)]; [by left|].
    destruct H2 as [(e & -> & H)|(input & j3 & j4 & -> & H3 & (r1 & j5 & j6 & -> & H5 & H6))].
    { left. split; [done|]. by apply Forall_app. }
    destruct r1 as [res|e].
    + right. destruct H5 as (j7 & -> & H7).
      exists (sr_id step), (j1 ++ j3 ++ j7), (ir_action_requests res), j6.
      rewrite <- !app_assoc. split; [done|]. split; [|done]. by rewrite !Forall_app.
    + left. destruct H6. split; [done|]. by rewrite !Forall_app.
Qed.
End run.

(** * A concrete run *)

Definition grants_json : json :=
  JArr [jobject [("capability", JStr "message.send"); ("scope", JStr "slack:*")];
        jobject [("capability", JStr "object.write"); ("scope", JStr "notes/*")]].

Definition demo_claimed : RunLeaseRecord :=
  {| l_id := 1; l_tenant_id := "acme"; l_agent_id := 7; l_triggered_by_user_id := None;
     l_recipe_id := "notify_v1"; l_status := running; l_input_json := JObj [];
     l_granted_capabilities := grants_json; l_attempts := 1; l_lease_owner := Some "w1";
     l_lease_expires_at := Some 100; l_created_at := 0; l_started_at := Some 1 |}.

Definition write_note : SkillAction :=
  {| sk_action_id := "a-2"; sk_action_type := "object.write";
     sk_args := JObj [("content", JStr "text"); ("path", JStr "notes/n.md")];
     sk_justification := "keep"; sk_action_contract_version := None; sk_action_schema_id := None |}.

Definition post_message : SkillAction :=
  {| sk_action_id := "a-1"; sk_action_type := "Message.Send";
     sk_args := JObj [("text", JStr "hi"); ("to", JStr " slack:C1")];
     sk_justification := "notify"; sk_action_contract_version := None; sk_action_schema_id := None |}.

Definition demo_ext (requests : list SkillAction) : externals :=
  {| x_to_vec := fun _ => "{}"; x_to_vec_pretty := fun _ => "{}";
     x_send_webhook_message := fun _ _ ch _ => Ok {| ss_channel := ch; ss_status_code := 200; ss_response := "ok" |};
     x_resolve_identity := Ok None;
     x_whitenoise_publish := fun _ _ _ => (None, None, None);
     x_read_file := fun _ _ => Err "none"; x_sha256_hex := fun s => s;
     x_invoke := fun _ _ _ _ => Ok {| ir_output := JObj []; ir_action_requests := requests |};
     x_load_agent_context := fun _ _ _ => ContextNotFound (JArr []);
     x_payments := demo_payment_externals;
     x_llm := demo_llm_externals;
     x_local_exec := fun _ _ => Err "off" |}.

Definition demo_cfg (required : bool) : WorkerConfig :=
  {| cf_worker_id := "w1"; cf_approval_required_action_types := ["payment.send"];
     cf_messages := demo_message_config; cf_payments := demo_payment_config; cf_llm := demo_llm_config;
     cf_agent_context_enabled := required; cf_agent_context_required := required;
     cf_skill_command := "python3"; cf_skill_args := ["skill.py"];
     cf_skill_recipe_commands := ∅; cf_skill_script_sha256 := None; cf_skill_timeout_ms := 5000 |}.

Definition demo_process (requests : list SkillAction) : M unit unit :=
  process_claimed_run demo_env (demo_ext requests) (demo_cfg false) demo_claimed None.

Definition demo_journal (requests : list SkillAction) : list effect :=
  w_journal (demo_process requests artifact_world).2.

Lemma demo_appends requests : appends (demo_process requests) artifact_world (demo_journal requests).
Proof. exact (appends_from_empty (demo_process requests) artifact_world eq_refl). Qed.

(** * Properties *)

(** No action without authorisation.  Whatever the skill asks for, whatever
    fails, whatever the journal of a run contains: an action that is executed is
    one the policy allows under the run's granted capabilities, with governance
    approval where its type requires it; and before it was executed its request
    had been recorded, marked allowed, and an [action.allowed] event of this run
    had been committed to the audit log. *)
Theorem no_action_without_authorization X E ext cfg run trace w j j1 id a j2
    (Hj : appends (process_claimed_run (X := X) E ext cfg run trace) w j)
    (Hexec : j = j1 ++ Executing id a :: j2) :
  exists step,
    authorized ext cfg (parse_grant_set (l_granted_capabilities run)) a /\
    (exists n, RequestCreated id n ∈ j1 /\ na_step_id n = step /\ na_action_type n = sk_action_type a) /\
    RequestStatus id "allowed" None ∈ j1 /\
    (exists e, Audited e ∈ j1 /\ event_for run (Some step) "action.allowed" e).
Proof.
  pose proof (emits_appends _ _ _ _ (process_claimed_run_emits E ext cfg run trace) Hj) as H.
  destruct H as [[_ H]|(step & k1 & reqs & k2 & Hk & Hn & HA)].
  - exfalso. apply neutral_nonexec_all in H. by apply (nonexec_no_split j j1 id a j2 H).
  - exists step. apply (actions_journal_neutral ext cfg run step _ reqs _ (k1 ++ [SkillReturned reqs]))
      in HA as (G & _); [|by apply Forall_app; split; [|repeat constructor]].
    rewrite <- app_assoc in G. cbn [app] in G. rewrite <- Hk in G. by apply (G j1 id a j2).
Qed.

Lemma no_action_without_authorization_witness :
  exists step,
    authorized (demo_ext [write_note]) (demo_cfg false) (parse_grant_set grants_json) write_note /\
    (exists n, RequestCreated 1008 n ∈ take 8 (demo_journal [write_note]) /\ na_step_id n = step /\
       na_action_type n = "object.write") /\
    RequestStatus 1008 "allowed" None ∈ take 8 (demo_journal [write_note]) /\
    (exists e, Audited e ∈ take 8 (demo_journal [write_note]) /\
       event_for demo_claimed (Some step) "action.allowed" e).
Proof.
  apply (no_action_without_authorization unit demo_env (demo_ext [write_note]) (demo_cfg false)
    demo_claimed None artifact_world (demo_journal [write_note]) (take 8 (demo_journal [write_note]))
    1008 write_note (drop 9 (demo_journal [write_note]))); vm_compute; reflexivity.
Defined.

Lemma run_journal_cases X E ext cfg run trace w j
    (Hj : appends (process_claimed_run (X := X) E ext cfg run trace) w j) :
  run_journal ext cfg run (is_ok (process_claimed_run E ext cfg run trace w).1) j.
Proof. exact (emits_appends _ _ _ _ (process_claimed_run_emits E ext cfg run trace) Hj). Qed.

Lemma run_journal_executed (ext : externals) cfg run ok j :
  run_journal ext cfg run ok j ->
  (executed j = [] /\ ok = false) \/
  exists reqs, SkillReturned reqs ∈ j /\ executed j `prefix_of` map normalize_skill_action reqs /\
    (ok = true -> executed j = map normalize_skill_action reqs /\
                  Forall (fun e => is_refusal e = false) j).
Proof.
  intros [[Hok H]|(step & j1 & reqs & j2 & -> & Hn & (_ & _ & P & O))].
  - left. split; [|done]. by apply executed_nonexec, neutral_nonexec_all.
  - right. exists reqs. rewrite executed_app, (executed_nonexec j1)
      by (by apply neutral_nonexec_all). split_and!; [set_solver|done|].
    intros Hok. destruct (O Hok) as [HX HR]. split; [done|]. apply Forall_app.
    split; [by apply neutral_not_refusal|]. by constructor.
Qed.

(** The actions of a run are executed in the order the skill listed them, each
    at most once, and none that it did not list: the executed actions are a
    prefix of the skill's normalised requests. *)
Theorem actions_run_in_order_at_most_once X E ext cfg run trace w j
    (Hj : appends (process_claimed_run (X := X) E ext cfg run trace) w j) :
  executed j = [] \/
  exists reqs, SkillReturned reqs ∈ j /\ executed j `prefix_of` map normalize_skill_action reqs.
Proof.
  apply run_journal_cases, run_journal_executed in Hj as [[? _]|(reqs & ? & ? & _)]; eauto.
Qed.

Lemma actions_run_in_order_at_most_once_witness :
  executed (demo_journal [write_note; post_message]) = [] \/
  exists reqs, SkillReturned reqs ∈ demo_journal [write_note; post_message] /\
    executed (demo_journal [write_note; post_message]) `prefix_of` map normalize_skill_action reqs.
Proof.
  exact (actions_run_in_order_at_most_once unit demo_env (demo_ext [write_note; post_message])
    (demo_cfg false) demo_claimed None artifact_world _ (demo_appends [write_note; post_message])).
Defined.

(** A run that is reported as processed has executed every action the skill
    asked for, in order, and none of its requests was denied or failed. *)
Theorem processed_run_executed_everything X E ext cfg run trace w j
    (Hj : appends (process_claimed_run (X := X) E ext cfg run trace) w j)
    (Hok : (process_claimed_run (X := X) E ext cfg run trace w).1 = Ok tt) :
  exists reqs, SkillReturned reqs ∈ j /\ executed j = map normalize_skill_action reqs /\
    forall id s reason, RequestStatus id s reason ∈ j -> s <> "denied" /\ s <> "failed".
Proof.
  apply run_journal_cases, run_journal_executed in Hj. rewrite Hok in Hj.
  destruct Hj as [[_ ?]|(reqs & Hr & _ & HO)]; [done|].
  destruct (HO eq_refl) as [HX HF]. exists reqs. split_and!; [done|done|].
  intros id s reason Hin. rewrite Forall_forall in HF. specialize (HF _ Hin). simpl in HF.
  split; intros ->; done.
Qed.

Lemma processed_run_executed_everything_witness :
  exists reqs, SkillReturned reqs ∈ demo_journal [write_note; post_message] /\
    executed (demo_journal [write_note; post_message]) = map normalize_skill_action reqs /\
    forall id s reason, RequestStatus id s reason ∈ demo_journal [write_note; post_message] ->
      s <> "denied" /\ s <> "failed".
Proof.
  apply (processed_run_executed_everything unit demo_env (demo_ext [write_note; post_message])
    (demo_cfg false) demo_claimed None artifact_world _ (demo_appends [write_note; post_message])).
  vm_compute. reflexivity.
Defined.

(** A refusal stops the run: once the status of a request has been set to
    denied or failed, nothing is executed any more, whatever was still to do. *)
Theorem refusal_stops_the_run X E ext cfg run trace w j j1 id s reason j2
    (Hj : appends (process_claimed_run (X := X) E ext cfg run trace) w j)
    (Hsplit : j = j1 ++ RequestStatus id s reason :: j2)
    (Hrefused : s = "denied" \/ s = "failed") :
  executed j2 = [].
Proof.
  assert (is_refusal (RequestStatus id s reason) = true) as He by (destruct Hrefused; by subst).
  apply run_journal_cases in Hj as [[_ H]|(step & k1 & reqs & k2 & Hk & Hn & HA)].
  - exfalso. subst j. apply Forall_app in H as [_ H]. inv H. destruct H2. congruence.
  - apply (actions_journal_neutral ext cfg run step _ reqs _ (k1 ++ [SkillReturned reqs])) in HA
      as (_ & F & _); [|by apply Forall_app; split; [|repeat constructor]].
    rewrite <- app_assoc in F. cbn [app] in F. rewrite <- Hk in F. by eapply F.
Qed.

Definition forbidden_note : SkillAction :=
  {| sk_action_id := "a-3"; sk_action_type := "object.write";
     sk_args := JObj [("content", JStr "text"); ("path", JStr "secrets/n.md")];
     sk_justification := "keep"; sk_action_contract_version := None; sk_action_schema_id := None |}.

Lemma refusal_stops_the_run_witness :
  executed (drop 7 (demo_journal [forbidden_note; write_note])) = [].
Proof.
  apply (refusal_stops_the_run unit demo_env (demo_ext [forbidden_note; write_note])
    (demo_cfg false) demo_claimed None artifact_world _ (take 6 (demo_journal [forbidden_note; write_note]))
    1008 "denied" (Some "scope_mismatch") _ (demo_appends [forbidden_note; write_note]));
    [vm_compute; reflexivity|by left].
Defined.

(** ** What is written about a run *)

(** Audit payloads and stored arguments are redacted, and every audit event
    belongs to this run and its tenant. *)
Definition record_ok (run : RunLeaseRecord) (e : effect) : Prop :=
  match e with
  | Audited ev => ne_run_id ev = l_id run /\ ne_tenant_id ev = l_tenant_id run /\
                  clean_json (ne_payload_json ev)
  | RequestCreated _ n => clean_json (na_args_json n) /\
                          forall s, na_justification n = Some s -> clean_text s
  | _ => True
  end.

Section records.
Context {X : Type} (E : env) (ext : externals) (cfg : WorkerConfig) (run : RunLeaseRecord).

Lemma run_event_record_ok trace step ty payload :
  only (record_ok run) (run_event (X := X) E cfg run trace step ty payload).
Proof. apply run_event_only. by intros e (_ & ? & _ & ? & ?). Qed.

Lemma stmt_record_ok {A} (f : Z -> db -> result (db * A) db_error) log :
  (forall a, Forall (record_ok run) (log a)) -> only (record_ok run) (stmt (X := X) E f log).
Proof. apply only_stmt. Qed.

Ltac record_step :=
  first [apply run_event_record_ok | apply stmt_record_ok; intros; repeat case_match; by repeat constructor
        | only_step].

Lemma close_action_record_ok trace step id st reason re ty pl se :
  only (record_ok run) (close_action (X := X) E cfg run trace step id st reason re ty pl se).
Proof.
  unfold close_action, db_update_action_request_status, db_create_action_result, db_mark_step_failed.
  repeat record_step.
Qed.

Lemma execute_action_record_ok id a ctx :
  only (record_ok run) (execute_action (X := X) E ext cfg run id a ctx).
Proof. apply only_bind; [by apply only_note|]. intros _ _. by apply dispatch_only. Qed.

Lemma finish_action_record_ok trace step id req v :
  only (record_ok run) (finish_action (X := X) E cfg run trace step id req v).
Proof.
  unfold finish_action, alert_event, db_update_action_request_status, db_create_action_result.
  repeat record_step.
Qed.

Lemma new_request_record_ok step id a :
  only (record_ok run) (db_create_action_request (X := X) E (new_request step id a)).
Proof.
  apply only_stmt. intros _. constructor; [|done]. split; [apply redact_json_is_clean|].
  intros s [= <-]. apply redact_text_is_clean.
Qed.

Lemma process_action_record_ok trace step gs ctx raw :
  only (record_ok run) (process_action (X := X) E ext cfg run trace step gs ctx raw).
Proof.
  unfold process_action, allowed_action, deny_by_contract, deny_by_policy, deny_by_governance,
    fail_action, db_update_action_request_status.
  repeat first [apply new_request_record_ok | apply close_action_record_ok
               | apply execute_action_record_ok | apply finish_action_record_ok | record_step].
Qed.

Lemma process_actions_record_ok trace step gs ctx raws :
  only (record_ok run) (process_actions (X := X) E ext cfg run trace step gs ctx raws).
Proof.
  revert ctx. induction raws as [|raw raws IH]; intros ctx; cbn [process_actions]; [apply only_ret|].
  apply only_bind; [apply process_action_record_ok|auto].
Qed.

Lemma process_claimed_run_record_ok trace :
  only (record_ok run) (process_claimed_run (X := X) E ext cfg run trace).
Proof.
  unfold process_claimed_run, start_step, skill_failed, run_actions, invoke_skill,
    verify_skill_script_provenance, prepare_skill_input_with_agent_context,
    db_create_step, db_mark_step_failed, db_mark_step_succeeded.
  repeat first [apply process_actions_record_ok | record_step]; done.
Qed.
End records.

(** C34: the audit log is redacted and belongs to the run: every audit event that a
    run commits carries the run's identifier and tenant and a redacted payload,
    whatever the skill, the executors or the failures put in it; so are the
    stored arguments and justification of every action request. *)
Theorem audit_log_is_redacted X E ext cfg run trace w j
    (Hj : appends (process_claimed_run (X := X) E ext cfg run trace) w j) :
  (forall ev, Audited ev ∈ j -> ne_run_id ev = l_id run /\ ne_tenant_id ev = l_tenant_id run /\
     clean_json (ne_payload_json ev)) /\
  (forall id n, RequestCreated id n ∈ j -> clean_json (na_args_json n) /\
     forall s, na_justification n = Some s -> clean_text s).
Proof.
  pose proof (only_appends _ _ _ _ (process_claimed_run_record_ok E ext cfg run trace) Hj) as HF.
  rewrite Forall_forall in HF. split; [intros ev H|intros id n H]; by apply (HF _ H).
Qed.

Lemma audit_log_is_redacted_witness :
  (forall ev, Audited ev ∈ demo_journal [write_note] -> ne_run_id ev = 1 /\ ne_tenant_id ev = "acme" /\
     clean_json (ne_payload_json ev)) /\
  (forall id n, RequestCreated id n ∈ demo_journal [write_note] -> clean_json (na_args_json n) /\
     forall s, na_justification n = Some s -> clean_text s).
Proof.
  exact (audit_log_is_redacted unit demo_env (demo_ext [write_note]) (demo_cfg false)
    demo_claimed None artifact_world _ (demo_appends [write_note])).
Defined.

(** When the agent context is required and missing, the run fails with no
    database failure at all, but its step is left in status [running] for ever:
    this error path does not close the step, as every other one does. *)
Theorem missing_required_context_leaves_step_running :
  let '(r, w) := process_claimed_run demo_env (demo_ext [write_note]) (demo_cfg true)
                   demo_claimed None artifact_world in
  is_ok r = false /\ map st_status (d_steps (w_db w)) = ["running"].
Proof. by vm_compute. Qed.

(** An action type the policy can allow but the worker cannot execute (reading
    objects or memory, writing memory, HTTP requests, database queries) always
    ends in an error and has no effect. *)
Theorem unsupported_actions_have_no_effect X E ext cfg run id a ctx w
    (Htype : str_in (sk_action_type a) ["object.write"; "message.send"; "message.receive";
               "payment.send"; "llm.infer"; "local.exec"] = false) :
  execute_action (X := X) E ext cfg run id a ctx w =
  (Err (Anyhow ("unsupported action type: " +:+ sk_action_type a)),
   {| w_db := w_db w; w_journal := w_journal w ++ [Executing id a]; w_tick := w_tick w;
      w_ext := w_ext w; w_routes := w_routes w; w_llm := w_llm w |}).
Proof.
  unfold execute_action, dispatch_action, bind, note. destruct (str_match _ _) as [m|] eqn:Em; [|done].
  exfalso. apply not_true_iff_false in Htype. apply Htype, str_in_spec.
  str_match_cases Em; set_solver.
Qed.

Lemma unsupported_actions_have_no_effect_witness :
  is_ok (execute_action demo_env (demo_ext []) (demo_cfg false) demo_claimed 5
    {| sk_action_id := "a"; sk_action_type := "memory.read"; sk_args := JObj []; sk_justification := "";
       sk_action_contract_version := None; sk_action_schema_id := None |}
    {| ec_remote_llm_tokens_remaining := None; ec_payment_spend_msat := 0;
       ec_last_llm_response_text := None |} artifact_world).1 = false.
Proof.
  rewrite unsupported_actions_have_no_effect; [reflexivity|vm_compute; reflexivity].
Defined.
