(* ===== verification/WorkerPayments.v ===== *)
(** The budget of a run, over everything the run does: the payments that one
    execution of [process_claimed_run] sends sum to at most
    [payment_max_spend_msat_per_run]. *)
From S2P Require Import Prelude RustStr Json Policy Capabilities Redaction Sql Runs Tables.
From S2P Require Import Action Paths PaymentRoutes World Messages LlmExecutor LlmFrame Payments PaymentProps Worker WorkerProps.

(** * What a journal pays *)

(** A payment of an invoice: the request row it is for, and its amount. *)
Definition invoice_payment (e : effect) : option (Uuid * Z) :=
  match submission_of e with
  | Some p => if String.eqb (ps_operation p) "pay_invoice"
              then Some (ps_request_id p, default 0 (ps_amount_msat p)) else None
  | None => None
  end.

Definition total (l : list (Uuid * Z)) : Z := foldr (fun p s => p.2 + s) 0 l.

(** The same request may go to several routes: it counts once. *)
Definition payments_sent (j : list effect) : list (Uuid * Z) := remove_dups (omap invoice_payment j).
Definition total_sent (j : list effect) : Z := total (payments_sent j).

#[export] Instance total_perm : Proper (Permutation ==> eq) total.
Proof. intros l l' H. unfold total. induction H; cbn [foldr]; lia. Qed.

Lemma total_app l l' : total (l ++ l') = total l + total l'.
Proof. induction l as [|p l IH]; cbn [app total foldr]; [done|]. fold (total (l ++ l')) (total l). lia. Qed.

Abbreviation nonneg := (Forall (fun p : Uuid * Z => 0 <= p.2)).

Lemma total_nonneg l : nonneg l -> 0 <= total l.
Proof. induction 1; cbn [total foldr]; [done|]. fold (total l). lia. Qed.

Lemma total_incl l l' : NoDup l -> l ⊆ l' -> nonneg l' -> total l <= total l'.
Proof.
  intros Hd Hi Hn. assert (l ⊆+ l') as Hs by (apply NoDup_submseteq; [done|by intros x; apply Hi]).
  apply submseteq_Permutation in Hs as (k & Hk). rewrite Hk in Hn |- *. apply Forall_app in Hn as [_ Hn].
  rewrite total_app. pose proof (total_nonneg k Hn). lia.
Qed.

Lemma payments_sent_app j1 j2 : payments_sent (j1 ++ j2) ⊆ payments_sent j1 ++ payments_sent j2.
Proof.
  intros x. unfold payments_sent. rewrite elem_of_app, !elem_of_remove_dups, omap_app, elem_of_app. done.
Qed.

Lemma total_sent_app j1 j2 : nonneg (payments_sent j1) -> nonneg (payments_sent j2) ->
  total_sent (j1 ++ j2) <= total_sent j1 + total_sent j2.
Proof.
  intros H1 H2. unfold total_sent. rewrite <- total_app.
  apply total_incl; [apply NoDup_remove_dups|apply payments_sent_app|by apply Forall_app].
Qed.

Lemma nonneg_sent_app j1 j2 : nonneg (payments_sent j1) -> nonneg (payments_sent j2) ->
  nonneg (payments_sent (j1 ++ j2)).
Proof.
  rewrite !Forall_forall. intros H1 H2 x Hx%payments_sent_app. apply elem_of_app in Hx as []; auto.
Qed.

Lemma no_pay_sent j : Forall no_pay j -> payments_sent j = [].
Proof.
  intros H. unfold payments_sent. replace (omap invoice_payment j) with (@nil (Uuid * Z)); [done|].
  induction H as [|e j He _ IH]; [done|]. cbn. unfold invoice_payment at 1. by rewrite He.
Qed.

(** * A budget along a computation *)

Section budget.
Context {X : Type} (lim : Z).

(** [s] is what the run has spent before; [f] reads what it has spent after. *)
Definition budgeted {A} (s : Z) (f : A -> Z) (r : result A error) (j : list effect) : Prop :=
  s <= lim -> nonneg (payments_sent j) /\ s + total_sent j <= lim /\
              forall a, r = Ok a -> s + total_sent j <= f a <= lim.

Lemma budgeted_none {A} s (f : A -> Z) (m : M X A) :
  only_ok no_pay (fun a => f a = s) m -> emits m (budgeted s f).
Proof.
  intros H. eapply emits_weaken; [exact H|]. intros r j [HF Hs] Hl. unfold total_sent.
  rewrite (no_pay_sent j HF). cbn. split_and!; [done|lia|]. intros a ->. specialize (Hs a eq_refl). lia.
Qed.

Lemma budgeted_join {A B} s (f : A -> Z) (g : B -> Z) r1 r j1 j2 :
  budgeted s f r1 j1 -> (forall a, r1 = Ok a -> budgeted (f a) g r j2) -> is_ok r1 = true ->
  budgeted s g r (j1 ++ j2).
Proof.
  intros H1 H2 Hr Hl. destruct r1 as [a|]; [|done]. destruct (H1 Hl) as (N1 & _ & Ha).
  specialize (Ha a eq_refl). destruct (H2 a eq_refl ltac:(lia)) as (N2 & L2 & Hb).
  pose proof (total_sent_app j1 j2 N1 N2). split_and!; [by apply nonneg_sent_app|lia|].
  intros b Hb'. specialize (Hb b Hb'). lia.
Qed.

Lemma budgeted_bind {A B} s (f : A -> Z) (g : B -> Z) (m : M X A) (k : A -> M X B) :
  emits m (budgeted s f) -> (forall a, emits (k a) (budgeted (f a) g)) -> emits (bind m k) (budgeted s g).
Proof.
  intros Hm Hk. eapply emits_weaken; [apply emits_bind; [exact Hm|exact Hk]|]. cbn beta.
  intros r j [(e & -> & H)|(a & j1 & j2 & -> & H1 & H2)].
  - intros Hl. destruct (H Hl) as (? & ? & _). by split_and!.
  - eapply budgeted_join; [exact H1| |done]. by intros ? [= <-].
Qed.

Lemma budgeted_after {A B} s (g : B -> Z) (m : M X A) (k : A -> M X B) :
  only no_pay m -> (forall a, emits (k a) (budgeted s g)) -> emits (bind m k) (budgeted s g).
Proof.
  intros Hm Hk. apply (budgeted_bind s (fun _ => s)); [|exact Hk]. by apply budgeted_none, only_only_ok.
Qed.

Lemma budgeted_failed {A} s (g : A -> Z) (m : M X A) :
  only no_pay m -> (forall w, is_ok (m w).1 = false) -> emits m (budgeted s g).
Proof.
  intros Hm Hf. apply budgeted_none. intros w. destruct (Hm w) as (j & Hj & HF). exists j.
  split; [exact Hj|]. split; [done|]. intros a Ha. specialize (Hf w). by rewrite Ha in Hf.
Qed.

Lemma budgeted_try {A B} s (f : A -> Z) (g : B -> Z) (m : M X A) (k : result A error -> M X B) :
  emits m (budgeted s f) -> (forall a, emits (k (Ok a)) (budgeted (f a) g)) ->
  (forall e, only no_pay (k (Err e))) -> (forall e w, is_ok (k (Err e) w).1 = false) ->
  emits (try m k) (budgeted s g).
Proof.
  intros Hm Hk Hn Hf w. unfold try, appends. destruct (Hm w) as (j1 & Hj1 & H1).
  unfold appends in Hj1. destruct (m w) as [r1 w1] eqn:Hw. cbn [fst snd] in *. destruct r1 as [a|e].
  - destruct (Hk a w1) as (j2 & Hj2 & H2). exists (j1 ++ j2). unfold appends in Hj2.
    rewrite Hj2, Hj1, app_assoc. split; [done|]. eapply budgeted_join; [exact H1| |done]. by intros ? [= <-].
  - destruct (Hn e w1) as (j2 & Hj2 & H2). exists (j1 ++ j2). unfold appends in Hj2.
    rewrite Hj2, Hj1, app_assoc. split; [done|]. intros Hl. destruct (H1 Hl) as (N1 & L1 & _).
    assert (nonneg (payments_sent j2)) as N2 by by rewrite no_pay_sent.
    pose proof (total_sent_app j1 j2 N1 N2) as HT. unfold total_sent at 3 in HT.
    rewrite (no_pay_sent j2 H2) in HT. cbn in HT.
    split_and!; [by apply nonneg_sent_app|lia|]. intros b Hb. specialize (Hf e w1). by rewrite Hb in Hf.
Qed.

Lemma budgeted_try_none {A B} s (g : B -> Z) (Q : A -> Prop) (m : M X A) (k : result A error -> M X B) :
  only_ok no_pay Q m -> (forall a, Q a -> emits (k (Ok a)) (budgeted s g)) ->
  (forall e, only no_pay (k (Err e))) -> (forall e w, is_ok (k (Err e) w).1 = false) ->
  emits (try m k) (budgeted s g).
Proof.
  intros Hm Hk Hn Hf w. destruct (Hm w) as (j1 & Hj1 & HF1 & HQ). unfold appends in Hj1. unfold try, appends.
  destruct (m w) as [[a|e] w1]; cbn [fst snd] in *;
    [destruct (Hk a (HQ a eq_refl) w1) as (j2 & Hj2 & H2)
    |destruct (budgeted_failed s g _ (Hn e) (Hf e) w1) as (j2 & Hj2 & H2)].
  all: exists (j1 ++ j2); unfold appends in Hj2; rewrite Hj2, Hj1, app_assoc; split; [done|].
  all: eapply (budgeted_join s (fun _ : unit => s) g (Ok tt)); [|by intros|done].
  all: intros Hl; unfold total_sent; rewrite (no_pay_sent j1 HF1); cbn; split_and!; [done|lia|intros; lia].
Qed.
End budget.

(** * The worker *)

Section worker.
Context {X : Type} (E : env) (ext : externals) (cfg : WorkerConfig) (run : RunLeaseRecord).
Context (lim : Z) (Hlim : pc_max_spend_msat_per_run (cf_payments cfg) = Some lim) (Hmax : lim < u64_max).

(** A [u64] is not negative. *)
Definition u64_amount (args : json) : Prop := forall n, get "amount_msat" args ≫= as_u64 = Some n -> 0 <= n.

Abbreviation spent_after := (fun a : json * ActionExecutionContext => ec_payment_spend_msat a.2).

Lemma call_effects_sent c request j :
  Forall (rail_effect (cf_payments cfg) c request) j ->
  payments_sent j ⊆ [(request, default 0 (pl_amount_msat c))] /\
  (pl_operation c <> PayInvoice -> payments_sent j = []).
Proof.
  intros HF.
  assert (forall x, x ∈ omap invoice_payment j -> pl_operation c = PayInvoice /\
            x = (request, default 0 (pl_amount_msat c))) as H.
  { intros x (e & He & Hx)%list_elem_of_omap. rewrite Forall_forall in HF. specialize (HF e He).
    unfold invoice_payment in Hx. destruct HF as [HF|(uri & _ & ->)]; [by rewrite HF in Hx|].
    cbn [submission_of submission ps_operation ps_request_id ps_amount_msat] in Hx.
    destruct (pl_operation c) eqn:Ho; cbn in Hx; try done. injection Hx as <-. done. }
  split.
  - unfold payments_sent. intros x Hx. rewrite elem_of_remove_dups in Hx. destruct (H x Hx) as [_ ->]. by left.
  - intros Ho. unfold payments_sent. destruct (omap invoice_payment j) as [|x l]; [done|].
    destruct (H x ltac:(left)) as [? _]. done.
Qed.

Lemma payment_budgeted pe worker_id root id args spend : u64_amount args ->
  emits (execute_payment_send_action (X := X) E pe (cf_payments cfg) worker_id root run id args spend)
    (budgeted lim spend snd).
Proof.
  intros Hu. eapply emits_weaken; [apply execute_payment_emits|].
  intros r j [[HF Hs]|(c & request & Hc & HW & HF & Hs)] Hl.
  - unfold total_sent. rewrite (no_pay_sent j HF). cbn. split_and!; [done|lia|].
    intros a Ha. rewrite (Hs a Ha). lia.
  - apply parse_payment_call_Ok in Hc as (Ha & _ & Hreq).
    destruct (call_effects_sent c request j HF) as [Hi Hn].
    unfold spend_after in Hs. destruct (decide (pl_operation c = PayInvoice)) as [Ho|Ho].
    + destruct Hreq as [amount Hamount]; [by rewrite Ho|]. rewrite Hamount in Hi. cbn in Hi.
      destruct (HW Ho amount Hamount) as [_ HB]. specialize (HB lim Hlim).
      assert (0 <= amount) by (apply Hu; by rewrite <- Ha).
      assert (nonneg [(request, amount)]) as Hnn by by constructor.
      assert (total_sent j <= amount + 0) as Ht by exact (total_incl _ _ (NoDup_remove_dups _) Hi Hnn).
      unfold saturating_add_u64 in HB. split_and!.
      * rewrite Forall_forall in Hnn |- *. intros x Hx. by apply Hnn, Hi.
      * lia.
      * intros a Hr. rewrite (Hs a Hr), Ho, Hamount. cbn. unfold saturating_add_u64. lia.
    + unfold total_sent. rewrite (Hn Ho). cbn. split_and!; [done|lia|].
      intros a Hr. rewrite (Hs a Hr). destruct (pl_operation c); try done; lia.
Qed.

Lemma budgeted_ret_pair s (m : M X json) ctx : ec_payment_spend_msat ctx = s -> only no_pay m ->
  emits (X := X) (let! v := m in ret (v, ctx)) (budgeted lim s spent_after).
Proof.
  intros Hs Hm. apply budgeted_after; [exact Hm|]. intros v. apply budgeted_none. by apply only_ok_ret.
Qed.

Lemma dispatch_budgeted id a ctx : u64_amount (sk_args a) ->
  emits (dispatch_action (X := X) E ext cfg run id a ctx) (budgeted lim (ec_payment_spend_msat ctx) spent_after).
Proof.
  intros Hu. unfold dispatch_action.
  destruct (str_match _ _) as [m|] eqn:Em; [|by apply budgeted_failed; [apply only_throw|]].
  str_match_cases Em.
  - apply budgeted_ret_pair; [done|]. unfold execute_object_write_action.
    repeat first [apply store_artifact_only | only_step]; done.
  - apply budgeted_ret_pair; [done|]. unfold execute_message_send_action.
    repeat first [apply deliver_only | apply store_artifact_only | only_step]; done.
  - apply budgeted_ret_pair; [done|]. unfold execute_message_receive_action.
    repeat first [apply store_artifact_only | only_step]; done.
  - eapply budgeted_bind; [by apply payment_budgeted|]. intros [v spend]. apply budgeted_none.
    by apply only_ok_ret.
  - apply budgeted_after; [by apply only_llm_infer|]. intros [v c]. apply budgeted_none. by apply only_ok_ret.
  - apply budgeted_ret_pair; [done|]. repeat only_step.
Qed.

Lemma run_event_no_pay trace step ty payload : only no_pay (run_event (X := X) E cfg run trace step ty payload).
Proof. by apply run_event_only. Qed.

Ltac pay_step :=
  first [apply run_event_no_pay | apply only_stmt; intros; repeat case_match; by repeat constructor | only_step].

Lemma close_action_no_pay trace step id st reason re ty pl se :
  only no_pay (close_action (X := X) E cfg run trace step id st reason re ty pl se).
Proof.
  unfold close_action, db_update_action_request_status, db_create_action_result, db_mark_step_failed.
  repeat pay_step.
Qed.

Lemma finish_action_no_pay trace step id req v :
  only no_pay (finish_action (X := X) E cfg run trace step id req v).
Proof.
  unfold finish_action, alert_event, db_update_action_request_status, db_create_action_result.
  repeat pay_step.
Qed.

Lemma denied_budgeted {A B} s (g : A -> Z) (m : M X B) (e : error) : only no_pay m ->
  emits (let! _ := m in throw e) (budgeted lim s g).
Proof.
  intros Hm. apply budgeted_after; [exact Hm|]. intros _. by apply budgeted_failed; [apply only_throw|].
Qed.

Abbreviation ctx_spend := ec_payment_spend_msat.

Lemma allowed_budgeted trace step id a req ctx : u64_amount (sk_args a) ->
  emits (allowed_action (X := X) E ext cfg run trace step id a req ctx) (budgeted lim (ctx_spend ctx) ctx_spend).
Proof.
  intros Hu. unfold allowed_action.
  destruct (_ && _); [apply denied_budgeted, close_action_no_pay|].
  apply budgeted_after; [by apply only_stmt; repeat constructor|intros _].
  apply budgeted_after; [apply run_event_no_pay|intros _].
  eapply budgeted_try.
  - apply (budgeted_after lim); [by apply only_note|intros _; by apply dispatch_budgeted].
  - intros [v ctx']. apply budgeted_after; [apply finish_action_no_pay|intros _].
    apply budgeted_none. by apply only_ok_ret.
  - intros e. apply only_bind; [apply close_action_no_pay|intros; apply only_throw].
  - intros e w. unfold fail_action, bind, throw. by destruct (close_action _ _ _ _ _ _ _ _ _ _ _ _ w) as [[]].
Qed.

Lemma process_action_budgeted trace step gs ctx raw : u64_amount (sk_args (normalize_skill_action raw)) ->
  emits (process_action (X := X) E ext cfg run trace step gs ctx raw) (budgeted lim (ctx_spend ctx) ctx_spend).
Proof.
  intros Hu. unfold process_action.
  apply budgeted_after; [apply only_new_v4|intros id].
  apply budgeted_after; [by apply only_stmt; repeat constructor|intros _].
  apply budgeted_after; [apply run_event_no_pay|intros _].
  destruct (to_policy_request _ _ _) as [req|e]; [|apply denied_budgeted, close_action_no_pay].
  destruct (is_action_allowed gs req); [by apply allowed_budgeted|apply denied_budgeted, close_action_no_pay].
Qed.

Lemma process_actions_budgeted trace step gs raws : forall ctx,
  (forall raw, raw ∈ raws -> u64_amount (sk_args (normalize_skill_action raw))) ->
  emits (process_actions (X := X) E ext cfg run trace step gs ctx raws) (budgeted lim (ctx_spend ctx) (fun _ => lim)).
Proof.
  induction raws as [|raw raws IH]; intros ctx Hu; cbn [process_actions].
  - eapply emits_weaken; [apply emits_ret|]. intros r j [-> ->] Hl. cbn. split_and!; [done|lia|].
    intros _ _. unfold total_sent. cbn. lia.
  - eapply budgeted_bind; [apply process_action_budgeted, Hu; by left|]. intros ctx'. apply IH.
    intros raw' H. apply Hu. by right.
Qed.

Lemma run_actions_budgeted trace step gs res : 0 <= lim ->
  (forall raw, raw ∈ ir_action_requests res -> u64_amount (sk_args (normalize_skill_action raw))) ->
  emits (run_actions (X := X) E ext cfg run trace step gs res) (budgeted lim 0 (fun _ => lim)).
Proof.
  intros H0 Hu. unfold run_actions. apply budgeted_after; [apply run_event_no_pay|intros _].
  eapply budgeted_bind; [by apply process_actions_budgeted|intros u; cbn beta].
  apply budgeted_none. apply only_only_ok; [|done].
  unfold db_mark_step_succeeded. repeat pay_step.
Qed.

Lemma normalized_amount raw : u64_amount (sk_args raw) -> u64_amount (sk_args (normalize_skill_action raw)).
Proof.
  unfold u64_amount. cbn [normalize_skill_action sk_args].
  destruct (sk_args raw) as [| | | | |m]; try done. rewrite normalize_args_obj. cbn [get].
  by rewrite normalize_map_lookup.
Qed.

(** The amounts that a skill asks for are unsigned. *)
Definition unsigned_requests : Prop := forall t command args request res raw,
  x_invoke ext t command args request = Ok res -> raw ∈ ir_action_requests res -> u64_amount (sk_args raw).

Lemma invoke_skill_unsigned step trace input gs : unsigned_requests ->
  only_ok no_pay (fun res => forall raw, raw ∈ ir_action_requests res ->
                    u64_amount (sk_args (normalize_skill_action raw)))
    (invoke_skill (X := X) E ext cfg run step trace input gs).
Proof.
  intros Hu. unfold invoke_skill. apply emits_bind_lift; [|by split]. intros [command args] _.
  apply only_ok_bind; [unfold verify_skill_script_provenance; repeat only_step|intros _].
  apply only_ok_bind; [apply only_new_v4|intros id].
  intros w. unfold bind, ask, lift, note, ret, appends. destruct (x_invoke _ _ _ _ _) as [res|e] eqn:Hx; cbn.
  - eexists. split; [reflexivity|]. split; [by repeat constructor|]. intros res' [= <-] raw Hraw.
    by eapply normalized_amount, Hu.
  - exists []. rewrite app_nil_r. by split.
Qed.

Lemma process_claimed_run_budgeted trace : 0 <= lim -> unsigned_requests ->
  emits (process_claimed_run (X := X) E ext cfg run trace) (budgeted lim 0 (fun _ => lim)).
Proof.
  intros H0 Hu. unfold process_claimed_run.
  apply budgeted_after; [unfold start_step, db_create_step;
    repeat pay_step|intros step].
  apply budgeted_after; [unfold prepare_skill_input_with_agent_context, db_mark_step_failed;
    repeat pay_step|intros input].
  eapply budgeted_try_none; [by apply invoke_skill_unsigned|..].
  - intros res Hres. by apply run_actions_budgeted.
  - intros e. unfold skill_failed, db_mark_step_failed. repeat pay_step.
  - intros e w. unfold skill_failed, bind, throw. destruct (db_mark_step_failed _ _ _ _) as [[b|x] w1]; [|done].
    by destruct (run_event _ _ _ _ _ _ _ _) as [[?|?] ?].
Qed.
End worker.

(** C20: a run stays within its payment budget: whatever the skill asks for, the
    wallets answer, fails or interferes, the invoices that one execution of a run
    sends to payment rails, an invoice sent over several routes counted once, sum
    to at most [payment_max_spend_msat_per_run]. *)
Theorem run_payments_stay_within_budget X E ext cfg run trace lim (w : world X) j
    (Hlim : pc_max_spend_msat_per_run (cf_payments cfg) = Some lim) (H0 : 0 <= lim) (Hmax : lim < u64_max)
    (Hskill : unsigned_requests ext) (Hj : appends (process_claimed_run E ext cfg run trace) w j) :
  total_sent j <= lim.
Proof.
  destruct (emits_appends _ _ _ _
    (process_claimed_run_budgeted E ext cfg run lim Hlim Hmax trace H0 Hskill) Hj H0) as (_ & H & _). lia.
Qed.

(** Three payments of 400 under a budget of 1000: the third is refused. *)
Definition pay_action (key : string) : SkillAction :=
  {| sk_action_id := key; sk_action_type := "payment.send"; sk_args := pay_args key 400;
     sk_justification := "invoice"; sk_action_contract_version := None; sk_action_schema_id := None |}.

Lemma pay_action_unsigned key : u64_amount (sk_args (pay_action key)).
Proof. intros n Hn. vm_compute in Hn. injection Hn as <-. lia. Qed.

Definition paying_run : RunLeaseRecord :=
  {| l_id := 1; l_tenant_id := "acme"; l_agent_id := 7; l_triggered_by_user_id := None;
     l_recipe_id := "notify_v1"; l_status := running; l_input_json := JObj [];
     l_granted_capabilities :=
       JArr [jobject [("capability", JStr "payment.send"); ("scope", JStr "nwc:*")]];
     l_attempts := 1; l_lease_owner := Some "w1"; l_lease_expires_at := Some 100; l_created_at := 0;
     l_started_at := Some 1 |}.

Definition paying_cfg : WorkerConfig :=
  {| cf_worker_id := "w1"; cf_approval_required_action_types := [];
     cf_messages := demo_message_config; cf_payments := demo_payment_config;
     cf_llm := demo_llm_config;
     cf_agent_context_enabled := false; cf_agent_context_required := false;
     cf_skill_command := "python3"; cf_skill_args := ["skill.py"];
     cf_skill_recipe_commands := ∅; cf_skill_script_sha256 := None; cf_skill_timeout_ms := 5000 |}.

Definition paying_journal : list effect :=
  w_journal (process_claimed_run demo_payment_env
    (demo_ext [pay_action "k1"; pay_action "k2"; pay_action "k3"]) paying_cfg paying_run None payment_world).2.

Lemma run_payments_stay_within_budget_witness :
  total_sent paying_journal = 800 /\ 800 <= 1000.
Proof.
  assert (total_sent paying_journal = 800) as H by (vm_compute; reflexivity).
  split; [exact H|]. rewrite <- H.
  apply (run_payments_stay_within_budget unit demo_payment_env
    (demo_ext [pay_action "k1"; pay_action "k2"; pay_action "k3"]) paying_cfg paying_run None 1000
    payment_world paying_journal).
  - reflexivity.
  - lia.
  - reflexivity.
  - intros t command args request res raw Hx Hraw n Hn. injection Hx as <-.
    cbn [ir_action_requests] in Hraw. rewrite !elem_of_cons in Hraw. destruct Hraw as [-> | [-> | [-> | H']]].
    + exact (pay_action_unsigned "k1" n Hn).
    + exact (pay_action_unsigned "k2" n Hn).
    + exact (pay_action_unsigned "k3" n Hn).
    + destruct (not_elem_of_nil _ H').
  - exact (appends_from_empty _ payment_world eq_refl).
Defined.
