(* ===== verification/WorkerCycle.v ===== *)
(** One cycle of the worker (worker/src/lib.rs, [process_once_dual]): requeue,
    maintenance, trigger scheduling, claim, renewal, execution and the final
    mark. *)
From S2P Require Import Prelude RustStr Json Policy Capabilities Redaction Sql Runs RunQueue.
From S2P Require Import TriggerTables TriggerDispatch.
From S2P Require Import LlmExecutor Scheduler Siem Action LlmTables MemoryTables Tables Paths World Memory Messages Worker WorkerProps.

Record CycleConfig := {
  cc_worker : WorkerConfig;
  cc_lease_for : Z;
  cc_requeue_limit : Z;
  cc_memory_compaction_enabled : bool;
  cc_memory_compaction_min_records : Z;
  cc_memory_compaction_max_groups_per_cycle : Z;
  cc_memory_compaction_min_age : Z;
  cc_siem_delivery_enabled : bool;
  cc_siem : SiemConfig;
  cc_trigger_scheduler_enabled : bool;
  cc_trigger_tenant_max_inflight_runs : Z;
  cc_trigger_dispatch_max_inflight_runs : Z;
  cc_claim_max_inflight_runs : Z;
  cc_trigger_scheduler_lease_enabled : bool;
  cc_trigger_scheduler_lease_name : string;
  cc_trigger_scheduler_lease_ttl : Z;
}.

Inductive WorkerCycleOutcome :=
| ClaimedAndSucceeded (run_id : Uuid)
| ClaimedAndFailed (run_id : Uuid)
| Idle (requeued_expired_runs : Z).

Record cycle_externals := {
  cx_worker : externals;
  cx_parse_uuid : string -> option Uuid;
  cx_schedules : schedules;
  cx_jitter_hash : Uuid -> Z -> Z;
  cx_locked : nat -> Uuid -> bool;
  cx_siem_post : nat -> siem_record -> string -> http_answer;
  cx_status_text : Z -> string;
}.

Section cycle.
Context {X : Type}.
Context (E : env) (ext : cycle_externals) (cc : CycleConfig).
#[local] Abbreviation cfg := (cc_worker cc).
#[local] Abbreviation me := (cf_worker_id (cc_worker cc)).
#[local] Instance store : RunStore := dual (env_pool E).

(** * Calls on runs, leases and the outbox *)

Definition db_requeue_expired_runs : M X Z :=
  runs_call E (fun clock rows => let '(rows', n) := rs_requeue clock (cc_requeue_limit cc) rows in (rows', Ok n))
    (fun n => [RunsRequeued n]).

Definition db_claim : M X (option RunLeaseRecord) :=
  runs_call E (fun clock => rs_claim clock me (cc_lease_for cc) (cc_claim_max_inflight_runs cc)
                              (cc_trigger_tenant_max_inflight_runs cc))
    (fun c => match c with Some r => [RunClaimed r] | None => [] end).

Definition db_renew (id : Uuid) : M X bool :=
  runs_call E (fun clock => rs_renew clock id me (cc_lease_for cc))
    (fun b : bool => if b then [RunRenewed id] else []).

Definition db_succeed (id : Uuid) : M X bool :=
  runs_call E (fun clock rows => let '(rows', b) := rs_succeed clock id me rows in (rows', Ok b))
    (fun b : bool => if b then [RunFinished id succeeded] else []).

Definition db_fail (id : Uuid) (err : json) : M X bool :=
  runs_call E (fun clock rows => let '(rows', b) := rs_fail clock id me err rows in (rows', Ok b))
    (fun b : bool => if b then [RunFinished id failed] else []).

Definition db_count_inflight_runs : M X Z :=
  stmt E (total (fun _ d => (d, count_inflight_runs (d_core d)))) (fun _ => []).

Definition db_try_acquire_scheduler_lease (p : SchedulerLeaseParams) : M X bool :=
  fun w =>
    stmt E (fun _ d => let? (leases, b) := try_acquire_scheduler_lease_dual (env_pool E)
                         (env_stmt_clock E (w_tick w)) p (d_leases d) in
                       Ok (with_leases d leases, b)) (fun _ => []) w.

(** The pass over the outbox makes its calls at the statement times of one tick. *)
Definition siem_pass : M X unit :=
  fun w =>
    let t := w_tick w in
    let d := observed E w in
    let '(rows, r) := process_compliance_siem_delivery_outbox (env_pool E) (cc_siem cc)
      (cx_status_text ext) (fun i => cx_siem_post ext (t + i)) (env_stmt_clock E t)
      (fun i => (fun f => SiemDriver (snd f)) <$> env_fault E (t + i)) (d_siem d) in
    (map_err (fun e => match e with SiemSql e => SqlError e | SiemDriver m => DriverError m end) r,
     {| w_db := with_siem d rows; w_journal := w_journal w; w_tick := S t; w_ext := w_ext w; w_routes := w_routes w; w_llm := w_llm w |}).

(** * Before the claim *)

Definition other_event (run_id : Uuid) (step : option Uuid) (tenant : string) (agent : Uuid)
    (user : option Uuid) (actor event_type : string) (payload : json) : M X unit :=
  let! id := new_v4 E in
  append_audit_event_with_trace E
    {| ne_id := id; ne_run_id := run_id; ne_step_id := step; ne_tenant_id := tenant;
       ne_agent_id := Some agent; ne_user_id := user; ne_actor := actor +:+ me;
       ne_event_type := event_type; ne_payload_json := payload |} None.

Definition compaction_payload (g : MemoryCompactionGroupOutcome) : json :=
  jobject [("memory_kind", JStr (mg_memory_kind g)); ("scope", JStr (mg_scope g));
           ("source_count", jint (mg_source_count g)); ("source_entry_ids", mg_source_entry_ids g)].

Fixpoint report_compaction (groups : list MemoryCompactionGroupOutcome) : M X unit :=
  match groups with
  | [] => ret tt
  | g :: rest =>
      match mg_representative_run_id g with
      | None => report_compaction rest
      | Some run_id =>
          let! _ := other_event run_id (mg_representative_step_id g) (mg_tenant_id g)
                      (mg_agent_id g) None "worker:" "memory.compacted" (compaction_payload g) in
          report_compaction rest
      end
  end.

Definition compaction_cutoff : M X Z :=
  let! now := now_utc E in lift (seconds_before now (cc_memory_compaction_min_age cc)).

Definition compact_memory : M X unit :=
  if cc_memory_compaction_enabled cc then
    let! cutoff := compaction_cutoff in
    let! stats := compact_memory_records_dual E (cx_parse_uuid ext) cutoff (cc_memory_compaction_min_records cc)
                    (cc_memory_compaction_max_groups_per_cycle cc) in
    if 0 <? ms_processed_groups stats then report_compaction (ms_groups stats) else ret tt
  else ret tt.

Definition deliver_siem : M X unit :=
  if cc_siem_delivery_enabled cc then siem_pass else ret tt.

Definition should_dispatch : M X bool :=
  let! global_inflight := db_count_inflight_runs in
  if cc_trigger_dispatch_max_inflight_runs cc <=? global_inflight then ret false
  else if cc_trigger_scheduler_lease_enabled cc then
    db_try_acquire_scheduler_lease
      {| lp_lease_name := cc_trigger_scheduler_lease_name cc; lp_lease_owner := me;
         lp_lease_for := cc_trigger_scheduler_lease_ttl cc |}
  else ret true.

(** One transaction of the dispatch, on either backend. *)
Definition dispatch_kind (k : trigger_kind) : M X (option TriggerDispatchRecord) :=
  let! run_id := new_v4 E in
  let! row_id := new_v4 E in
  fun w =>
    stmt E (fun now d =>
      let i := {| di_wall := env_stmt_clock E (w_tick w) 0; di_now := now;
                  di_locked := cx_locked ext (w_tick w); di_run_id := run_id; di_row_id := row_id;
                  di_tenant_max := cc_trigger_tenant_max_inflight_runs cc |} in
      let? (s, dispatched) := dispatch_kind_dual (cx_schedules ext) (cx_jitter_hash ext)
        (x_to_vec (cx_worker ext)) (env_uuid_text E) (env_pool E) k i (trigger_db d) in
      Ok (with_trigger_db d s, dispatched)) (fun _ => []) w.

(** The first kind that fires; an error stops. *)
Fixpoint dispatch_kinds (kinds : list trigger_kind) : M X (option TriggerDispatchRecord) :=
  match kinds with
  | [] => ret None
  | k :: rest =>
      let! dispatched := dispatch_kind k in
      match dispatched with
      | Some t => ret (Some t)
      | None => dispatch_kinds rest
      end
  end.

Definition dispatch_next_due_trigger_with_limits_dual : M X (option TriggerDispatchRecord) :=
  dispatch_kinds [WebhookKind; CronKind; IntervalKind].

Definition dispatched_payload (t : TriggerDispatchRecord) : json :=
  jobject [("recipe_id", JStr (td_recipe_id t)); ("source", JStr "trigger_scheduler");
           ("trigger_id", JStr (env_uuid_text E (td_trigger_id t)));
           ("trigger_type", JStr (td_trigger_type t));
           ("trigger_event_id", match td_trigger_event_id t with Some e => JStr e | None => JNull end);
           ("scheduled_for", env_time_json E (td_scheduled_for t));
           ("next_fire_at", env_time_json E (td_next_fire_at t))].

Definition schedule_triggers : M X unit :=
  if cc_trigger_scheduler_enabled cc then
    let! go := should_dispatch in
    if go then
      let! dispatched := dispatch_next_due_trigger_with_limits_dual in
      match dispatched with
      | Some t => other_event (td_run_id t) None (td_tenant_id t) (td_agent_id t)
                    (td_triggered_by_user_id t) "trigger-scheduler:" "run.created" (dispatched_payload t)
      | None => ret tt
      end
    else ret tt
  else ret tt.

(** * The claimed run *)

Definition claimed_event (run : RunLeaseRecord) (event_type : string) (payload : json) : M X unit :=
  run_event E cfg run (extract_trace_id_from_run_input (l_input_json run)) None event_type payload.

Definition finish_run (run : RunLeaseRecord) (r : result unit error) : M X WorkerCycleOutcome :=
  match r with
  | Ok _ =>
      let! completed := db_succeed (l_id run) in
      if completed then
        let! _ := claimed_event run "run.completed"
          (jobject [("status", JStr "succeeded"); ("attempts", jint (l_attempts run))]) in
        ret (ClaimedAndSucceeded (l_id run))
      else
        let! _ := db_fail (l_id run) (redact_json (jobject
          [("code", JStr "RUN_FINALIZE_FAILED");
           ("message", JStr "worker could not mark run as succeeded")])) in
        ret (ClaimedAndFailed (l_id run))
  | Err e =>
      let error_message := redact_text (render_error E e) in
      let! _ := db_fail (l_id run) (redact_json (jobject
        [("code", JStr "RUN_EXECUTION_FAILED"); ("message", JStr error_message)])) in
      let! _ := claimed_event run "run.failed" (jobject [("error", JStr error_message)]) in
      ret (ClaimedAndFailed (l_id run))
  end.

Definition lease_renew_failed (run : RunLeaseRecord) (requeued : Z) : M X WorkerCycleOutcome :=
  let! _ := claimed_event run "run.lease_renew_failed" (jobject []) in
  let! _ := db_fail (l_id run) (redact_json (jobject
    [("code", JStr "LEASE_RENEW_FAILED");
     ("message", JStr "worker failed to renew run lease after claim")])) in
  ret (Idle requeued).

Definition process_claim (run : RunLeaseRecord) (requeued : Z) : M X WorkerCycleOutcome :=
  let! _ := claimed_event run "run.claimed" (jobject
    [("attempts", jint (l_attempts run)); ("lease_owner", jstr_opt (l_lease_owner run));
     ("lease_expires_at", jopt (env_time_json E <$> l_lease_expires_at run))]) in
  let! renewed := db_renew (l_id run) in
  if negb renewed then lease_renew_failed run requeued
  else
    let! _ := claimed_event run "run.processing_started" (jobject
      [("recipe_id", JStr (l_recipe_id run)); ("attempts", jint (l_attempts run))]) in
    try (process_claimed_run E (cx_worker ext) cfg run
           (extract_trace_id_from_run_input (l_input_json run)))
      (finish_run run).

Definition process_once_dual : M X WorkerCycleOutcome :=
  let! requeued := db_requeue_expired_runs in
  let! _ := compact_memory in
  let! _ := deliver_siem in
  let! _ := schedule_triggers in
  let! claimed := db_claim in
  match claimed with
  | None => ret (Idle requeued)
  | Some run => process_claim run requeued
  end.
End cycle.

(** * What a cycle records *)

Lemma guarded_between auth jp jr jf :
  Forall nonexec jp -> guarded auth jr -> Forall nonexec jf ->
  guarded (fun j1 id a => exists l, j1 = jp ++ l /\ auth l id a) (jp ++ jr ++ jf).
Proof.
  intros Hp Hr Hf k1 id a k2 E.
  apply app_cons_split in E as [(l & -> & _)|(l & -> & E)].
  - apply Forall_app in Hp as [_ H]. by inv H.
  - apply app_cons_split in E as [(l' & -> & _)|(l' & -> & ->)]; [exists l; eauto|].
    apply Forall_app in Hf as [_ H]. by inv H.
Qed.

Section cycle_props.
Context {X : Type} (E : env) (ext : cycle_externals) (cc : CycleConfig).
#[local] Abbreviation cfg := (cc_worker cc).
#[local] Abbreviation wext := (cx_worker ext).

Lemma run_journal_guarded run ok j : run_journal wext cfg run ok j ->
  guarded (fun j1 id a => exists step,
    evidence wext cfg run step (parse_grant_set (l_granted_capabilities run)) j1 id a) j.
Proof.
  intros [[_ H]|(step & k1 & reqs & k2 & -> & Hn & HA)].
  - by apply guarded_nonexec, neutral_nonexec_all.
  - apply (actions_journal_neutral wext cfg run step _ reqs _ (k1 ++ [SkillReturned reqs])) in HA
      as (G & _); [|by apply Forall_app; split; [|repeat constructor]].
    rewrite <- app_assoc in G. intros j1 id a j2 Hj. exists step. by apply (G j1 id a j2).
Qed.

Lemma claimed_event_neutral run ty p :
  only neutral (claimed_event (X := X) E cc run ty p).
Proof. apply run_event_neutral. Qed.

Lemma db_fail_neutral id err : only neutral (db_fail (X := X) E cc id err).
Proof. apply only_runs_call. intros []; by repeat constructor. Qed.

Lemma db_succeed_emits id : emits (db_succeed (X := X) E cc id) (fun r j =>
  Forall neutral j /\ (r = Ok true -> RunFinished id succeeded ∈ j)).
Proof.
  eapply emits_weaken; [apply emits_runs_call|]. intros [b|e] j.
  - intros ->. destruct b; (split; [by repeat constructor|]); [set_solver|done].
  - intros [->|[[] ->]]; split; by repeat constructor.
Qed.

Definition finished (run : RunLeaseRecord) (ok : bool) (r : result WorkerCycleOutcome error)
    (j : list effect) : Prop :=
  Forall neutral j /\
  match r with
  | Ok (ClaimedAndSucceeded id) => ok = true /\ id = l_id run /\ RunFinished id succeeded ∈ j
  | Ok (ClaimedAndFailed id) => id = l_id run
  | Ok (Idle _) => False
  | Err _ => True
  end.

Lemma finish_run_emits run r0 :
  emits (finish_run (X := X) E cc run r0) (finished run (is_ok r0)).
Proof.
  unfold finish_run. destruct r0 as [u|e].
  - eapply emits_weaken.
    + apply emits_bind; [apply db_succeed_emits|intros completed].
      instantiate (1 := fun completed r j => Forall neutral j /\ match r with
        | Ok (ClaimedAndSucceeded id) => completed = true /\ id = l_id run
        | Ok (ClaimedAndFailed id) => id = l_id run | Ok (Idle _) => False | Err _ => True end).
      destruct completed; (eapply emits_weaken;
        [apply emits_bind; [apply (emits_only neutral);
           first [apply claimed_event_neutral|apply db_fail_neutral]|intros; apply emits_ret]|]);
        intros r j [(x & -> & H)|(x & j1 & j2 & -> & H & -> & ->)]; rewrite ?app_nil_r; done.
    + cbn beta. intros r j [(x & -> & H & _)|(b & j1 & j2 & -> & [H1 Hs] & H2 & Hr)]; [by split|].
      split; [by apply Forall_app|]. destruct r as [[id|id|n]|]; [|done..].
      destruct Hr as [-> ->]. split_and!; [done|done|]. apply elem_of_app. left. by apply Hs.
  - eapply emits_weaken.
    + apply emits_bind; [apply (emits_only neutral), db_fail_neutral|intros b].
      apply emits_bind; [apply (emits_only neutral), claimed_event_neutral|intros u]. apply emits_ret.
    + cbn beta. intros r j [(x & -> & H)|(b & j1 & j2 & -> & H1 & [(x & -> & H)|(u & j3 & j4 & -> & H3 & -> & ->)])];
        (split; [|done]); [done|by apply Forall_app|]. rewrite !Forall_app. auto.
Qed.

Definition claim_journal (run : RunLeaseRecord) (r : result WorkerCycleOutcome error)
    (j : list effect) : Prop :=
  (Forall neutral j /\ forall id, r <> Ok (ClaimedAndSucceeded id)) \/
  exists jp jr jf ok, j = jp ++ jr ++ jf /\ Forall neutral jp /\ RunRenewed (l_id run) ∈ jp /\
    run_journal wext cfg run ok jr /\ finished run ok r jf.

Lemma lease_renew_failed_emits run n :
  emits (lease_renew_failed (X := X) E cc run n)
    (fun r j => Forall neutral j /\ forall id, r <> Ok (ClaimedAndSucceeded id)).
Proof.
  unfold lease_renew_failed. eapply emits_weaken.
  - apply emits_bind; [apply (emits_only neutral), claimed_event_neutral|intros u].
    apply emits_bind; [apply (emits_only neutral), db_fail_neutral|intros b]. apply emits_ret.
  - cbn beta. intros r j [(x & -> & H)|(b & j1 & j2 & -> & H1 & [(x & -> & H)|(u & j3 & j4 & -> & H3 & -> & ->)])];
      (split; [|done]); [done|by apply Forall_app|]. rewrite !Forall_app. auto.
Qed.

Lemma db_renew_emits id : emits (db_renew (X := X) E cc id) (fun r j =>
  Forall neutral j /\ (r = Ok true -> RunRenewed id ∈ j)).
Proof.
  eapply emits_weaken; [apply emits_runs_call|]. intros [b|e] j.
  - intros ->. destruct b; (split; [by repeat constructor|]); [set_solver|done].
  - intros [->|[[] ->]]; split; by repeat constructor.
Qed.

Lemma process_claim_emits run n : emits (process_claim (X := X) E ext cc run n) (claim_journal run).
Proof.
  unfold process_claim. eapply emits_weaken.
  - apply emits_bind; [apply (emits_only neutral), claimed_event_neutral|intros u].
    apply emits_bind; [apply db_renew_emits|intros renewed].
    instantiate (1 := fun renewed r j => (Forall neutral j /\ forall id, r <> Ok (ClaimedAndSucceeded id)) \/
      (renewed = true /\ exists jp jr jf ok, j = jp ++ jr ++ jf /\ Forall neutral jp /\
         run_journal wext cfg run ok jr /\ finished run ok r jf)).
    destruct renewed; cbn [negb].
    + eapply emits_weaken.
      * apply emits_bind; [apply (emits_only neutral), claimed_event_neutral|intros u'].
        eapply (emits_try _ _ _ (fun r1 => finished run (is_ok r1)));
          [apply process_claimed_run_emits|intros r1; apply finish_run_emits].
      * cbn beta. intros r j [(x & -> & H)|(u' & j1 & j2 & -> & H1 & (r1 & j3 & j4 & -> & H3 & H4))];
          [by left|right]. split; [done|]. by exists j1, j3, j4, (is_ok r1).
    + eapply emits_weaken; [apply lease_renew_failed_emits|]. by left.
  - cbn beta. intros r j [(x & -> & H)|(u & j1 & j2 & -> & H1 & [(x & -> & H & _)|
      (b & j3 & j4 & -> & [H3 Hr] & [[H4 Hn]|(-> & jp & jr & jf & ok & -> & Hp & Hj & Hf)])])].
    + by left.
    + left. split; [by apply Forall_app|done].
    + left. split; [by rewrite !Forall_app|done].
    + right. exists (j1 ++ j3 ++ jp), jr, jf, ok. rewrite <- !app_assoc.
      split_and!; [done|by rewrite !Forall_app| |done|done].
      rewrite !elem_of_app. right. left. by apply Hr.
Qed.

Lemma only_dispatch : only neutral (dispatch_next_due_trigger_with_limits_dual (X := X) E ext cc).
Proof.
  unfold dispatch_next_due_trigger_with_limits_dual.
  induction [WebhookKind; CronKind; IntervalKind] as [|k rest IH]; cbn [dispatch_kinds]; [apply only_ret|].
  apply only_bind.
  - unfold dispatch_kind. apply only_bind; [apply only_new_v4|intros run_id _].
    apply only_bind; [apply only_new_v4|intros row_id _]. intros w. by apply only_stmt.
  - intros [t|] _; [apply only_ret|exact IH].
Qed.

Lemma before_claim_neutral :
  only neutral (db_requeue_expired_runs (X := X) E cc) /\ only neutral (compact_memory (X := X) E ext cc) /\
  only neutral (deliver_siem (X := X) E ext cc) /\ only neutral (schedule_triggers (X := X) E ext cc).
Proof.
  assert (forall a b c d e f g h, only neutral (other_event (X := X) E cc a b c d e f g h)) as Hother.
  { intros. unfold other_event. apply only_bind; [apply only_new_v4|intros id _].
    apply only_stmt. intros _. by repeat constructor. }
  split_and!.
  - apply only_runs_call. intros n. by repeat constructor.
  - unfold compact_memory. only_step; [|apply only_ret].
    apply only_bind.
    { apply only_bind; [|intros now _; apply only_lift]. intros w. exists []. unfold appends. cbn. by rewrite app_nil_r. }
    intros cutoff _. apply only_bind; [by apply only_compaction|]. intros stats _. only_step; [|apply only_ret].
    induction (ms_groups stats) as [|g rest IH]; cbn [report_compaction]; [apply only_ret|].
    destruct (mg_representative_run_id g); [|done]. apply only_bind; [apply Hother|done].
  - unfold deliver_siem. only_step; [|apply only_ret]. intros w. unfold appends, siem_pass.
    destruct (process_compliance_siem_delivery_outbox _ _ _ _ _ _ _) as [rows r].
    exists []. simpl. by rewrite app_nil_r.
  - unfold schedule_triggers. only_step; [|apply only_ret].
    assert (only neutral (should_dispatch (X := X) E cc)) as Hgo.
    { unfold should_dispatch. apply only_bind; [by apply only_stmt|intros n _].
      repeat only_step. intros w. unfold db_try_acquire_scheduler_lease.
      by apply only_stmt. }
    apply only_bind; [exact Hgo|]. intros [] _; [|apply only_ret].
    apply only_bind; [apply only_dispatch|]. intros [t|] _; [apply Hother|apply only_ret].
Qed.

(** A cycle claims at most one run, which satisfies [G]. *)
Definition cycle_journal (G : RunLeaseRecord -> Prop) (r : result WorkerCycleOutcome error)
    (j : list effect) : Prop :=
  (Forall neutral j /\ forall id, r <> Ok (ClaimedAndSucceeded id)) \/
  exists run j0 j1, j = j0 ++ RunClaimed run :: j1 /\ G run /\ Forall neutral j0 /\ claim_journal run r j1.

Definition claim_yield (G : RunLeaseRecord -> Prop) (r : result (option RunLeaseRecord) error)
    (j : list effect) : Prop :=
  match r with
  | Ok None => j = []
  | Ok (Some run) => j = [RunClaimed run] /\ G run
  | Err _ => Forall neutral j
  end.

(** The journal of a cycle, from what the calls before the claim keep and what
    the claim then yields. *)
Lemma process_once_yields (I : db -> Prop) (G : RunLeaseRecord -> Prop) :
  keeps (X := X) I (db_requeue_expired_runs (X := X) E cc) -> keeps I (compact_memory (X := X) E ext cc) ->
  keeps I (deliver_siem (X := X) E ext cc) -> keeps I (schedule_triggers (X := X) E ext cc) ->
  keeps (X := X) I (db_claim E cc) -> yields (X := X) I (db_claim E cc) (claim_yield G) ->
  yields I (process_once_dual (X := X) E ext cc) (cycle_journal G).
Proof.
  intros K1 K2 K3 K4 K5 Hclaim. destruct before_claim_neutral as (B1 & B2 & B3 & B4).
  unfold process_once_dual. eapply yields_weaken.
  - apply yields_bind; [done|apply yields_emits, (emits_only neutral), B1|intros n].
    apply yields_bind; [done|apply yields_emits, (emits_only neutral), B2|intros u1].
    apply yields_bind; [done|apply yields_emits, (emits_only neutral), B3|intros u2].
    apply yields_bind; [done|apply yields_emits, (emits_only neutral), B4|intros u3].
    apply yields_bind; [done|exact Hclaim|intros claimed]. apply yields_emits.
    instantiate (1 := fun claimed r j => match claimed with
      | None => j = [] /\ forall id, r <> Ok (ClaimedAndSucceeded id)
      | Some run => claim_journal run r j end).
    destruct claimed as [run|]; [apply process_claim_emits|].
    eapply emits_weaken; [apply emits_ret|]. by intros r j [-> ->].
  - cbn beta.
    intros r j [(x & -> & H)|(n & j1 & ja & -> & H1 & Ha)]; [by left|].
    destruct Ha as [(x & -> & H)|(u1 & j2 & jb & -> & H2 & Hb)]; [left; by rewrite !Forall_app|].
    destruct Hb as [(x & -> & H)|(u2 & j3 & jc & -> & H3 & Hc)]; [left; by rewrite !Forall_app|].
    destruct Hc as [(x & -> & H)|(u3 & j4 & jd & -> & H4 & Hd)]; [left; by rewrite !Forall_app|].
    assert (Forall neutral (j1 ++ j2 ++ j3 ++ j4)) as Hpre by (by rewrite !Forall_app).
    destruct Hd as [(x & -> & Hx)|(c & j5 & j6 & -> & Hc & Hk)].
    + left. rewrite !Forall_app in *. split; [tauto|done].
    + destruct c as [run|].
      * destruct Hc as [-> HG]. right. exists run, (j1 ++ j2 ++ j3 ++ j4), j6.
        rewrite <- !app_assoc. done.
      * destruct Hk as [-> Hr]. rewrite Hc. left. rewrite !app_nil_r. split; [done|apply Hr].
Qed.

Lemma process_once_emits : emits (process_once_dual (X := X) E ext cc) (cycle_journal (fun _ => True)).
Proof.
  intros w. apply (process_once_yields (fun _ => True)); try done. apply yields_emits.
  eapply emits_weaken; [apply emits_runs_call|]. intros [[run|]|e] j; cbn; [by intros ->|done|].
  intros [->|[[run|] ->]]; by repeat constructor.
Qed.

(** An executed action belongs to the claimed run, and the evidence for it comes
    between the claim and the execution. *)
Lemma cycle_execution G r j j1 id a j2 :
  cycle_journal G r j -> j = j1 ++ Executing id a :: j2 ->
  exists run k0 l step, j1 = (k0 ++ [RunClaimed run]) ++ l /\ G run /\ RunRenewed (l_id run) ∈ l /\
    evidence wext cfg run step (parse_grant_set (l_granted_capabilities run)) l id a.
Proof.
  intros H Hexec. destruct H as [[H _]|H].
  { exfalso. apply neutral_nonexec_all in H. by apply (nonexec_no_split j j1 id a j2 H). }
  destruct H as (run & k0 & k1 & Hk & HG & H0 & [[H1 _]|(jp & jr & jf & ok & -> & Hp & Hren & Hr & [Hf _])]).
  { exfalso. apply (nonexec_no_split j j1 id a j2); [|done]. rewrite Hk.
    apply Forall_app. split; [by apply neutral_nonexec_all|].
    constructor; [done|by apply neutral_nonexec_all]. }
  apply run_journal_guarded in Hr.
  assert (guarded (fun j1 id a => exists l, j1 = (k0 ++ RunClaimed run :: jp) ++ l /\
    exists step, evidence wext cfg run step (parse_grant_set (l_granted_capabilities run)) l id a) j) as HA.
  { rewrite Hk. change (k0 ++ RunClaimed run :: jp ++ jr ++ jf)
      with (k0 ++ (RunClaimed run :: jp) ++ jr ++ jf). rewrite app_assoc.
    apply guarded_between; [|done|by apply neutral_nonexec_all].
    apply neutral_nonexec_all, Forall_app. split; [done|]. by constructor. }
  destruct (HA j1 id a j2 Hexec) as (l & -> & step & Hev).
  exists run, k0, (jp ++ l), step. rewrite <- !app_assoc. split_and!; [done|done|set_solver|].
  by apply evidence_mono.
Qed.
End cycle_props.

(** * A concrete cycle *)

Definition cycle_cfg : CycleConfig :=
  {| cc_worker := demo_cfg false; cc_lease_for := 30000; cc_requeue_limit := 10;
     cc_memory_compaction_enabled := false; cc_memory_compaction_min_records := 50;
     cc_memory_compaction_max_groups_per_cycle := 10; cc_memory_compaction_min_age := 86400; cc_siem_delivery_enabled := true;
     cc_siem := {| sc_worker_id := "w1"; sc_lease := 30000; sc_batch_size := 10;
                   sc_http_enabled := false; sc_retry_backoff_ms := 1000; sc_retry_jitter_max_ms := 0 |};
     cc_trigger_scheduler_enabled := true; cc_trigger_tenant_max_inflight_runs := 5;
     cc_trigger_dispatch_max_inflight_runs := 5; cc_claim_max_inflight_runs := 5;
     cc_trigger_scheduler_lease_enabled := true;
     cc_trigger_scheduler_lease_name := "trigger_scheduler"; cc_trigger_scheduler_lease_ttl := 1000 |}.

(** Time zones and cron expressions that never parse: the cycle has no triggers. *)
Definition no_schedules : schedules :=
  {| sc_tz := unit; sc_schedule := unit; sc_tz_from_str := fun _ => Err "no zones";
     sc_schedule_from_str := fun _ => Err "no schedules"; sc_from_timestamp := fun _ => true;
     sc_next := fun _ _ _ => None; sc_to_offset := fun t => Ok t |}.

Definition cycle_ext (requests : list SkillAction) : cycle_externals :=
  {| cx_worker := demo_ext requests; cx_parse_uuid := fun _ => None;
     cx_schedules := no_schedules; cx_jitter_hash := fun _ _ => 0; cx_locked := fun _ _ => false;
     cx_siem_post := fun _ _ _ => Err "off"; cx_status_text := fun _ => "" |}.

Definition queued_world : world unit :=
  {| w_db := {| d_core := {| db_agents := [7]; db_users := [];
                  db_runs := [{| r_id := 1; r_tenant_id := "acme"; r_agent_id := 7;
                    r_triggered_by_user_id := None; r_recipe_id := "notify_v1"; r_status := queued;
                    r_input_json := JObj []; r_requested_capabilities := JArr [];
                    r_granted_capabilities := grants_json; r_created_at := 0; r_started_at := None;
                    r_finished_at := None; r_error_json := None; r_attempts := 0;
                    r_lease_owner := None; r_lease_expires_at := None;
                    r_semantic_dedupe_key := None |}] |};
               d_steps := []; d_action_requests := []; d_action_results := [];
               d_audit_events := []; d_artifacts := []; d_siem := []; d_leases := [];
               d_payment_requests := []; d_payment_results := [];
               d_triggers := no_triggers; d_llm := no_llm_tables; d_memory := no_memory |};
     w_journal := []; w_tick := 0; w_ext := tt; w_routes := ∅; w_llm := no_llm |}.

Definition demo_cycle (requests : list SkillAction) : M unit WorkerCycleOutcome :=
  process_once_dual demo_env (cycle_ext requests) cycle_cfg.

Definition cycle_effects (requests : list SkillAction) : list effect :=
  w_journal (demo_cycle requests queued_world).2.

(** * Properties *)

(** C1: in a whole cycle of a worker, on either backend, in every environment, an
    action is only executed after the worker has claimed a run and renewed its
    lease on it, and only if that run's own granted capabilities allow it, with
    the evidence of the decision recorded first. *)
Theorem cycle_executes_only_under_claim X E ext cc w j j1 id a j2
    (Hj : appends (process_once_dual (X := X) E ext cc) w j)
    (Hexec : j = j1 ++ Executing id a :: j2) :
  exists run, RunClaimed run ∈ j1 /\ RunRenewed (l_id run) ∈ j1 /\
    authorized (cx_worker ext) (cc_worker cc) (parse_grant_set (l_granted_capabilities run)) a /\
    RequestStatus id "allowed" None ∈ j1 /\
    exists e, Audited e ∈ j1 /\ ne_run_id e = l_id run /\ ne_event_type e = "action.allowed".
Proof.
  pose proof (emits_appends _ _ _ _ (process_once_emits E ext cc) Hj) as H.
  destruct (cycle_execution ext cc _ _ _ j1 id a j2 H Hexec)
    as (run & k0 & l & step & -> & _ & Hren & Hauth & _ & Hst & (e & He & Het & Hrun & _)).
  exists run. split_and!; [set_solver|set_solver|done|set_solver|].
  exists e. split; [set_solver|done].
Qed.

Lemma cycle_executes_only_under_claim_witness :
  exists run, RunClaimed run ∈ take 13 (cycle_effects [write_note]) /\
    RunRenewed (l_id run) ∈ take 13 (cycle_effects [write_note]) /\
    authorized (demo_ext [write_note]) (demo_cfg false)
      (parse_grant_set (l_granted_capabilities run)) write_note /\
    RequestStatus 1027 "allowed" None ∈ take 13 (cycle_effects [write_note]) /\
    exists e, Audited e ∈ take 13 (cycle_effects [write_note]) /\ ne_run_id e = l_id run /\
      ne_event_type e = "action.allowed".
Proof.
  apply (cycle_executes_only_under_claim unit demo_env (cycle_ext [write_note]) cycle_cfg queued_world
    (cycle_effects [write_note]) (take 13 (cycle_effects [write_note])) 1027 write_note
    (drop 14 (cycle_effects [write_note]))); vm_compute; reflexivity.
Defined.

(** C29: success is never reported for a run that did not complete: when a cycle
    answers that it processed run [id], it had claimed that run and renewed its
    lease, the skill answered, every requested action was executed in order,
    none was denied or failed, and the run was marked succeeded. *)
Theorem success_outcome_is_faithful X E ext cc w j id
    (Hj : appends (process_once_dual (X := X) E ext cc) w j)
    (Hok : (process_once_dual (X := X) E ext cc w).1 = Ok (ClaimedAndSucceeded id)) :
  exists run reqs, l_id run = id /\ RunClaimed run ∈ j /\ RunRenewed id ∈ j /\
    SkillReturned reqs ∈ j /\ executed j = map normalize_skill_action reqs /\
    Forall (fun e => is_refusal e = false) j /\ RunFinished id succeeded ∈ j.
Proof.
  pose proof (emits_appends _ _ _ _ (process_once_emits E ext cc) Hj) as H. rewrite Hok in H.
  destruct H as [[_ H]|(run & k0 & k1 & -> & _ & H0 & [[_ H1]|(jp & jr & jf & ok & -> & Hp & Hren & Hr & [Hf Hfin])])];
    [by specialize (H id)|by specialize (H1 id)|].
  destruct Hfin as (-> & -> & Hdone).
  apply run_journal_executed in Hr as [[_ ?]|(reqs & Hreqs & _ & HO)]; [done|].
  destruct (HO eq_refl) as [HX HR]. exists run, reqs.
  assert (executed k0 = [] /\ executed jp = [] /\ executed jf = []) as (E0 & Ep & Ef).
  { split_and!; by apply executed_nonexec, neutral_nonexec_all. }
  split_and!; [done|set_solver|set_solver|set_solver| | |set_solver].
  - rewrite executed_app, E0. simpl. by rewrite !executed_app, Ep, Ef, HX, app_nil_r.
  - apply Forall_app. split; [by apply neutral_not_refusal|]. constructor; [done|].
    rewrite !Forall_app. split_and!; [by apply neutral_not_refusal|done|by apply neutral_not_refusal].
Qed.

Lemma success_outcome_is_faithful_witness :
  exists run reqs, l_id run = 1 /\ RunClaimed run ∈ cycle_effects [write_note] /\
    RunRenewed 1 ∈ cycle_effects [write_note] /\ SkillReturned reqs ∈ cycle_effects [write_note] /\
    executed (cycle_effects [write_note]) = map normalize_skill_action reqs /\
    Forall (fun e => is_refusal e = false) (cycle_effects [write_note]) /\
    RunFinished 1 succeeded ∈ cycle_effects [write_note].
Proof.
  apply (success_outcome_is_faithful unit demo_env (cycle_ext [write_note]) cycle_cfg queued_world
    (cycle_effects [write_note]) 1); vm_compute; reflexivity.
Defined.
