(* ===== verification/ApiRuns.v ===== *)
(** Creating and reading runs over HTTP (api/src/lib.rs, [create_run_handler],
    [create_run_common], [get_run_handler]): authentication, capacity, granted
    capabilities, the semantic dedupe key, the insertion and the answer.  The
    SQLite handlers have the same bodies.  SHA-256, [serde_json::to_vec] and the
    text of an identifier are arguments of the model. *)
From stdpp Require Import pretty.
From S2P Require Import Prelude RustStr Json Policy ApiAuth Capabilities Sql Runs RunQueue Tables.
From S2P Require Import World.

Record CreateRunRequest := {
  cr_agent_id : Uuid; cr_triggered_by_user_id : option Uuid; cr_recipe_id : string;
  cr_input : json; cr_requested_capabilities : json;
}.

Record RunResponse := {
  rp_id : Uuid; rp_tenant_id : string; rp_agent_id : Uuid; rp_triggered_by_user_id : option Uuid;
  rp_recipe_id : string; rp_status : run_status; rp_trace_id : option string;
  rp_requested_capabilities : json; rp_granted_capabilities : json; rp_created_at : Z;
  rp_started_at : option Z; rp_finished_at : option Z; rp_error_json : option json;
  rp_attempts : Z; rp_lease_owner : option string; rp_lease_expires_at : option Z;
}.

Definition run_to_response (r : run) : RunResponse :=
  {| rp_id := r_id r; rp_tenant_id := r_tenant_id r; rp_agent_id := r_agent_id r;
     rp_triggered_by_user_id := r_triggered_by_user_id r; rp_recipe_id := r_recipe_id r;
     rp_status := r_status r; rp_trace_id := get_str "_trace" (r_input_json r);
     rp_requested_capabilities := r_requested_capabilities r;
     rp_granted_capabilities := r_granted_capabilities r; rp_created_at := r_created_at r;
     rp_started_at := r_started_at r; rp_finished_at := r_finished_at r;
     rp_error_json := r_error_json r; rp_attempts := r_attempts r;
     rp_lease_owner := r_lease_owner r; rp_lease_expires_at := r_lease_expires_at r |}.

(** * The semantic dedupe key *)

Fixpoint canonicalize_json_for_semantic_dedupe (value : json) : json :=
  match value with
  | JObj m =>
      JObj (map_of (order_by key_le
        (map (fun f => (f.1, canonicalize_json_for_semantic_dedupe f.2)) m)))
  | JArr l => JArr (map canonicalize_json_for_semantic_dedupe l)
  | _ => value
  end.

Definition inject_trace_id_into_input (input : json) (trace_id : string) : json :=
  match input with
  | JObj m => JObj (map_insert "_trace" (JStr trace_id) m)
  | _ => jobject [("input", input); ("_trace", JStr trace_id)]
  end.

Definition dedupe_payload (uuid_text : Uuid -> string) (tenant_id : string) (req : CreateRunRequest)
    (role : RolePreset) : json :=
  jobject
    [("tenant_id", JStr tenant_id); ("agent_id", JStr (uuid_text (cr_agent_id req)));
     ("triggered_by_user_id", default JNull (JStr ∘ uuid_text <$> cr_triggered_by_user_id req));
     ("recipe_id", JStr (cr_recipe_id req)); ("role_preset", JStr (RolePreset_as_str role));
     ("input", canonicalize_json_for_semantic_dedupe (cr_input req));
     ("requested_capabilities",
       canonicalize_json_for_semantic_dedupe (cr_requested_capabilities req))].

(** * Handlers *)

Definition array_len (v : json) : Z :=
  match as_array v with Some l => Z.of_nat (length l) | None => 0 end.

Section api_runs.
Context {X : Type} (E : env).
Context (to_vec : json -> string) (sha256_hex : string -> string).

Definition compute_run_semantic_dedupe_key (tenant_id : string) (req : CreateRunRequest)
    (role : RolePreset) : string :=
  sha256_hex (to_vec (dedupe_payload (env_uuid_text E) tenant_id req role)).

(** A handler answers or fails with an [ApiError]. *)
Definition handler (A : Type) : Type := M X (ApiResult A).

Definition fail {A} (e : ApiError) : handler A := ret (Err e).

(** [r?] for a value, and for a handler. *)
Definition check {A B} (r : ApiResult A) (k : A -> handler B) : handler B :=
  match r with Ok a => k a | Err e => fail e end.
Definition andthen {A B} (m : handler A) (k : A -> handler B) : handler B :=
  let! r := m in check r k.

(** [call.await.map_err(|err| ApiError::internal(format!("{what}: {err}")))] *)
Definition or_internal {A} (what : string) (m : M X A) : handler A :=
  try m (fun r => ret (map_err (fun e => internal (what +:+ ": " +:+ render_error E e)) r)).

Definition make_new_run (tenant_id : string) (granted : json)
    (req : CreateRunRequest) (id : Uuid) : NewRun :=
  {| n_id := id; n_tenant_id := tenant_id; n_agent_id := cr_agent_id req;
     n_triggered_by_user_id := cr_triggered_by_user_id req; n_recipe_id := cr_recipe_id req;
     n_input_json := inject_trace_id_into_input (cr_input req) (env_uuid_text E id);
     n_requested_capabilities := cr_requested_capabilities req;
     n_granted_capabilities := granted; n_status := "queued"; n_error_json := None |}.

Definition db_create_run (n : NewRun) (key : string) : M X (option RunRecord) :=
  stmt E (fun now d => let? (core, r) := create_run_with_semantic_dedupe_key now n key (d_core d) in
                       Ok (with_core d core, r))
    (fun r => match r with Some _ => [RunCreated n] | None => [] end).

Definition db_get_active_run_id (tenant_id key : string) : M X (option Uuid) :=
  stmt E (total (fun _ d => (d, get_active_run_id_by_semantic_dedupe_key tenant_id key (d_core d))))
    (fun _ => []).

Definition db_get_run_status (tenant_id : string) (id : Uuid) : M X (option run) :=
  stmt E (total (fun _ d => (d, get_run_status tenant_id id (d_core d)))) (fun _ => []).

Definition db_count_tenant_inflight_runs (tenant_id : string) : M X Z :=
  stmt E (total (fun _ d => (d, count_tenant_inflight_runs tenant_id (d_core d)))) (fun _ => []).

Definition db_append_audit_event (event : NewAuditEvent) : M X unit :=
  stmt E (no_value (fun now => append_audit_event_dual (env_pool E) now event)) (fun _ => [Audited event]).

Definition created_event (tenant_id : string) (role : RolePreset) (granted : json)
    (req : CreateRunRequest) (run_id id : Uuid) : NewAuditEvent :=
  {| ne_id := id; ne_run_id := run_id; ne_step_id := None; ne_tenant_id := tenant_id;
     ne_agent_id := Some (cr_agent_id req); ne_user_id := cr_triggered_by_user_id req;
     ne_actor := "api"; ne_event_type := "run.created";
     ne_payload_json := jobject
       [("recipe_id", JStr (cr_recipe_id req)); ("role_preset", JStr (RolePreset_as_str role));
        ("trace_id", JStr (env_uuid_text E run_id));
        ("requested_capability_count", JNum (PosInt (array_len (cr_requested_capabilities req))));
        ("granted_capability_count", JNum (PosInt (array_len granted)))] |}.

(** The insertion, or the active run with the same key. *)
Definition insert_or_find (tenant_id key : string) (n : NewRun) : handler (Uuid * Z * bool) :=
  andthen (or_internal "failed creating run" (db_create_run n key)) (fun created =>
    match created with
    | Some r => ret (Ok (rr_id r, 201, true))
    | None =>
        andthen (or_internal "failed checking active run for semantic dedupe key"
                   (db_get_active_run_id tenant_id key)) (fun existing =>
          check (ok_or existing (conflict "run already exists in race with completion; retry request"))
            (fun id => ret (Ok (id, 200, false))))
    end).

(** The audit event of a new run, then the answer. *)
Definition finish_create (tenant_id : string) (role : RolePreset) (granted : json)
    (req : CreateRunRequest) (outcome : Uuid * Z * bool) : handler (Z * RunResponse) :=
  let '(run_id, status_code, created_new_run) := outcome in
  let audited :=
    if created_new_run : bool then
      let! event_id := new_v4 E in
      or_internal "failed appending run.created audit event"
        (db_append_audit_event (created_event tenant_id role granted req run_id event_id))
    else ret (Ok tt) in
  andthen audited (fun _ =>
    andthen (or_internal "failed loading created run" (db_get_run_status tenant_id run_id))
      (fun found =>
        check (ok_or found (internal "created run could not be reloaded"))
          (fun r => ret (Ok (status_code, run_to_response r))))).

Definition create_run_common (tenant_id : string) (role : RolePreset) (req : CreateRunRequest)
    : handler (Z * RunResponse) :=
  check (resolve_granted_capabilities (cr_recipe_id req) role (cr_requested_capabilities req))
    (fun granted =>
      let key := compute_run_semantic_dedupe_key tenant_id req role in
      let! id := new_v4 E in
      andthen (insert_or_find tenant_id key (make_new_run tenant_id granted req id))
        (finish_create tenant_id role granted req)).

Definition tenant_inflight_limited (lim inflight : Z) : ApiError :=
  {| api_status := 429; api_code := "TENANT_INFLIGHT_LIMITED";
     api_message := "tenant is at max inflight run capacity (limit=" +:+ pretty lim +:+
                    ", inflight=" +:+ pretty inflight +:+ ")" |}.

Definition create_run_handler (state : AuthState) (tenant_max_inflight_runs : option Z)
    (headers : HeaderMap) (req : CreateRunRequest) : handler (Z * RunResponse) :=
  check (tenant_from_headers headers) (fun tenant_id =>
  check (role_from_headers state headers) (fun role =>
    match tenant_max_inflight_runs with
    | Some lim =>
        andthen (or_internal "failed counting tenant inflight runs"
                   (db_count_tenant_inflight_runs tenant_id)) (fun inflight =>
          if lim <=? inflight then fail (tenant_inflight_limited lim inflight)
          else create_run_common tenant_id role req)
    | None => create_run_common tenant_id role req
    end)).

Definition get_run_handler (headers : HeaderMap) (run_id : Uuid) : handler (Z * RunResponse) :=
  check (tenant_from_headers headers) (fun tenant_id =>
    andthen (or_internal "failed fetching run" (db_get_run_status tenant_id run_id)) (fun found =>
      check (ok_or found (not_found "run not found")) (fun r =>
        ret (Ok (200, run_to_response r))))).
End api_runs.

(** * Reasoning about handlers *)

Section handlers.
Context {X : Type} (E : env).

(** A handler always answers, with an [ApiResult] and a journal in [T]. *)
Definition answers {A} (m : handler (X := X) A) (T : ApiResult A -> list effect -> Prop) : Prop :=
  emits m (fun r j => exists a, r = Ok a /\ T a j).

Lemma answers_weaken {A} (m : handler A) (T U : ApiResult A -> list effect -> Prop) :
  answers m T -> (forall r j, T r j -> U r j) -> answers m U.
Proof.
  intros H HU. eapply emits_weaken; [exact H|]. intros r j (a & -> & Ha). eauto.
Qed.

Lemma answers_ret {A} (a : ApiResult A) : answers (ret a) (fun r j => r = a /\ j = []).
Proof. eapply emits_weaken; [apply emits_ret|]. intros r j [-> ->]. eauto. Qed.

Lemma answers_check {A B} (a : ApiResult A) (k : A -> handler B) T :
  (forall x, a = Ok x -> answers (k x) T) -> (forall e, a = Err e -> T (Err e) []) ->
  answers (check a k) T.
Proof.
  intros Hk He. destruct a as [x|e]; cbn [check]; [by apply Hk|].
  eapply answers_weaken; [apply answers_ret|]. intros r j [-> ->]. by apply He.
Qed.

Lemma answers_andthen {A B} (m : handler A) (k : A -> handler B) T U :
  answers m T -> (forall a, answers (k a) (U a)) ->
  answers (andthen m k) (fun r j =>
    (exists e, r = Err e /\ T (Err e) j) \/
    (exists a j1 j2, j = j1 ++ j2 /\ T (Ok a) j1 /\ U a r j2)).
Proof.
  intros Hm Hk. unfold andthen. eapply emits_weaken.
  - eapply emits_bind; [exact Hm|]. intros a.
    apply (answers_check a k (fun r j => match a with Ok x => U x r j | Err e => r = Err e /\ j = [] end)).
    + intros x ->. apply Hk.
    + by intros e ->.
  - cbn beta. intros r j [(e & -> & a & ? & _)|(a & j1 & j2 & -> & (a' & [= <-] & HT) & b & -> & HU)];
      [done|]. exists b. split; [done|]. destruct a as [x|e]; [right; eauto 10|].
    destruct HU as [-> ->]. rewrite app_nil_r. left. eauto.
Qed.

(** The continuation is asked for only what the handler has answered. *)
Lemma answers_andthen_ok {A B} (m : handler A) (k : A -> handler B) T (U : A -> ApiResult B -> list effect -> Prop) :
  answers m T -> (forall a j, T (Ok a) j -> answers (k a) (U a)) ->
  answers (andthen m k) (fun r j =>
    (exists e, r = Err e /\ T (Err e) j) \/
    (exists a j1 j2, j = j1 ++ j2 /\ T (Ok a) j1 /\ U a r j2)).
Proof.
  intros Hm Hk w. destruct (Hm w) as (j1 & Hj1 & a & Ha & HT). unfold appends, andthen, bind in *.
  destruct (m w) as [r w1]. cbn [fst snd] in *. subst r. destruct a as [x|e]; cbn [check].
  - destruct (Hk x j1 HT w1) as (j2 & Hj2 & b & Hb & HU). unfold appends in Hj2. exists (j1 ++ j2).
    rewrite Hj2, Hj1, app_assoc. split; [done|]. exists b. split; [done|]. right. eauto 10.
  - exists j1. split; [done|]. exists (Err e). eauto.
Qed.

(** A handler that records nothing. *)
Definition effectless {A} (m : handler (X := X) A) : Prop := answers m (fun _ j => j = []).

Lemma effectless_ret {A} (a : ApiResult A) : effectless (ret a).
Proof. eapply answers_weaken; [apply answers_ret|]. by intros r j [_ ->]. Qed.

Lemma effectless_check {A B} (a : ApiResult A) (k : A -> handler B) : (forall x, a = Ok x -> effectless (k x)) -> effectless (check a k).
Proof. intros Hk. by apply answers_check. Qed.

Lemma effectless_andthen {A B} (m : handler A) (k : A -> handler B) : effectless m -> (forall a, effectless (k a)) -> effectless (andthen m k).
Proof.
  intros Hm Hk. eapply answers_weaken; [apply (answers_andthen_ok _ _ _ (fun _ _ j => j = []) Hm); intros a j _; apply Hk|].
  cbn beta. by intros r j [(e & _ & ->)|(a & j1 & j2 & -> & -> & ->)].
Qed.

Lemma answers_or_internal {A} what (m : M X A) T :
  emits m T -> answers (or_internal E what m) (fun r j =>
    match r with Ok a => T (Ok a) j | Err _ => exists e, T (Err e) j end).
Proof.
  intros Hm. unfold or_internal. eapply emits_weaken.
  - eapply emits_try; [exact Hm|]. intros r. apply emits_ret.
  - cbn beta. intros r j (r1 & j1 & j2 & -> & HT & -> & ->). rewrite app_nil_r.
    eexists. split; [done|]. destruct r1; simpl; eauto.
Qed.

Lemma answers_stmt {A} what (f : Z -> db -> result (db * A) db_error) log :
  answers (or_internal E what (stmt E f log)) (fun r j =>
    match r with
    | Ok a => j = log a /\ exists now d d', f now d = Ok (d', a)
    | Err _ => j = [] \/ exists a, j = log a /\ exists now d d', f now d = Ok (d', a)
    end).
Proof.
  eapply answers_weaken; [apply answers_or_internal, emits_stmt_value|].
  intros [a|e] j H; [done|]. by destruct H.
Qed.

Lemma answers_query {A} what (f : Z -> db -> result (db * A) db_error) :
  answers (or_internal E what (stmt E f (fun _ => []))) (fun r j => j = []).
Proof.
  eapply answers_weaken; [apply answers_stmt|].
  intros [a|e] j; [by intros [-> _]|by intros [->|(a & -> & _)]].
Qed.

Lemma effectless_query {A} what (f : Z -> db -> result (db * A) db_error) : effectless (or_internal E what (stmt E f (fun _ => []))).
Proof. apply answers_query. Qed.

Lemma answers_new_v4 {A} (k : Uuid -> handler A) T :
  (forall id, answers (k id) T) -> answers (bind (new_v4 E) k) T.
Proof. intros Hk w. destruct (Hk (env_uuid E (w_tick w)) (new_v4 E w).2) as (j & Hj & HT). by exists j. Qed.
End handlers.

Lemma created_id now n key core core' rec :
  create_run_with_semantic_dedupe_key now n key core = Ok (core', Some rec) -> rr_id rec = n_id n.
Proof.
  unfold create_run_with_semantic_dedupe_key. intros H.
  destruct (run_status_of _); [|done]. cbn [ok_or] in H. destruct (existsb _ _); [done|].
  destruct (insert_run _ _); [|done]. by simplify_eq.
Qed.

(** * What creating a run records *)

Section create.
Context {X : Type} (E : env) (to_vec : json -> string) (sha256_hex : string -> string).
#[local] Abbreviation created := (created_event E).

(** The journals of [create_run_common]. *)
Definition create_journal (tenant : string) (role : RolePreset) (req : CreateRunRequest)
    (r : ApiResult (Z * RunResponse)) (j : list effect) : Prop :=
  (j = [] /\ forall a, r = Ok a -> a.1 = 200) \/
  exists granted id,
    resolve_granted_capabilities (cr_recipe_id req) role (cr_requested_capabilities req) = Ok granted /\
    ((j = [RunCreated (make_new_run E tenant granted req id)] /\ is_ok r = false) \/
     (exists eid, j = [RunCreated (make_new_run E tenant granted req id);
                       Audited (created tenant role granted req id eid)] /\
        forall a, r = Ok a -> a.1 = 201)).

Lemma insert_or_find_answers tenant key n :
  answers (insert_or_find (X := X) E tenant key n) (fun r j =>
    match r with
    | Ok (id, code, true) => id = n_id n /\ code = 201 /\ j = [RunCreated n]
    | Ok (_, code, false) => code = 200 /\ j = []
    | Err _ => j = [] \/ j = [RunCreated n]
    end).
Proof.
  unfold insert_or_find. eapply answers_weaken.
  - apply answers_andthen; [apply answers_stmt|]. intros r.
    instantiate (1 := fun r res j => match r with
      | Some rec => res = Ok (rr_id rec, 201, true) /\ j = []
      | None => j = [] /\ forall a, res = Ok a -> a.1.2 = 200 /\ a.2 = false end).
    destruct r as [rec|]; [apply answers_ret|]. eapply answers_weaken.
    + apply answers_andthen; [apply answers_query|]. intros existing.
      apply (answers_check _ _ (fun res j => j = [] /\ forall a, res = Ok a -> a.1.2 = 200 /\ a.2 = false)).
      * intros id _. eapply answers_weaken; [apply answers_ret|]. intros r j [-> ->].
        split; [done|]. by intros a [= <-].
      * by intros e _.
    + cbn beta. by intros r j [(e & -> & ->)|(a & j1 & j2 & -> & -> & -> & Ha)].
  - cbn beta. intros r j [(e & -> & [->|(a & -> & _)])|(rec & j1 & j2 & -> & [-> Hf] & Hr)].
    + by left.
    + destruct a; [by right|by left].
    + destruct Hf as (now & d & d' & Hf).
      destruct (create_run_with_semantic_dedupe_key now n key (d_core d)) as [[core r0]|] eqn:C; [|done].
      simplify_eq. destruct rec as [rec|].
      * destruct Hr as [-> ->]. apply created_id in C. split_and!; [done|done|by rewrite app_nil_r].
      * destruct Hr as [-> Hr]. destruct r as [[[id code] b]|]; [|by left].
        destruct (Hr _ eq_refl) as [Hc Hb]. simpl in Hc, Hb. by subst.
Qed.

(** The audit events of [finish_create]. *)
Definition event_journal (tenant : string) (role : RolePreset) (granted : json)
    (req : CreateRunRequest) (run_id : Uuid) (fresh : bool) (r : bool) (j : list effect) : Prop :=
  if fresh then (j = [] /\ r = false) \/
                exists eid, j = [Audited (created tenant role granted req run_id eid)]
  else j = [].

Lemma finish_create_answers tenant role granted req run_id code fresh :
  answers (finish_create (X := X) E tenant role granted req (run_id, code, fresh)) (fun r j =>
    (forall b, r = Ok b -> b.1 = code) /\ event_journal tenant role granted req run_id fresh (is_ok r) j).
Proof.
  unfold finish_create. eapply answers_weaken.
  - apply (answers_andthen _ _ (fun r => event_journal tenant role granted req run_id fresh (is_ok r))).
    + destruct fresh; unfold event_journal.
      * apply answers_new_v4. intros eid. eapply answers_weaken; [apply answers_stmt|].
        intros [a|e] j; [intros [-> _]; eauto|]. intros [->|(a & -> & _)]; [by left|eauto].
      * eapply answers_weaken; [apply answers_ret|]. by intros r j [-> ->].
    + intros u. eapply answers_andthen; [apply answers_query|]. intros found.
      apply (answers_check _ _ (fun r j => j = [] /\ forall b, r = Ok b -> b.1 = code)).
      * intros row _. eapply answers_weaken; [apply answers_ret|]. intros r j [-> ->].
        split; [done|]. by intros b [= <-].
      * by intros e _.
  - cbn beta. intros r j [(e & -> & H)|(u & j1 & j2 & -> & H & Hr)]; [by split|].
    assert (j2 = []) as -> by (by destruct Hr as [(e & -> & ->)|(f & j3 & j4 & -> & -> & -> & _)]).
    rewrite app_nil_r. split.
    + intros b ->. destruct Hr as [(e & ? & _)|(f & j3 & j4 & _ & _ & _ & Hb)]; [done|by apply Hb].
    + unfold event_journal in *. destruct fresh; [|done]. destruct H as [[_ ?]|H]; [done|by right].
Qed.

Lemma create_run_common_answers tenant role req :
  answers (create_run_common (X := X) E to_vec sha256_hex tenant role req) (create_journal tenant role req).
Proof.
  unfold create_run_common. apply answers_check; [|by left].
  intros granted Hg. cbn zeta. apply answers_new_v4. intros id. eapply answers_weaken.
  - eapply answers_andthen; [apply insert_or_find_answers|]. intros [[run_id code] fresh].
    instantiate (1 := fun a r j => (forall b, r = Ok b -> b.1 = a.1.2) /\
      event_journal tenant role granted req a.1.1 a.2 (is_ok r) j).
    apply finish_create_answers.
  - cbn beta. cbn [fst snd].
    intros r j [(e & -> & [-> | ->])|([[run_id code] fresh] & j1 & j2 & -> & H1 & [Hc H2])].
    + by left.
    + right. exists granted, id. eauto.
    + destruct fresh.
      * destruct H1 as (-> & -> & ->). right. exists granted, id. split; [done|].
        destruct H2 as [[-> ?]|[eid ->]]; [by left|right]. by exists eid.
      * destruct H1 as [-> ->]. unfold event_journal in H2. subst. left. by split.
Qed.

Lemma create_run_handler_answers state lim headers req :
  answers (create_run_handler (X := X) E to_vec sha256_hex state lim headers req) (fun r j =>
    (j = [] /\ forall a, r = Ok a -> a.1 = 200) \/
    exists tenant role, tenant_from_headers headers = Ok tenant /\
      role_from_headers state headers = Ok role /\ create_journal tenant role req r j).
Proof.
  unfold create_run_handler. apply answers_check; [|by left]. intros tenant Ht.
  apply answers_check; [|by left]. intros role Hr.
  assert (answers (create_run_common (X := X) E to_vec sha256_hex tenant role req) (fun r j =>
    (j = [] /\ forall a, r = Ok a -> a.1 = 200) \/
    exists tenant role, tenant_from_headers headers = Ok tenant /\
      role_from_headers state headers = Ok role /\ create_journal tenant role req r j)) as Hc.
  { eapply answers_weaken; [apply create_run_common_answers|]. right. eauto. }
  destruct lim as [lim|]; [|done]. eapply answers_weaken.
  - eapply answers_andthen; [apply answers_query|]. intros inflight.
    instantiate (1 := fun _ => _). cbn beta. destruct (lim <=? inflight); [|exact Hc].
    eapply answers_weaken; [apply answers_ret|]. by intros r j [-> ->]; left.
  - cbn beta. intros r j [(e & -> & ->)|(a & j1 & j2 & -> & -> & H)]; [by left|done].
Qed.
End create.
