(* ===== verification/ApiTriggers.v ===== *)
(** The endpoints of triggers (api/src/lib.rs): creation, configuration, enabling
    and disabling, the ingestion and replay of webhook events, and manual firing.
    Each has a PostgreSQL and a SQLite handler; where their bodies are the same
    they share a definition here, where the statements differ the SQLite one has
    the suffix [_sqlite].  UUID parsing and the resolution of secret references
    are arguments. *)
From stdpp Require Import pretty.
From S2P Require Import Prelude RustStr Json Policy ApiAuth Capabilities Sql Runs RunQueue Tables.
From S2P Require Import TriggerTables TriggerDispatch World ApiRuns.

(** * Requests and answers *)

Record CreateTriggerRequest := {
  ct_agent_id : Uuid; ct_triggered_by_user_id : option Uuid; ct_recipe_id : string; ct_input : json;
  ct_requested_capabilities : json; ct_interval_seconds : Z; ct_max_inflight_runs : Z;
  ct_jitter_seconds : Z;
}.

Record CreateWebhookTriggerRequest := {
  cw_agent_id : Uuid; cw_triggered_by_user_id : option Uuid; cw_recipe_id : string; cw_input : json;
  cw_requested_capabilities : json; cw_webhook_secret_ref : option string; cw_max_attempts : Z;
  cw_max_inflight_runs : Z; cw_jitter_seconds : Z;
}.

Record CreateCronTriggerRequest := {
  cn_agent_id : Uuid; cn_triggered_by_user_id : option Uuid; cn_recipe_id : string; cn_input : json;
  cn_requested_capabilities : json; cn_cron_expression : string; cn_schedule_timezone : string;
  cn_max_attempts : Z; cn_max_inflight_runs : Z; cn_jitter_seconds : Z;
}.

Record TriggerEventRequest := { ter_event_id : string; ter_payload : json }.
Record FireTriggerRequest := { fr_idempotency_key : string; fr_payload : option json }.

Record UpdateTriggerRequest := {
  ur_interval_seconds : option Z; ur_cron_expression : option string;
  ur_schedule_timezone : option string; ur_misfire_policy : option string;
  ur_max_attempts : option Z; ur_max_inflight_runs : option Z; ur_jitter_seconds : option Z;
  ur_webhook_secret_ref : option string;
}.

Record TriggerResponse := {
  tr_id : Uuid; tr_tenant_id : string; tr_agent_id : Uuid; tr_triggered_by_user_id : option Uuid;
  tr_recipe_id : string; tr_status : string; tr_trigger_type : string;
  tr_interval_seconds : option Z; tr_cron_expression : option string; tr_schedule_timezone : string;
  tr_misfire_policy : string; tr_max_attempts : Z; tr_max_inflight_runs : Z; tr_jitter_seconds : Z;
  tr_consecutive_failures : Z; tr_dead_lettered_at : option Z; tr_dead_letter_reason : option string;
  tr_webhook_secret_configured : bool; tr_input_json : json; tr_requested_capabilities : json;
  tr_granted_capabilities : json; tr_next_fire_at : Z; tr_last_fired_at : option Z;
  tr_created_at : Z; tr_updated_at : Z;
}.

Definition is_some {A} (o : option A) : bool := match o with Some _ => true | None => false end.

Definition trigger_to_response (t : TriggerRecord) : TriggerResponse :=
  {| tr_id := t_id t; tr_tenant_id := t_tenant_id t; tr_agent_id := t_agent_id t;
     tr_triggered_by_user_id := t_triggered_by_user_id t; tr_recipe_id := t_recipe_id t;
     tr_status := t_status t; tr_trigger_type := t_trigger_type t;
     tr_interval_seconds := t_interval_seconds t; tr_cron_expression := t_cron_expression t;
     tr_schedule_timezone := t_schedule_timezone t; tr_misfire_policy := t_misfire_policy t;
     tr_max_attempts := t_max_attempts t; tr_max_inflight_runs := t_max_inflight_runs t;
     tr_jitter_seconds := t_jitter_seconds t; tr_consecutive_failures := t_consecutive_failures t;
     tr_dead_lettered_at := t_dead_lettered_at t; tr_dead_letter_reason := t_dead_letter_reason t;
     tr_webhook_secret_configured := is_some (t_webhook_secret_ref t);
     tr_input_json := t_input_json t; tr_requested_capabilities := t_requested_capabilities t;
     tr_granted_capabilities := t_granted_capabilities t; tr_next_fire_at := t_next_fire_at t;
     tr_last_fired_at := t_last_fired_at t; tr_created_at := t_created_at t;
     tr_updated_at := t_updated_at t |}.

Record TriggerEventIngestResponse := { ti_trigger_id : Uuid; ti_event_id : string; ti_status : string }.
Record TriggerFireResponse := {
  tf_trigger_id : Uuid; tf_run_id : option Uuid; tf_idempotency_key : string; tf_status : string;
}.

(** * Checks *)

Definition USER_ID_HEADER : string := "x-user-id".
Definition TRIGGER_SECRET_HEADER : string := "x-trigger-secret".

(** [if bad { return Err(ApiError::bad_request(message)) }], for every check in turn. *)
Fixpoint bad_requests (checks : list (bool * string)) : ApiResult unit :=
  match checks with
  | [] => Ok tt
  | (bad, message) :: rest => if bad then Err (bad_request message) else bad_requests rest
  end.

Definition out_of (lo hi v : Z) : bool := (v <? lo) || (hi <? v).

Definition inflight_and_jitter (max_inflight_runs jitter_seconds : Z) : list (bool * string) :=
  [(out_of 1 1000 max_inflight_runs, "max_inflight_runs must be between 1 and 1000");
   (out_of 0 3600 jitter_seconds, "jitter_seconds must be between 0 and 3600")].

Definition check_interval_request (req : CreateTriggerRequest) : ApiResult unit :=
  bad_requests
    ([(ct_interval_seconds req <=? 0, "interval_seconds must be greater than zero");
      (31536000 <? ct_interval_seconds req, "interval_seconds exceeds maximum of 31536000")]
     ++ inflight_and_jitter (ct_max_inflight_runs req) (ct_jitter_seconds req)).

Definition check_cron_request (req : CreateCronTriggerRequest) : ApiResult unit :=
  bad_requests
    ([(is_empty (trim (cn_cron_expression req)), "cron_expression must not be empty");
      (is_empty (trim (cn_schedule_timezone req)), "schedule_timezone must not be empty");
      (out_of 1 20 (cn_max_attempts req), "max_attempts must be between 1 and 20")]
     ++ inflight_and_jitter (cn_max_inflight_runs req) (cn_jitter_seconds req)).

Definition check_webhook_request (req : CreateWebhookTriggerRequest) : ApiResult unit :=
  bad_requests
    ((out_of 1 20 (cw_max_attempts req), "max_attempts must be between 1 and 20")
     :: inflight_and_jitter (cw_max_inflight_runs req) (cw_jitter_seconds req)).

Definition given {A} (o : option A) (f : A -> bool) : bool := match o with Some a => f a | None => false end.

Definition check_update_request (req : UpdateTriggerRequest) : ApiResult unit :=
  bad_requests
    [(given (ur_interval_seconds req) (out_of 1 31536000), "interval_seconds must be between 1 and 31536000");
     (given (ur_cron_expression req) (fun e => is_empty (trim e)), "cron_expression must not be empty");
     (given (ur_schedule_timezone req) (fun z => is_empty (trim z)), "schedule_timezone must not be empty");
     (given (ur_misfire_policy req) (fun p => negb (str_in p ["fire_now"; "skip"])),
       "misfire_policy must be one of: fire_now, skip");
     (given (ur_max_attempts req) (out_of 1 20), "max_attempts must be between 1 and 20");
     (given (ur_max_inflight_runs req) (out_of 1 1000), "max_inflight_runs must be between 1 and 1000");
     (given (ur_jitter_seconds req) (out_of 0 3600), "jitter_seconds must be between 0 and 3600")].

Definition check_schedule_fields (trigger_type : string) (req : UpdateTriggerRequest) : ApiResult unit :=
  let cron := is_some (ur_cron_expression req) || is_some (ur_schedule_timezone req) in
  bad_requests
    [(String.eqb trigger_type "interval" && cron, "interval trigger does not support cron schedule fields");
     (String.eqb trigger_type "cron" && is_some (ur_interval_seconds req),
       "cron trigger does not support interval_seconds");
     (String.eqb trigger_type "webhook" && (is_some (ur_interval_seconds req) || cron),
       "webhook trigger does not support schedule fields")].

Definition ensure_trigger_mutation_role (role : RolePreset) : ApiResult unit :=
  match role with Viewer => Err (forbidden "viewer role cannot mutate triggers") | _ => Ok tt end.

Definition resolve_trigger_actor_for_create (role : RolePreset) (actor requested : option Uuid)
    : ApiResult (option Uuid) :=
  match role with
  | Owner => Ok requested
  | Operator =>
      let? actor := ok_or actor (forbidden "operator role requires x-user-id for trigger mutation") in
      match requested with
      | Some r => if negb (r =? actor) then Err (forbidden "operator can only create triggers for self")
                  else Ok (Some actor)
      | None => Ok (Some actor)
      end
  | Viewer => Err (forbidden "viewer role cannot mutate triggers")
  end.

Definition ensure_trigger_operator_ownership (role : RolePreset) (actor owner : option Uuid) : ApiResult unit :=
  match role with
  | Operator =>
      let? actor := ok_or actor (forbidden "operator role requires x-user-id for trigger mutation") in
      if bool_decide (owner = Some actor) then Ok tt
      else Err (forbidden "operator cannot mutate triggers owned by another user")
  | _ => Ok tt
  end.

Definition map_trigger_enqueue_unavailable_reason (reason : TriggerEventEnqueueUnavailableReason) : ApiError :=
  match reason with
  | TriggerNotFound => not_found "trigger not found"
  | TriggerDisabled | TriggerScheduleBroken => conflict "trigger is not enabled"
  | TriggerTypeMismatch => bad_request "trigger does not accept webhook events"
  | PayloadMalformed => bad_request "trigger event payload must be a JSON object"
  end.

Definition user_id_from_headers (parse_uuid : string -> option Uuid) (state : AuthState) (headers : HeaderMap)
    : ApiResult (option Uuid) :=
  let? _ := enforce_trusted_proxy_auth state headers in
  match header_get headers USER_ID_HEADER with
  | None => Ok None
  | Some raw =>
      let? value := ok_or (to_str raw) (bad_request "x-user-id header is not valid UTF-8") in
      let? parsed := ok_or (parse_uuid (trim value)) (bad_request "x-user-id header must be a valid UUID") in
      Ok (Some parsed)
  end.

(** Tenant, role and user of a request that changes triggers. *)
Definition trigger_caller (parse_uuid : string -> option Uuid) (state : AuthState) (headers : HeaderMap)
    : ApiResult (string * RolePreset * option Uuid) :=
  let? tenant_id := tenant_from_headers headers in
  let? role := role_from_headers state headers in
  let? actor := user_id_from_headers parse_uuid state headers in
  let? _ := ensure_trigger_mutation_role role in
  Ok (tenant_id, role, actor).

(** * Calls *)

(** The instant that the statements of a backend store for [now()]. *)
Definition db_now (pool : DbPool) (now : Z) : Z := if on_sqlite pool then current_timestamp now else now.

Section api_triggers.
Context {X : Type} (E : env).
Context (sc : schedules) (jitter_hash : Uuid -> Z -> Z).
Context (to_vec : json -> string) (sha256_hex : string -> string).
Context (parse_uuid : string -> option Uuid).
Context (resolve_secret : string -> result (option string) string).
Context (state : AuthState) (tenant_max_triggers : option Z).
#[local] Abbreviation handler := (ApiRuns.handler (X := X)).
#[local] Abbreviation sqlite := (on_sqlite (env_pool E)).

(** A statement or transaction on the trigger tables. *)
Definition tstmt {A} (f : Z -> tdb -> result (tdb * A) db_error) (log : A -> list effect) : M X A :=
  stmt E (fun now d => let? (s, a) := f now (trigger_db d) in Ok (with_trigger_db d s, a)) log.

Definition tquery {A} (f : tdb -> A) : M X A := tstmt (fun _ s => Ok (s, f s)) (fun _ => []).

#[local] Abbreviation now_utc := (now_utc E).

(** [get_trigger], [get_trigger_sqlite] *)
Definition load_trigger (tenant_id : string) (id : Uuid) : handler (option TriggerRecord) :=
  or_internal E "failed loading trigger" (tquery (get_trigger tenant_id id)).

Definition role_details (role : RolePreset) (details : json) : json :=
  jobject [("role_preset", JStr (RolePreset_as_str role)); ("details", details)].

Definition append_trigger_audit (tenant_id : string) (trigger_id : Uuid) (role : RolePreset)
    (event_type : string) (details : json) : handler unit :=
  let! id := new_v4 E in
  let n := {| nt_id := id; nt_trigger_id := trigger_id; nt_tenant_id := tenant_id; nt_actor := "api";
              nt_event_type := event_type; nt_payload_json := role_details role details |} in
  or_internal E "failed appending trigger audit event"
    (tstmt (fun _ s => let? s := append_trigger_audit_event n s in Ok (s, tt)) (fun _ => [TriggerAudited n])).

Definition tenant_trigger_limited (lim count : Z) : ApiError :=
  {| api_status := 429; api_code := "TENANT_TRIGGER_LIMITED";
     api_message := "tenant is at max trigger capacity (limit=" +:+ pretty lim +:+ ", triggers=" +:+
                    pretty count +:+ ")" |}.

Definition ensure_tenant_trigger_capacity (tenant_id : string) : handler unit :=
  match tenant_max_triggers with
  | Some lim =>
      andthen (or_internal E "failed counting tenant triggers" (tquery (count_tenant_triggers tenant_id)))
        (fun count => if lim <=? count then fail (tenant_trigger_limited lim count) else ret (Ok tt))
  | None => ret (Ok tt)
  end.

(** * Creation *)

Definition jint (n : Z) : json := if n <? 0 then JNum (NegInt n) else JNum (PosInt n).
Definition opt_json {A} (f : A -> json) (o : option A) : json := match o with Some a => f a | None => JNull end.

(** The row that a statement writes is also its value, for the journal; the
    handlers do not use it: they read the row again. *)
Definition create_and_reload_sqlite (what tenant_id : string) (id : Uuid) (row : Z -> TriggerRecord)
    : handler TriggerRecord :=
  andthen (or_internal E what (tstmt (fun now => insert_trigger_sqlite (row (current_timestamp now))) (fun t => [TriggerCreated t]))) (fun _ =>
  andthen (load_trigger tenant_id id) (fun found =>
    check (ok_or found (internal "created trigger could not be reloaded")) (fun t => ret (Ok t)))).

(** The audit event, then the answer. *)
Definition answer_created (tenant_id : string) (role : RolePreset) (details : TriggerRecord -> json)
    (created : TriggerRecord) : handler (Z * TriggerResponse) :=
  andthen (append_trigger_audit tenant_id (t_id created) role "trigger.created" (details created))
    (fun _ => ret (Ok (201, trigger_to_response created))).

(** What the three creations share: the caller, the user the trigger acts for, the
    granted capabilities, the capacity of the tenant. *)
Definition create_with (headers : HeaderMap) (recipe_id : string) (requested_user : option Uuid)
    (requested_capabilities : json) (details : TriggerRecord -> json)
    (k : string -> option Uuid -> json -> handler TriggerRecord) : handler (Z * TriggerResponse) :=
  check (trigger_caller parse_uuid state headers) (fun '(tenant_id, role, actor) =>
  check (resolve_trigger_actor_for_create role actor requested_user) (fun user =>
  check (resolve_granted_capabilities recipe_id role requested_capabilities) (fun granted =>
  andthen (ensure_tenant_trigger_capacity tenant_id) (fun _ =>
  andthen (k tenant_id user granted) (answer_created tenant_id role details))))).

Definition new_interval (req : CreateTriggerRequest) (id : Uuid) (tenant_id : string) (user : option Uuid)
    (granted : json) (now : Z) : NewIntervalTrigger :=
  {| ni_id := id; ni_tenant_id := tenant_id; ni_agent_id := ct_agent_id req;
     ni_triggered_by_user_id := user; ni_recipe_id := ct_recipe_id req;
     ni_interval_seconds := ct_interval_seconds req; ni_input_json := ct_input req;
     ni_requested_capabilities := ct_requested_capabilities req; ni_granted_capabilities := granted;
     ni_next_fire_at := now + ct_interval_seconds req * second; ni_status := "enabled";
     ni_misfire_policy := "fire_now"; ni_max_attempts := 3;
     ni_max_inflight_runs := ct_max_inflight_runs req; ni_jitter_seconds := ct_jitter_seconds req;
     ni_webhook_secret_ref := None |}.

Definition interval_details (t : TriggerRecord) : json :=
  jobject [("trigger_type", JStr (t_trigger_type t));
           ("interval_seconds", opt_json jint (t_interval_seconds t));
           ("max_inflight_runs", jint (t_max_inflight_runs t)); ("jitter_seconds", jint (t_jitter_seconds t))].

Definition create_trigger_handler (headers : HeaderMap) (req : CreateTriggerRequest)
    : handler (Z * TriggerResponse) :=
  check (check_interval_request req) (fun _ =>
  create_with headers (ct_recipe_id req) (ct_triggered_by_user_id req) (ct_requested_capabilities req)
    interval_details (fun tenant_id user granted =>
      let! id := new_v4 E in
      let! wall := now_utc in
      let n := new_interval req id tenant_id user granted wall in
      if sqlite then
        create_and_reload_sqlite "failed creating trigger" tenant_id id (fun now => interval_row now n)
      else or_internal E "failed creating trigger"
             (tstmt (fun now => create_interval_trigger now n) (fun t => [TriggerCreated t])))).

Definition new_cron (req : CreateCronTriggerRequest) (id : Uuid) (tenant_id : string) (user : option Uuid)
    (granted : json) : NewCronTrigger :=
  {| nc_id := id; nc_tenant_id := tenant_id; nc_agent_id := cn_agent_id req;
     nc_triggered_by_user_id := user; nc_recipe_id := cn_recipe_id req;
     nc_cron_expression := trim (cn_cron_expression req);
     nc_schedule_timezone := trim (cn_schedule_timezone req); nc_input_json := cn_input req;
     nc_requested_capabilities := cn_requested_capabilities req; nc_granted_capabilities := granted;
     nc_status := "enabled"; nc_misfire_policy := "fire_now"; nc_max_attempts := cn_max_attempts req;
     nc_max_inflight_runs := cn_max_inflight_runs req; nc_jitter_seconds := cn_jitter_seconds req |}.

Definition cron_details (t : TriggerRecord) : json :=
  jobject [("trigger_type", JStr (t_trigger_type t));
           ("cron_expression", opt_json JStr (t_cron_expression t));
           ("schedule_timezone", JStr (t_schedule_timezone t));
           ("max_inflight_runs", jint (t_max_inflight_runs t)); ("jitter_seconds", jint (t_jitter_seconds t))].

(** On SQLite the first instant is the time of the request, and the expression is
    not parsed. *)
Definition create_cron_trigger_handler (headers : HeaderMap) (req : CreateCronTriggerRequest)
    : handler (Z * TriggerResponse) :=
  check (check_cron_request req) (fun _ =>
  create_with headers (cn_recipe_id req) (cn_triggered_by_user_id req) (cn_requested_capabilities req)
    cron_details (fun tenant_id user granted =>
      let! id := new_v4 E in
      let! wall := now_utc in
      let n := new_cron req id tenant_id user granted in
      if sqlite then
        create_and_reload_sqlite "failed creating cron trigger" tenant_id id (fun now => cron_row now wall n)
      else or_internal E "failed creating cron trigger"
             (tstmt (fun now => create_cron_trigger sc jitter_hash wall now n) (fun t => [TriggerCreated t])))).

Definition new_webhook (req : CreateWebhookTriggerRequest) (id : Uuid) (tenant_id : string)
    (user : option Uuid) (granted : json) (secret : option string) : NewWebhookTrigger :=
  {| nw_id := id; nw_tenant_id := tenant_id; nw_agent_id := cw_agent_id req;
     nw_triggered_by_user_id := user; nw_recipe_id := cw_recipe_id req; nw_input_json := cw_input req;
     nw_requested_capabilities := cw_requested_capabilities req; nw_granted_capabilities := granted;
     nw_status := "enabled"; nw_max_attempts := cw_max_attempts req;
     nw_max_inflight_runs := cw_max_inflight_runs req; nw_jitter_seconds := cw_jitter_seconds req;
     nw_webhook_secret_ref := secret |}.

Definition webhook_details (t : TriggerRecord) : json :=
  jobject [("trigger_type", JStr (t_trigger_type t)); ("max_attempts", jint (t_max_attempts t));
           ("max_inflight_runs", jint (t_max_inflight_runs t)); ("jitter_seconds", jint (t_jitter_seconds t));
           ("webhook_secret_configured", JBool (is_some (t_webhook_secret_ref t)))].

(** [.map(str::trim).filter(|v| !v.is_empty())] *)
Definition trimmed (o : option string) : option string :=
  match o with Some s => if is_empty (trim s) then None else Some (trim s) | None => None end.

Definition set_next_fire_at (at_ : Z) (t : TriggerRecord) : TriggerRecord :=
  set_schedule at_ (t_last_fired_at t) (t_consecutive_failures t) None (t_updated_at t) t.

Definition create_webhook_trigger_handler (headers : HeaderMap) (req : CreateWebhookTriggerRequest)
    : handler (Z * TriggerResponse) :=
  check (check_webhook_request req) (fun _ =>
  create_with headers (cw_recipe_id req) (cw_triggered_by_user_id req) (cw_requested_capabilities req)
    webhook_details (fun tenant_id user granted =>
      let! id := new_v4 E in
      let! wall := now_utc in
      if sqlite then
        let n := new_webhook req id tenant_id user granted (trimmed (cw_webhook_secret_ref req)) in
        create_and_reload_sqlite "failed creating webhook trigger" tenant_id id
          (fun now => set_next_fire_at wall (webhook_row now n))
      else
        let n := new_webhook req id tenant_id user granted (cw_webhook_secret_ref req) in
        or_internal E "failed creating webhook trigger"
          (tstmt (fun now => create_webhook_trigger now n) (fun t => [TriggerCreated t])))).

(** * Configuration *)

(** The trigger that a request names, which its caller may change. *)
Definition with_owned_trigger {A} (headers : HeaderMap) (pre : ApiResult unit) (trigger_id : Uuid)
    (k : string -> RolePreset -> TriggerRecord -> handler A) : handler A :=
  check (trigger_caller parse_uuid state headers) (fun '(tenant_id, role, actor) =>
  check pre (fun _ =>
  andthen (load_trigger tenant_id trigger_id) (fun found =>
  check (ok_or found (not_found "trigger not found")) (fun existing =>
  check (ensure_trigger_operator_ownership role actor (t_triggered_by_user_id existing)) (fun _ =>
    k tenant_id role existing))))).

Definition update_params (req : UpdateTriggerRequest) : UpdateTriggerParams :=
  {| up_interval_seconds := ur_interval_seconds req;
     up_cron_expression := trim <$> ur_cron_expression req;
     up_schedule_timezone := trim <$> ur_schedule_timezone req;
     up_misfire_policy := ur_misfire_policy req; up_max_attempts := ur_max_attempts req;
     up_max_inflight_runs := ur_max_inflight_runs req; up_jitter_seconds := ur_jitter_seconds req;
     up_webhook_secret_ref := ur_webhook_secret_ref req |}.

Definition changed (t : option TriggerRecord) : list effect :=
  match t with Some t => [TriggerChanged t] | None => [] end.

(** [update_trigger_config] *)
Definition update_trigger_config (tenant_id : string) (trigger_id : Uuid) (params : UpdateTriggerParams)
    : M X (option TriggerRecord) :=
  let! found := tquery (get_trigger tenant_id trigger_id) in
  match found with
  | None => ret None
  | Some existing =>
      let m := merged_params params existing in
      let! wall := now_utc in
      let! next := lift (map_err SqlError (configured_next_fire sc jitter_hash wall m existing)) in
      tstmt (fun now => write_trigger_config now tenant_id trigger_id m next) changed
  end.

(** The SQLite handler computes no new instant, and treats an empty value as
    absent. *)
Definition update_params_sqlite (req : UpdateTriggerRequest) : UpdateTriggerParams :=
  {| up_interval_seconds := ur_interval_seconds req;
     up_cron_expression := trimmed (ur_cron_expression req);
     up_schedule_timezone := trimmed (ur_schedule_timezone req);
     up_misfire_policy := ur_misfire_policy req; up_max_attempts := ur_max_attempts req;
     up_max_inflight_runs := ur_max_inflight_runs req; up_jitter_seconds := ur_jitter_seconds req;
     up_webhook_secret_ref := trimmed (ur_webhook_secret_ref req) |}.

Definition reload_changed (tenant_id : string) (trigger_id : Uuid) : handler TriggerRecord :=
  andthen (load_trigger tenant_id trigger_id) (fun found =>
    check (ok_or found (not_found "trigger not found")) (fun t => ret (Ok t))).

Definition answer_changed (tenant_id : string) (trigger_id : Uuid) (role : RolePreset) (event_type : string)
    (details : TriggerRecord -> json) (updated : TriggerRecord) : handler (Z * TriggerResponse) :=
  andthen (append_trigger_audit tenant_id trigger_id role event_type (details updated))
    (fun _ => ret (Ok (200, trigger_to_response updated))).

Definition updated_details (t : TriggerRecord) : json :=
  jobject [("trigger_type", JStr (t_trigger_type t));
           ("interval_seconds", opt_json jint (t_interval_seconds t));
           ("cron_expression", opt_json JStr (t_cron_expression t));
           ("schedule_timezone", JStr (t_schedule_timezone t));
           ("misfire_policy", JStr (t_misfire_policy t)); ("max_attempts", jint (t_max_attempts t));
           ("max_inflight_runs", jint (t_max_inflight_runs t)); ("jitter_seconds", jint (t_jitter_seconds t));
           ("webhook_secret_configured", JBool (is_some (t_webhook_secret_ref t)))].

Definition update_trigger_handler (headers : HeaderMap) (trigger_id : Uuid) (req : UpdateTriggerRequest)
    : handler (Z * TriggerResponse) :=
  with_owned_trigger headers (check_update_request req) trigger_id (fun tenant_id role existing =>
  check (check_schedule_fields (t_trigger_type existing) req) (fun _ =>
  andthen
    (if sqlite then
       andthen (or_internal E "failed updating trigger"
                  (tstmt (fun now => write_trigger_config_sqlite now tenant_id trigger_id
                                       (merged_params (update_params_sqlite req) existing)) changed))
         (fun _ => reload_changed tenant_id trigger_id)
     else
       andthen (or_internal E "failed updating trigger"
                  (update_trigger_config tenant_id trigger_id (update_params req)))
         (fun found => check (ok_or found (not_found "trigger not found")) (fun t => ret (Ok t))))
    (answer_changed tenant_id trigger_id role "trigger.updated" updated_details))).

(** [UPDATE triggers SET status]; identifiers are unique, so a row is updated when
    there is one. *)
Definition update_status_sqlite (tenant_id : string) (trigger_id : Uuid) (status : string)
    : M X (option TriggerRecord) :=
  tstmt (fun now => update_trigger_status (current_timestamp now) tenant_id trigger_id status) changed.

Definition status_details (t : TriggerRecord) : json :=
  jobject [("status", JStr (t_status t)); ("trigger_type", JStr (t_trigger_type t))].

Definition set_trigger_status_handler (headers : HeaderMap) (trigger_id : Uuid) (status event_type : string)
    : handler (Z * TriggerResponse) :=
  with_owned_trigger headers (Ok tt) trigger_id (fun tenant_id role existing =>
  andthen
    (if sqlite then
       andthen (or_internal E "failed updating trigger status"
                  (update_status_sqlite tenant_id trigger_id status)) (fun updated =>
         if is_some updated then reload_changed tenant_id trigger_id else fail (not_found "trigger not found"))
     else
       andthen (or_internal E "failed updating trigger status"
                  (tstmt (fun now => update_trigger_status now tenant_id trigger_id status) changed))
         (fun found => check (ok_or found (not_found "trigger not found")) (fun t => ret (Ok t))))
    (answer_changed tenant_id trigger_id role event_type status_details)).

Definition enable_trigger_handler (headers : HeaderMap) (trigger_id : Uuid) : handler (Z * TriggerResponse) :=
  set_trigger_status_handler headers trigger_id "enabled" "trigger.enabled".
Definition disable_trigger_handler (headers : HeaderMap) (trigger_id : Uuid) : handler (Z * TriggerResponse) :=
  set_trigger_status_handler headers trigger_id "disabled" "trigger.disabled".

(** * Events *)

Definition not_enabled (t : TriggerRecord) : bool :=
  negb (String.eqb (t_status t) "enabled") || is_some (t_dead_lettered_at t).

Definition check_trigger_secret (headers : HeaderMap) (t : TriggerRecord) : ApiResult unit :=
  match t_webhook_secret_ref t with
  | None => Ok tt
  | Some reference =>
      let? raw := ok_or (header_get headers TRIGGER_SECRET_HEADER)
                    (bad_request "missing x-trigger-secret header") in
      let? provided := ok_or (to_str raw) (bad_request "x-trigger-secret must be valid UTF-8") in
      let? resolved := map_err (fun err => internal ("failed resolving trigger secret: " +:+ err))
                         (resolve_secret reference) in
      let? expected := ok_or resolved (internal "trigger secret reference resolved to empty") in
      if negb (String.eqb provided expected) then Err (unauthorized "trigger secret validation failed")
      else Ok tt
  end.

Definition check_event_request (req : TriggerEventRequest) : ApiResult unit :=
  bad_requests
    [(is_empty (trim (ter_event_id req)), "event_id must not be empty");
     (match ter_payload req with JObj _ => false | _ => true end, "trigger event payload must be a JSON object")].

Definition queue_event (tenant_id : string) (trigger_id : Uuid) (req : TriggerEventRequest) (id : Uuid)
    : M X bool :=
  tstmt (fun now => insert_trigger_event
           (pending_event to_vec sha256_hex (env_uuid_text E) (db_now (env_pool E) now) id tenant_id trigger_id
              (ter_event_id req) (ter_payload req)))
    (fun inserted : bool => if inserted then [EventQueued trigger_id (ter_event_id req)] else []).

(** [enqueue_trigger_event] *)
Definition enqueue_trigger_event (tenant_id : string) (trigger_id : Uuid) (req : TriggerEventRequest)
    : M X TriggerEventEnqueueOutcome :=
  let! unavailable := tquery (enqueue_unavailable tenant_id trigger_id (ter_payload req)) in
  match unavailable with
  | Some reason => ret (EventTriggerUnavailable reason)
  | None =>
      let! id := new_v4 E in
      let! inserted := queue_event tenant_id trigger_id req id in
      ret (if inserted : bool then Enqueued else EventDuplicate)
  end.

Definition ingested (trigger_id : Uuid) (event_id status : string) : ApiResult (Z * TriggerEventIngestResponse) :=
  Ok (202, {| ti_trigger_id := trigger_id; ti_event_id := event_id; ti_status := status |}).

Definition ingest_trigger_event_handler (headers : HeaderMap) (trigger_id : Uuid) (req : TriggerEventRequest)
    : handler (Z * TriggerEventIngestResponse) :=
  check (tenant_from_headers headers) (fun tenant_id =>
  check (check_event_request req) (fun _ =>
  andthen (load_trigger tenant_id trigger_id) (fun found =>
  check (ok_or found (not_found "trigger not found")) (fun t =>
  if negb (String.eqb (t_trigger_type t) "webhook") then
    fail (bad_request "trigger does not accept webhook events")
  else if not_enabled t then fail (conflict "trigger is not enabled")
  else
  check (check_trigger_secret headers t) (fun _ =>
  andthen
    (or_internal E "failed enqueueing trigger event"
       (if sqlite then
          let! id := new_v4 E in
          let! inserted := queue_event tenant_id trigger_id req id in
          ret (if inserted : bool then Enqueued else EventDuplicate)
        else enqueue_trigger_event tenant_id trigger_id req))
    (fun outcome =>
       match outcome with
       | Enqueued => ret (ingested trigger_id (ter_event_id req) "queued")
       | EventDuplicate => ret (ingested trigger_id (ter_event_id req) "duplicate")
       | EventTriggerUnavailable reason => fail (map_trigger_enqueue_unavailable_reason reason)
       end)))))).

Definition not_replayable (status : string) : ApiError :=
  {| api_status := 409; api_code := "TRIGGER_EVENT_NOT_REPLAYABLE";
     api_message := "trigger event cannot be replayed from status `" +:+ status +:+ "`" |}.

Definition replayed (trigger_id : Uuid) (event_id : string) : ApiResult (Z * TriggerEventIngestResponse) :=
  ingested trigger_id event_id "queued_for_replay".

Definition replay_trigger_event_handler (headers : HeaderMap) (trigger_id : Uuid) (event_id : string)
    : handler (Z * TriggerEventIngestResponse) :=
  let event_id := trim event_id in
  with_owned_trigger headers (bad_requests [(is_empty event_id, "event_id must not be empty")]) trigger_id
    (fun tenant_id role t =>
  if negb (String.eqb (t_trigger_type t) "webhook") then
    fail (bad_request "trigger does not support event replay")
  else if not_enabled t then fail (conflict "trigger is not enabled")
  else
  andthen (or_internal E "failed replaying trigger event"
             (tstmt (fun now => requeue_dead_letter_trigger_event now tenant_id trigger_id event_id)
                (fun o => match o with Requeued => [EventQueued trigger_id event_id] | _ => [] end)))
    (fun outcome =>
       match outcome with
       | Requeued =>
           andthen (append_trigger_audit tenant_id trigger_id role "trigger.event.replayed"
                      (jobject [("event_id", JStr event_id); ("status", JStr "queued_for_replay")]))
             (fun _ => ret (replayed trigger_id event_id))
       | NotFound => fail (not_found "trigger event not found")
       | NotDeadLettered status => fail (not_replayable status)
       end)).

(** The SQLite replay has no check of the trigger's type and state; it reads the
    status of the event when no row was updated. *)
Definition replay_event_sqlite (trigger_id : Uuid) (event_id : string) : M X Z :=
  tstmt (fun now s => Ok (requeue_event_sqlite now trigger_id event_id s))
    (fun n => if n =? 1 then [EventQueued trigger_id event_id] else []).

Definition event_status (trigger_id : Uuid) (event_id : string) (s : tdb) : option string :=
  te_status <$> List.find (fun e => (te_trigger_id e =? trigger_id) && String.eqb (te_event_id e) event_id)
                  (trigger_events_of s).

Definition replay_trigger_event_sqlite_handler (headers : HeaderMap) (trigger_id : Uuid) (event_id : string)
    : handler (Z * TriggerEventIngestResponse) :=
  with_owned_trigger headers (Ok tt) trigger_id (fun tenant_id role t =>
  andthen (or_internal E "failed replaying trigger event" (replay_event_sqlite trigger_id event_id)) (fun n =>
  if n =? 1 then
    andthen (append_trigger_audit tenant_id trigger_id role "trigger.event.replayed"
               (jobject [("event_id", JStr event_id)]))
      (fun _ => ret (replayed trigger_id event_id))
  else
    andthen (or_internal E "failed loading trigger event status" (tquery (event_status trigger_id event_id)))
      (fun status => fail match status with
                          | Some status => not_replayable status
                          | None => not_found "trigger event not found"
                          end))).

(** * Manual firing *)

Definition check_key (key : string) : ApiResult unit :=
  bad_requests [(is_empty key, "idempotency_key must not be empty");
                (128 <? len key, "idempotency_key exceeds maximum length of 128")].

Definition DEFAULT_TENANT_MAX_INFLIGHT_RUNS : Z := 100.

Definition fired (trigger_id : Uuid) (key : string) (code : Z) (run_id : option Uuid) (status : string)
    : ApiResult (Z * TriggerFireResponse) :=
  Ok (code, {| tf_trigger_id := trigger_id; tf_run_id := run_id; tf_idempotency_key := key; tf_status := status |}).

Definition fired_effects (o : ManualTriggerFireOutcome) : list effect :=
  match o with FireCreated r => [TriggerFired r] | _ => [] end.

(** [fire_trigger_manually] *)
Definition fire_trigger_manually (tenant_id : string) (trigger_id : Uuid) (key : string) (payload : option json)
    : M X ManualTriggerFireOutcome :=
  let! run_id := new_v4 E in
  let! row_id := new_v4 E in
  let! wall := now_utc in
  tstmt (fun now => fire_trigger_manually_with_limits (env_uuid_text E) wall now tenant_id trigger_id key payload
                      DEFAULT_TENANT_MAX_INFLIGHT_RUNS run_id row_id) fired_effects.

Definition manual_run_event (tenant_id : string) (role : RolePreset) (r : TriggerDispatchRecord) (id : Uuid)
    : NewAuditEvent :=
  {| ne_id := id; ne_run_id := td_run_id r; ne_step_id := None; ne_tenant_id := tenant_id;
     ne_agent_id := Some (td_agent_id r); ne_user_id := td_triggered_by_user_id r; ne_actor := "api";
     ne_event_type := "run.created";
     ne_payload_json := jobject
       [("source", JStr "trigger_manual_api"); ("trigger_id", JStr (env_uuid_text E (td_trigger_id r)));
        ("trigger_type", JStr (td_trigger_type r)); ("trigger_event_id", opt_json JStr (td_trigger_event_id r));
        ("role_preset", JStr (RolePreset_as_str role));
        ("scheduled_for", env_time_json E (td_scheduled_for r))] |}.

Definition fire_details (status : string) (run_id : option Uuid) (key : string) : json :=
  jobject [("status", JStr status); ("run_id", opt_json (fun id => JStr (env_uuid_text E id)) run_id);
           ("idempotency_key", JStr key)].

Definition answer_fire (tenant_id : string) (trigger_id : Uuid) (role : RolePreset) (key : string)
    (outcome : ManualTriggerFireOutcome) : handler (Z * TriggerFireResponse) :=
  match outcome with
  | FireCreated r =>
      andthen (append_trigger_audit tenant_id trigger_id role "trigger.fired_manual"
                 (fire_details "created" (Some (td_run_id r)) key)) (fun _ =>
      let! id := new_v4 E in
      andthen (or_internal E "failed appending manual trigger run.created audit event"
                 (db_append_audit_event E (manual_run_event tenant_id role r id)))
        (fun _ => ret (fired trigger_id key 202 (Some (td_run_id r)) "created")))
  | FireDuplicate run_id =>
      andthen (append_trigger_audit tenant_id trigger_id role "trigger.fired_manual"
                 (fire_details "duplicate" run_id key))
        (fun _ => ret (fired trigger_id key 200 run_id "duplicate"))
  | InflightLimited =>
      fail {| api_status := 429; api_code := "TRIGGER_INFLIGHT_LIMITED";
              api_message := "trigger or tenant is at max inflight run capacity" |}
  | TriggerUnavailable => fail (conflict "trigger is not enabled")
  end.

Definition fire_trigger_handler (headers : HeaderMap) (trigger_id : Uuid) (req : FireTriggerRequest)
    : handler (Z * TriggerFireResponse) :=
  let key := trim (fr_idempotency_key req) in
  with_owned_trigger headers (check_key key) trigger_id (fun tenant_id role t =>
  if not_enabled t then fail (conflict "trigger is not enabled")
  else
    andthen (or_internal E "failed firing trigger"
               (fire_trigger_manually tenant_id trigger_id key (fr_payload req)))
      (answer_fire tenant_id trigger_id role key)).

Definition answer_fire_sqlite (tenant_id : string) (trigger_id : Uuid) (role : RolePreset) (key : string)
    (outcome : ManualTriggerFireOutcome) : handler (Z * TriggerFireResponse) :=
  match outcome with
  | FireCreated r =>
      andthen (append_trigger_audit tenant_id trigger_id role "trigger.fired"
                 (jobject [("run_id", JStr (env_uuid_text E (td_run_id r))); ("idempotency_key", JStr key)]))
        (fun _ => ret (fired trigger_id key 202 (Some (td_run_id r)) "created"))
  | FireDuplicate run_id => ret (fired trigger_id key 200 run_id "duplicate")
  | _ => fail (internal "unreachable")
  end.

Definition fire_trigger_sqlite_handler (headers : HeaderMap) (trigger_id : Uuid) (req : FireTriggerRequest)
    : handler (Z * TriggerFireResponse) :=
  let key := trim (fr_idempotency_key req) in
  with_owned_trigger headers (check_key key) trigger_id (fun tenant_id role t =>
  if not_enabled t then fail (conflict "trigger is not enabled")
  else
    let! run_id := new_v4 E in
    let! row_id := new_v4 E in
    let! wall := now_utc in
    andthen (or_internal E "failed creating triggered run"
               (tstmt (fun now => fire_manually_sqlite (env_uuid_text E) wall now t key (fr_payload req) run_id row_id) fired_effects))
      (answer_fire_sqlite tenant_id trigger_id role key)).
End api_triggers.
