(* ===== verification/Upholds.v ===== *)
(** Triples on the database and the journal: what a computation keeps true of both,
    whatever its outcome. *)
From S2P Require Import Prelude RustStr Json ApiAuth Sql Runs RunQueue Tables TriggerTables World ApiRuns ApiTriggers.

(** [m] keeps [I], whatever its outcome. *)
Definition upholds {X A} (I : db -> list effect -> Prop) (m : M X A) : Prop :=
  forall w, I (w_db w) (w_journal w) -> I (w_db (m w).2) (w_journal (m w).2).

Lemma with_trigger_db_same d : with_trigger_db d (trigger_db d) = d.
Proof. by destruct d. Qed.

Section upholds.
Context {X : Type} (E : env) (I : db -> list effect -> Prop).
#[local] Abbreviation ok := (upholds (X := X) I).

Lemma upholds_ret {A} (a : A) : ok (ret a).
Proof. by intros w. Qed.

Lemma upholds_lift {A} (r : result A error) : ok (lift r).
Proof. by intros w. Qed.

Lemma upholds_new_v4 : ok (new_v4 E).
Proof. by intros w. Qed.

Lemma upholds_now_utc : ok (now_utc E).
Proof. by intros w. Qed.

Lemma upholds_bind {A B} (m : M X A) (k : A -> M X B) : ok m -> (forall a, ok (k a)) -> ok (bind m k).
Proof.
  intros Hm Hk w Hw. specialize (Hm w Hw). unfold bind. destruct (m w) as [[a|e] w1]; [by apply Hk|done].
Qed.

Lemma upholds_check {A B} (r : ApiResult A) (k : A -> handler B) :
  (forall a, r = Ok a -> ok (k a)) -> ok (check r k).
Proof. intros Hk. destruct r; [by apply Hk|apply upholds_ret]. Qed.

Lemma upholds_andthen {A B} (m : handler A) (k : A -> handler B) :
  ok m -> (forall a, ok (k a)) -> ok (andthen m k).
Proof. intros Hm Hk. apply upholds_bind; [done|]. intros a. apply upholds_check. auto. Qed.

Lemma upholds_or_internal {A} what (m : M X A) : ok m -> ok (or_internal E what m).
Proof. intros Hm w Hw. specialize (Hm w Hw). unfold or_internal, try. by destruct (m w). Qed.

(** Interference keeps it, and a statement with what it logs. *)
Context (HI : forall (w : world X) j, I (w_db w) j -> I (observed E w) j).

Lemma upholds_stmt {A} (f : Z -> db -> result (db * A) db_error) log :
  (forall now d d' a j, f now d = Ok (d', a) -> I d j -> I d' (j ++ log a)) -> ok (stmt E f log).
Proof.
  intros Hf w Hw%HI. unfold stmt.
  destruct (env_fault E (w_tick w)) as [[[] m]|];
    try destruct (f _ _) as [[d' a]|e] eqn:F; cbn; rewrite ?app_nil_r; by eauto.
Qed.

Lemma upholds_tstmt {A} (f : Z -> tdb -> result (tdb * A) db_error) log :
  (forall now d s' a j, f now (trigger_db d) = Ok (s', a) -> I d j -> I (with_trigger_db d s') (j ++ log a)) ->
  ok (tstmt E f log).
Proof.
  intros Hf. apply upholds_stmt. intros now d d' a j F.
  destruct (f now (trigger_db d)) as [[s' a']|] eqn:Ef; [|done]. injection F as <- <-. by eapply Hf.
Qed.

Lemma upholds_tquery {A} (f : tdb -> A) : ok (tquery E f).
Proof.
  apply upholds_tstmt. intros now d s' a j [= <- <-] Hd. by rewrite app_nil_r, with_trigger_db_same.
Qed.

Lemma upholds_query {A} (f : db -> A) : ok (stmt E (total (fun _ d => (d, f d))) (fun _ => [])).
Proof. apply upholds_stmt. intros now d d' a j [= <- <-]. by rewrite app_nil_r. Qed.
End upholds.

#[export] Hint Resolve upholds_ret upholds_lift upholds_new_v4 upholds_now_utc : agnt.

Ltac upholds_step :=
  match goal with
  | |- upholds _ (bind _ _) => apply upholds_bind; [|let a := fresh "a" in intros a]
  | |- upholds _ (andthen _ _) => apply upholds_andthen; [|let a := fresh "a" in intros a]
  | |- upholds _ (check _ _) => apply upholds_check; let a := fresh "a" in let Ha := fresh "Ha" in intros a Ha
  | |- upholds _ (or_internal _ _ _) => apply upholds_or_internal
  | |- upholds _ (fail _) => apply upholds_ret
  | |- upholds _ (let '_ := ?x in _) => destruct x
  | |- upholds _ (if ?b then _ else _) => destruct b eqn:?
  | |- upholds _ (match ?x with _ => _ end) => destruct x eqn:?
  | |- upholds _ _ => solve [auto with agnt]
  end.
