(* ===== verification/MemoryProps.v ===== *)
(** What the compaction of memory records does: which records a pass marks, which
    rows it adds, and what its journal says under any failure and interference. *)
From S2P Require Import Prelude RustStr Json Sql Runs RunQueue TriggerTables LlmTables MemoryTables Tables World Memory.
From S2P Require Import ApiRuns ApiTriggers Upholds.

Abbreviation record_ids rows := (map (fun r : MemoryRecord => mm_id r) rows).
Abbreviation distinct_records t := (ids_distinct (fun r : MemoryRecord => mm_id r) (mt_records t)).

(** * One marking *)

(** A record before and after the marking of [ids]. *)
Definition marked_by (ids : list Uuid) (r r' : MemoryRecord) : Prop :=
  if bool_decide (mm_id r ∈ ids) then exists instant, r' = set_compacted instant r else r' = r.

Lemma marked_by_id ids r r' : marked_by ids r r' -> mm_id r' = mm_id r.
Proof. unfold marked_by. case_bool_decide; [by intros [? ->]|by intros ->]. Qed.

Lemma marked_by_trans ids ids' r r1 r' :
  marked_by ids r r1 -> marked_by ids' r1 r' -> (mm_id r ∈ ids -> ~ mm_id r ∈ ids') -> marked_by (ids ++ ids') r r'.
Proof.
  intros H1 H2 Hd. pose proof (marked_by_id _ _ _ H1) as Hid. unfold marked_by in *. rewrite Hid in H2.
  rewrite (bool_decide_ext _ _ (elem_of_app ids ids' (mm_id r))).
  repeat case_bool_decide; destruct_and?; try tauto; destruct_or?; try tauto; by subst.
Qed.

Lemma marked_by_perm ids ids' r r' : ids ≡ₚ ids' -> marked_by ids r r' -> marked_by ids' r r'.
Proof. intros Hp. unfold marked_by. by rewrite (bool_decide_ext (mm_id r ∈ ids) (mm_id r ∈ ids')) by (by rewrite Hp). Qed.

Lemma marked_ids ids rows rows' : Forall2 (marked_by ids) rows rows' -> record_ids rows' = record_ids rows.
Proof. induction 1 as [|r r' rows rows' Hr _ IH]; [done|]. cbn. by rewrite IH, (marked_by_id _ _ _ Hr). Qed.

(** The rows of a table that are not marked stay in it. *)
Lemma marked_elsewhere ids rows rows' r : Forall2 (marked_by ids) rows rows' -> r ∈ rows -> ~ mm_id r ∈ ids -> r ∈ rows'.
Proof.
  induction 1 as [|x x' rows rows' Hx _ IH]; intros Hr Hn; [by apply not_elem_of_nil in Hr|].
  apply elem_of_cons in Hr as [->|Hr]; [|right; by apply IH].
  unfold marked_by in Hx. rewrite bool_decide_false in Hx by done. subst. left.
Qed.

Section mark.
Context (t : memory_tables) (now : Z) (chosen : list MemoryRecord).
Context (Hdistinct : distinct_records t) (Hin : Forall (fun r => r ∈ mt_records t /\ uncompacted r = true) chosen).

(** The rows that are asked for and not compacted yet are the chosen ones. *)
Lemma chosen_rows r : r ∈ mt_records t -> bool_decide (mm_id r ∈ record_ids chosen) = true -> r ∈ chosen.
Proof.
  intros Hr (c & Hid & Hc)%bool_decide_eq_true_1%list_elem_of_fmap. rewrite Forall_forall in Hin.
  destruct (Hin c Hc) as [Hct _]. by rewrite (ids_distinct_inj (fun r => mm_id r) _ r c Hdistinct Hr Hct Hid).
Qed.

Lemma mark_compacted_rows :
  Forall2 (marked_by (record_ids chosen)) (mt_records t) (mt_records (mark_compacted now (record_ids chosen) t).1).
Proof.
  cbn. apply Forall2_map_r. intros r Hr. unfold marked_by.
  destruct (bool_decide (mm_id r ∈ record_ids chosen)) eqn:Hc; [|done]. cbn.
  pose proof (chosen_rows r Hr Hc) as H. rewrite Forall_forall in Hin. destruct (Hin r H) as [_ ->]. eauto.
Qed.

Lemma mark_compacted_ids : NoDup (record_ids chosen) -> (mark_compacted now (record_ids chosen) t).2 ≡ₚ record_ids chosen.
Proof.
  intros Hnd. cbn. apply NoDup_Permutation; [by apply (ids_distinct_filter (fun r => mm_id r))|done|].
  intros id. rewrite list_elem_of_fmap. split.
  - intros (r & -> & [_ [H _]%andb_true_iff]%elem_of_filterb). by apply bool_decide_eq_true in H.
  - intros H. pose proof H as (c & -> & Hc)%list_elem_of_fmap. exists c. split; [done|]. rewrite Forall_forall in Hin.
    destruct (Hin c Hc) as [Hct Hu]. apply elem_of_filterb. by rewrite Hu, bool_decide_true.
Qed.
End mark.

(** * Groups *)

Section groups.
Context `{Engine} (now cutoff min_records : Z) (t : memory_tables).

(** A group is all the compactable records of its key, and large enough. *)
Lemma memory_groups_spec g : g ∈ memory_groups now cutoff min_records t ->
  min_records <= Z.of_nat (length g) /\ exists key, g ≡ₚ group_rows now cutoff key t.
Proof.
  unfold memory_groups. intros [(key & -> & _)%list_elem_of_fmap Hl]%elem_of_filterb. bool_hyps.
  split; [lia|]. exists key. apply order_by_perm.
Qed.

Lemma group_rows_in key r : r ∈ group_rows now cutoff key t <->
  (r ∈ mt_records t /\ compactable now cutoff r = true) /\ group_key r = key.
Proof. unfold group_rows, in_group. rewrite elem_of_filterb, andb_true_iff, bool_decide_eq_true. tauto. Qed.

(** Groups of different keys have no record in common. *)
Lemma group_rows_disjoint keys : NoDup keys -> distinct_records t ->
  NoDup (record_ids (concat (map (fun key => order_by oldest_first (group_rows now cutoff key t)) keys))).
Proof.
  intros Hk Hd. induction Hk as [|key keys Hkey _ IH]; [constructor|]. cbn [map concat]. rewrite map_app.
  apply NoDup_app. split_and!; [| |done].
  - rewrite order_by_perm. by apply (ids_distinct_filter (fun r => mm_id r)).
  - intros id (r & -> & Hr)%list_elem_of_fmap (r' & Hid & Hr')%list_elem_of_fmap.
    rewrite elem_of_order_by in Hr. apply group_rows_in in Hr as [[Hr _] Hkr].
    apply list_elem_of_In, in_concat in Hr' as (g & Hg & Hr'). apply list_elem_of_In in Hg, Hr'.
    apply list_elem_of_fmap in Hg as (key' & -> & Hkey').
    rewrite elem_of_order_by in Hr'. apply group_rows_in in Hr' as [[Hr' _] Hkr'].
    rewrite (ids_distinct_inj (fun r => mm_id r) _ r r' Hd Hr Hr' Hid) in Hkr. congruence.
Qed.
End groups.

Lemma concat_perm {A} (l k : list (list A)) : l ≡ₚ k -> concat l ≡ₚ concat k.
Proof. intros H. rewrite <- (map_id l), <- (map_id k), <- !flat_map_concat_map. by apply Permutation_flat_map. Qed.

Lemma NoDup_concat_sub {A B} (f : A -> B) (l k : list (list A)) : l ⊆+ k -> NoDup (map f (concat k)) -> NoDup (map f (concat l)).
Proof.
  intros (k' & ->%concat_perm)%submseteq_Permutation. rewrite concat_app, map_app. by intros [H _]%NoDup_app.
Qed.

Lemma filterb_submseteq {A} (p : A -> bool) l : List.filter p l ⊆+ l.
Proof. induction l as [|x l IH]; [done|]. cbn. destruct (p x); [by apply submseteq_skip|by apply submseteq_cons]. Qed.

Section chosen.
Context `{Engine} (now cutoff min_records max_groups : Z) (order : list MemoryRecord -> list MemoryRecord -> bool) (t : memory_tables).
#[local] Abbreviation chosen := (limit max_groups (order_by order (memory_groups now cutoff min_records t))).

Lemma chosen_distinct : distinct_records t -> NoDup (record_ids (concat chosen)).
Proof.
  intros Hd. eapply NoDup_concat_sub; 
    [|apply (group_rows_disjoint now cutoff t
        (remove_dups (map group_key (List.filter (compactable now cutoff) (mt_records t)))) (NoDup_remove_dups _) Hd)].
  etrans; [apply submseteq_take|]. rewrite order_by_perm. apply filterb_submseteq.
Qed.

Lemma chosen_group g : g ∈ chosen ->
  min_records <= Z.of_nat (length g) /\ exists key, g ≡ₚ group_rows now cutoff key t.
Proof. intros Hg%elem_of_limit. rewrite elem_of_order_by in Hg. by apply memory_groups_spec in Hg. Qed.

Lemma chosen_uncompacted : Forall (fun r => r ∈ mt_records t /\ uncompacted r = true) (concat chosen).
Proof.
  apply Forall_forall. intros r (g & Hg & Hr)%list_elem_of_In%in_concat. apply list_elem_of_In in Hg, Hr.
  apply chosen_group in Hg as (_ & key & Hp). rewrite Hp in Hr. apply group_rows_in in Hr as [[Hr Hc] _].
  split; [done|]. unfold compactable, active_memory in Hc. by bool_hyps.
Qed.
End chosen.

(** * A pass without interference *)

(** The outcome and the row of a group. *)
Definition group_outcome (uuid_text : Uuid -> string) (g : list MemoryRecord) (o : MemoryCompactionGroupOutcome) : Prop :=
  exists ids r, ids ≡ₚ record_ids g /\ head g = Some r /\ mg_source_entry_ids o = uuid_array uuid_text ids /\
    mg_source_count o = Z.of_nat (length g) /\
    (mg_tenant_id o, mg_agent_id o, mg_memory_kind o, mg_scope o) = group_key r.
Definition group_record (uuid_text : Uuid -> string) (g : list MemoryRecord) (c : MemoryCompactionRecord) : Prop :=
  exists ids r, ids ≡ₚ record_ids g /\ head g = Some r /\ nk_source_entry_ids (mk_new c) = uuid_array uuid_text ids /\
    nk_source_count (mk_new c) = clamp 1 i32_max (Z.of_nat (length g)) /\ nk_agent_id (mk_new c) = Some (nm_agent_id (mm_new r)) /\
    (nk_tenant_id (mk_new c), nk_memory_kind (mk_new c), nk_scope (mk_new c)) =
    (nm_tenant_id (mm_new r), nm_memory_kind (mm_new r), nm_scope (mm_new r)).

Section quiet_pass.
Context {X : Type} (E : env) (HE : quiet E) (parse_uuid : string -> option Uuid).
Context (Hparse : forall id, parse_uuid (env_uuid_text E id) = Some id).
#[local] Abbreviation uuid_text := (env_uuid_text E).
#[local] Abbreviation memory w := (d_memory (w_db w)).

Lemma parse_uuid_array ids : parse_uuid_json_array parse_uuid (uuid_array uuid_text ids) = ids.
Proof. unfold parse_uuid_json_array, uuid_array. cbn. induction ids as [|id ids IH]; [done|]. cbn. by rewrite Hparse, IH. Qed.

Lemma on_memory_quiet {A} (f : Z -> memory_tables -> memory_tables * A) log (w w' : world X) a :
  on_memory E f log w = (Ok a, w') -> exists now, f now (memory w) = (memory w', a).
Proof.
  intros H. unfold on_memory in H. apply stmt_quiet in H; [|done]. unfold total in H.
  destruct (f _ _) as [t a'] eqn:F. injection H as Hd ->. eexists. rewrite F. by rewrite <- Hd.
Qed.

Lemma record_compaction_quiet c ids counts (w w' : world X) o :
  record_compaction E c ids counts w = (Ok o, w') ->
  exists row, memory w' = with_compactions (memory w) (mt_compactions (memory w) ++ [row]) /\
    nk_source_entry_ids (mk_new row) = uuid_array uuid_text ids /\ mg_source_entry_ids o = uuid_array uuid_text ids /\
    nk_source_count (mk_new row) = clamp 1 i32_max (Z.of_nat (length ids)) /\ mg_source_count o = Z.of_nat (length ids) /\
    nk_agent_id (mk_new row) = Some (mx_agent_id c) /\
    (nk_tenant_id (mk_new row), nk_memory_kind (mk_new row), nk_scope (mk_new row)) =
    (mx_tenant_id c, mx_memory_kind c, mx_scope c) /\
    (mg_tenant_id o, mg_agent_id o, mg_memory_kind o, mg_scope o) = candidate_key c.
Proof.
  unfold record_compaction, bind, now_utc, new_v4, ret. cbn zeta.
  match goal with |- context [stmt E ?f ?l ?v] => destruct (stmt E f l v) as [[u|] w1] eqn:S end; [|done].
  intros [= <- ->]. apply stmt_quiet in S; [|done]. unfold no_value in S. cbn in S.
  destruct (create_memory_compaction_record _ _ _) as [d|] eqn:C; [|done]. injection S as -> _.
  unfold create_memory_compaction_record, require in C. destruct (_ && _); [|done]. destruct (negb _); [|done].
  destruct (opt_exists _ _ _); [|done]. injection C as <-. cbn. by eexists.
Qed.

Lemma candidate_of_Some `{Engine} g c : candidate_of uuid_text g = Some c ->
  exists r, head g = Some r /\ candidate_key c = group_key r /\ mx_source_entry_ids c = uuid_array uuid_text (record_ids g).
Proof. unfold candidate_of. destruct g as [|r g]; [done|]. intros [= <-]. by exists r. Qed.

Lemma compact_candidate_quiet `{Engine} min_records g c (w w' : world X) o :
  candidate_of uuid_text g = Some c -> min_records <= Z.of_nat (length g) ->
  distinct_records (memory w) -> NoDup (record_ids g) ->
  Forall (fun r => r ∈ mt_records (memory w) /\ uncompacted r = true) g ->
  compact_candidate E parse_uuid min_records c w = (Ok o, w') ->
  Forall2 (marked_by (record_ids g)) (mt_records (memory w)) (mt_records (memory w')) /\
  (exists o', o = Some o' /\ group_outcome uuid_text g o') /\
  exists row, group_record uuid_text g row /\ mt_compactions (memory w') = mt_compactions (memory w) ++ [row].
Proof.
  intros (r & Hr & Hkey & Hids)%candidate_of_Some Hmin Hd Hnd Hin. unfold compact_candidate.
  rewrite Hids, parse_uuid_array, length_map, (proj2 (Z.ltb_ge _ _) Hmin). unfold bind at 1.
  destruct (on_memory E (fun now => mark_compacted now (record_ids g)) compacted w) as [[ids|e] w1] eqn:M; [|done].
  apply on_memory_quiet in M as [now M]. 
  assert (mt_compactions (memory w1) = mt_compactions (memory w)) as Hc.
  { apply (f_equal fst) in M. cbn in M. by rewrite <- M. }
  pose proof (mark_compacted_ids (memory w) now g Hd Hin Hnd) as Hp. rewrite M in Hp. cbn in Hp.
  pose proof (mark_compacted_rows (memory w) now g Hd Hin) as Hrows. rewrite M in Hrows. cbn in Hrows.
  assert (length ids = length g) as Hlen by (by rewrite Hp, length_map).
  rewrite Hlen, (proj2 (Z.ltb_ge _ _) Hmin). unfold bind.
  destruct (record_compaction E c ids _ w1) as [[o'|e] w2] eqn:R; [|done]. intros [= <- <-].
  apply record_compaction_quiet in R as (row & Hm & H1 & H2 & H3 & H4 & H5 & H6 & H7).
  rewrite Hlen in H3, H4. rewrite Hm. cbn [mt_records mt_compactions with_compactions].
  split; [done|]. split.
  - exists o'. split; [done|]. exists ids, r. split_and!; try done. congruence.
  - exists row. split; [|by rewrite Hc]. unfold candidate_key, group_key in Hkey.
    exists ids, r. split_and!; try done; congruence.
Qed.

Lemma compact_each_quiet `{Engine} min_records gs (w w' : world X) outs :
  1 <= min_records -> Forall (fun g => min_records <= Z.of_nat (length g)) gs ->
  distinct_records (memory w) -> NoDup (record_ids (concat gs)) ->
  Forall (fun r => r ∈ mt_records (memory w) /\ uncompacted r = true) (concat gs) ->
  compact_each (compact_candidate E parse_uuid min_records) (omap (candidate_of uuid_text) gs) w = (Ok outs, w') ->
  Forall2 (marked_by (record_ids (concat gs))) (mt_records (memory w)) (mt_records (memory w')) /\
  Forall2 (group_outcome uuid_text) gs outs /\
  exists rows, Forall2 (group_record uuid_text) gs rows /\ mt_compactions (memory w') = mt_compactions (memory w) ++ rows.
Proof.
  intros Hpos. revert w outs. induction gs as [|g gs IH]; intros w outs Hmin Hd Hnd Hin Hok.
  { injection Hok as <- <-. split_and!; [|constructor|exists []; split; [constructor|by rewrite app_nil_r]].
    apply Forall_Forall2_diag, Forall_forall. intros r _. unfold marked_by. by rewrite bool_decide_false by (apply not_elem_of_nil). }
  inv Hmin. cbn [concat] in *. rewrite map_app in Hnd. apply NoDup_app in Hnd as (Hg & Hdis & Hgs).
  apply Forall_app in Hin as [Hing Hings]. destruct g as [|r g]; [cbn in *; lia|].
  destruct (candidate_of uuid_text (r :: g)) as [c|] eqn:C; [|done]. cbn [omap list_omap] in Hok. rewrite C in Hok.
  cbn [compact_each] in Hok. unfold bind at 1 in Hok.
  destruct (compact_candidate E parse_uuid min_records c w) as [[o|e] w1] eqn:C1; [|done].
  apply (compact_candidate_quiet min_records (r :: g)) in C1 as (Hm & (o' & -> & Ho) & row & Hrow & Hc); [|done..].
  unfold bind at 1 in Hok. destruct (compact_each _ _ w1) as [[os|e] w2] eqn:C2; [|done]. injection Hok as <- <-.
  apply IH in C2 as (Hm2 & Hos & rows & Hrows & Hc2); [|done|by unfold ids_distinct; rewrite (marked_ids _ _ _ Hm)|done|].
  - split_and!; [|by constructor|exists (row :: rows); split; [by constructor|by rewrite Hc2, Hc, <- app_assoc]].
    rewrite map_app. eapply Forall2_trans; [|exact Hm|exact Hm2]. intros x y z Hxy Hyz.
    eapply marked_by_trans; [exact Hxy|exact Hyz|]. intros Hx Hx'. by apply (Hdis _ Hx).
  - rewrite Forall_forall in *. intros x Hx. destruct (Hings x Hx) as [Hxr Hxu]. split; [|done].
    eapply marked_elsewhere; [exact Hm|done|]. intros Hid. apply (Hdis _ Hid). by apply (list_elem_of_fmap_2 (fun r : MemoryRecord => mm_id r)).
Qed.
End quiet_pass.

(** C12: C: a pass on PostgreSQL, undisturbed, compacts whole groups: the [max_groups] first
    of the groups of at least [min_records] records (two at the least) of one tenant,
    agent, kind and scope that are live, not compacted and not newer than the cutoff, a
    group being all of them.  It marks their records and no other, removes and changes
    nothing else, adds one row for each group with the identifiers of its records, and
    reports the groups in that order. *)
Theorem compaction_marks_whole_groups {X} (E : env) (parse_uuid : string -> option Uuid) (text : json -> string)
    (tmax cutoff min_records max_groups : Z) (w w' : world X) stats
    (HE : quiet E) (Hparse : forall id, parse_uuid (env_uuid_text E id) = Some id)
    (Hdistinct : distinct_records (d_memory (w_db w)))
    (Hok : compact_memory_records E parse_uuid text tmax cutoff min_records max_groups w = (Ok stats, w')) :
  let t := d_memory (w_db w) in
  let t' := d_memory (w_db w') in
  exists now groups,
    groups = limit (Z.max max_groups 1) (order_by (@group_order (PgEngine text tmax))
               (@memory_groups (PgEngine text tmax) now cutoff (Z.max min_records 2) t)) /\
    Forall (fun g => Z.max min_records 2 <= Z.of_nat (length g) /\
                     exists key, g ≡ₚ @group_rows (PgEngine text tmax) now cutoff key t) groups /\
    Forall2 (marked_by (record_ids (concat groups))) (mt_records t) (mt_records t') /\
    (exists rows, Forall2 (group_record (env_uuid_text E)) groups rows /\ mt_compactions t' = mt_compactions t ++ rows) /\
    Forall2 (group_outcome (env_uuid_text E)) groups (ms_groups stats) /\
    ms_processed_groups stats = Z.of_nat (length groups) /\
    ms_compacted_source_records stats = Z.of_nat (length (concat groups)).
Proof.
  cbn zeta. unfold compact_memory_records, bind at 1 in Hok.
  destruct (ask_memory E _ w) as [[cs|e] w1] eqn:A; [|done].
  apply (on_memory_quiet E HE) in A as [now A]. injection A as Ht Hcs. exists now. eexists. split; [reflexivity|].
  unfold bind in Hok. destruct (compact_each _ cs w1) as [[os|e] w2] eqn:C; [|done]. injection Hok as <- <-.
  unfold compaction_candidates in Hcs. subst cs.
  pose proof (@chosen_group (PgEngine text tmax) now cutoff (Z.max min_records 2) (Z.max max_groups 1)
                (@group_order (PgEngine text tmax)) (d_memory (w_db w))) as Hg.
  apply (compact_each_quiet E HE parse_uuid Hparse) in C as (Hm & Ho & Hrows); rewrite <- ?Ht in *.
  - split_and!; [by apply Forall_forall, Hg|done|done|done| |].
    + cbn. by rewrite (Forall2_length _ _ _ Ho).
    + cbn. clear -Ho. induction Ho as [|g o gs os (ids & r & _ & _ & _ & Hc & _) _ IH]; [done|]. cbn. rewrite length_app. lia.
  - lia.
  - apply Forall_forall. intros g Hin. by apply Hg.
  - done.
  - by apply chosen_distinct.
  - apply chosen_uncompacted.
Qed.

(** * A pass among other sessions *)

(** The records that a journal marks. *)
Definition marked_set (e : effect) : option (list Uuid) := match e with MemoriesCompacted ids => Some ids | _ => None end.
Definition marks (j : list effect) : list Uuid := concat (omap marked_set j).

Lemma marks_app j k : marks (j ++ k) = marks j ++ marks k.
Proof. unfold marks. by rewrite omap_app, concat_app. Qed.

Lemma marks_compacted ids : marks (compacted ids) = ids.
Proof. destruct ids; [done|]. cbn. by rewrite app_nil_r. Qed.

Lemma marks_record n : marks [CompactionRecorded n] = [].
Proof. done. Qed.

(** No record of [ids] is uncompacted: it was marked, and may be gone. *)
Definition settled (ids : list Uuid) (t : memory_tables) : Prop :=
  forall r, r ∈ mt_records t -> mm_id r ∈ ids -> uncompacted r = false.

(** Other sessions insert records, purge and compact them, but never take a mark back,
    and no identifier is issued twice: [born] is the time at which one is inserted. *)
Definition keeps_marks (E : env) (born : Uuid -> nat) : Prop :=
  forall k t, (distinct_records t -> distinct_records (env_other_memory E k t)) /\
    forall r', r' ∈ mt_records (env_other_memory E k t) -> uncompacted r' = true ->
      born (mm_id r') = k \/ exists r, r ∈ mt_records t /\ mm_id r = mm_id r' /\ uncompacted r = true.

(** The uncompacted records were inserted before. *)
Definition born_before (born : Uuid -> nat) (tick : nat) (t : memory_tables) : Prop :=
  forall r, r ∈ mt_records t -> uncompacted r = true -> (born (mm_id r) < tick)%nat.

Lemma mark_compacted_distinct t now ids : distinct_records t -> distinct_records (mark_compacted now ids t).1.
Proof.
  unfold ids_distinct, mark_compacted, with_records. cbn [fst mt_records]. by rewrite (update_ids (fun r => mm_id r)).
Qed.

(** What is marked was not marked before, and stays marked. *)
Lemma mark_compacted_settled t now ids l :
  distinct_records t -> NoDup l -> settled l t ->
  let '(t', got) := mark_compacted now ids t in
  NoDup (l ++ got) /\ settled (l ++ got) t' /\
  (forall r', r' ∈ mt_records t' -> uncompacted r' = true -> r' ∈ mt_records t) /\
  (forall id, id ∈ got -> exists r, r ∈ mt_records t /\ mm_id r = id /\ uncompacted r = true).
Proof.
  intros Hd Hnd Hs. unfold mark_compacted, with_records. cbn [mt_records].
  set (chosen := fun r => bool_decide (mm_id r ∈ ids) && uncompacted r).
  assert (forall r, r ∈ mt_records t -> mm_id r ∈ record_ids (List.filter chosen (mt_records t)) -> chosen r = true) as Hchosen.
  { intros r Hr (r' & Hid & [Hr' Hc]%elem_of_filterb)%list_elem_of_fmap.
    by rewrite (ids_distinct_inj (fun r => mm_id r) _ r r' Hd Hr Hr' Hid). }
  split_and!.
  - apply NoDup_app. split_and!; [done| |by apply (ids_distinct_filter (fun r => mm_id r))].
    intros id Hid (r & -> & [Hr [_ Hu]%andb_true_iff]%elem_of_filterb)%list_elem_of_fmap. by rewrite (Hs r Hr Hid) in Hu.
  - intros r' (r & Hr & ->)%elem_of_update. destruct (chosen r) eqn:Hc; [done|].
    intros [Hid|Hid]%elem_of_app; [by apply Hs|]. by rewrite (Hchosen r Hr Hid) in Hc.
  - intros r' (r & Hr & ->)%elem_of_update. by destruct (chosen r).
  - intros id (r & -> & [Hr [_ Hu]%andb_true_iff]%elem_of_filterb)%list_elem_of_fmap. by exists r.
Qed.

(** [m] keeps [I] of the whole state. *)
Definition maintains {X A} (I : world X -> Prop) (m : M X A) : Prop := forall w, I w -> I (m w).2.

Section marking.
Context {X : Type} (E : env) (born : Uuid -> nat) (HE : keeps_marks E born) (parse_uuid : string -> option Uuid).

Lemma observed_memory (w : world X) : d_memory (observed E w) = env_other_memory E (w_tick w) (d_memory (w_db w)).
Proof. unfold observed. by destruct (env_other_payments E _ _). Qed.

(** [earlier] was marked before the pass, which began with the journal [j0]. *)
Context (earlier : list Uuid) (j0 : list effect).
Definition marking_db (d : db) (tick : nat) (journal : list effect) : Prop :=
  let t := d_memory d in
  exists j, journal = j0 ++ j /\ distinct_records t /\ NoDup (earlier ++ marks j) /\ settled (earlier ++ marks j) t /\
    (forall id, id ∈ earlier ++ marks j -> (born id < tick)%nat) /\ born_before born tick t.
Definition marking (w : world X) : Prop := marking_db (w_db w) (w_tick w) (w_journal w).

Lemma marking_observed (w : world X) : marking w -> marking_db (observed E w) (S (w_tick w)) (w_journal w).
Proof.
  intros (j & -> & Hd & Hnd & Hs & Hl & Hb). exists j. rewrite observed_memory.
  destruct (HE (w_tick w) (d_memory (w_db w))) as [Hdist Hnew]. split_and!; [done|by apply Hdist|done| | |].
  - intros r' Hr' Hid. destruct (uncompacted r') eqn:Hu; [|done]. exfalso.
    destruct (Hnew r' Hr' Hu) as [Hk|(r & Hr & Hrid & Hru)]; [specialize (Hl _ Hid); lia|].
    rewrite <- Hrid in Hid. by rewrite (Hs r Hr Hid) in Hru.
  - intros id Hid. specialize (Hl id Hid). lia.
  - intros r' Hr' Hu. destruct (Hnew r' Hr' Hu) as [Hk|(r & Hr & Hrid & Hru)]; [lia|].
    specialize (Hb r Hr Hru). rewrite <- Hrid. lia.
Qed.

Lemma maintains_stmt {A} (f : Z -> db -> result (db * A) db_error) log :
  (forall now d d' a tick journal, f now d = Ok (d', a) -> marking_db d tick journal -> marking_db d' tick (journal ++ log a)) ->
  maintains marking (stmt E f log).
Proof.
  intros Hf w Hw%marking_observed. unfold marking, stmt.
  destruct (env_fault E (w_tick w)) as [[[] m]|]; cbn; try destruct (f _ _) as [[d' a]|e] eqn:F; cbn;
    rewrite ?app_nil_r; first [exact Hw|by eapply Hf].
Qed.

#[local] Instance maintains_marking : CompactionRules E (fun A (m : M X A) => maintains marking m).
Proof.
  split; intros.
  - by intros w Hw.
  - intros w Hw. specialize (H w Hw). unfold bind. destruct (m w) as [[a|e] w1]; [by apply H0|done].
  - by intros w Hw.
  - intros w (j & Hj & Hd & Hnd & Hs & Hl & Hb). exists j. split_and!; try done.
    + intros id Hid. specialize (Hl id Hid). cbn. lia.
    + intros r Hr Hu. specialize (Hb r Hr Hu). cbn. lia.
  - apply maintains_stmt. intros now d d' a tick journal. unfold total. intros [= <- _]. by rewrite app_nil_r.
  - apply maintains_stmt. intros now d d' a tick journal F (j & -> & Hd & Hnd & Hs & Hl & Hb). unfold total in F.
    pose proof (mark_compacted_settled _ (clock now) ids _ Hd Hnd Hs) as H.
    pose proof (mark_compacted_distinct _ (clock now) ids Hd) as Hd'.
    destruct (mark_compacted _ _ _) as [t got]. injection F as <- <-. destruct H as (Hnd' & Hs' & Hold & Hgot).
    exists (j ++ compacted got). rewrite marks_app, marks_compacted, !app_assoc. split_and!; try done.
    + intros id [Hid|(r & Hr & <- & Hu)%Hgot]%elem_of_app; [by apply Hl|by apply Hb].
    + intros r Hr Hu. apply Hb; [by apply Hold|done].
  - apply maintains_stmt. intros now d d' a tick journal F (j & -> & Hd & Hnd & Hs & Hl & Hb). exists (j ++ [CompactionRecorded n]).
    unfold no_value in F. destruct (f now d) as [d1|] eqn:F1; [|done]. injection F as <- _.
    apply H in F1 as [l ->]. rewrite marks_app, marks_record, app_nil_r, app_assoc. by split_and!.
Qed.

Lemma pass_marks cutoff min_records max_groups :
  maintains marking (compact_memory_records_dual E parse_uuid cutoff min_records max_groups).
Proof. apply (compaction_rule E parse_uuid (fun A m => maintains marking m)). Qed.

(** ** The order of the journal *)

#[local] Abbreviation uuid_text := (env_uuid_text E).
#[local] Abbreviation primary := (fun d : db => distinct_records (d_memory d)).

Lemma primary_stable : stable (X := X) primary E.
Proof. intros w Hw. rewrite observed_memory. by apply HE. Qed.

#[local] Instance keeps_primary : CompactionRules E (fun A (m : M X A) => keeps primary m).
Proof.
  split; intros; auto with agnt.
  - by apply keeps_bind.
  - by intros w Hw.
  - by apply keeps_on_memory; [apply primary_stable|].
  - apply keeps_on_memory; [apply primary_stable|]. intros now d Hd. by apply mark_compacted_distinct.
  - apply keeps_stmt; [apply primary_stable|]. intros now d d' a. unfold no_value.
    destruct (f now d) as [d1|] eqn:F; [|done]. intros [= <- _]. by destruct (H now d d1 F) as [l ->].
Qed.

(** A row is added directly after the markings of exactly the records it names. *)
Definition recorded_after (min_records : Z) (j : list effect) : Prop :=
  forall j1 n j2, j = j1 ++ CompactionRecorded n :: j2 -> exists before sets,
    j1 = before ++ map MemoriesCompacted sets /\ nk_source_entry_ids n = uuid_array uuid_text (concat sets) /\
    min_records <= Z.of_nat (length (concat sets)) /\
    nk_source_count n = clamp 1 i32_max (Z.of_nat (length (concat sets))).

Lemma recorded_after_app m j k : recorded_after m j -> recorded_after m k -> recorded_after m (j ++ k).
Proof.
  intros Hj Hk j1 n j2 E1. apply app_eq_app in E1 as (l & [[-> E1]|[-> E1]]).
  - destruct l as [|e l]; cbn in E1.
    + destruct (Hk [] n j2) as (b & sets & Hb & H); [done|]. exists (j1 ++ b), sets. rewrite <- app_assoc, <- Hb, !app_nil_r. by split.
    + injection E1 as <- ->. by apply (Hj j1 n l).
  - destruct (Hk l n j2) as (b & sets & -> & H); [done|]. exists (j ++ b), sets. rewrite <- app_assoc. by split.
Qed.

Lemma recorded_after_marks m sets : recorded_after m (map MemoriesCompacted sets).
Proof.
  intros j1 n j2 H. exfalso. assert (CompactionRecorded n ∈ map MemoriesCompacted sets) as (ids & ? & _)%list_elem_of_fmap; [|done].
  rewrite H. set_solver.
Qed.

Lemma recorded_after_record m sets n :
  nk_source_entry_ids n = uuid_array uuid_text (concat sets) -> m <= Z.of_nat (length (concat sets)) ->
  nk_source_count n = clamp 1 i32_max (Z.of_nat (length (concat sets))) ->
  recorded_after m (map MemoriesCompacted sets ++ [CompactionRecorded n]).
Proof.
  intros H1 H2 H3 j1 n' j2 H. symmetry in H. apply app_eq_app in H as (l & [[-> H]|[Hl H]]).
  - symmetry in H. apply elt_eq_unit in H as ([= ->] & -> & _). exists [], sets. by rewrite app_nil_r.
  - destruct l as [|e l].
    + injection H as [= ->]. exists [], sets. rewrite app_nil_r in Hl. by rewrite Hl.
    + injection H as <- H. exfalso. assert (CompactionRecorded n' ∈ map MemoriesCompacted sets) as (ids & ? & _)%list_elem_of_fmap; [|done].
      rewrite Hl. set_solver.
Qed.

Lemma keeps_mark clock ids : keeps (X := X) primary (on_memory E (fun now => mark_compacted (clock now) ids) compacted).
Proof. apply (@mq_mark _ E _ keeps_primary). Qed.

(** What one update marks. *)
Lemma yields_mark clock ids :
  yields (X := X) primary (on_memory E (fun now => mark_compacted (clock now) ids) compacted) (fun r j =>
    exists got, j = compacted got /\ (forall a, r = Ok a -> a = got) /\ NoDup got /\ got ⊆ ids).
Proof.
  intros w Hw%primary_stable. unfold appends, on_memory, stmt, total.
  set (d := observed E w). destruct (mark_compacted _ ids (d_memory d)) as [t got] eqn:F.
  assert (NoDup got /\ got ⊆ ids) as [Hnd Hsub].
  { injection F as _ <-. split; [by apply (ids_distinct_filter (fun r => mm_id r))|].
    by intros id (r & -> & [_ [Hid%bool_decide_eq_true_1 _]%andb_true_iff]%elem_of_filterb)%list_elem_of_fmap. }
  destruct (env_fault E (w_tick w)) as [[[] m]|]; cbn.
  - exists (compacted got). split; [done|]. exists got. by split_and!.
  - exists []. rewrite app_nil_r. split; [done|]. exists []. split_and!; [done|done|constructor|set_solver].
  - exists (compacted got). split; [done|]. exists got. split_and!; [done| |done|done]. by intros a [= <-].
Qed.

Lemma compacted_sets got : exists sets, compacted got = map MemoriesCompacted sets /\ concat sets = got.
Proof. destruct got as [|id l]; [by exists []|]. exists [id :: l]. cbn. by rewrite app_nil_r. Qed.

Definition marks_exactly (r : result (list Uuid) error) (j : list effect) : Prop :=
  exists sets, j = map MemoriesCompacted sets /\ forall got, r = Ok got -> got = concat sets.

Lemma yields_mark_each ids : yields (X := X) primary (mark_each E ids) marks_exactly.
Proof.
  induction ids as [|id ids IH]; cbn [mark_each].
  { eapply yields_weaken; [apply yields_emits, emits_ret|]. intros r j [-> ->]. exists []. by split; [|intros got [= <-]]. }
  eapply yields_weaken.
  - apply yields_bind; [apply (keeps_mark current_timestamp)|apply yields_mark|intros marked].
    apply yields_bind; [apply (mark_each_rule E (fun A m => keeps primary m))|exact IH|intros others].
    apply yields_emits, emits_ret.
  - cbn beta. intros r j [(e & -> & got & -> & _)|(marked & j1 & j2 & -> & (got & -> & Hg & Hnd & Hsub) & H2)].
    { destruct (compacted_sets got) as (sets & -> & _). by exists sets. }
    destruct (compacted_sets got) as (sets1 & -> & Hs1). rewrite (Hg marked eq_refl) in *.
    destruct H2 as [(e & -> & sets & -> & _)|(others & j3 & j4 & -> & (sets & -> & Ho) & -> & ->)];
      exists (sets1 ++ sets); rewrite ?app_nil_r, map_app; (split; [done|]); [done|].
    intros got' [= <-]. rewrite concat_app, Hs1, (Ho others eq_refl).
    assert (got = [] \/ got = [id]) as [->| ->]; [|done..].
    destruct got as [|x [|y l]]; [by left|right|exfalso].
    + f_equal. apply list_elem_of_singleton, Hsub. left.
    + apply NoDup_cons in Hnd as [Hx _]. apply Hx.
      rewrite (proj1 (list_elem_of_singleton x id)) by (apply Hsub; left).
      rewrite (proj1 (list_elem_of_singleton y id)) by (apply Hsub; right; left). left.
Qed.

Lemma yields_record c ids counts :
  emits (record_compaction (X := X) E c ids counts) (fun r j =>
    j = [] \/ exists n, j = [CompactionRecorded n] /\ nk_source_entry_ids n = uuid_array uuid_text ids /\
                        nk_source_count n = clamp 1 i32_max (Z.of_nat (length ids))).
Proof.
  intros w. unfold appends, record_compaction, bind, now_utc, new_v4, ret. cbn beta iota zeta.
  match goal with |- context [stmt E ?f ?l ?v] => destruct (emits_stmt E f l v) as (j & Hj & HT); unfold appends in Hj;
    destruct (stmt E f l v) as [[u|e] w1] end; exists j; (split; [exact Hj|]); cbn in HT.
  - right. eexists. split; [exact HT|done].
  - destruct HT as [->|[a ->]]; [by left|]. right. by eexists.
Qed.

(** Marking, then the row if enough was marked. *)
Lemma recorded_after_candidate m (mark : M X (list Uuid)) c counts :
  keeps primary mark -> yields primary mark marks_exactly ->
  yields primary (let! ids := mark in
                  if Z.of_nat (length ids) <? m then ret None
                  else let! g := record_compaction E c ids counts in ret (Some g)) (fun _ => recorded_after m).
Proof.
  intros Hk Hm. eapply yields_weaken.
  - apply yields_bind; [exact Hk|exact Hm|intros ids].
    instantiate (1 := fun ids r j => j = [] \/ m <= Z.of_nat (length ids) /\ exists n, j = [CompactionRecorded n] /\
      nk_source_entry_ids n = uuid_array uuid_text ids /\ nk_source_count n = clamp 1 i32_max (Z.of_nat (length ids))).
    apply yields_emits. destruct (Z.ltb_spec (Z.of_nat (length ids)) m).
    + eapply emits_weaken; [apply emits_ret|]. intros r j [_ ->]. by left.
    + eapply emits_weaken; [apply emits_bind; [apply yields_record|intros g; apply emits_ret]|].
      cbn beta. intros r j [(e & _ & H1)|(a & j1 & j2 & -> & H1 & _ & ->)]; rewrite ?app_nil_r; destruct H1 as [->|H1]; eauto.
  - cbn beta. intros r j [(e & -> & sets & -> & _)|(ids & j1 & j2 & -> & (sets & -> & Hids) & H2)].
    { apply recorded_after_marks. }
    rewrite (Hids ids eq_refl) in H2. destruct H2 as [->|(Hl & n & -> & H1 & H2)].
    + rewrite app_nil_r. apply recorded_after_marks.
    + by apply recorded_after_record.
Qed.

Lemma recorded_after_nil m : recorded_after m [].
Proof. apply (recorded_after_marks m []). Qed.

Lemma recorded_after_each m f l :
  (forall c, keeps primary (f c)) -> (forall c, yields primary (f c) (fun _ => recorded_after m)) ->
  yields (X := X) primary (compact_each f l) (fun _ => recorded_after m).
Proof.
  intros Hk Hf. induction l as [|c l IH]; cbn [compact_each].
  { eapply yields_weaken; [apply yields_emits, emits_ret|]. intros r j [_ ->]. apply recorded_after_nil. }
  eapply yields_weaken.
  - apply yields_bind; [apply Hk|apply Hf|intros o].
    apply yields_bind; [apply (compact_each_rule E (fun A m => keeps primary m)), Hk|exact IH|intros os]. apply yields_emits, emits_ret.
  - cbn beta. intros r j [(e & _ & H)|(o & j1 & j2 & -> & H1 & [(e & _ & H2)|(os & j3 & j4 & -> & H2 & _ & ->)])];
      rewrite ?app_nil_r; [done|by apply recorded_after_app..].
Qed.

Lemma pass_recorded_after cutoff min_records max_groups :
  yields (X := X) primary (compact_memory_records_dual E parse_uuid cutoff min_records max_groups)
    (fun _ => recorded_after (Z.max min_records 2)).
Proof.
  assert (forall f, keeps primary (ask_memory (A := list MemoryCompactionCandidate) (X := X) E f)) as Hask.
  { intros f. apply (@mq_ask _ E _ keeps_primary). }
  assert (forall A (f : Z -> memory_tables -> A), emits (ask_memory (X := X) E f) (fun _ j => j = [])) as Hnone.
  { intros A f. eapply emits_weaken; [apply emits_stmt|]. intros [a|e] j; [done|]. by intros [->|[a ->]]. }
  assert (forall f, (forall c, keeps primary (f c)) -> (forall c, yields primary (f c) (fun _ => recorded_after (Z.max min_records 2))) ->
    forall g, yields (X := X) primary (let! candidates := ask_memory E g in let! groups := compact_each f candidates in ret (compaction_stats groups))
      (fun _ => recorded_after (Z.max min_records 2))) as Hpass.
  { intros f Hk Hf g. eapply yields_weaken.
    - apply yields_bind; [apply Hask|apply yields_emits, Hnone|intros cs].
      apply yields_bind; [apply (compact_each_rule E (fun A m => keeps primary m)), Hk|by apply recorded_after_each|intros os].
      apply yields_emits, emits_ret.
    - cbn beta. intros r j [(e & _ & ->)|(cs & j1 & j2 & -> & -> & [(e & _ & H)|(os & j3 & j4 & -> & H & _ & ->)])];
        rewrite ?app_nil_r; [apply recorded_after_nil|done..]. }
  unfold compact_memory_records_dual, compact_memory_records, compact_memory_records_sqlite.
  destruct (env_pool E) as [text tmax|SE]; apply Hpass; intros c.
  - apply (compact_candidate_rule E parse_uuid (fun A m => keeps primary m)).
  - unfold compact_candidate. destruct (_ <? _).
    { eapply yields_weaken; [apply yields_emits, emits_ret|]. intros r j [_ ->]. apply recorded_after_nil. }
    apply recorded_after_candidate; [apply (keeps_mark (fun now => now))|].
    eapply yields_weaken; [apply (yields_mark (fun now => now))|].
    intros r j (got & -> & Hg & _). destruct (compacted_sets got) as (sets & -> & Hs). exists sets. split; [done|].
    intros a ->. by rewrite Hs, (Hg a eq_refl).
  - apply (compact_candidate_sqlite_rule E (fun A m => keeps primary m)).
  - unfold compact_candidate_sqlite. eapply yields_weaken.
    + apply yields_bind; [apply (@mq_ask _ E _ keeps_primary)|apply yields_emits, Hnone|intros ids].
      apply recorded_after_candidate; [apply (mark_each_rule E (fun A m => keeps primary m))|apply yields_mark_each].
    + cbn beta. intros r j [(e & _ & ->)|(ids & j1 & j2 & -> & -> & H)]; [apply recorded_after_nil|done].
Qed.
End marking.

(** C11: C: a pass on either backend, under any failure and whatever other sessions do to the
    memory tables (as long as they give no identifier twice and take no mark back), marks
    no record twice, none that was marked before it, and leaves them marked; every row it
    adds to [memory_compactions] follows directly on the marking of exactly the records it
    names, at least [min_records] and two. *)
Theorem compactions_record_each_memory_once {X} (E : env) (born : Uuid -> nat) (parse_uuid : string -> option Uuid)
    (cutoff min_records max_groups : Z) (w : world X) (earlier : list Uuid) j
    (HE : keeps_marks E born) (Hdistinct : distinct_records (d_memory (w_db w)))
    (Hborn : born_before born (w_tick w) (d_memory (w_db w)))
    (Hearlier : NoDup earlier /\ settled earlier (d_memory (w_db w)) /\ forall id, id ∈ earlier -> (born id < w_tick w)%nat)
    (Hj : appends (compact_memory_records_dual E parse_uuid cutoff min_records max_groups) w j) :
  let w' := (compact_memory_records_dual E parse_uuid cutoff min_records max_groups w).2 in
  NoDup (earlier ++ marks j) /\ settled (earlier ++ marks j) (d_memory (w_db w')) /\
  forall j1 n j2, j = j1 ++ CompactionRecorded n :: j2 -> exists before sets,
    j1 = before ++ map MemoriesCompacted sets /\
    nk_source_entry_ids n = uuid_array (env_uuid_text E) (concat sets) /\
    Z.max min_records 2 <= Z.of_nat (length (concat sets)) /\
    nk_source_count n = clamp 1 i32_max (Z.of_nat (length (concat sets))).
Proof.
  cbn zeta. destruct Hearlier as (Hnd & Hs & Hl).
  assert (marking born earlier (w_journal w) w) as Hw.
  { exists []. rewrite !app_nil_r. by split_and!. }
  apply (pass_marks E born HE parse_uuid earlier (w_journal w) cutoff min_records max_groups) in Hw as (j' & Hj' & _ & Hnd' & Hs' & _).
  unfold appends in Hj. rewrite Hj in Hj'. apply app_inv_head in Hj' as <-. split_and!; [done|done|].
  eapply (yields_appends _ _ _ w j (pass_recorded_after E born HE parse_uuid cutoff min_records max_groups)); [done|exact Hj].
Qed.

(** * Examples *)

(** Identifiers in binary. *)
Fixpoint bits (p : positive) : string :=
  match p with xH => "1" | xO p => "0" +:+ bits p | xI p => "1" +:+ bits p end.
Definition id_text (z : Z) : string :=
  match z with Z0 => "" | Zpos p => "+" +:+ bits p | Zneg p => "-" +:+ bits p end.

Fixpoint of_bits (s : string) : option positive :=
  match s with
  | EmptyString => None
  | String c s' =>
      match of_bits s' with
      | None => if String.eqb s "1" then Some xH else None
      | Some p => if Ascii.eqb c (ascii_of_N 49) then Some (xI p) else Some (xO p)
      end
  end.
Definition parse_id (s : string) : option Z :=
  match s with EmptyString => Some 0 | String c s' => (if Ascii.eqb c (ascii_of_N 43) then Zpos else Zneg) <$> of_bits s' end.

Lemma of_bits_bits p : of_bits (bits p) = Some p.
Proof. induction p as [p IH|p IH|]; [| |reflexivity]; cbn [bits]; rewrite sapp_cons, sapp_nil_l; cbn [of_bits]; by rewrite IH. Qed.

Lemma parse_id_text z : parse_id (id_text z) = Some z.
Proof. destruct z as [|p|p]; [done|..]; cbn [id_text]; rewrite sapp_cons, sapp_nil_l; cbn [parse_id]; by rewrite of_bits_bits. Qed.

(** The time of the database moves by [pace] with every call, from the tenth on. *)
Definition memory_env (pool : DbPool) (pace : Z) (fault : nat -> option (bool * string)) : env :=
  {| env_pool := pool; env_clock := fun t => 40 + pace * (Z.of_nat t - 10); env_stmt_clock := fun t i => 40; env_uuid := fun t => 1000 + Z.of_nat t;
     env_fault := fault; env_io := fun _ => None; env_other := fun _ rows => rows; env_other_payments := fun _ p => p;
     env_other_triggers := fun _ t => t; env_other_llm := fun _ t => t; env_other_memory := fun _ t => t;
     env_uuid_text := id_text; env_time_json := jint; env_sql_text := fun _ => "sql" |}.
Definition pg : DbPool := Postgres (fun _ => "") (2 ^ 62).
Definition calm_env : env := memory_env pg 1 (fun _ => None).

Definition note_record (id : Uuid) (scope : string) (expires_at : option Z) : MemoryRecord :=
  memory_row 10 {| nm_id := id; nm_tenant_id := "t1"; nm_agent_id := 7; nm_run_id := None; nm_step_id := None;
                   nm_memory_kind := "semantic"; nm_scope := scope; nm_content_json := JObj []; nm_summary_text := None;
                   nm_source := "api"; nm_redaction_applied := false; nm_expires_at := expires_at |}.

Definition memory_world (records : list MemoryRecord) : world unit :=
  {| w_db := {| d_core := {| db_agents := [7]; db_users := []; db_runs := [] |}; d_steps := []; d_action_requests := [];
                d_action_results := []; d_audit_events := []; d_artifacts := []; d_siem := []; d_leases := [];
                d_payment_requests := []; d_payment_results := []; d_triggers := no_triggers; d_llm := no_llm_tables;
                d_memory := {| mt_records := records; mt_compactions := [] |} |};
     w_journal := []; w_tick := 10; w_ext := tt; w_routes := ∅; w_llm := no_llm |}.

Definition three_notes : list MemoryRecord :=
  [note_record 1 "memory:a" None; note_record 2 "memory:b" None; note_record 3 "memory:a" (Some 50)].

Lemma memory_env_quiet pool pace : quiet (memory_env pool pace (fun _ => None)).
Proof. by split_and!. Qed.

Lemma three_notes_distinct : distinct_records {| mt_records := three_notes; mt_compactions := [] |}.
Proof. unfold ids_distinct. cbn. repeat constructor; set_solver. Qed.

Abbreviation calm_pass := (compact_memory_records (X := unit) calm_env parse_id (fun _ => "") (2 ^ 62) 30 2 10).

Lemma compaction_marks_whole_groups_witness :
  match calm_pass (memory_world three_notes) with
  | (Ok stats, w') =>
      exists now groups,
        groups = limit 10 (order_by (@group_order (PgEngine (fun _ => "") (2 ^ 62)))
                   (@memory_groups (PgEngine (fun _ => "") (2 ^ 62)) now 30 2 {| mt_records := three_notes; mt_compactions := [] |})) /\
        Forall2 (marked_by (record_ids (concat groups))) three_notes (mt_records (d_memory (w_db w'))) /\
        ms_processed_groups stats = Z.of_nat (length groups)
  | _ => False
  end.
Proof.
  destruct (calm_pass (memory_world three_notes)) as [[stats|e] w'] eqn:H; [|vm_compute in H; discriminate].
  destruct (compaction_marks_whole_groups calm_env parse_id (fun _ => "") (2 ^ 62) 30 2 10 (memory_world three_notes) w' stats
    (memory_env_quiet pg 1) parse_id_text three_notes_distinct H) as (now & groups & Hg & _ & Hm & _ & _ & Hs & _).
  exists now, groups. by split_and!.
Defined.

Abbreviation dual_pass := (compact_memory_records_dual (X := unit) calm_env parse_id 30 2 10).

Lemma compactions_record_each_memory_once_witness :
  match dual_pass (memory_world three_notes) with
  | (_, w') =>
      NoDup (marks (w_journal w')) /\ settled (marks (w_journal w')) (d_memory (w_db w')) /\
      forall j1 n j2, w_journal w' = j1 ++ CompactionRecorded n :: j2 -> exists before sets,
        j1 = before ++ map MemoriesCompacted sets /\ nk_source_entry_ids n = uuid_array id_text (concat sets) /\
        2 <= Z.of_nat (length (concat sets)) /\ nk_source_count n = clamp 1 i32_max (Z.of_nat (length (concat sets)))
  end.
Proof.
  destruct (dual_pass (memory_world three_notes)) as [r w'] eqn:H.
  destruct (compactions_record_each_memory_once calm_env (fun id => Z.to_nat id) parse_id 30 2 10
    (memory_world three_notes) [] (w_journal w')) as (H1 & H2 & H3).
  - intros k t. split; [done|]. intros x Hx Hu. right. by exists x.
  - exact three_notes_distinct.
  - intros x Hx _. cbn in Hx. repeat (apply elem_of_cons in Hx as [->|Hx]; [cbn; lia|]). by apply not_elem_of_nil in Hx.
  - split_and!; [constructor|intros x _ Hx; by apply not_elem_of_nil in Hx|intros id Hid; by apply not_elem_of_nil in Hid].
  - unfold appends. by rewrite H.
  - rewrite H in H2. exact (conj H1 (conj H2 H3)).
Defined.

(** The two steps of a group are no transaction: when the insertion fails the records
    are compacted, no listing shows them any more, and no row names them. *)
Definition broken_env : env := memory_env pg 1 (fun t => if (t =? 13)%nat then Some (false, "connection reset") else None).

Theorem compaction_can_lose_its_record :
  let '(r, w') := compact_memory_records_dual broken_env parse_id 30 2 10 (memory_world three_notes) in
  is_ok r = false /\ map mm_compacted_at (mt_records (d_memory (w_db w'))) = [Some 41; None; Some 41] /\
  mt_compactions (d_memory (w_db w')) = [].
Proof. vm_compute. by split_and!. Qed.

(** On SQLite nothing need fail: a record that expires between the two queries leaves a
    group of one, which is marked before it is found too small. *)
Definition slow_env : env := memory_env (Sqlite (PgEngine (fun _ => "") (2 ^ 62))) 15 (fun _ => None).

Theorem sqlite_compaction_can_hide_a_record :
  let '(r, w') := compact_memory_records_dual slow_env parse_id 30 2 10 (memory_world three_notes) in
  r = Ok {| ms_processed_groups := 0; ms_compacted_source_records := 0; ms_groups := [] |} /\
  map uncompacted (mt_records (d_memory (w_db w'))) = [false; true; true] /\
  mt_compactions (d_memory (w_db w')) = [].
Proof. vm_compute. by split_and!. Qed.
