(* ===== verification/ApiContext.v ===== *)
(** The endpoints of agent contexts (api/src/lib.rs): inspection, the bootstrap
    workflow, the compilation of HEARTBEAT.md and its materialisation as triggers, and
    the mutation of context files.  The PostgreSQL and the SQLite handler of each have
    the same body; where the statements differ, the definition asks which backend it
    is.  The files are a part of the state outside the database; SHA-256, the parsers
    and the printers of UUIDs, time stamps and JSON are arguments. *)
From stdpp Require Import pretty.
From S2P Require Import Prelude RustStr Json Policy ApiAuth Capabilities Sql Paths FileSystem FileStore AgentContext.
From S2P Require Import Runs RunQueue Tables TriggerTables TriggerDispatch World ApiRuns ApiTriggers.

(** * The files *)

(** A state outside the database that holds the files. *)
Class FileHost (X : Type) := { host_files : X -> file_store; set_host_files : file_store -> X -> X }.
Class FileHostLaws (X : Type) `{FH : FileHost X} := {
  host_files_set : forall s x, host_files (set_host_files s x) = s;
  set_host_files_same : forall x, set_host_files (host_files x) x = x;
}.
#[export] Instance file_store_host : FileHost file_store := { host_files s := s; set_host_files s _ := s }.
#[export] Instance file_store_host_laws : FileHostLaws file_store.
Proof. done. Qed.
(** A process that keeps no files of its own sees those that others make. *)
#[export] Instance no_files : FileHost unit :=
  { host_files _ := {| fs_nodes := ∅; fs_contents := ∅; fs_cwd := [] |}; set_host_files _ x := x }.

(** What other processes did to the files before a call (after a failed one, what it
    left behind), and the failure of a call on a path. *)
Record files_env := { fe_other : nat -> file_store -> file_store; fe_fault : nat -> string -> option string }.

Section files.
Context {X : Type} `{FH : FileHost X} (E : env) (F : files_env).

(** One call on the files, at a time. *)
Definition on_files {A} (f : Z -> (string -> option string) -> file_store -> result (file_store * A) string)
    (log : A -> list effect) : M X A :=
  fun w =>
    let s := fe_other F (w_tick w) (host_files (w_ext w)) in
    let next s' j := {| w_db := w_db w; w_journal := w_journal w ++ j; w_tick := S (w_tick w);
                        w_ext := set_host_files s' (w_ext w); w_routes := w_routes w; w_llm := w_llm w |} in
    match f (env_stmt_clock E (w_tick w) 0) (fe_fault F (w_tick w)) s with
    | Ok (s', a) => (Ok a, next s' (log a))
    | Err e => (Err (Anyhow e), next s [])
    end.

Definition ask_files {A} (f : Z -> (string -> option string) -> file_store -> A) : M X A :=
  on_files (fun now io s => Ok (s, f now io s)) (fun _ => []).
Definition change_files (f : (string -> option string) -> file_store -> result file_store string)
    (log : list effect) : M X unit :=
  on_files (fun _ io s => let? s := f io s in Ok (s, tt)) (fun _ => log).
End files.

(** * Requests and answers *)

Record MutateAgentContextRequest := { mc_relative_path : string; mc_content : string; mc_mode : string }.
Record CompleteBootstrapRequest := {
  cb_identity_markdown : option string; cb_soul_markdown : option string; cb_user_markdown : option string;
  cb_heartbeat_markdown : option string; cb_completion_note : option string; cb_force : bool;
}.
Record CompileHeartbeatRequest := { ch_heartbeat_markdown : option string }.
Record MaterializeHeartbeatRequest := {
  mh_heartbeat_markdown : option string; mh_apply : bool; mh_approval_confirmed : bool;
  mh_approval_note : option string; mh_input : option json; mh_requested_capabilities : option json;
  mh_triggered_by_user_id : option Uuid; mh_cron_max_attempts : option Z;
}.

Record AgentContextFileResponse := {
  fr_slot : string; fr_relative_path : string; fr_sha256 : string; fr_bytes : Z;
  fr_mutability : option AgentContextMutability;
}.
Record AgentContextInspectResponse := {
  ir_tenant_id : string; ir_agent_id : Uuid; ir_source_dir : string; ir_loaded_at : Z;
  ir_loaded_file_count : Z; ir_total_loaded_bytes : Z; ir_aggregate_sha256 : string;
  ir_summary_digest_sha256 : string; ir_missing_required_files : list string; ir_warnings : list string;
  ir_precedence_order : list string; ir_required_files : list AgentContextFileResponse;
  ir_memory_files : list AgentContextFileResponse; ir_session_files : list AgentContextFileResponse;
}.
Record AgentHeartbeatCompileResponse := {
  hcr_tenant_id : string; hcr_agent_id : Uuid; hcr_source : string; hcr_source_path : option string;
  hcr_context_aggregate_sha256 : option string; hcr_context_summary_digest_sha256 : option string;
  hcr_candidate_count : Z; hcr_issue_count : Z; hcr_candidates : list HeartbeatTriggerCandidate;
  hcr_issues : list HeartbeatCompileIssue;
}.
Record AgentHeartbeatMaterializeItemResponse := {
  mi_line : Z; mi_kind : string; mi_recipe_id : string; mi_interval_seconds : option Z;
  mi_cron_expression : option string; mi_timezone : option string; mi_max_inflight_runs : Z;
  mi_jitter_seconds : Z; mi_status : string; mi_trigger_id : option Uuid;
}.
Record AgentHeartbeatMaterializeResponse := {
  mr_tenant_id : string; mr_agent_id : Uuid; mr_source : string; mr_source_path : option string;
  mr_context_aggregate_sha256 : option string; mr_context_summary_digest_sha256 : option string;
  mr_apply_requested : bool; mr_approval_confirmed : bool; mr_approval_note : option string;
  mr_approved_by_user_id : option Uuid; mr_cron_max_attempts : Z; mr_candidate_count : Z; mr_issue_count : Z;
  mr_planned_count : Z; mr_created_count : Z; mr_existing_count : Z;
  mr_candidates : list AgentHeartbeatMaterializeItemResponse; mr_issues : list HeartbeatCompileIssue;
}.
Record AgentContextMutationResponse := {
  mu_tenant_id : string; mu_agent_id : Uuid; mu_relative_path : string; mu_mode : string;
  mu_mutability : AgentContextMutability; mu_sha256 : string; mu_bytes : Z;
}.
Record AgentBootstrapInspectResponse := {
  bi_tenant_id : string; bi_agent_id : Uuid; bi_enabled : bool; bi_status : string; bi_source_dir : string;
  bi_bootstrap_present : bool; bi_bootstrap_path : option string; bi_bootstrap_sha256 : option string;
  bi_bootstrap_bytes : option Z; bi_bootstrap_markdown : option string; bi_completed_at : option Z;
  bi_completed_by_user_id : option Uuid; bi_completion_note : option string; bi_updated_files : list string;
}.
Record BootstrapFileWriteResponse := { bw_relative_path : string; bw_sha256 : string; bw_bytes : Z }.
Record AgentBootstrapCompleteResponse := {
  bc_tenant_id : string; bc_agent_id : Uuid; bc_status : string; bc_source_dir : string; bc_completed_at : Z;
  bc_completed_by_user_id : Uuid; bc_completion_note : option string; bc_force : bool;
  bc_updated_files : list BootstrapFileWriteResponse; bc_status_record_relative_path : string;
}.

Definition BOOTSTRAP_FILE_NAME : string := "BOOTSTRAP.md".
Definition BOOTSTRAP_STATUS_FILE_PATH : string := "sessions/bootstrap.status.jsonl".

(** * Checks *)

Definition ensure_usage_query_role (role : RolePreset) : ApiResult unit :=
  match role with Viewer => Err (forbidden "viewer role cannot query reporting endpoints") | _ => Ok tt end.
Definition ensure_owner_role (role : RolePreset) (message : string) : ApiResult unit :=
  match role with Owner => Ok tt | _ => Err (forbidden message) end.
Definition ensure_memory_write_role (role : RolePreset) : ApiResult unit :=
  match role with Viewer => Err (forbidden "viewer role cannot write memory") | _ => Ok tt end.

Definition normalize_requested_capabilities_payload (payload : option json) : ApiResult json :=
  match payload with
  | None | Some JNull => Ok (JArr [])
  | Some (JArr l) => Ok (JArr l)
  | Some _ => Err (bad_request "requested_capabilities must be an array")
  end.
Definition normalize_materialization_input_payload (payload : option json) : json :=
  match payload with None | Some JNull => JObj [] | Some v => v end.

Inductive ContextMutationMode := Replace | Append.
Definition ContextMutationMode_as_str (m : ContextMutationMode) : string :=
  match m with Replace => "replace" | Append => "append" end.

Definition parse_context_mutation_mode (raw : string) : ApiResult ContextMutationMode :=
  ok_or (str_match (to_ascii_lowercase (trim raw)) [(["replace"], Replace); (["append"], Append)])
    (bad_request "mode must be one of: replace, append").

(** The names of a path, in order; the first component that is none is an error. *)
Fixpoint mutation_parts (cs : list Component) : ApiResult (list string) :=
  match cs with
  | [] => Ok []
  | Normal part :: rest =>
      if is_empty (trim part) then Err (bad_request "relative_path contains empty path component")
      else let? parts := mutation_parts rest in Ok (part :: parts)
  | _ => Err (bad_request "relative_path contains invalid path components")
  end.
Definition normalize_context_mutation_path (raw : string) : ApiResult string :=
  let trimmed := trim raw in
  if is_empty trimmed then Err (bad_request "relative_path must not be empty")
  else if is_absolute trimmed then Err (bad_request "relative_path must be a relative path")
  else let? parts := mutation_parts (components trimmed) in
       match parts with
       | [] => Err (bad_request "relative_path must not be empty")
       | _ => Ok (join "/" parts)
       end.

Definition ensure_context_mutation_role (role : RolePreset) (mutability : AgentContextMutability) : ApiResult unit :=
  match mutability with
  | Immutable => Err (forbidden "immutable agent-context files cannot be mutated via API")
  | HumanPrimary => ensure_owner_role role "only owner role can mutate human-primary agent-context files"
  | AgentManaged => ensure_memory_write_role role
  end.

Definition is_append (m : ContextMutationMode) : bool := match m with Append => true | Replace => false end.
Definition is_session (relative_path : string) : bool := starts_with "sessions/" relative_path.

Definition validate_context_mutation_mode (mode : ContextMutationMode) (relative_path : string)
    (mutability : AgentContextMutability) : ApiResult unit :=
  bad_requests
    [(is_session relative_path && negb (ends_with ".jsonl" relative_path),
      "sessions/ context files must use .jsonl extension");
     (starts_with "memory/" relative_path && negb (ends_with ".md" relative_path),
      "memory/ context files must use .md extension");
     (match mutability with HumanPrimary | Immutable => is_append mode | AgentManaged => false end,
      "append mode is not allowed for immutable or human-primary files");
     (is_session relative_path && negb (is_append mode), "sessions/*.jsonl mutations must use append mode")].

Definition map_agent_context_load_error (err : AgentContextLoadError) : ApiError :=
  match err with
  | AgentContext.NotFound searched => not_found ("agent context not found; searched: " +:+ join ", " searched)
  | InvalidConfig message => internal ("agent context loader is misconfigured: " +:+ message)
  | Io path source => internal ("failed reading agent context at " +:+ path +:+ ": " +:+ source)
  end.

Definition agent_context_precedence_order : list string :=
  ["runtime policy enforcement"; "AGENTS.md + TOOLS.md"; "IDENTITY.md + SOUL.md"; "USER.md"; "MEMORY.md";
   "memory/*.md + sessions/*.jsonl"].

Definition agent_context_file_to_response (f : AgentContextFile) : AgentContextFileResponse :=
  {| fr_slot := af_slot f; fr_relative_path := af_relative_path f; fr_sha256 := af_sha256 f;
     fr_bytes := af_bytes f; fr_mutability := classify_mutability (af_relative_path f) |}.

(** * The record of a completed bootstrap *)

Record BootstrapCompletionRecord := {
  br_completed_at : Z; br_completed_by_user_id : Uuid; br_completion_note : option string;
  br_updated_files : list string;
}.

Section completion.
Context (from_str : string -> result json string) (parse_rfc3339 : string -> result Z string).
Context (parse_uuid : string -> option Uuid).

Definition completion_of_line (value : json) : ApiResult BootstrapCompletionRecord :=
  let? completed_at_raw := ok_or (get_str "completed_at" value)
    (internal "bootstrap completion status is missing completed_at timestamp") in
  let? completed_at := map_err (fun e => internal ("invalid bootstrap completion timestamp `" +:+ completed_at_raw +:+ "`: " +:+ e))
                         (parse_rfc3339 completed_at_raw) in
  let? user_raw := ok_or (get_str "completed_by_user_id" value)
    (internal "bootstrap completion status is missing completed_by_user_id") in
  let? user := ok_or (parse_uuid user_raw) (internal ("invalid bootstrap completion user id `" +:+ user_raw +:+ "`")) in
  Ok {| br_completed_at := completed_at; br_completed_by_user_id := user;
        br_completion_note := get_str "completion_note" value;
        br_updated_files := match get "updated_files" value ≫= as_array with
                            | Some items => omap as_str items
                            | None => []
                            end |}.

Fixpoint latest_completion (ls : list string) (latest : option BootstrapCompletionRecord)
    : ApiResult (option BootstrapCompletionRecord) :=
  match ls with
  | [] => Ok latest
  | line :: rest =>
      if is_empty (trim line) then latest_completion rest latest
      else
        let? value := map_err (fun e => internal ("failed decoding bootstrap status line in " +:+
                                                   BOOTSTRAP_STATUS_FILE_PATH +:+ ": " +:+ e)) (from_str (trim line)) in
        if negb (bool_decide (get_str "status" value = Some "completed")) then latest_completion rest latest
        else let? r := completion_of_line value in latest_completion rest (Some r)
  end.

Definition find_latest_bootstrap_completion (session_files : list AgentContextFile)
    : ApiResult (option BootstrapCompletionRecord) :=
  match List.find (fun f => eq_ignore_ascii_case (af_relative_path f) BOOTSTRAP_STATUS_FILE_PATH) session_files with
  | None => Ok None
  | Some status_file => latest_completion (lines (af_content status_file)) None
  end.
End completion.

(** * Handlers *)

(** The loader and the switches of [AppState]. *)
Record ContextState := {
  cs_loader : AgentContextLoaderConfig; cs_mutation_enabled : bool; cs_bootstrap_enabled : bool;
}.

(** The code outside the program that the handlers call. *)
Record ContextCalls := {
  cc_sha256_hex : string -> string; cc_to_vec : json -> string; cc_from_str : string -> result json string;
  cc_parse_rfc3339 : string -> result Z string; cc_format_rfc3339 : Z -> string;
  cc_cron_error : string -> option string; cc_timezone_ok : string -> bool;
}.

(** Nobody else touches the files, and no call on them fails. *)
Definition quiet_files : files_env := {| fe_other := fun _ s => s; fe_fault := fun _ _ => None |}.

(** The directory of [full_path.parent()], for a file named relative to a directory. *)
Definition parent_path (source_dir relative_path : string) : string :=
  match removelast (split_char slash relative_path) with
  | [] => source_dir
  | parents => path_join source_dir (join "/" parents)
  end.

Section api_context.
Context {X : Type} `{FH : FileHost X} (E : env) (F : files_env) (cs : ContextState) (cc : ContextCalls).
Context (sc : schedules) (jitter_hash : Uuid -> Z -> Z) (parse_uuid : string -> option Uuid).
Context (state : AuthState) (tenant_max_triggers : option Z).
#[local] Abbreviation handler := (ApiRuns.handler (X := X)).
#[local] Abbreviation sqlite := (on_sqlite (env_pool E)).

(** ** Reading *)

(** A snapshot reads the files as they are at one moment. *)
Definition load_context (tenant_id : string) (agent_id : Uuid) : handler AgentContextSnapshot :=
  let! r := ask_files E F (fun now io s =>
    load_agent_context_snapshot (cc_sha256_hex cc) (env_uuid_text E) io s (cs_loader cs) now tenant_id agent_id) in
  check (map_err map_agent_context_load_error r) (fun s => ret (Ok s)).

(** Tenant and role of a request that only reads. *)
Definition context_reader (headers : HeaderMap) : ApiResult string :=
  let? tenant_id := tenant_from_headers headers in
  let? role := role_from_headers state headers in
  let? _ := ensure_usage_query_role role in
  Ok tenant_id.

#[local] Abbreviation aggregate := (aggregate_sha256 (cc_sha256_hex cc)).
#[local] Abbreviation summary_digest := (summary_digest_sha256 (cc_sha256_hex cc) (env_time_json E) (cc_to_vec cc)).

Definition inspect_response (tenant_id : string) (agent_id : Uuid) (s : AgentContextSnapshot) : AgentContextInspectResponse :=
  let files := map agent_context_file_to_response in
  {| ir_tenant_id := tenant_id; ir_agent_id := agent_id; ir_source_dir := as_source_dir s;
     ir_loaded_at := as_loaded_at s; ir_loaded_file_count := loaded_file_count s;
     ir_total_loaded_bytes := total_loaded_bytes s; ir_aggregate_sha256 := aggregate s;
     ir_summary_digest_sha256 := summary_digest s; ir_missing_required_files := as_missing_required_files s;
     ir_warnings := as_warnings s; ir_precedence_order := agent_context_precedence_order;
     ir_required_files := files (as_required_files s); ir_memory_files := files (as_memory_files s);
     ir_session_files := files (as_session_files s) |}.

Definition get_agent_context_handler (headers : HeaderMap) (agent_id : Uuid)
    : handler (Z * AgentContextInspectResponse) :=
  check (context_reader headers) (fun tenant_id =>
  andthen (load_context tenant_id agent_id) (fun s => ret (Ok (200, inspect_response tenant_id agent_id s)))).

Definition disabled_bootstrap (tenant_id : string) (agent_id : Uuid) : AgentBootstrapInspectResponse :=
  {| bi_tenant_id := tenant_id; bi_agent_id := agent_id; bi_enabled := false; bi_status := "disabled";
     bi_source_dir := ""; bi_bootstrap_present := false; bi_bootstrap_path := None; bi_bootstrap_sha256 := None;
     bi_bootstrap_bytes := None; bi_bootstrap_markdown := None; bi_completed_at := None;
     bi_completed_by_user_id := None; bi_completion_note := None; bi_updated_files := [] |}.

Definition bootstrap_response (tenant_id : string) (agent_id : Uuid) (source_dir : string) (bytes : option string)
    (completion : option BootstrapCompletionRecord) : AgentBootstrapInspectResponse :=
  let markdown := match bytes with Some b => if valid_utf8 b then Some b else None | None => None end in
  {| bi_tenant_id := tenant_id; bi_agent_id := agent_id; bi_enabled := true;
     bi_status := if is_some completion then "completed" else if is_some markdown then "pending" else "not_configured";
     bi_source_dir := source_dir; bi_bootstrap_present := is_some markdown;
     bi_bootstrap_path := if is_some markdown then Some (path_join source_dir BOOTSTRAP_FILE_NAME) else None;
     bi_bootstrap_sha256 := cc_sha256_hex cc <$> bytes; bi_bootstrap_bytes := len <$> bytes;
     bi_bootstrap_markdown := markdown; bi_completed_at := br_completed_at <$> completion;
     bi_completed_by_user_id := br_completed_by_user_id <$> completion;
     bi_completion_note := completion ≫= br_completion_note;
     bi_updated_files := match completion with Some c => br_updated_files c | None => [] end |}.

#[local] Abbreviation find_completion s :=
  (find_latest_bootstrap_completion (cc_from_str cc) (cc_parse_rfc3339 cc) parse_uuid (as_session_files s)).

Definition get_agent_bootstrap_handler (headers : HeaderMap) (agent_id : Uuid)
    : handler (Z * AgentBootstrapInspectResponse) :=
  check (context_reader headers) (fun tenant_id =>
  if negb (cs_bootstrap_enabled cs) then ret (Ok (200, disabled_bootstrap tenant_id agent_id))
  else
    andthen (load_context tenant_id agent_id) (fun s =>
    let! bytes := ask_files E F (fun _ io fs => match fs_read io fs (path_join (as_source_dir s) BOOTSTRAP_FILE_NAME) with Ok b => Some b | Err _ => None end) in
    check (find_completion s) (fun completion =>
      ret (Ok (200, bootstrap_response tenant_id agent_id (as_source_dir s) bytes completion))))).

(** ** Writing *)

Definition create_parent (source_dir relative_path : string) : handler unit :=
  let parent := parent_path source_dir relative_path in
  or_internal E ("failed creating context file directory " +:+ parent)
    (change_files E F (fun io s => create_dir_all io parent s) []).

(** The length of the regular file, 0 when there is none. *)
Definition current_len (full_path : string) : M X Z :=
  ask_files E F (fun _ io s => match metadata_len io s full_path with Ok n => n | Err _ => 0 end).

Definition write_context (what full_path bytes : string) : handler unit :=
  or_internal E (what +:+ full_path)
    (change_files E F (fun io s => write_file io full_path bytes s) [FileWritten full_path bytes]).
Definition append_context (full_path bytes : string) : handler unit :=
  or_internal E ("failed appending context file " +:+ full_path)
    (change_files E F (fun io s => append_file io full_path bytes s) [FileAppended full_path bytes]).

(** The file read back: its digest and its length. *)
Definition read_back (what full_path : string) : handler (string * Z) :=
  andthen (or_internal E (what +:+ full_path) (on_files E F (fun _ io s => let? b := fs_read io s full_path in Ok (s, b)) (fun _ => [])))
    (fun bytes => ret (Ok (cc_sha256_hex cc bytes, len bytes))).

Definition with_newline (s : string) : string :=
  if ends_with (String newline "") s then s else s +:+ String newline "".

Definition append_context_jsonl_line (source_dir relative_path line : string) : handler unit :=
  let full_path := path_join source_dir relative_path in
  let payload := with_newline line in
  andthen (create_parent source_dir relative_path) (fun _ =>
  let! current := current_len full_path in
  if al_max_file_bytes (cs_loader cs) <? current + len payload then
    fail (bad_request (relative_path +:+ " exceeds max file size (" +:+ pretty (al_max_file_bytes (cs_loader cs)) +:+ " bytes)"))
  else append_context full_path payload).

(** The updates of a bootstrap, in order. *)
Definition bootstrap_updates (req : CompleteBootstrapRequest) : list (string * string) :=
  omap (fun '(name, o) => pair name <$> trimmed o)
    [("IDENTITY.md", cb_identity_markdown req); ("SOUL.md", cb_soul_markdown req); ("USER.md", cb_user_markdown req);
     ("HEARTBEAT.md", cb_heartbeat_markdown req)].

Fixpoint write_updates (source_dir : string) (updates : list (string * string)) : handler (list BootstrapFileWriteResponse) :=
  match updates with
  | [] => ret (Ok [])
  | (relative_path, content) :: rest =>
      let full_path := path_join source_dir relative_path in
      andthen (create_parent source_dir relative_path) (fun _ =>
      if al_max_file_bytes (cs_loader cs) <? len content then
        fail (bad_request (relative_path +:+ " exceeds max file size (" +:+ pretty (al_max_file_bytes (cs_loader cs)) +:+ " bytes)"))
      else
        andthen (write_context "failed writing bootstrap target " full_path content) (fun _ =>
        andthen (read_back "failed reading bootstrap target " full_path) (fun '(sha, bytes) =>
        andthen (write_updates source_dir rest) (fun written =>
          ret (Ok ({| bw_relative_path := relative_path; bw_sha256 := sha; bw_bytes := bytes |} :: written))))))
  end.

Definition status_record (completed_at : Z) (user : Uuid) (note : option string) (written : list BootstrapFileWriteResponse) : json :=
  jobject
    [("schema_version", JStr "v1"); ("status", JStr "completed");
     ("completed_at", JStr (cc_format_rfc3339 cc completed_at));
     ("completed_by_user_id", JStr (env_uuid_text E user)); ("completion_note", opt_json JStr note);
     ("updated_files", JArr (map (fun w => JStr (bw_relative_path w)) written))].

Definition complete_agent_bootstrap_handler (headers : HeaderMap) (agent_id : Uuid) (req : CompleteBootstrapRequest)
    : handler (Z * AgentBootstrapCompleteResponse) :=
  if negb (cs_bootstrap_enabled cs) then fail (forbidden "agent bootstrap is disabled by API_AGENT_BOOTSTRAP_ENABLED")
  else
    check (tenant_from_headers headers) (fun tenant_id =>
    check (role_from_headers state headers) (fun role =>
    check (ensure_owner_role role "only owner role can complete agent bootstrap workflow") (fun _ =>
    check (user_id_from_headers parse_uuid state headers) (fun actor =>
    check (ok_or actor (forbidden "bootstrap completion requires x-user-id for attribution")) (fun user =>
    andthen (load_context tenant_id agent_id) (fun s =>
    let! present := ask_files E F (fun _ _ fs => path_is_file fs (path_join (as_source_dir s) BOOTSTRAP_FILE_NAME)) in
    if negb present then fail (conflict "BOOTSTRAP.md is missing; add the file before completing bootstrap")
    else
      check (find_completion s) (fun existing =>
      if is_some existing && negb (cb_force req) then
        fail (conflict "bootstrap is already completed; pass force=true to record a new completion event")
      else
        andthen (write_updates (as_source_dir s) (bootstrap_updates req)) (fun written =>
        let! completed_at := now_utc E in
        let note := trimmed (cb_completion_note req) in
        andthen (append_context_jsonl_line (as_source_dir s) BOOTSTRAP_STATUS_FILE_PATH
                   (cc_to_vec cc (status_record completed_at user note written))) (fun _ =>
          ret (Ok (200,
            {| bc_tenant_id := tenant_id; bc_agent_id := agent_id; bc_status := "completed";
               bc_source_dir := as_source_dir s; bc_completed_at := completed_at; bc_completed_by_user_id := user;
               bc_completion_note := note; bc_force := cb_force req; bc_updated_files := written;
               bc_status_record_relative_path := BOOTSTRAP_STATUS_FILE_PATH |}))))))))))).

(** The directory of the agent, made when there is none. *)
Definition resolve_or_create_agent_context_source_dir (tenant_id : string) (agent_id : Uuid) : handler string :=
  let tenant_agent := tenant_agent_dir (env_uuid_text E) (cs_loader cs) tenant_id agent_id in
  let! found := ask_files E F (fun _ _ s => resolve_source_dir (env_uuid_text E) s (cs_loader cs) tenant_id agent_id) in
  match found with
  | Ok dir => ret (Ok dir)
  | Err _ =>
      andthen (or_internal E ("failed creating agent context directory " +:+ tenant_agent)
                 (change_files E F (fun io s => create_dir_all io tenant_agent s) []))
        (fun _ => ret (Ok tenant_agent))
  end.

Definition mutate_agent_context_handler (headers : HeaderMap) (agent_id : Uuid) (req : MutateAgentContextRequest)
    : handler (Z * AgentContextMutationResponse) :=
  if negb (cs_mutation_enabled cs) then
    fail (forbidden "agent-context mutation endpoints are disabled by API_AGENT_CONTEXT_MUTATION_ENABLED")
  else
    check (tenant_from_headers headers) (fun tenant_id =>
    check (role_from_headers state headers) (fun role =>
    check (parse_context_mutation_mode (mc_mode req)) (fun mode =>
    check (normalize_context_mutation_path (mc_relative_path req)) (fun relative_path =>
    check (ok_or (classify_mutability relative_path) (bad_request
      "relative_path must target a supported agent-context file (USER.md, HEARTBEAT.md, BOOTSTRAP.md, MEMORY.md, memory/*.md, sessions/*.jsonl)"))
      (fun mutability =>
    check (ensure_context_mutation_role role mutability) (fun _ =>
    check (validate_context_mutation_mode mode relative_path mutability) (fun _ =>
    andthen (resolve_or_create_agent_context_source_dir tenant_id agent_id) (fun source_dir =>
    let full_path := path_join source_dir relative_path in
    andthen (create_parent source_dir relative_path) (fun _ =>
    let payload := if is_append mode && is_session relative_path then with_newline (mc_content req) else mc_content req in
    let! current := current_len full_path in
    let projected := if is_append mode then current + len payload else len payload in
    if al_max_file_bytes (cs_loader cs) <? projected then
      fail (bad_request ("mutation exceeds max file size (" +:+ pretty (al_max_file_bytes (cs_loader cs)) +:+ " bytes)"))
    else
      andthen (if is_append mode then append_context full_path payload
               else write_context "failed writing context file " full_path payload) (fun _ =>
      andthen (read_back "failed reading updated context file " full_path) (fun '(sha, bytes) =>
        ret (Ok (200,
          {| mu_tenant_id := tenant_id; mu_agent_id := agent_id; mu_relative_path := relative_path;
             mu_mode := ContextMutationMode_as_str mode; mu_mutability := mutability; mu_sha256 := sha;
             mu_bytes := bytes |}))))))))))))).

(** ** Heartbeats *)

(** The markdown to compile: given with the request, or the HEARTBEAT.md of the agent. *)
Record heartbeat_source := {
  hs_markdown : string; hs_source : string; hs_source_path : option string; hs_aggregate : option string;
  hs_summary : option string;
}.

Definition heartbeat_source_of (tenant_id : string) (agent_id : Uuid) (inline : option string) : handler heartbeat_source :=
  match trimmed inline with
  | Some markdown =>
      ret (Ok {| hs_markdown := markdown; hs_source := "inline"; hs_source_path := None; hs_aggregate := None;
                 hs_summary := None |})
  | None =>
      andthen (load_context tenant_id agent_id) (fun s =>
      check (ok_or (required_file_content "HEARTBEAT.md" s)
               (bad_request "HEARTBEAT.md is missing; provide heartbeat_markdown inline or add the file")) (fun markdown =>
        ret (Ok {| hs_markdown := markdown; hs_source := "context_file";
                   hs_source_path := Some (as_source_dir s +:+ "/HEARTBEAT.md"); hs_aggregate := Some (aggregate s);
                   hs_summary := Some (summary_digest s) |})))
  end.

#[local] Abbreviation compile := (compile_heartbeat_markdown (cc_cron_error cc) (cc_timezone_ok cc)).
#[local] Abbreviation count l := (Z.of_nat (length l)).

Definition compile_agent_heartbeat_handler (headers : HeaderMap) (agent_id : Uuid) (req : CompileHeartbeatRequest)
    : handler (Z * AgentHeartbeatCompileResponse) :=
  check (context_reader headers) (fun tenant_id =>
  andthen (heartbeat_source_of tenant_id agent_id (ch_heartbeat_markdown req)) (fun src =>
    let report := compile (hs_markdown src) in
    ret (Ok (200,
      {| hcr_tenant_id := tenant_id; hcr_agent_id := agent_id; hcr_source := hs_source src;
         hcr_source_path := hs_source_path src; hcr_context_aggregate_sha256 := hs_aggregate src;
         hcr_context_summary_digest_sha256 := hs_summary src; hcr_candidate_count := count (hr_candidates report);
         hcr_issue_count := count (hr_issues report); hcr_candidates := hr_candidates report;
         hcr_issues := hr_issues report |})))).

(** The [WHERE] of the two lookups. *)
Definition same_schedule (tenant_id : string) (agent_id : Uuid) (c : HeartbeatTriggerCandidate) (t : TriggerRecord) : bool :=
  String.eqb (t_tenant_id t) tenant_id && (t_agent_id t =? agent_id) && String.eqb (t_recipe_id t) (hc_recipe_id c) &&
  (t_max_inflight_runs t =? hc_max_inflight_runs c) && (t_jitter_seconds t =? hc_jitter_seconds c) &&
  match hc_kind c with
  | Interval => String.eqb (t_trigger_type t) "interval" && bool_decide (t_interval_seconds t = hc_interval_seconds c)
  | Cron => String.eqb (t_trigger_type t) "cron" && bool_decide (t_cron_expression t = hc_cron_expression c) &&
            String.eqb (t_schedule_timezone t) (default "UTC" (hc_timezone c))
  end.

(** [ORDER BY created_at DESC], on SQLite by whole seconds and then the identifier. *)
Definition newest_first (a b : TriggerRecord) : bool :=
  if sqlite then
    let sa := current_timestamp (t_created_at a) in
    let sb := current_timestamp (t_created_at b) in
    (sb <? sa) || ((sa =? sb) && (t_id b <=? t_id a))
  else t_created_at b <=? t_created_at a.

Definition existing_heartbeat_trigger (tenant_id : string) (agent_id : Uuid) (c : HeartbeatTriggerCandidate) (s : tdb)
    : option Uuid :=
  t_id <$> head (order_by newest_first (List.filter (same_schedule tenant_id agent_id c) (triggers_of s))).

(** The field that the kind of a candidate needs. *)
Definition candidate_complete (c : HeartbeatTriggerCandidate) : ApiResult unit :=
  match hc_kind c with
  | Interval => if is_some (hc_interval_seconds c) then Ok tt
                else Err (internal "heartbeat interval candidate missing interval seconds")
  | Cron => if is_some (hc_cron_expression c) then Ok tt
            else Err (internal "heartbeat cron candidate missing cron expression")
  end.

Definition find_existing_heartbeat_trigger_id (tenant_id : string) (agent_id : Uuid) (c : HeartbeatTriggerCandidate)
    : handler (option Uuid) :=
  check (candidate_complete c) (fun _ =>
  or_internal E (match hc_kind c with
                 | Interval => "failed checking existing interval heartbeat trigger"
                 | Cron => "failed checking existing cron heartbeat trigger"
                 end) (tquery E (existing_heartbeat_trigger tenant_id agent_id c))).

(** The identity, the capabilities and the input of the triggers of one request. *)
Record heartbeat_grant := {
  hg_tenant_id : string; hg_agent_id : Uuid; hg_triggered_by_user_id : option Uuid; hg_input : json;
  hg_requested : json; hg_cron_max_attempts : Z;
}.

Definition heartbeat_interval (g : heartbeat_grant) (c : HeartbeatTriggerCandidate) (granted : json) (id : Uuid)
    (wall interval_seconds : Z) : NewIntervalTrigger :=
  {| ni_id := id; ni_tenant_id := hg_tenant_id g; ni_agent_id := hg_agent_id g;
     ni_triggered_by_user_id := hg_triggered_by_user_id g; ni_recipe_id := hc_recipe_id c;
     ni_interval_seconds := interval_seconds; ni_input_json := hg_input g; ni_requested_capabilities := hg_requested g;
     ni_granted_capabilities := granted; ni_next_fire_at := wall + interval_seconds * second; ni_status := "enabled";
     ni_misfire_policy := "fire_now"; ni_max_attempts := 3; ni_max_inflight_runs := hc_max_inflight_runs c;
     ni_jitter_seconds := hc_jitter_seconds c; ni_webhook_secret_ref := None |}.

Definition heartbeat_cron (g : heartbeat_grant) (c : HeartbeatTriggerCandidate) (granted : json) (id : Uuid)
    (cron_expression : string) : NewCronTrigger :=
  {| nc_id := id; nc_tenant_id := hg_tenant_id g; nc_agent_id := hg_agent_id g;
     nc_triggered_by_user_id := hg_triggered_by_user_id g; nc_recipe_id := hc_recipe_id c;
     nc_cron_expression := cron_expression; nc_schedule_timezone := default "UTC" (hc_timezone c);
     nc_input_json := hg_input g; nc_requested_capabilities := hg_requested g; nc_granted_capabilities := granted;
     nc_status := "enabled"; nc_misfire_policy := "fire_now"; nc_max_attempts := hg_cron_max_attempts g;
     nc_max_inflight_runs := hc_max_inflight_runs c; nc_jitter_seconds := hc_jitter_seconds c |}.

Definition creation_failure (c : HeartbeatTriggerCandidate) : string :=
  "failed creating " +:+ match hc_kind c with Interval => "interval" | Cron => "cron" end +:+ " trigger from heartbeat " +:+
  (if sqlite then "candidate" else "line " +:+ pretty (hc_line c)).

(** The row that a statement writes: on SQLite the first instant of a cron trigger is
    the time of the request. *)
Definition create_heartbeat_trigger (g : heartbeat_grant) (c : HeartbeatTriggerCandidate) (granted : json)
    : handler TriggerRecord :=
  let! id := new_v4 E in
  let! wall := now_utc E in
  match hc_kind c with
  | Interval =>
      check (ok_or (hc_interval_seconds c) (internal "heartbeat interval candidate missing interval seconds")) (fun secs =>
      let n := heartbeat_interval g c granted id wall secs in
      or_internal E (creation_failure c)
        (tstmt E (fun now => if sqlite then insert_trigger_sqlite (interval_row (current_timestamp now) n)
                             else create_interval_trigger now n) (fun t => [TriggerCreated t])))
  | Cron =>
      check (ok_or (hc_cron_expression c) (internal "heartbeat cron candidate missing cron expression")) (fun expression =>
      let n := heartbeat_cron g c granted id expression in
      or_internal E (creation_failure c)
        (tstmt E (fun now => if sqlite then insert_trigger_sqlite (cron_row (current_timestamp now) wall n)
                             else create_cron_trigger sc jitter_hash wall now n) (fun t => [TriggerCreated t])))
  end.

Definition materialized_details (req : MaterializeHeartbeatRequest) (source : string) (actor : option Uuid)
    (cron_max_attempts : Z) (c : HeartbeatTriggerCandidate) : json :=
  jobject
    [("source", JStr source); ("line", Json.jint (hc_line c)); ("source_line", JStr (hc_source_line c));
     ("recipe_id", JStr (hc_recipe_id c)); ("approval_confirmed", JBool (mh_approval_confirmed req));
     ("approval_note", opt_json JStr (mh_approval_note req));
     ("approved_by_user_id", opt_json (fun u => JStr (env_uuid_text E u)) actor);
     ("cron_max_attempts", ApiTriggers.jint cron_max_attempts)].

Definition materialize_item (c : HeartbeatTriggerCandidate) (status : string) (trigger_id : option Uuid)
    : AgentHeartbeatMaterializeItemResponse :=
  {| mi_line := hc_line c; mi_kind := match hc_kind c with Interval => "interval" | Cron => "cron" end;
     mi_recipe_id := hc_recipe_id c; mi_interval_seconds := hc_interval_seconds c;
     mi_cron_expression := hc_cron_expression c; mi_timezone := hc_timezone c;
     mi_max_inflight_runs := hc_max_inflight_runs c; mi_jitter_seconds := hc_jitter_seconds c;
     mi_status := status; mi_trigger_id := trigger_id |}.

(** One candidate of a request that applies. *)
Definition apply_candidate (role : RolePreset) (g : heartbeat_grant) (details : HeartbeatTriggerCandidate -> json)
    (c : HeartbeatTriggerCandidate) : handler AgentHeartbeatMaterializeItemResponse :=
  andthen (find_existing_heartbeat_trigger_id (hg_tenant_id g) (hg_agent_id g) c) (fun existing =>
  match existing with
  | Some id => ret (Ok (materialize_item c "existing" (Some id)))
  | None =>
      andthen (ensure_tenant_trigger_capacity E tenant_max_triggers (hg_tenant_id g)) (fun _ =>
      check (resolve_granted_capabilities (hc_recipe_id c) role (hg_requested g)) (fun granted =>
      andthen (create_heartbeat_trigger g c granted) (fun created =>
      andthen (append_trigger_audit E (hg_tenant_id g) (t_id created) role "trigger.materialized" (details c)) (fun _ =>
        ret (Ok (materialize_item c "created" (Some (t_id created))))))))
  end).

Fixpoint apply_candidates (role : RolePreset) (g : heartbeat_grant) (details : HeartbeatTriggerCandidate -> json)
    (l : list HeartbeatTriggerCandidate) : handler (list AgentHeartbeatMaterializeItemResponse) :=
  match l with
  | [] => ret (Ok [])
  | c :: rest =>
      andthen (apply_candidate role g details c) (fun item =>
      andthen (apply_candidates role g details rest) (fun items => ret (Ok (item :: items))))
  end.

(** What is checked before the markdown is looked for. *)
Definition materialize_request (role : RolePreset) (actor : option Uuid) (tenant_id : string) (agent_id : Uuid)
    (req : MaterializeHeartbeatRequest) : ApiResult heartbeat_grant :=
  if mh_apply req && negb (mh_approval_confirmed req) then
    Err (forbidden "heartbeat materialization requires approval_confirmed=true")
  else if mh_apply req && negb (is_some actor) then
    Err (forbidden "heartbeat materialization requires x-user-id for approval attribution")
  else
    let cron_max_attempts := default 3 (mh_cron_max_attempts req) in
    if out_of 1 20 cron_max_attempts then Err (bad_request "cron_max_attempts must be between 1 and 20")
    else
      let? requested := normalize_requested_capabilities_payload (mh_requested_capabilities req) in
      let? user := if mh_apply req then resolve_trigger_actor_for_create role actor (mh_triggered_by_user_id req)
                   else Ok None in
      Ok {| hg_tenant_id := tenant_id; hg_agent_id := agent_id; hg_triggered_by_user_id := user;
            hg_input := normalize_materialization_input_payload (mh_input req); hg_requested := requested;
            hg_cron_max_attempts := cron_max_attempts |}.

(** Each counter counts the items of one status. *)
Definition count_status (status : string) (items : list AgentHeartbeatMaterializeItemResponse) : Z :=
  countb (fun i => String.eqb (mi_status i) status) items.

Definition materialize_response (req : MaterializeHeartbeatRequest) (g : heartbeat_grant) (actor : option Uuid)
    (src : heartbeat_source) (report : HeartbeatCompileReport) (items : list AgentHeartbeatMaterializeItemResponse)
    : AgentHeartbeatMaterializeResponse :=
  {| mr_tenant_id := hg_tenant_id g; mr_agent_id := hg_agent_id g; mr_source := hs_source src;
     mr_source_path := hs_source_path src; mr_context_aggregate_sha256 := hs_aggregate src;
     mr_context_summary_digest_sha256 := hs_summary src; mr_apply_requested := mh_apply req;
     mr_approval_confirmed := mh_approval_confirmed req; mr_approval_note := mh_approval_note req;
     mr_approved_by_user_id := actor; mr_cron_max_attempts := hg_cron_max_attempts g;
     mr_candidate_count := count (hr_candidates report); mr_issue_count := count (hr_issues report);
     mr_planned_count := count_status "planned" items; mr_created_count := count_status "created" items;
     mr_existing_count := count_status "existing" items; mr_candidates := items; mr_issues := hr_issues report |}.

Definition materialize_agent_heartbeat_handler (headers : HeaderMap) (agent_id : Uuid) (req : MaterializeHeartbeatRequest)
    : handler (Z * AgentHeartbeatMaterializeResponse) :=
  check (tenant_from_headers headers) (fun tenant_id =>
  check (role_from_headers state headers) (fun role =>
  check (ensure_trigger_mutation_role role) (fun _ =>
  check (user_id_from_headers parse_uuid state headers) (fun actor =>
  check (materialize_request role actor tenant_id agent_id req) (fun g =>
  andthen (heartbeat_source_of tenant_id agent_id (mh_heartbeat_markdown req)) (fun src =>
  let report := compile (hs_markdown src) in
  if mh_apply req && bool_decide (hr_issues report <> []) then
    fail (conflict "heartbeat compile produced issues; resolve issues before apply")
  else
    andthen (if mh_apply req
             then apply_candidates role g (materialized_details req (hs_source src) actor (hg_cron_max_attempts g))
                    (hr_candidates report)
             else ret (Ok (map (fun c => materialize_item c "planned" None) (hr_candidates report)))) (fun items =>
      ret (Ok (200, materialize_response req g actor src report items))))))))).
End api_context.
