(* ===== verification/ApiMemory.v ===== *)
(** The endpoints of the memory plane (api/src/lib.rs): the creation of records and of
    hand-off packets, their listings, the ranked retrieval, the statistics of the
    compaction and the purge.  Each has a PostgreSQL and a SQLite handler with the same
    body over the statements of its backend, which are the fields of a record here.  The
    parsers and printers of UUIDs, time stamps and JSON are arguments. *)
From Stdlib Require Import SpecFloat.
From stdpp Require Import pretty.
From S2P Require Import Prelude RustStr Json Redaction Policy ApiAuth Capabilities Sql Runs RunQueue MemoryTables MemoryRank Tables.
From S2P Require Import TriggerTables World Memory ApiRuns ApiTriggers ApiContext.

(** * Requests and answers *)

Record CreateMemoryRecordRequest := {
  cm_agent_id : Uuid; cm_run_id : option Uuid; cm_step_id : option Uuid; cm_memory_kind : string; cm_scope : string;
  cm_content_json : json; cm_summary_text : option string; cm_source : option string;
  cm_redaction_applied : option bool; cm_expires_at : option Z;
}.
Record CreateHandoffPacketRequest := {
  hp_to_agent_id : Uuid; hp_from_agent_id : option Uuid; hp_run_id : option Uuid; hp_step_id : option Uuid;
  hp_title : string; hp_payload_json : json; hp_source : option string; hp_expires_at : option Z;
}.
Record MemoryRecordQuery := {
  ml_limit : option Z; ml_agent_id : option Uuid; ml_memory_kind : option string; ml_scope_prefix : option string;
}.
Record HandoffPacketQuery := { hq_limit : option Z; hq_to_agent_id : option Uuid; hq_from_agent_id : option Uuid }.
Record MemoryRetrieveQuery := {
  rq_limit : option Z; rq_agent_id : option Uuid; rq_memory_kind : option string; rq_scope_prefix : option string;
  rq_query_text : option string; rq_min_score : option f64; rq_source_prefix : option string; rq_require_summary : option bool;
}.
Record MemoryCompactionStatsQuery := { sq_window_secs : option Z }.
Record PurgeMemoryRecordsRequest := { pq_as_of : option Z }.

Record MemoryRecordResponse := {
  mo_id : Uuid; mo_tenant_id : string; mo_agent_id : Uuid; mo_run_id : option Uuid; mo_step_id : option Uuid;
  mo_memory_kind : string; mo_scope : string; mo_content_json : json; mo_summary_text : option string; mo_source : string;
  mo_redaction_applied : bool; mo_expires_at : option Z; mo_created_at : Z; mo_updated_at : Z;
}.
Record HandoffPacketResponse := {
  ho_packet_id : Uuid; ho_memory_id : Uuid; ho_tenant_id : string; ho_from_agent_id : Uuid; ho_to_agent_id : Uuid;
  ho_run_id : option Uuid; ho_step_id : option Uuid; ho_scope : string; ho_title : string; ho_payload_json : json;
  ho_source : string; ho_redaction_applied : bool; ho_expires_at : option Z; ho_created_at : Z;
}.
Record MemoryCitation := {
  ci_memory_id : Uuid; ci_created_at : Z; ci_source : string; ci_memory_kind : string; ci_scope : string;
}.
Record MemoryRetrievalItem := {
  it_rank : Z; it_score : f64; it_citation : MemoryCitation; it_content_json : json; it_summary_text : option string;
}.
Record MemoryRetrieveResponse := {
  rr_tenant : string; rr_limit : Z; rr_retrieved_count : Z; rr_agent : option Uuid; rr_memory_kind : option string;
  rr_scope_prefix : option string; rr_query_text : option string; rr_min_score : option f64;
  rr_source_prefix : option string; rr_require_summary : bool; rr_items : list MemoryRetrievalItem;
}.
Record MemoryCompactionStatsResponse := {
  so_tenant_id : string; so_window_secs : option Z; so_since : option Z; so_compacted_groups_window : Z;
  so_compacted_source_records_window : Z; so_pending_uncompacted_records : Z; so_last_compacted_at : option Z;
}.

Definition memory_to_response (r : MemoryRecord) : MemoryRecordResponse :=
  let n := mm_new r in
  {| mo_id := nm_id n; mo_tenant_id := nm_tenant_id n; mo_agent_id := nm_agent_id n; mo_run_id := nm_run_id n;
     mo_step_id := nm_step_id n; mo_memory_kind := nm_memory_kind n; mo_scope := nm_scope n;
     mo_content_json := nm_content_json n; mo_summary_text := nm_summary_text n; mo_source := nm_source n;
     mo_redaction_applied := nm_redaction_applied n; mo_expires_at := nm_expires_at n; mo_created_at := mm_created_at r;
     mo_updated_at := mm_updated_at r |}.

Section packets.
Context (parse_uuid : string -> option Uuid) (uuid_text : Uuid -> string).

Definition uuid_field (key : string) (v : json) : option Uuid := get_str key v ≫= parse_uuid.

Definition handoff_packet_from_memory_record (r : MemoryRecord) : ApiResult HandoffPacketResponse :=
  let n := mm_new r in
  let content := nm_content_json n in
  let? from := ok_or (uuid_field "from_agent_id" content)
                 (internal ("handoff memory record " +:+ uuid_text (nm_id n) +:+ " missing from_agent_id")) in
  let title := match nm_summary_text n with Some s => Some s | None => get_str "title" content end in
  Ok {| ho_packet_id := default (nm_id n) (uuid_field "packet_id" content); ho_memory_id := nm_id n;
        ho_tenant_id := nm_tenant_id n; ho_from_agent_id := from;
        ho_to_agent_id := default (nm_agent_id n) (uuid_field "to_agent_id" content);
        ho_run_id := nm_run_id n; ho_step_id := nm_step_id n; ho_scope := nm_scope n; ho_title := default "handoff" title;
        ho_payload_json := default content (get "payload_json" content); ho_source := nm_source n;
        ho_redaction_applied := nm_redaction_applied n; ho_expires_at := nm_expires_at n; ho_created_at := mm_created_at r |}.

(** [.map(handoff_packet_from_memory_record).collect::<ApiResult<Vec<_>>>()] *)
Fixpoint packets_of (rows : list MemoryRecord) : ApiResult (list HandoffPacketResponse) :=
  match rows with
  | [] => Ok []
  | r :: rest =>
      let? p := handoff_packet_from_memory_record r in
      let? ps := packets_of rest in
      Ok (p :: ps)
  end.
End packets.

(** * Checks *)

Definition normalize_memory_kind (raw : string) : option string :=
  str_match (to_ascii_lowercase (trim raw))
    [(["session"], "session"); (["semantic"], "semantic"); (["procedural"], "procedural"); (["handoff"], "handoff")].

Definition bad_memory_kind : ApiError := bad_request "memory_kind must be one of: session, semantic, procedural, handoff".

(** The kind of a query, if it has one. *)
Definition query_kind (raw : option string) : ApiResult (option string) :=
  match raw with
  | None => Ok None
  | Some value => let? kind := ok_or (normalize_memory_kind value) bad_memory_kind in Ok (Some kind)
  end.

(** The prefix of a query, trimmed, if it has one. *)
Definition query_scope_prefix (raw : option string) : ApiResult (option string) :=
  let prefix := trimmed raw in
  if unless_null prefix (is_scope_allowed_for_capability "memory.read") then Ok prefix
  else Err (bad_request "scope_prefix must use memory scope prefix (`memory:`)").

Definition check_memory_scope (raw : string) : ApiResult string :=
  let scope := trim raw in
  if is_empty scope then Err (bad_request "scope must not be empty")
  else if negb (is_scope_allowed_for_capability "memory.write" scope)
  then Err (bad_request "scope must be memory-scoped (prefix `memory:`)")
  else Ok scope.

Definition memory_source (raw : option string) : string := default "api" (trimmed raw).

Definition tenant_memory_limited (lim count : Z) : ApiError :=
  {| api_status := 429; api_code := "TENANT_MEMORY_LIMITED";
     api_message := "tenant is at max memory record capacity (limit=" +:+ pretty lim +:+ ", active_records=" +:+
                    pretty count +:+ ")" |}.

(** [(0.0..=2.0).contains(&value)] *)
Definition in_score_range (value : f64) : bool := SFleb (f64_of 0) value && SFleb value (f64_of 2).

(** * The statements of a backend *)

Record MemoryBackend := {
  mb_count : Z -> string -> memory_tables -> Z;
  mb_create : Z -> NewMemoryRecord -> db -> result (db * MemoryRecord) db_error;
  mb_handoff_failed : string;
  mb_retrieve_failed : string;
  mb_list : Z -> string -> option Uuid -> option string -> option string -> Z -> memory_tables -> list MemoryRecord;
  mb_handoffs : Z -> string -> option Uuid -> option Uuid -> Z -> memory_tables -> list MemoryRecord;
  mb_stats : string -> option Z -> memory_tables -> result MemoryCompactionStatsRecord db_error;
  mb_impacts : string -> Z -> memory_tables -> list (Uuid * Z);
  mb_purge : string -> Z -> memory_tables -> memory_tables * MemoryPurgeOutcome;
}.

Definition pg_memory (uuid_text : Uuid -> string) (text : json -> string) (tmax : Z) : MemoryBackend :=
  let PE := PgEngine text tmax in
  {| mb_count := @count_active_memory PE; mb_create := create_memory_record;
     mb_handoff_failed := "failed creating handoff packet"; mb_retrieve_failed := "failed retrieving memory records";
     mb_list := list_tenant_memory_records text tmax;
     mb_handoffs := list_tenant_handoff_memory_records text tmax uuid_text;
     mb_stats := get_tenant_memory_compaction_stats text tmax;
     mb_impacts := @purge_run_impacts PE; mb_purge := purge_expired_tenant_memory_records text tmax |}.

Definition sqlite_memory (uuid_text : Uuid -> string) (SE : Engine) : MemoryBackend :=
  {| mb_count := @count_active_memory SE; mb_create := create_memory_record_sqlite;
     mb_handoff_failed := "failed creating memory record"; mb_retrieve_failed := "failed listing memory records";
     mb_list := list_tenant_memory_records_sqlite SE;
     mb_handoffs := list_tenant_handoff_memory_records_sqlite SE uuid_text;
     mb_stats := @memory_compaction_stats SE; mb_impacts := @purge_run_impacts SE;
     mb_purge := fun tenant_id as_of t => let '(t, n) := @purge_expired_memory_records SE tenant_id as_of t in
                   (t, {| po_tenant_id := tenant_id; po_deleted_count := n; po_as_of := as_of |}) |}.

Definition memory_backend (E : env) : MemoryBackend :=
  match env_pool E with
  | Postgres text tmax => pg_memory (env_uuid_text E) text tmax
  | Sqlite SE => sqlite_memory (env_uuid_text E) SE
  end.

(** * Handlers *)

Section api_memory.
Context {X : Type} (E : env) (B : MemoryBackend) (parse_uuid : string -> option Uuid) (json_to_string : json -> string).
Context (state : AuthState) (tenant_max_memory_records : option Z).
#[local] Abbreviation handler := (ApiRuns.handler (X := X)).

(** Tenant of a request that writes. *)
Definition memory_writer (headers : HeaderMap) : ApiResult string :=
  let? tenant_id := tenant_from_headers headers in
  let? role := role_from_headers state headers in
  let? _ := ensure_memory_write_role role in
  Ok tenant_id.

Definition ensure_tenant_memory_capacity (tenant_id : string) : handler unit :=
  match tenant_max_memory_records with
  | Some lim =>
      andthen (or_internal E "failed counting tenant memory records" (ask_memory E (fun now => mb_count B now tenant_id)))
        (fun count => if lim <=? count then fail (tenant_memory_limited lim count) else ret (Ok tt))
  | None => ret (Ok tt)
  end.

Definition count_steps (tenant_id : string) (run_id step_id : Uuid) (d : db) : Z :=
  countb (fun s => (st_id s =? step_id) && (st_run_id s =? run_id) && String.eqb (st_tenant_id s) tenant_id) (d_steps d).

Definition validate_run (tenant_id : string) (run_id : option Uuid) : handler unit :=
  match run_id with
  | None => ret (Ok tt)
  | Some id =>
      andthen (or_internal E "failed validating run_id" (db_get_run_status E tenant_id id)) (fun found =>
      check (ok_or found (bad_request "run_id is not found for this tenant")) (fun _ => ret (Ok tt)))
  end.

Definition validate_step (tenant_id : string) (run_id step_id : option Uuid) : handler unit :=
  match step_id with
  | None => ret (Ok tt)
  | Some step =>
      check (ok_or run_id (bad_request "step_id requires run_id for tenant validation")) (fun run =>
      andthen (or_internal E "failed validating step_id"
                 (stmt E (total (fun _ d => (d, count_steps tenant_id run step d))) (fun _ => [])))
        (fun n => if n =? 0 then fail (bad_request "step_id is not found for this tenant/run") else ret (Ok tt)))
  end.

Definition validate_memory_run_and_step (tenant_id : string) (run_id step_id : option Uuid) : handler unit :=
  andthen (validate_run tenant_id run_id) (fun _ => validate_step tenant_id run_id step_id).

Definition record_memory (what : string) (n : NewMemoryRecord) : handler MemoryRecord :=
  or_internal E what (stmt E (fun now => mb_create B now n) (fun _ => [MemoryRecorded n])).

(** The audit event of a record that belongs to a run. *)
Definition audit_memory (what event_type tenant_id : string) (created : MemoryRecord) (payload : list (string * json))
    : handler unit :=
  match nm_run_id (mm_new created) with
  | None => ret (Ok tt)
  | Some run_id =>
      let n := mm_new created in
      let! id := new_v4 E in
      or_internal E what
        (db_append_audit_event E
           {| ne_id := id; ne_run_id := run_id; ne_step_id := nm_step_id n; ne_tenant_id := tenant_id;
              ne_agent_id := Some (nm_agent_id n); ne_user_id := None; ne_actor := "api"; ne_event_type := event_type;
              ne_payload_json := jobject
                (("memory_id", JStr (env_uuid_text E (nm_id n))) :: payload ++
                 [("scope", JStr (nm_scope n)); ("redaction_applied", JBool (nm_redaction_applied n));
                  ("expires_at", opt_json (env_time_json E) (nm_expires_at n))]) |})
  end.

Definition new_memory (req : CreateMemoryRecordRequest) (tenant_id memory_kind scope : string) (id : Uuid) : NewMemoryRecord :=
  let '(content, summary, auto_applied) := redact_memory_content (cm_content_json req) (cm_summary_text req) in
  {| nm_id := id; nm_tenant_id := tenant_id; nm_agent_id := cm_agent_id req; nm_run_id := cm_run_id req;
     nm_step_id := cm_step_id req; nm_memory_kind := memory_kind; nm_scope := scope; nm_content_json := content;
     nm_summary_text := summary; nm_source := memory_source (cm_source req);
     nm_redaction_applied := default false (cm_redaction_applied req) || auto_applied; nm_expires_at := cm_expires_at req |}.

Definition create_memory_record_with (headers : HeaderMap) (req : CreateMemoryRecordRequest)
    : handler (Z * MemoryRecordResponse) :=
  check (memory_writer headers) (fun tenant_id =>
  andthen (ensure_tenant_memory_capacity tenant_id) (fun _ =>
  check (ok_or (normalize_memory_kind (cm_memory_kind req)) bad_memory_kind) (fun memory_kind =>
  check (check_memory_scope (cm_scope req)) (fun scope =>
  andthen (validate_memory_run_and_step tenant_id (cm_run_id req) (cm_step_id req)) (fun _ =>
  let! id := new_v4 E in
  andthen (record_memory "failed creating memory record" (new_memory req tenant_id memory_kind scope id)) (fun created =>
  andthen (audit_memory "failed appending memory audit event" "memory.recorded" tenant_id created
             [("memory_kind", JStr (nm_memory_kind (mm_new created)))]) (fun _ =>
    ret (Ok (201, memory_to_response created))))))))).

(** ** Hand-off packets *)

Definition handoff_scope (to_agent_id packet_id : Uuid) : string :=
  "memory:handoff/" +:+ env_uuid_text E to_agent_id +:+ "/" +:+ env_uuid_text E packet_id.

Definition new_handoff (req : CreateHandoffPacketRequest) (tenant_id title : string) (packet_id id : Uuid) : NewMemoryRecord :=
  let '(payload, redacted_title, auto_applied) := redact_memory_content (hp_payload_json req) (Some title) in
  let title_value := default title redacted_title in
  {| nm_id := id; nm_tenant_id := tenant_id; nm_agent_id := hp_to_agent_id req; nm_run_id := hp_run_id req;
     nm_step_id := hp_step_id req; nm_memory_kind := "handoff"; nm_scope := handoff_scope (hp_to_agent_id req) packet_id;
     nm_content_json := jobject
       [("packet_id", JStr (env_uuid_text E packet_id));
        ("from_agent_id", JStr (env_uuid_text E (default (hp_to_agent_id req) (hp_from_agent_id req))));
        ("to_agent_id", JStr (env_uuid_text E (hp_to_agent_id req))); ("title", JStr title_value); ("payload_json", payload)];
     nm_summary_text := Some title_value; nm_source := memory_source (hp_source req);
     nm_redaction_applied := auto_applied; nm_expires_at := hp_expires_at req |}.

Definition create_handoff_packet_with (headers : HeaderMap) (req : CreateHandoffPacketRequest)
    : handler (Z * HandoffPacketResponse) :=
  check (memory_writer headers) (fun tenant_id =>
  andthen (ensure_tenant_memory_capacity tenant_id) (fun _ =>
  let title := trim (hp_title req) in
  if is_empty title then fail (bad_request "title must not be empty")
  else
    andthen (validate_memory_run_and_step tenant_id (hp_run_id req) (hp_step_id req)) (fun _ =>
    let! packet_id := new_v4 E in
    let! id := new_v4 E in
    andthen (record_memory (mb_handoff_failed B) (new_handoff req tenant_id title packet_id id)) (fun created =>
    andthen (audit_memory "failed appending handoff memory audit event" "memory.handoff.recorded" tenant_id created
               [("packet_id", JStr (env_uuid_text E packet_id));
                ("from_agent_id", JStr (env_uuid_text E (default (hp_to_agent_id req) (hp_from_agent_id req))));
                ("to_agent_id", JStr (env_uuid_text E (hp_to_agent_id req)))]) (fun _ =>
    check (handoff_packet_from_memory_record parse_uuid (env_uuid_text E) created) (fun packet => ret (Ok (201, packet)))))))).

Definition list_handoff_packets_with (headers : HeaderMap) (query : HandoffPacketQuery)
    : handler (Z * list HandoffPacketResponse) :=
  check (context_reader state headers) (fun tenant_id =>
  let lim := clamp 1 1000 (default 100 (hq_limit query)) in
  andthen (or_internal E "failed listing handoff packets"
             (ask_memory E (fun now => mb_handoffs B now tenant_id (hq_to_agent_id query) (hq_from_agent_id query) lim))) (fun rows =>
  check (packets_of parse_uuid (env_uuid_text E) rows) (fun body => ret (Ok (200, body))))).

(** ** Queries *)

Definition list_memory_records_with (headers : HeaderMap) (query : MemoryRecordQuery)
    : handler (Z * list MemoryRecordResponse) :=
  check (context_reader state headers) (fun tenant_id =>
  let lim := clamp 1 1000 (default 100 (ml_limit query)) in
  check (query_kind (ml_memory_kind query)) (fun memory_kind =>
  check (query_scope_prefix (ml_scope_prefix query)) (fun scope_prefix =>
  andthen (or_internal E "failed listing memory records"
             (ask_memory E (fun now => mb_list B now tenant_id (ml_agent_id query) memory_kind scope_prefix lim))) (fun rows =>
    ret (Ok (200, map memory_to_response rows)))))).

Definition retrieval_item (i : nat) (x : MemoryRecord * f64) : MemoryRetrievalItem :=
  let n := mm_new x.1 in
  {| it_rank := Z.of_nat i + 1; it_score := x.2;
     it_citation := {| ci_memory_id := nm_id n; ci_created_at := mm_created_at x.1; ci_source := nm_source n;
                       ci_memory_kind := nm_memory_kind n; ci_scope := nm_scope n |};
     it_content_json := nm_content_json n; it_summary_text := nm_summary_text n |}.

(** The candidates that the query keeps. *)
Definition retrievable (source_prefix : option string) (require_summary : bool) (r : MemoryRecord) : bool :=
  unless_null source_prefix (fun p => starts_with p (nm_source (mm_new r))) &&
  (negb require_summary || has_text (nm_summary_text (mm_new r))).

Definition retrieve_memory_with (headers : HeaderMap) (query : MemoryRetrieveQuery) : handler (Z * MemoryRetrieveResponse) :=
  check (context_reader state headers) (fun tenant_id =>
  let lim := clamp 1 200 (default 20 (rq_limit query)) in
  check (query_kind (rq_memory_kind query)) (fun memory_kind =>
  check (query_scope_prefix (rq_scope_prefix query)) (fun scope_prefix =>
  let query_text := trimmed (rq_query_text query) in
  let min_score := rq_min_score query in
  if negb (unless_null min_score in_score_range) then fail (bad_request "min_score must be between 0.0 and 2.0")
  else
    let source_prefix := trimmed (rq_source_prefix query) in
    let require_summary := default false (rq_require_summary query) in
    let candidate_limit :=
      if is_some query_text || is_some min_score || is_some source_prefix || require_summary then clamp 1 1000 (lim * 5) else lim in
    andthen (or_internal E (mb_retrieve_failed B)
               (ask_memory E (fun now => mb_list B now tenant_id (rq_agent_id query) memory_kind scope_prefix candidate_limit))) (fun rows =>
    let filtered := List.filter (retrievable source_prefix require_summary) rows in
    let tokens := default [] (tokenize_retrieval_query <$> query_text) in
    let items := imap retrieval_item (rank_memory json_to_string tokens min_score lim filtered) in
      ret (Ok (200,
        {| rr_tenant := tenant_id; rr_limit := lim; rr_retrieved_count := Z.of_nat (length items); rr_agent := rq_agent_id query;
           rr_memory_kind := memory_kind; rr_scope_prefix := scope_prefix; rr_query_text := query_text;
           rr_min_score := f64_clamp (f64_of 0) (f64_of 2) <$> min_score; rr_source_prefix := source_prefix;
           rr_require_summary := require_summary; rr_items := items |})))))).

Definition get_memory_compaction_stats_with (headers : HeaderMap) (query : MemoryCompactionStatsQuery)
    : handler (Z * MemoryCompactionStatsResponse) :=
  check (context_reader state headers) (fun tenant_id =>
  let window_secs := clamp 1 31536000 <$> sq_window_secs query in
  let! now := now_utc E in
  let since := (fun seconds => now - seconds * second) <$> window_secs in
  andthen (or_internal E "failed querying memory compaction stats"
             (stmt E (fun _ d => let? r := mb_stats B tenant_id since (d_memory d) in Ok (d, r)) (fun _ => []))) (fun stats =>
    ret (Ok (200,
      {| so_tenant_id := tenant_id; so_window_secs := window_secs; so_since := since;
         so_compacted_groups_window := cs_compacted_groups_window stats;
         so_compacted_source_records_window := cs_compacted_source_records_window stats;
         so_pending_uncompacted_records := cs_pending_uncompacted_records stats;
         so_last_compacted_at := cs_last_compacted_at stats |})))).

(** ** The purge *)

Fixpoint audit_purge (tenant_id : string) (as_of deleted : Z) (impacts : list (Uuid * Z)) : handler unit :=
  match impacts with
  | [] => ret (Ok tt)
  | (run_id, count) :: rest =>
      if count <=? 0 then audit_purge tenant_id as_of deleted rest
      else
        andthen (or_internal E "failed loading run for memory purge audit" (db_get_run_status E tenant_id run_id)) (fun found =>
        match found with
        | None => audit_purge tenant_id as_of deleted rest
        | Some r =>
            let! id := new_v4 E in
            andthen (or_internal E "failed appending memory.purged audit event"
              (db_append_audit_event E
                 {| ne_id := id; ne_run_id := run_id; ne_step_id := None; ne_tenant_id := tenant_id;
                    ne_agent_id := Some (r_agent_id r); ne_user_id := r_triggered_by_user_id r; ne_actor := "api";
                    ne_event_type := "memory.purged";
                    ne_payload_json := jobject
                      [("as_of", env_time_json E as_of); ("run_deleted_count", jint count);
                       ("tenant_deleted_count", jint deleted)] |}))
              (fun _ => audit_purge tenant_id as_of deleted rest)
        end)
  end.

Definition purge_owner (headers : HeaderMap) : ApiResult string :=
  let? tenant_id := tenant_from_headers headers in
  let? role := role_from_headers state headers in
  let? _ := ensure_owner_role role "only owner can purge memory records" in
  Ok tenant_id.

Definition purge_memory_records_with (headers : HeaderMap) (req : PurgeMemoryRecordsRequest)
    : handler (Z * MemoryPurgeOutcome) :=
  check (purge_owner headers) (fun tenant_id =>
  let! wall := now_utc E in
  let as_of := default wall (pq_as_of req) in
  andthen (or_internal E "failed loading memory purge run impacts" (ask_memory E (fun _ => mb_impacts B tenant_id as_of))) (fun impacts =>
  andthen (or_internal E "failed purging memory records"
             (on_memory E (fun _ => mb_purge B tenant_id as_of)
                (fun o => [MemoriesPurged tenant_id as_of (po_deleted_count o)]))) (fun outcome =>
  andthen (audit_purge tenant_id as_of (po_deleted_count outcome) impacts) (fun _ => ret (Ok (200, outcome)))))).
End api_memory.

(** * The handlers of each backend *)

Section routes.
Context {X : Type} (E : env) (parse_uuid : string -> option Uuid) (json_to_string : json -> string).
Context (state : AuthState) (tenant_max_memory_records : option Z) (headers : HeaderMap).
#[local] Abbreviation handler := (ApiRuns.handler (X := X)).

Section postgres.
Context (text : json -> string) (tmax : Z).
#[local] Abbreviation B := (pg_memory (env_uuid_text E) text tmax).

Definition create_memory_record_handler : CreateMemoryRecordRequest -> handler (Z * MemoryRecordResponse) :=
  create_memory_record_with E B state tenant_max_memory_records headers.
Definition create_handoff_packet_handler : CreateHandoffPacketRequest -> handler (Z * HandoffPacketResponse) :=
  create_handoff_packet_with E B parse_uuid state tenant_max_memory_records headers.
Definition list_handoff_packets_handler : HandoffPacketQuery -> handler (Z * list HandoffPacketResponse) :=
  list_handoff_packets_with E B parse_uuid state headers.
Definition list_memory_records_handler : MemoryRecordQuery -> handler (Z * list MemoryRecordResponse) :=
  list_memory_records_with E B state headers.
Definition retrieve_memory_handler : MemoryRetrieveQuery -> handler (Z * MemoryRetrieveResponse) :=
  retrieve_memory_with E B json_to_string state headers.
Definition get_memory_compaction_stats_handler : MemoryCompactionStatsQuery -> handler (Z * MemoryCompactionStatsResponse) :=
  get_memory_compaction_stats_with E B state headers.
Definition purge_memory_records_handler : PurgeMemoryRecordsRequest -> handler (Z * MemoryPurgeOutcome) :=
  purge_memory_records_with E B state headers.
End postgres.

Section sqlite.
Context (SE : Engine).
#[local] Abbreviation B := (sqlite_memory (env_uuid_text E) SE).

Definition create_memory_record_sqlite_handler : CreateMemoryRecordRequest -> handler (Z * MemoryRecordResponse) :=
  create_memory_record_with E B state tenant_max_memory_records headers.
Definition create_handoff_packet_sqlite_handler : CreateHandoffPacketRequest -> handler (Z * HandoffPacketResponse) :=
  create_handoff_packet_with E B parse_uuid state tenant_max_memory_records headers.
Definition list_handoff_packets_sqlite_handler : HandoffPacketQuery -> handler (Z * list HandoffPacketResponse) :=
  list_handoff_packets_with E B parse_uuid state headers.
Definition list_memory_records_sqlite_handler : MemoryRecordQuery -> handler (Z * list MemoryRecordResponse) :=
  list_memory_records_with E B state headers.
Definition retrieve_memory_sqlite_handler : MemoryRetrieveQuery -> handler (Z * MemoryRetrieveResponse) :=
  retrieve_memory_with E B json_to_string state headers.
Definition get_memory_compaction_stats_sqlite_handler : MemoryCompactionStatsQuery -> handler (Z * MemoryCompactionStatsResponse) :=
  get_memory_compaction_stats_with E B state headers.
Definition purge_memory_records_sqlite_handler : PurgeMemoryRecordsRequest -> handler (Z * MemoryPurgeOutcome) :=
  purge_memory_records_with E B state headers.
End sqlite.

(** The handler of the backend the process is connected to. *)
Definition on_backend {A} (pg : (json -> string) -> Z -> A) (sqlite : Engine -> A) : A :=
  match env_pool E with Postgres text tmax => pg text tmax | Sqlite SE => sqlite SE end.

Lemma on_backend_memory {A} (f : MemoryBackend -> A) :
  on_backend (fun text tmax => f (pg_memory (env_uuid_text E) text tmax)) (fun SE => f (sqlite_memory (env_uuid_text E) SE)) =
  f (memory_backend E).
Proof. unfold on_backend, memory_backend. by destruct (env_pool E). Qed.
End routes.
