(* ===== verification/Api.v ===== *)
(** The router of the API (api/src/lib.rs, [app_router_with_all_limits] and
    [app_router_sqlite_with_all_limits]) for the requests on runs, on triggers, on
    their events, on agent contexts and on the memory plane: which handler serves a request on which backend. *)
From S2P Require Import Prelude RustStr Json ApiAuth Sql Runs RunQueue Tables TriggerTables TriggerDispatch.
From S2P Require Import World ApiRuns ApiTriggers ApiContext ApiMemory.

(** The state the handlers share, the code outside the program they call, and what
    other processes do to the files. *)
Record ApiConfig := {
  ap_auth : AuthState; ap_tenant_max_inflight_runs : option Z; ap_tenant_max_triggers : option Z;
  ap_tenant_max_memory_records : option Z;
  ap_schedules : schedules; ap_jitter_hash : Uuid -> Z -> Z; ap_to_vec : json -> string;
  ap_sha256_hex : string -> string; ap_parse_uuid : string -> option Uuid;
  ap_resolve_secret : string -> result (option string) string;
  ap_context : ContextState; ap_context_calls : ContextCalls; ap_files : files_env;
}.

Inductive api_request :=
| CreateRun (req : CreateRunRequest)
| GetRun (run_id : Uuid)
| CreateTrigger (req : CreateTriggerRequest)
| CreateCronTrigger (req : CreateCronTriggerRequest)
| CreateWebhookTrigger (req : CreateWebhookTriggerRequest)
| UpdateTrigger (trigger_id : Uuid) (req : UpdateTriggerRequest)
| EnableTrigger (trigger_id : Uuid)
| DisableTrigger (trigger_id : Uuid)
| IngestEvent (trigger_id : Uuid) (req : TriggerEventRequest)
| ReplayEvent (trigger_id : Uuid) (event_id : string)
| FireTrigger (trigger_id : Uuid) (req : FireTriggerRequest)
| GetAgentContext (agent_id : Uuid)
| MutateAgentContext (agent_id : Uuid) (req : MutateAgentContextRequest)
| GetAgentBootstrap (agent_id : Uuid)
| CompleteAgentBootstrap (agent_id : Uuid) (req : CompleteBootstrapRequest)
| CompileAgentHeartbeat (agent_id : Uuid) (req : CompileHeartbeatRequest)
| MaterializeAgentHeartbeat (agent_id : Uuid) (req : MaterializeHeartbeatRequest)
| CreateMemoryRecord (req : CreateMemoryRecordRequest)
| CreateHandoffPacket (req : CreateHandoffPacketRequest)
| ListHandoffPackets (query : HandoffPacketQuery)
| ListMemoryRecords (query : MemoryRecordQuery)
| RetrieveMemory (query : MemoryRetrieveQuery)
| GetMemoryCompactionStats (query : MemoryCompactionStatsQuery)
| PurgeMemoryRecords (req : PurgeMemoryRecordsRequest).

Section api.
Context {X : Type} `{FH : FileHost X} (E : env) (ac : ApiConfig).
#[local] Abbreviation handler := (ApiRuns.handler (X := X)).
#[local] Abbreviation sqlite := (on_sqlite (env_pool E)).

(** The status code of the answer. *)
Definition answer_code {A} (m : handler (Z * A)) : handler Z := andthen m (fun a => ret (Ok a.1)).

Definition create_interval := create_trigger_handler (X := X) E (ap_parse_uuid ac) (ap_auth ac) (ap_tenant_max_triggers ac).
Definition create_cron := create_cron_trigger_handler (X := X) E (ap_schedules ac) (ap_jitter_hash ac)
  (ap_parse_uuid ac) (ap_auth ac) (ap_tenant_max_triggers ac).
Definition create_webhook := create_webhook_trigger_handler (X := X) E (ap_parse_uuid ac) (ap_auth ac)
  (ap_tenant_max_triggers ac).

Definition serve (headers : HeaderMap) (request : api_request) : handler Z :=
  match request with
  | CreateRun req =>
      answer_code (create_run_handler E (ap_to_vec ac) (ap_sha256_hex ac) (ap_auth ac)
                     (ap_tenant_max_inflight_runs ac) headers req)
  | GetRun run_id => answer_code (get_run_handler E headers run_id)
  | CreateTrigger req => answer_code (create_interval headers req)
  | CreateCronTrigger req => answer_code (create_cron headers req)
  | CreateWebhookTrigger req => answer_code (create_webhook headers req)
  | UpdateTrigger id req =>
      answer_code (update_trigger_handler E (ap_schedules ac) (ap_jitter_hash ac) (ap_parse_uuid ac)
                     (ap_auth ac) headers id req)
  | EnableTrigger id => answer_code (enable_trigger_handler E (ap_parse_uuid ac) (ap_auth ac) headers id)
  | DisableTrigger id => answer_code (disable_trigger_handler E (ap_parse_uuid ac) (ap_auth ac) headers id)
  | IngestEvent id req =>
      answer_code (ingest_trigger_event_handler E (ap_to_vec ac) (ap_sha256_hex ac) (ap_resolve_secret ac)
                     headers id req)
  | ReplayEvent id event_id =>
      answer_code ((if sqlite then replay_trigger_event_sqlite_handler else replay_trigger_event_handler)
                     E (ap_parse_uuid ac) (ap_auth ac) headers id event_id)
  | FireTrigger id req =>
      answer_code ((if sqlite then fire_trigger_sqlite_handler else fire_trigger_handler)
                     E (ap_parse_uuid ac) (ap_auth ac) headers id req)
  | GetAgentContext id =>
      answer_code (get_agent_context_handler E (ap_files ac) (ap_context ac) (ap_context_calls ac) (ap_auth ac) headers id)
  | MutateAgentContext id req =>
      answer_code (mutate_agent_context_handler E (ap_files ac) (ap_context ac) (ap_context_calls ac) (ap_auth ac)
                     headers id req)
  | GetAgentBootstrap id =>
      answer_code (get_agent_bootstrap_handler E (ap_files ac) (ap_context ac) (ap_context_calls ac) (ap_parse_uuid ac)
                     (ap_auth ac) headers id)
  | CompleteAgentBootstrap id req =>
      answer_code (complete_agent_bootstrap_handler E (ap_files ac) (ap_context ac) (ap_context_calls ac)
                     (ap_parse_uuid ac) (ap_auth ac) headers id req)
  | CompileAgentHeartbeat id req =>
      answer_code (compile_agent_heartbeat_handler E (ap_files ac) (ap_context ac) (ap_context_calls ac) (ap_auth ac)
                     headers id req)
  | MaterializeAgentHeartbeat id req =>
      answer_code (materialize_agent_heartbeat_handler E (ap_files ac) (ap_context ac) (ap_context_calls ac)
                     (ap_schedules ac) (ap_jitter_hash ac) (ap_parse_uuid ac) (ap_auth ac) (ap_tenant_max_triggers ac)
                     headers id req)
  | CreateMemoryRecord req =>
      answer_code (on_backend E (create_memory_record_handler E (ap_auth ac) (ap_tenant_max_memory_records ac) headers)
                     (create_memory_record_sqlite_handler E (ap_auth ac) (ap_tenant_max_memory_records ac) headers) req)
  | CreateHandoffPacket req =>
      answer_code (on_backend E (create_handoff_packet_handler E (ap_parse_uuid ac) (ap_auth ac) (ap_tenant_max_memory_records ac) headers)
                     (create_handoff_packet_sqlite_handler E (ap_parse_uuid ac) (ap_auth ac) (ap_tenant_max_memory_records ac) headers) req)
  | ListHandoffPackets query =>
      answer_code (on_backend E (list_handoff_packets_handler E (ap_parse_uuid ac) (ap_auth ac) headers)
                     (list_handoff_packets_sqlite_handler E (ap_parse_uuid ac) (ap_auth ac) headers) query)
  | ListMemoryRecords query =>
      answer_code (on_backend E (list_memory_records_handler E (ap_auth ac) headers)
                     (list_memory_records_sqlite_handler E (ap_auth ac) headers) query)
  | RetrieveMemory query =>
      answer_code (on_backend E (retrieve_memory_handler E (ap_to_vec ac) (ap_auth ac) headers)
                     (retrieve_memory_sqlite_handler E (ap_to_vec ac) (ap_auth ac) headers) query)
  | GetMemoryCompactionStats query =>
      answer_code (on_backend E (get_memory_compaction_stats_handler E (ap_auth ac) headers)
                     (get_memory_compaction_stats_sqlite_handler E (ap_auth ac) headers) query)
  | PurgeMemoryRecords req =>
      answer_code (on_backend E (purge_memory_records_handler E (ap_auth ac) headers)
                     (purge_memory_records_sqlite_handler E (ap_auth ac) headers) req)
  end.
End api.
