(* ===== verification/ApiTriggerProps.v ===== *)
(** Theorems about the endpoints of triggers: what a creation grants and to whom,
    who may change, replay or fire a trigger, and that a manual key of SQLite can
    stand in the way of an event. *)
From stdpp Require Import pretty.
From S2P Require Import Prelude RustStr Json Policy ApiAuth Capabilities Sql Runs RunQueue LlmTables Tables.
From S2P Require Import TriggerTables TriggerDispatch TriggerSpec TriggerProps TriggerLedger TriggerClaims.
From S2P Require Import AgentContext World ApiRuns ApiRunProps ApiTriggers ApiContext Api.

(** * Rules *)

Section rules.
Context {X : Type} (E : env).

Lemma only_check {A B} P (r : ApiResult A) (k : A -> handler (X := X) B) :
  (forall a, r = Ok a -> only P (k a)) -> only P (check r k).
Proof. intros Hk. destruct r; cbn [check]; [by apply Hk|apply only_ret]. Qed.

Lemma only_andthen {A B} P (m : handler (X := X) A) (k : A -> handler B) :
  only P m -> (forall a, only P (k a)) -> only P (andthen m k).
Proof. intros Hm Hk. apply only_bind; [done|]. intros r _. apply only_check. auto. Qed.

Lemma only_or_internal {A} P what (m : M X A) : only P m -> only P (or_internal E what m).
Proof. intros Hm. apply only_try; [done|]. intros r. apply only_ret. Qed.

(** What a call on the trigger tables logs is about a value it computed. *)
Lemma only_tstmt {A} P (f : Z -> tdb -> result (tdb * A) db_error) log :
  (forall now s s' a, f now s = Ok (s', a) -> Forall P (log a)) -> only P (tstmt (X := X) E f log).
Proof.
  intros Hf. eapply only_emits; [apply emits_stmt_value|]. cbn beta.
  assert (forall a now d d', (let? (s, a) := f now (trigger_db d) in Ok (with_trigger_db d s, a)) = Ok (d', a) ->
    Forall P (log a)) as H.
  { intros a now d d' F. destruct (f now (trigger_db d)) as [[s a']|] eqn:Ef; [|done].
    injection F as _ <-. by eapply Hf. }
  intros [a|e] j; [intros [-> (now & d & d' & F)]|intros [->|(a & -> & now & d & d' & F)]]; eauto.
Qed.

Lemma only_tquery {A} P (f : tdb -> A) : only P (tquery (X := X) E f).
Proof. apply only_tstmt. by intros. Qed.

Lemma only_now_utc P : only P (now_utc (X := X) E).
Proof. intros w. exists []. unfold appends. cbn. by rewrite app_nil_r. Qed.

Lemma only_answer_code {A} P (m : handler (X := X) (Z * A)) : only P m -> only P (answer_code m).
Proof. intros Hm. apply only_andthen; [done|]. intros a. apply only_ret. Qed.

Lemma answers_tstmt {A} what (f : Z -> tdb -> result (tdb * A) db_error) log :
  answers (or_internal E what (tstmt (X := X) E f log)) (fun r j =>
    match r with
    | Ok a => j = log a /\ exists now s s', f now s = Ok (s', a)
    | Err _ => j = [] \/ exists a, j = log a /\ exists now s s', f now s = Ok (s', a)
    end).
Proof.
  eapply answers_weaken; [apply answers_stmt|]. cbn beta.
  assert (forall a now d d', (let? (s, a) := f now (trigger_db d) in Ok (with_trigger_db d s, a)) = Ok (d', a) ->
    exists now s s', f now s = Ok (s', a)) as H.
  { intros a now d d' F. destruct (f now (trigger_db d)) as [[s a']|] eqn:Ef; [|done].
    injection F as _ <-. eauto. }
  intros [a|e] j; [intros [-> (now & d & d' & F)]|intros [->|(a & -> & now & d & d' & F)]]; eauto 10.
Qed.

Lemma answers_tquery {A} what (f : tdb -> A) :
  answers (or_internal E what (tquery (X := X) E f)) (fun r j => j = [] /\ forall a, r = Ok a -> exists s, a = f s).
Proof.
  eapply answers_weaken; [apply answers_tstmt|]. cbn beta.
  intros [a|e] j; [intros [-> (now & s & s' & [= _ <-])]|by intros [->|(a & -> & _)]].
  split; [done|]. intros ? [= <-]. eauto.
Qed.

Lemma answers_now {A} (k : Z -> handler A) T :
  (forall t, answers (k t) T) -> answers (bind (now_utc (X := X) E) k) T.
Proof. intros Hk w. exact (Hk _ w). Qed.
End rules.

#[export] Hint Resolve only_tquery only_now_utc : agnt.

(** * Creation *)

Lemma insert_trigger_row t s s' r : insert_trigger t s = Ok (s', r) -> r = t.
Proof.
  unfold insert_trigger, ensure. destruct (negb _); [|done]. destruct (_ && _); [|done]. by intros [= _ <-].
Qed.

Section creation.
Context {X : Type} (E : env) (ac : ApiConfig).
#[local] Abbreviation handler := (ApiRuns.handler (X := X)).

(** What an accepted request says of the row. *)
Definition row_of_request (tenant : string) (agent : Uuid) (user : option Uuid) (recipe : string)
    (granted : json) (t : TriggerRecord) : Prop :=
  t_tenant_id t = tenant /\ t_agent_id t = agent /\ t_triggered_by_user_id t = user /\
  t_recipe_id t = recipe /\ t_granted_capabilities t = granted /\ t_status t = "enabled".

(** A creation inserts one row, and answers it or one with its identifier. *)
Definition inserts (ok : TriggerRecord -> Prop) (r : ApiResult TriggerRecord) (j : list effect) : Prop :=
  match r with
  | Ok created => exists t, j = [TriggerCreated t] /\ ok t /\ t_id created = t_id t
  | Err _ => j = [] \/ exists t, j = [TriggerCreated t] /\ ok t
  end.

Lemma insert_answers what (f : Z -> tdb -> result (tdb * TriggerRecord) db_error) (ok : TriggerRecord -> Prop) :
  (forall now s s' t, f now s = Ok (s', t) -> ok t) ->
  answers (or_internal E what (tstmt (X := X) E f (fun t => [TriggerCreated t]))) (inserts ok).
Proof.
  intros Hf. eapply answers_weaken; [apply answers_tstmt|]. cbn beta.
  intros [t|e] j; cbn; [intros [-> (now & s & s' & F)]|intros [->|(t & -> & now & s & s' & F)]]; eauto 10.
Qed.

Lemma create_and_reload_answers what tenant id row (ok : TriggerRecord -> Prop) :
  (forall now, ok (row now) /\ t_id (row now) = id) ->
  answers (create_and_reload_sqlite (X := X) E what tenant id row) (inserts ok).
Proof.
  intros Hrow. unfold create_and_reload_sqlite. eapply answers_weaken.
  - apply answers_andthen; [apply insert_answers with (ok := fun t => ok t /\ t_id t = id)|intros u].
    + intros now s s' t F. unfold insert_trigger_sqlite, ensure in F. destruct (trigger_row_ok _); [|done].
      by apply insert_trigger_row in F as ->.
    + apply answers_andthen; [apply answers_tquery|intros found].
      apply (answers_check _ _ (fun r j => j = [] /\ forall t, r = Ok t -> found = Some t)).
      * intros t Ht. eapply answers_weaken; [apply answers_ret|]. intros r j [-> ->].
        split; [done|]. intros ? [= <-]. by destruct found; [injection Ht as ->|].
      * by intros e _.
  - cbn beta. unfold inserts.
    intros r j [(e & -> & [->|(t & -> & Hok & _)])|(u & j1 & j2 & -> & (t & -> & [Hok Hid] & Hu) & Hr)].
    + by left.
    + right. eauto.
    + destruct Hr as [(e & -> & -> & _)|(found & j3 & j4 & -> & [-> Hf] & -> & Ht)].
      * right. eauto.
      * destruct r as [t'|e]; [|right; eauto]. exists t. split_and!; [done|done|].
        destruct (Hf _ eq_refl) as [s Hs]. rewrite (Ht _ eq_refl) in Hs. symmetry in Hs.
        apply find_some in Hs as [_ Ho]. unfold owned_trigger in Ho. bool_hyps. congruence.
Qed.

(** What a creation leaves in the journal: nothing, or the row, or the row and its
    audit event; only the last is answered with [201]. *)
Definition creation_journal (tenant : string) (ok : TriggerRecord -> Prop) (succeeded : bool) (j : list effect) : Prop :=
  (j = [] /\ succeeded = false) \/
  exists t, ok t /\
    ((j = [TriggerCreated t] /\ succeeded = false) \/
     exists n, j = [TriggerCreated t; TriggerAudited n] /\ nt_tenant_id n = tenant /\
               nt_trigger_id n = t_id t /\ nt_event_type n = "trigger.created").

Lemma answer_created_answers tenant role details t :
  answers (answer_created (X := X) E tenant role details t) (fun r j =>
    (j = [] /\ is_ok r = false) \/
    exists n, j = [TriggerAudited n] /\ nt_tenant_id n = tenant /\ nt_trigger_id n = t_id t /\
              nt_event_type n = "trigger.created").
Proof.
  unfold answer_created, append_trigger_audit. eapply answers_weaken.
  - apply answers_andthen; [|intros u; apply answers_ret].
    apply answers_new_v4. intros id. eapply answers_weaken; [apply answers_tstmt|].
    instantiate (1 := fun r j => (j = [] /\ is_ok r = false) \/
      exists n, j = [TriggerAudited n] /\ nt_tenant_id n = tenant /\ nt_trigger_id n = t_id t /\
                nt_event_type n = "trigger.created").
    cbn beta. intros [u|e] j; [intros [-> _]|intros [->|(u & -> & _)]]; [right|by left|right]; by eexists.
  - cbn beta. intros r j [(e & -> & H)|(u & j1 & j2 & -> & H & -> & ->)]; [done|].
    rewrite app_nil_r. destruct H as [[_ ?]|H]; [done|by right].
Qed.

Lemma create_with_answers headers agent recipe requested_user requested details
    (k : string -> option Uuid -> json -> handler TriggerRecord) :
  (forall tenant user granted,
     answers (k tenant user granted) (inserts (row_of_request tenant agent user recipe granted))) ->
  answers (create_with E (ap_parse_uuid ac) (ap_auth ac) (ap_tenant_max_triggers ac) headers recipe
             requested_user requested details k) (fun r j =>
    (j = [] /\ is_ok r = false) \/
    exists tenant role actor user granted,
      trigger_caller (ap_parse_uuid ac) (ap_auth ac) headers = Ok (tenant, role, actor) /\
      resolve_trigger_actor_for_create role actor requested_user = Ok user /\
      resolve_granted_capabilities recipe role requested = Ok granted /\
      creation_journal tenant (row_of_request tenant agent user recipe granted) (is_ok r) j).
Proof.
  intros Hk. unfold create_with. apply answers_check; [|by left]. intros [[tenant role] actor] Hc.
  apply answers_check; [|by left]. intros user Hu. apply answers_check; [|by left]. intros granted Hg.
  eapply answers_weaken.
  - apply answers_andthen; [|intros u; apply answers_andthen; [apply Hk|intros t; apply answer_created_answers]].
    instantiate (1 := fun _ j => j = []). unfold ensure_tenant_trigger_capacity.
    destruct (ap_tenant_max_triggers ac) as [lim|].
    + eapply answers_weaken; [apply answers_andthen; [apply answers_tquery|intros count]|].
      * instantiate (1 := fun _ _ j => j = []). cbn beta.
        destruct (lim <=? count); (eapply answers_weaken; [apply answers_ret|]); by intros r j [_ ->].
      * cbn beta. by intros r j [(e & -> & -> & _)|(a & j1 & j2 & -> & [-> _] & ->)].
    + eapply answers_weaken; [apply answers_ret|]. by intros r j [_ ->].
  - cbn beta. intros r j [(e & -> & ->)|(u & j1 & j2 & -> & -> & H)]; [by left|].
    right. exists tenant, role, actor, user, granted. split_and!; [done..|]. cbn [app].
    destruct H as [(e & -> & [->|(t & -> & Ht)])|(c & j1 & j3 & -> & (t & -> & Ht & Hid) & H)]; [by left| |].
    + right. exists t. split; [done|]. by left.
    + right. exists t. split; [done|]. destruct H as [[-> Hr]|(n & -> & Hn1 & Hn2 & Hn3)]; [by left|right].
      exists n. split_and!; [done|done|congruence|done].
Qed.
End creation.

(** What a request to create a trigger asks for: agent, user, recipe, capabilities. *)
Definition trigger_creation (r : api_request) : option (Uuid * option Uuid * string * json) :=
  match r with
  | CreateTrigger q => Some (ct_agent_id q, ct_triggered_by_user_id q, ct_recipe_id q, ct_requested_capabilities q)
  | CreateCronTrigger q => Some (cn_agent_id q, cn_triggered_by_user_id q, cn_recipe_id q, cn_requested_capabilities q)
  | CreateWebhookTrigger q => Some (cw_agent_id q, cw_triggered_by_user_id q, cw_recipe_id q, cw_requested_capabilities q)
  | _ => None
  end.

Section created.
Context {X : Type} `{FH : FileHost X} (E : env) (ac : ApiConfig) (headers : HeaderMap).

Lemma answers_answer_code {A} (m : handler (X := X) (Z * A)) (T : bool -> list effect -> Prop) :
  answers m (fun r j => T (is_ok r) j) -> answers (answer_code m) (fun r j => T (is_ok r) j).
Proof.
  intros Hm. unfold answer_code. eapply answers_weaken; [apply answers_andthen; [exact Hm|intros a; apply answers_ret]|].
  cbn beta. intros r j [(e & -> & H)|(a & j1 & j2 & -> & H & -> & ->)]; [done|]. by rewrite app_nil_r.
Qed.

Definition creation_answers (agent : Uuid) (requested_user : option Uuid) (recipe : string) (requested : json)
    (succeeded : bool) (j : list effect) : Prop :=
  (j = [] /\ succeeded = false) \/
  exists tenant role actor user granted,
    trigger_caller (ap_parse_uuid ac) (ap_auth ac) headers = Ok (tenant, role, actor) /\
    resolve_trigger_actor_for_create role actor requested_user = Ok user /\
    resolve_granted_capabilities recipe role requested = Ok granted /\
    creation_journal tenant (row_of_request tenant agent user recipe granted) succeeded j.

Lemma creation_request_answers request agent user recipe requested :
  trigger_creation request = Some (agent, user, recipe, requested) ->
  answers (serve (X := X) E ac headers request) (fun r => creation_answers agent user recipe requested (is_ok r)).
Proof.
  destruct request; try done; intros [= <- <- <- <-]; cbn [serve]; apply answers_answer_code;
    (apply answers_check; [intros u _|by left]);
    eapply create_with_answers; intros tenant user granted; apply answers_new_v4; intros id;
    apply answers_now; intros wall; cbn zeta; destruct (on_sqlite (env_pool E));
    try (by apply create_and_reload_answers); apply insert_answers; intros now s s' t.
  - unfold create_interval_trigger, ensure. destruct (_ && _); [|done]. by intros ->%insert_trigger_row.
  - unfold create_cron_trigger, ensure. destruct (map_err _ _); [|done]. destruct (_ && _); [|done].
    by intros ->%insert_trigger_row.
  - unfold create_webhook_trigger, ensure. destruct (_ && _); [|done]. by intros ->%insert_trigger_row.
Qed.
End created.

Lemma trigger_caller_Ok parse auth headers tenant role actor :
  trigger_caller parse auth headers = Ok (tenant, role, actor) ->
  tenant_from_headers headers = Ok tenant /\ role_from_headers auth headers = Ok role /\
  user_id_from_headers parse auth headers = Ok actor /\ role <> Viewer.
Proof.
  unfold trigger_caller. destruct (tenant_from_headers headers) as [t|]; [|done].
  destruct (role_from_headers auth headers) as [R|]; [|done].
  destruct (user_id_from_headers parse auth headers) as [u|]; [|done].
  by destruct R; intros [= <- <- <-].
Qed.

Lemma resolve_actor_Ok role actor requested user :
  resolve_trigger_actor_for_create role actor requested = Ok user ->
  (role = Owner -> user = requested) /\ (role = Operator -> exists u, actor = Some u /\ user = Some u).
Proof.
  destruct role; cbn; [by intros [= <-]| |done]. destruct actor as [u|]; [|done]. cbn.
  destruct requested as [r|]; [destruct (negb _); [done|]|]; intros [= <-]; (split; [done|]); eauto.
Qed.

(** C3: what the three endpoints that create triggers can do, on either backend and
    under any failure and interference: at most one trigger is inserted; it
    belongs to the tenant of the request and carries exactly the capabilities its
    recipe and the authenticated role resolve to; viewers create none and an
    operator only for itself; at most one audit event follows, about that
    trigger, and an answer is only successful when both were written. *)
Theorem created_triggers_carry_authorised_grants X `{FH : FileHost X} E ac headers request agent requested_user recipe requested
    (w : world X) j
    (Hrequest : trigger_creation request = Some (agent, requested_user, recipe, requested))
    (Hj : appends (serve E ac headers request) w j) :
  exists answer, (serve E ac headers request w).1 = Ok answer /\
    ((j = [] /\ is_ok answer = false) \/
     exists tenant role actor user granted,
       trigger_caller (ap_parse_uuid ac) (ap_auth ac) headers = Ok (tenant, role, actor) /\ role <> Viewer /\
       (role = Owner -> user = requested_user) /\
       (role = Operator -> exists u, actor = Some u /\ user = Some u) /\
       resolve_granted_capabilities recipe role requested = Ok granted /\
       creation_journal tenant (row_of_request tenant agent user recipe granted) (is_ok answer) j).
Proof.
  pose proof (emits_appends _ _ _ _ (creation_request_answers E ac headers _ _ _ _ _ Hrequest) Hj) as (a & Ha & H).
  exists a. split; [done|]. destruct H as [H|(tenant & role & actor & user & granted & Hc & Hu & Hg & H)]; [by left|].
  right. exists tenant, role, actor, user, granted. apply resolve_actor_Ok in Hu as [H1 H2].
  apply trigger_caller_Ok in Hc as Hv. by split_and!; [|apply Hv|..].
Qed.

(** The loader with its defaults, both workflows enabled. *)
Definition context_config : ContextState :=
  {| cs_loader := with_defaults "agents"; cs_mutation_enabled := true; cs_bootstrap_enabled := true |}.
Definition context_calls : ContextCalls :=
  {| cc_sha256_hex := fun s => s; cc_to_vec := fun _ => "{}"; cc_from_str := fun _ => Ok (JObj []);
     cc_parse_rfc3339 := fun _ => Ok 0; cc_format_rfc3339 := fun _ => "2026-01-01T00:00:00Z";
     cc_cron_error := fun _ => None; cc_timezone_ok := fun _ => true |}.

Definition api_config : ApiConfig :=
  {| ap_auth := api_state; ap_tenant_max_inflight_runs := Some 5; ap_tenant_max_triggers := Some 3; ap_tenant_max_memory_records := None;
     ap_schedules := demo_sc; ap_jitter_hash := fun _ _ => 0; ap_to_vec := fun _ => "bytes";
     ap_sha256_hex := fun s => s; ap_parse_uuid := fun _ => Some 5; ap_resolve_secret := fun _ => Ok (Some "s");
     ap_context := context_config; ap_context_calls := context_calls; ap_files := quiet_files |}.

Definition user_headers : HeaderMap := ("x-user-id", "5") :: api_headers.

Definition interval_request : api_request :=
  CreateTrigger {| ct_agent_id := 7; ct_triggered_by_user_id := None; ct_recipe_id := "notify_v1";
                   ct_input := JObj []; ct_requested_capabilities := JArr []; ct_interval_seconds := 60;
                   ct_max_inflight_runs := 1; ct_jitter_seconds := 0 |}.

Definition user_world : world unit :=
  {| w_db := with_core (w_db api_world)
       {| db_agents := [7]; db_users := [5]; db_runs := [] |};
     w_journal := []; w_tick := 0; w_ext := tt; w_routes := ∅; w_llm := no_llm |}.

Definition serve_interval : M unit (ApiResult Z) := serve api_env api_config user_headers interval_request.

Example serve_interval_created : (serve_interval user_world).1 = Ok (Ok 201).
Proof. vm_compute. reflexivity. Qed.

Lemma created_triggers_carry_authorised_grants_witness :
  exists answer, (serve_interval user_world).1 = Ok answer /\
    ((w_journal (serve_interval user_world).2 = [] /\ is_ok answer = false) \/
     exists tenant role actor user granted,
       trigger_caller (fun _ => Some 5) api_state user_headers = Ok (tenant, role, actor) /\ role <> Viewer /\
       (role = Owner -> user = None) /\
       (role = Operator -> exists u, actor = Some u /\ user = Some u) /\
       resolve_granted_capabilities "notify_v1" role (JArr []) = Ok granted /\
       creation_journal tenant (row_of_request tenant 7 user "notify_v1" granted) (is_ok answer)
         (w_journal (serve_interval user_world).2)).
Proof.
  apply (created_triggers_carry_authorised_grants unit api_env api_config user_headers interval_request 7 None
    "notify_v1" (JArr []) user_world _ eq_refl (appends_from_empty serve_interval user_world eq_refl)).
Defined.

(** * Changes *)

(** The trigger that a request changes, fires or replays an event of. *)
Definition trigger_change (r : api_request) : option Uuid :=
  match r with
  | UpdateTrigger id _ | EnableTrigger id | DisableTrigger id | ReplayEvent id _ | FireTrigger id _ => Some id
  | _ => None
  end.

(** Effects on trigger [id] of the tenant. *)
Definition about_trigger (tenant : string) (id : Uuid) (e : effect) : Prop :=
  match e with
  | TriggerChanged t => t_tenant_id t = tenant /\ t_id t = id
  | TriggerFired r => td_tenant_id r = tenant /\ td_trigger_id r = id
  | EventQueued i _ => i = id
  | TriggerAudited n => nt_tenant_id n = tenant /\ nt_trigger_id n = id
  | Audited e => ne_tenant_id e = tenant
  | _ => False
  end.

Lemma get_trigger_Some tenant id s t : get_trigger tenant id s = Some t -> t_tenant_id t = tenant /\ t_id t = id.
Proof.
  intros [_ H]%find_some. unfold owned_trigger in H. bool_hyps. split; [by apply String.eqb_eq|done].
Qed.

Section changes.
Context {X : Type} `{FH : FileHost X} (E : env) (ac : ApiConfig).

Lemma answer_code_appends {A} (m : handler (X := X) (Z * A)) w j : appends (answer_code m) w j -> appends m w j.
Proof. unfold appends, answer_code, andthen, bind. by destruct (m w) as [[[a|e]|e] w1]. Qed.

Lemma answer_code_world {A} (m : handler (X := X) (Z * A)) w : (answer_code m w).2 = (m w).2.
Proof. unfold answer_code, andthen, bind. by destruct (m w) as [[[]|] ?]. Qed.

Lemma answer_code_Ok {A} (m : handler (X := X) (Z * A)) w c :
  (answer_code m w).1 = Ok (Ok c) -> exists a, (m w).1 = Ok (Ok (c, a)).
Proof.
  unfold answer_code, andthen, bind. destruct (m w) as [[[[c' a]|]|] ?]; [|done..]. intros [= <-]. by exists a.
Qed.

(** The trigger that [load_trigger] finds is the one that was there. *)
Lemma load_appends {A} P tenant id (k : option TriggerRecord -> handler A) (w : world X) j :
  only P (k (get_trigger tenant id (trigger_db (observed E w)))) ->
  appends (andthen (load_trigger E tenant id) k) w j -> Forall P j.
Proof.
  intros Hk. unfold appends, andthen, load_trigger, or_internal, tquery, tstmt, bind, try, stmt.
  destruct (env_fault E (w_tick w)) as [[[] m]|]; cbn; rewrite ?app_nil_r;
    try (intros Hj; rewrite <- (app_nil_r (w_journal w)) in Hj at 1; apply app_inv_head in Hj as <-; by constructor).
  match goal with |- w_journal (_ ?w1).2 = _ -> _ => exact (only_appends P _ w1 j Hk) end.
Qed.

Definition authorised (headers : HeaderMap) (id : Uuid) (d : db) (tenant : string) : Prop :=
  exists role actor t,
    trigger_caller (ap_parse_uuid ac) (ap_auth ac) headers = Ok (tenant, role, actor) /\ role <> Viewer /\
    get_trigger tenant id (trigger_db d) = Some t /\
    (role = Operator -> exists u, actor = Some u /\ t_triggered_by_user_id t = Some u).

Lemma with_owned_appends {A} headers pre id (k : string -> RolePreset -> TriggerRecord -> handler A) (w : world X) j :
  (forall tenant role t, t_tenant_id t = tenant -> t_id t = id -> only (about_trigger tenant id) (k tenant role t)) ->
  appends (with_owned_trigger E (ap_parse_uuid ac) (ap_auth ac) headers pre id k) w j ->
  j = [] \/ exists tenant, authorised headers id (observed E w) tenant /\ Forall (about_trigger tenant id) j.
Proof.
  intros Hk. unfold with_owned_trigger.
  destruct (trigger_caller _ _ headers) as [[[tenant role] actor]|e] eqn:Hc; cbn [check].
  2: { intros Hj. left. by eapply (emits_appends _ _ _ _ (answers_ret (X := X) _)) in Hj as (a & _ & _ & ->). }
  destruct pre as [u|e]; cbn [check].
  2: { intros Hj. left. by eapply (emits_appends _ _ _ _ (answers_ret (X := X) _)) in Hj as (a & _ & _ & ->). }
  destruct (get_trigger tenant id (trigger_db (observed E w))) as [t|] eqn:G; cycle 1.
  { intros Hj. left. apply (load_appends (fun _ => False)) in Hj; [by destruct j; [|inv Hj]|].
    rewrite G. apply only_ret. }
  destruct (ensure_trigger_operator_ownership role actor (t_triggered_by_user_id t)) as [u'|e] eqn:Ho; cycle 1.
  { intros Hj. left. apply (load_appends (fun _ => False)) in Hj; [by destruct j; [|inv Hj]|].
    rewrite G. cbn [ok_or check]. rewrite Ho. apply only_ret. }
  intros Hj. right. exists tenant. split.
  - exists role, actor, t. split_and!; [done|by apply trigger_caller_Ok in Hc as (_ & _ & _ & ?)|done|].
    intros ->. cbn in Ho. destruct actor as [v|]; [|done]. cbn in Ho. case_bool_decide; [|done]. eauto.
  - apply (load_appends (about_trigger tenant id)) in Hj; [done|]. rewrite G. cbn [ok_or check].
    rewrite Ho. apply get_trigger_Some in G as [? ?]. by apply Hk.
Qed.

(** ** The handlers *)

Lemma audit_only tenant id role ty details :
  only (about_trigger tenant id) (append_trigger_audit (X := X) E tenant id role ty details).
Proof.
  unfold append_trigger_audit. apply only_bind; [apply only_new_v4|intros n _].
  apply only_or_internal, only_tstmt. intros now s s' a _. by repeat constructor.
Qed.

Lemma load_only P tenant id : only P (load_trigger (X := X) E tenant id).
Proof. apply only_or_internal, only_tquery. Qed.

Lemma changed_only tenant id what (m : M X (option TriggerRecord)) role ty details :
  only (about_trigger tenant id) m ->
  only (about_trigger tenant id)
    (andthen (andthen (or_internal E what m) (fun found => check (ok_or found (not_found "trigger not found"))
                                                             (fun t => ret (Ok t))))
       (answer_changed E tenant id role ty details)).
Proof.
  intros Hm. apply only_andthen; [apply only_andthen; [by apply only_or_internal|]|].
  - intros found. apply only_check. intros t _. apply only_ret.
  - intros t. apply only_andthen; [apply audit_only|]. intros u. apply only_ret.
Qed.

Lemma written_only tenant id f :
  (forall now s s' a, f now s = Ok (s', a) -> forall t, a = Some t -> t_tenant_id t = tenant /\ t_id t = id) ->
  only (about_trigger tenant id) (tstmt (X := X) E f changed).
Proof.
  intros Hf. apply only_tstmt. intros now s s' [t|] F; repeat constructor; by eapply Hf.
Qed.

Lemma status_written now tenant id status s s' a : update_trigger_status now tenant id status s = Ok (s', a) ->
  forall t, a = Some t -> t_tenant_id t = tenant /\ t_id t = id.
Proof.
  unfold update_trigger_status, ensure. destruct (_ || _); [|done]. intros [= _ <-] t Ht.
  destruct (get_trigger tenant id s) as [t0|] eqn:G; [|by destruct t]. apply get_trigger_Some in G.
  by injection Ht as <-.
Qed.

Lemma config_written now tenant id m next s s' a : write_trigger_config now tenant id m next s = Ok (s', a) ->
  forall t, a = Some t -> t_tenant_id t = tenant /\ t_id t = id.
Proof.
  unfold write_trigger_config, ensure.
  destruct (match _ with Some _ => _ | None => _ end); [|done]. intros [= _ <-] t Ht.
  destruct (get_trigger tenant id s) as [t0|] eqn:G; [|done]. apply get_trigger_Some in G. by injection Ht as <-.
Qed.

Lemma config_written_sqlite now tenant id m s s' a : write_trigger_config_sqlite now tenant id m s = Ok (s', a) ->
  forall t, a = Some t -> t_tenant_id t = tenant /\ t_id t = id.
Proof.
  unfold write_trigger_config_sqlite, ensure.
  destruct (match _ with Some _ => _ | None => _ end); [|done]. intros [= _ <-] t Ht.
  destruct (get_trigger tenant id s) as [t0|] eqn:G; [|done]. apply get_trigger_Some in G. by injection Ht as <-.
Qed.

(** The SQLite handlers read the row again after the [UPDATE]. *)
Lemma reloaded_only tenant id what (m : M X (option TriggerRecord)) (k : option TriggerRecord -> handler TriggerRecord) :
  only (about_trigger tenant id) m -> (forall o, only (about_trigger tenant id) (k o)) ->
  forall role ty details, only (about_trigger tenant id)
    (andthen (andthen (or_internal E what m) k) (answer_changed E tenant id role ty details)).
Proof.
  intros Hm Hk role ty details. apply only_andthen; [by apply only_andthen; [apply only_or_internal|]|].
  intros t. apply only_andthen; [apply audit_only|]. intros u. apply only_ret.
Qed.

Lemma reload_only P tenant id : only P (reload_changed (X := X) E tenant id).
Proof. apply only_andthen; [apply load_only|]. intros found. apply only_check. intros t _. apply only_ret. Qed.

Lemma update_only tenant id req role existing :
  only (about_trigger tenant id)
    (check (check_schedule_fields (t_trigger_type existing) req) (fun _ =>
       andthen
         (if on_sqlite (env_pool E) then
            andthen (or_internal E "failed updating trigger"
                       (tstmt E (fun now => write_trigger_config_sqlite now tenant id
                                              (merged_params (update_params_sqlite req) existing)) changed))
              (fun _ => reload_changed E tenant id)
          else
            andthen (or_internal E "failed updating trigger"
                       (update_trigger_config E (ap_schedules ac) (ap_jitter_hash ac) tenant id (update_params req)))
              (fun found => check (ok_or found (not_found "trigger not found")) (fun t => ret (Ok t))))
         (answer_changed (X := X) E tenant id role "trigger.updated" updated_details))).
Proof.
  apply only_check. intros u _. destruct (on_sqlite _); apply reloaded_only.
  - apply written_only. intros now s s' a F. exact (config_written_sqlite _ _ _ _ _ _ _ F).
  - intros o. apply reload_only.
  - unfold update_trigger_config. apply only_bind; [apply only_tquery|intros [t|] _; [|apply only_ret]].
    apply only_bind; [apply only_now_utc|intros wall _]. apply only_bind; [apply only_lift|intros next _].
    apply written_only. intros now s s' a F. exact (config_written _ _ _ _ _ _ _ _ F).
  - intros o. apply only_check. intros t _. apply only_ret.
Qed.

Lemma status_only tenant id status ty role :
  only (about_trigger tenant id)
    (andthen
      (if on_sqlite (env_pool E) then
         andthen (or_internal E "failed updating trigger status" (update_status_sqlite E tenant id status))
           (fun updated => if is_some updated then reload_changed E tenant id else fail (not_found "trigger not found"))
       else
         andthen (or_internal E "failed updating trigger status"
                    (tstmt E (fun now => update_trigger_status now tenant id status) changed))
           (fun found => check (ok_or found (not_found "trigger not found")) (fun t => ret (Ok t))))
      (answer_changed (X := X) E tenant id role ty status_details)).
Proof.
  destruct (on_sqlite _); apply reloaded_only.
  - apply written_only. intros now s s' a F. exact (status_written _ _ _ _ _ _ _ F).
  - intros o. destruct (is_some o); [apply reload_only|apply only_ret].
  - apply written_only. intros now s s' a F. exact (status_written _ _ _ _ _ _ _ F).
  - intros o. apply only_check. intros t _. apply only_ret.
Qed.

Lemma manual_fired uuid_text wall now tenant id key payload tenant_max run_id row_id s s' o :
  fire_trigger_manually_with_limits uuid_text wall now tenant id key payload tenant_max run_id row_id s =
    Ok (s', o) -> Forall (about_trigger tenant id) (fired_effects o).
Proof.
  intros [[_ H]|(t & n & row & _ & Ho & _ & _ & _ & _ & _ & _ & _ & ->)]%manual_cases.
  - destruct o as [r|r| |]; first [by destruct (H r)|constructor].
  - repeat constructor; unfold owned_trigger in Ho; bool_hyps; [by apply String.eqb_eq|done].
Qed.

Lemma manual_fired_sqlite uuid_text wall now t key payload run_id row_id s s' o :
  fire_manually_sqlite uuid_text wall now t key payload run_id row_id s = Ok (s', o) ->
  Forall (about_trigger (t_tenant_id t) (t_id t)) (fired_effects o).
Proof.
  intros [[_ H]|(_ & _ & _ & _ & ->)]%manual_sqlite_cases; [|by repeat constructor].
  destruct o as [r|r| |]; first [by destruct (H r)|constructor].
Qed.

Lemma answer_fire_only tenant id role key o :
  only (about_trigger tenant id) (answer_fire (X := X) E tenant id role key o).
Proof.
  destruct o; cbn [answer_fire]; try apply only_ret.
  - apply only_andthen; [apply audit_only|intros u]. apply only_bind; [apply only_new_v4|intros n _].
    apply only_andthen; [apply only_or_internal, only_stmt; intros v; by repeat constructor|].
    intros v. apply only_ret.
  - apply only_andthen; [apply audit_only|intros u]. apply only_ret.
Qed.

Lemma fire_only headers id req (w : world X) j :
  appends (if on_sqlite (env_pool E)
           then fire_trigger_sqlite_handler E (ap_parse_uuid ac) (ap_auth ac) headers id req
           else fire_trigger_handler E (ap_parse_uuid ac) (ap_auth ac) headers id req) w j ->
  j = [] \/ exists tenant, authorised headers id (observed E w) tenant /\ Forall (about_trigger tenant id) j.
Proof.
  destruct (on_sqlite _); apply with_owned_appends; intros tenant role t Ht Hid;
    (destruct (not_enabled t); [apply only_ret|]).
  - apply only_bind; [apply only_new_v4|intros run_id _]. apply only_bind; [apply only_new_v4|intros row_id _].
    apply only_bind; [apply only_now_utc|intros wall _]. apply only_andthen.
    + apply only_or_internal, only_tstmt. intros now s s' o F. rewrite <- Ht, <- Hid.
      by eapply manual_fired_sqlite.
    + intros o. destruct o; cbn [answer_fire_sqlite]; try apply only_ret.
      apply only_andthen; [apply audit_only|intros u]. apply only_ret.
  - apply only_andthen; [|intros o; apply answer_fire_only]. apply only_or_internal.
    unfold fire_trigger_manually.
    apply only_bind; [apply only_new_v4|intros run_id _]. apply only_bind; [apply only_new_v4|intros row_id _].
    apply only_bind; [apply only_now_utc|intros wall _]. apply only_tstmt. intros now s s' o. apply manual_fired.
Qed.

Lemma replay_only headers id event_id (w : world X) j :
  appends (if on_sqlite (env_pool E)
           then replay_trigger_event_sqlite_handler E (ap_parse_uuid ac) (ap_auth ac) headers id event_id
           else replay_trigger_event_handler E (ap_parse_uuid ac) (ap_auth ac) headers id event_id) w j ->
  j = [] \/ exists tenant, authorised headers id (observed E w) tenant /\ Forall (about_trigger tenant id) j.
Proof.
  destruct (on_sqlite _); apply with_owned_appends; intros tenant role t Ht Hid.
  - apply only_andthen.
    + apply only_or_internal, only_tstmt. intros now s s' n _. destruct (n =? 1); by repeat constructor.
    + intros n. destruct (n =? 1).
      * apply only_andthen; [apply audit_only|intros u]. apply only_ret.
      * apply only_andthen; [apply only_or_internal, only_tquery|intros o; apply only_ret].
  - destruct (negb _); [apply only_ret|]. destruct (not_enabled t); [apply only_ret|]. apply only_andthen.
    + apply only_or_internal, only_tstmt. intros now s s' o _. destruct o; by repeat constructor.
    + intros [| |status]; try apply only_ret. apply only_andthen; [apply audit_only|intros u]. apply only_ret.
Qed.

Lemma change_only headers request id (w : world X) j :
  trigger_change request = Some id -> appends (serve E ac headers request) w j ->
  j = [] \/ exists tenant, authorised headers id (observed E w) tenant /\ Forall (about_trigger tenant id) j.
Proof.
  destruct request; try done; intros [= <-] Hj%answer_code_appends; revert Hj.
  - apply with_owned_appends. intros tenant role t _ _. apply update_only.
  - apply with_owned_appends. intros tenant role t _ _. apply status_only.
  - apply with_owned_appends. intros tenant role t _ _. apply status_only.
  - intros Hj. apply (replay_only headers trigger_id event_id w). by destruct (on_sqlite _).
  - intros Hj. apply (fire_only headers trigger_id req w). by destruct (on_sqlite _).
Qed.
End changes.

(** C4: a request that changes, enables, disables or fires a trigger or replays one
    of its events has no effect unless the caller passed the proxy check, is not a
    viewer, and the trigger existed for the caller's tenant when it was loaded;
    an operator must be the user the trigger acts for.  All its effects are on
    that trigger, its runs and its events, whatever the outcome. *)
Theorem trigger_changes_are_authorised X `{FH : FileHost X} E ac headers request id (w : world X) j
    (Hrequest : trigger_change request = Some id) (Hj : appends (serve E ac headers request) w j) :
  j = [] \/ exists tenant, authorised ac headers id (observed E w) tenant /\ Forall (about_trigger tenant id) j.
Proof. by apply (change_only E ac headers request). Qed.

(** The world after [serve_interval], its trigger fired by hand. *)
Definition triggered_world : world unit :=
  {| w_db := w_db (serve_interval user_world).2; w_journal := []; w_tick := 10; w_ext := tt; w_routes := ∅; w_llm := no_llm |}.

Definition fire_request : api_request :=
  FireTrigger 1001 {| fr_idempotency_key := "k"; fr_payload := None |}.

Definition serve_fire : M unit (ApiResult Z) := serve api_env api_config user_headers fire_request.

Example serve_fire_created : (serve_fire triggered_world).1 = Ok (Ok 202).
Proof. vm_compute. reflexivity. Qed.

Lemma trigger_changes_are_authorised_witness :
  w_journal (serve_fire triggered_world).2 = [] \/
  exists tenant, authorised api_config user_headers 1001 (observed api_env triggered_world) tenant /\
                 Forall (about_trigger tenant 1001) (w_journal (serve_fire triggered_world).2).
Proof.
  apply (trigger_changes_are_authorised unit api_env api_config user_headers fire_request 1001 triggered_world
    _ eq_refl (appends_from_empty serve_fire triggered_world eq_refl)).
Defined.

(** * Events *)

(** The caller has shown the secret of the trigger, when it has one. *)
Definition secret_shown (ac : ApiConfig) (headers : HeaderMap) (t : TriggerRecord) : Prop :=
  forall reference, t_webhook_secret_ref t = Some reference ->
    exists raw secret, header_get headers TRIGGER_SECRET_HEADER = Some raw /\ to_str raw = Some secret /\
                       ap_resolve_secret ac reference = Ok (Some secret).

Lemma check_trigger_secret_Ok ac headers t :
  check_trigger_secret (ap_resolve_secret ac) headers t = Ok tt -> secret_shown ac headers t.
Proof.
  unfold check_trigger_secret. intros H reference Hr. rewrite Hr in H.
  destruct (header_get headers TRIGGER_SECRET_HEADER) as [raw|]; [|done]. cbn in H.
  destruct (to_str raw) as [provided|] eqn:Hs; [|done]. cbn in H.
  destruct (ap_resolve_secret ac reference) as [[expected|]|]; [|done..]. cbn in H.
  destruct (negb _) eqn:N; [done|]. apply negb_false_iff, String.eqb_eq in N as ->. eauto.
Qed.

Section events.
Context {X : Type} (E : env) (ac : ApiConfig) (headers : HeaderMap).

Definition only_event (id : Uuid) (event_id : string) (e : effect) : Prop := e = EventQueued id event_id.

Lemma queue_event_only tenant id req n :
  only (only_event id (ter_event_id req)) (queue_event (X := X) E (ap_to_vec ac) (ap_sha256_hex ac) tenant id req n).
Proof. apply only_tstmt. intros now s s' b _. destruct b; by repeat constructor. Qed.

Lemma enqueue_only tenant id req :
  only (only_event id (ter_event_id req))
    (enqueue_trigger_event (X := X) E (ap_to_vec ac) (ap_sha256_hex ac) tenant id req).
Proof.
  apply only_bind; [apply only_tquery|intros [reason|] _; [apply only_ret|]].
  apply only_bind; [apply only_new_v4|intros n _].
  apply only_bind; [apply queue_event_only|intros b _; apply only_ret].
Qed.

Lemma ingest_only id req (w : world X) j :
  appends (ingest_trigger_event_handler E (ap_to_vec ac) (ap_sha256_hex ac) (ap_resolve_secret ac) headers id req) w j ->
  j = [] \/ exists tenant t, tenant_from_headers headers = Ok tenant /\
    get_trigger tenant id (trigger_db (observed E w)) = Some t /\ t_trigger_type t = "webhook" /\
    not_enabled t = false /\ secret_shown ac headers t /\ Forall (only_event id (ter_event_id req)) j.
Proof.
  unfold ingest_trigger_event_handler.
  assert (forall e, appends (ret (Err e) : handler (X := X) (Z * TriggerEventIngestResponse)) w j -> j = []) as Hno.
  { intros e Hj. by eapply (emits_appends _ _ _ _ (answers_ret (X := X) _)) in Hj as (a & _ & _ & ->). }
  destruct (tenant_from_headers headers) as [tenant|e]; cbn [check]; [|left; by eapply Hno].
  destruct (check_event_request req) as [u|e]; cbn [check]; [|left; by eapply Hno].
  destruct (get_trigger tenant id (trigger_db (observed E w))) as [t|] eqn:G; cycle 1.
  { intros Hj. left. apply (load_appends E (fun _ => False)) in Hj; [by destruct j; [|inv Hj]|].
    rewrite G. apply only_ret. }
  destruct (negb (String.eqb (t_trigger_type t) "webhook")) eqn:Hty; [|destruct (not_enabled t) eqn:Hen;
    [|destruct (check_trigger_secret (ap_resolve_secret ac) headers t) as [[]|e] eqn:Hs]].
  3: { intros Hj. right. exists tenant, t. apply negb_false_iff, String.eqb_eq in Hty.
       split_and!; [done..|by apply check_trigger_secret_Ok|].
       apply (load_appends E (only_event id (ter_event_id req))) in Hj; [done|]. rewrite G. cbn [ok_or check].
       rewrite Hty, Hen, Hs. cbn [negb String.eqb]. apply only_andthen.
       - apply only_or_internal. destruct (on_sqlite _); [|apply enqueue_only].
         apply only_bind; [apply only_new_v4|intros n _].
         apply only_bind; [apply queue_event_only|intros b _; apply only_ret].
       - intros [| |reason]; apply only_ret. }
  all: intros Hj; left; apply (load_appends E (fun _ => False)) in Hj; [by destruct j; [|inv Hj]|];
    rewrite G; cbn [ok_or check]; rewrite ?Hty, ?Hen, ?Hs; apply only_ret.
Qed.
End events.

(** C5: an event enters the queue of a trigger only when the trigger existed for the
    tenant of the request, takes webhook events, is enabled and not dead-lettered
    and, if it has a secret, the request carried that secret; and ingestion does
    nothing else. *)
Theorem events_enter_through_live_webhooks X `{FH : FileHost X} E ac headers id req (w : world X) j
    (Hj : appends (serve E ac headers (IngestEvent id req)) w j) :
  j = [] \/ exists tenant t, tenant_from_headers headers = Ok tenant /\
    get_trigger tenant id (trigger_db (observed E w)) = Some t /\ t_trigger_type t = "webhook" /\
    not_enabled t = false /\ secret_shown ac headers t /\ Forall (only_event id (ter_event_id req)) j.
Proof. exact (ingest_only E ac headers id req w j (answer_code_appends _ w j Hj)). Qed.

Definition webhook_request : api_request :=
  CreateWebhookTrigger {| cw_agent_id := 7; cw_triggered_by_user_id := None; cw_recipe_id := "notify_v1";
    cw_input := JObj []; cw_requested_capabilities := JArr []; cw_webhook_secret_ref := Some "env:HOOK";
    cw_max_attempts := 3; cw_max_inflight_runs := 1; cw_jitter_seconds := 0 |}.

Definition webhook_world : world unit :=
  {| w_db := w_db (serve api_env api_config user_headers webhook_request user_world).2;
     w_journal := []; w_tick := 10; w_ext := tt; w_routes := ∅; w_llm := no_llm |}.

Definition secret_headers : HeaderMap := [("x-tenant-id", "t1"); ("x-trigger-secret", "s")].
Definition hook_event : TriggerEventRequest := {| ter_event_id := "evt"; ter_payload := JObj [] |}.
Definition serve_event (headers : HeaderMap) : M unit (ApiResult Z) :=
  serve api_env api_config headers (IngestEvent 1001 hook_event).

Example serve_event_queued :
  (serve_event secret_headers webhook_world).1 = Ok (Ok 202) /\
  w_journal (serve_event api_headers webhook_world).2 = [].
Proof. split; vm_compute; reflexivity. Qed.

Lemma events_enter_through_live_webhooks_witness :
  w_journal (serve_event secret_headers webhook_world).2 = [] \/
  exists tenant t, tenant_from_headers secret_headers = Ok tenant /\
    get_trigger tenant 1001 (trigger_db (observed api_env webhook_world)) = Some t /\
    t_trigger_type t = "webhook" /\ not_enabled t = false /\ secret_shown api_config secret_headers t /\
    Forall (only_event 1001 "evt") (w_journal (serve_event secret_headers webhook_world).2).
Proof.
  apply (events_enter_through_live_webhooks unit api_env api_config secret_headers 1001 hook_event webhook_world
    _ (appends_from_empty (serve_event secret_headers) webhook_world eq_refl)).
Defined.
