(* ===== verification/ApiContextProps.v ===== *)
(** What the endpoints of agent contexts promise: which files a request may change and
    how, that a transcript only grows, which heartbeats become triggers, and that
    applying them twice creates nothing; and where the bootstrap record and the
    directories of agents do not hold what they are for. *)
From stdpp Require Import pretty.
From S2P Require Import Prelude RustStr Json Policy ApiAuth Capabilities Sql Paths FileSystem FileStore.
From S2P Require Import AgentContext AgentContextProps Runs RunQueue LlmTables Tables TriggerTables TriggerDispatch.
From S2P Require Import World ApiRuns ApiRunProps ApiTriggers ApiContext Api ApiTriggerProps.

(** * Calls on the files *)

Section files.
Context {X : Type} `{FH : FileHost X} (E : env) (F : files_env).

Lemma emits_on_files {A} (f : Z -> (string -> option string) -> file_store -> result (file_store * A) string) log :
  emits (X := X) (on_files E F f log) (fun r j => match r with Ok a => j = log a | Err _ => j = [] end).
Proof.
  intros w. unfold appends, on_files. destruct (f _ _ _) as [[s a]|e]; cbn; [by exists (log a)|exists []; by rewrite app_nil_r].
Qed.

Lemma only_on_files {A} (P : effect -> Prop) (f : Z -> (string -> option string) -> file_store -> result (file_store * A) string) log :
  (forall a, Forall P (log a)) -> only (X := X) P (on_files E F f log).
Proof.
  intros H. eapply only_emits; [apply emits_on_files|]. intros [a|e] j ->; [done|constructor].
Qed.

(** A handler that answers what [Q] says and does nothing. *)
Definition silent {A} (m : handler (X := X) A) (Q : A -> Prop) : Prop :=
  answers m (fun r j => j = [] /\ forall a, r = Ok a -> Q a).

(** A handler that has at most one effect, in [P]. *)
Definition at_most {A} (P : effect -> Prop) (m : handler (X := X) A) : Prop :=
  answers m (fun _ j => j = [] \/ exists e, j = [e] /\ P e).

Lemma silent_ret {A} (a : A) (Q : A -> Prop) : Q a -> silent (ret (Ok a)) Q.
Proof. intros H. eapply answers_weaken; [apply answers_ret|]. intros r j [-> ->]. split; [done|]. by intros ? [= <-]. Qed.

Lemma at_most_ret {A} P (r : ApiResult A) : at_most P (ret r).
Proof. eapply answers_weaken; [apply answers_ret|]. intros ? j [_ ->]. by left. Qed.

Lemma at_most_check {A B} P (r : ApiResult A) (k : A -> handler B) :
  (forall a, r = Ok a -> at_most P (k a)) -> at_most P (check r k).
Proof. intros H. destruct r; [by apply H|apply at_most_ret]. Qed.

(** A silent step, then the rest; or the one effect, then a silent rest. *)
Lemma at_most_after {A B} P Q (m : handler A) (k : A -> handler B) :
  silent m Q -> (forall a, Q a -> at_most P (k a)) -> at_most P (andthen m k).
Proof.
  intros Hm Hk w. destruct (Hm w) as (j1 & Hj1 & a & Ha & -> & HQ). unfold appends, andthen, bind in *.
  destruct (m w) as [r1 w1]. cbn in Ha, Hj1. subst r1. rewrite app_nil_r in Hj1. destruct a as [a|e]; cbn [check].
  - destruct (Hk a (HQ a eq_refl) w1) as (j & Hj & HT). exists j. unfold appends in Hj. by rewrite Hj, Hj1.
  - exists []. cbn. rewrite app_nil_r. split; [done|]. eexists. split; [done|by left].
Qed.

Lemma at_most_then {A B} P Q (m : handler A) (k : A -> handler B) :
  at_most P m -> (forall a, silent (k a) Q) -> at_most P (andthen m k).
Proof.
  intros Hm Hk. eapply answers_weaken; [apply answers_andthen; [exact Hm|intros a; apply (Hk a)]|].
  cbn beta. intros r j [(e & _ & H)|(a & j1 & j2 & -> & H & -> & _)]; [done|]. by rewrite app_nil_r.
Qed.

Lemma silent_andthen {A B} (Q : A -> Prop) (R : B -> Prop) (m : handler A) (k : A -> handler B) :
  silent m Q -> (forall a, Q a -> silent (k a) R) -> silent (andthen m k) R.
Proof.
  intros Hm Hk w. destruct (Hm w) as (j1 & Hj1 & a & Ha & -> & HQ). unfold appends, andthen, bind in *.
  destruct (m w) as [r1 w1]. cbn in Ha, Hj1. subst r1. rewrite app_nil_r in Hj1. destruct a as [a|e]; cbn [check].
  - destruct (Hk a (HQ a eq_refl) w1) as (j & Hj & HT). exists j. unfold appends in Hj. by rewrite Hj, Hj1.
  - exists []. cbn. rewrite app_nil_r. split; [done|]. eexists. split; [done|]. by split.
Qed.

Lemma silent_call {A} what (f : Z -> (string -> option string) -> file_store -> result (file_store * A) string) :
  silent (or_internal E what (on_files E F f (fun _ => []))) (fun _ => True).
Proof.
  eapply answers_weaken; [apply answers_or_internal, emits_on_files|]. cbn beta.
  intros r j H. assert (j = []) as -> by (destruct r; [done|by destruct H as [? ->]]). by split.
Qed.

(** A question never fails. *)
Lemma at_most_ask {A B} P (f : Z -> (string -> option string) -> file_store -> A) (k : A -> handler B) :
  (forall a, at_most P (k a)) -> at_most P (bind (ask_files E F f) k).
Proof.
  intros Hk w. unfold bind, ask_files, on_files.
  match goal with |- context [k ?a ?w'] => destruct (Hk a w') as (j & Hj & HT) end.
  exists j. split; [|exact HT]. unfold appends in *. rewrite Hj. cbn. by rewrite app_nil_r.
Qed.

Lemma silent_ask {A B} Q (f : Z -> (string -> option string) -> file_store -> A) (k : A -> handler B) :
  (forall now io s, silent (k (f now io s)) Q) -> silent (bind (ask_files E F f) k) Q.
Proof.
  intros Hk w. unfold bind, ask_files, on_files.
  match goal with |- context [k (f ?now ?io ?s) ?w'] => destruct (Hk now io s w') as (j & Hj & HT) end.
  exists j. split; [|exact HT]. unfold appends in *. rewrite Hj. cbn. by rewrite app_nil_r.
Qed.

Lemma at_most_change (P : effect -> Prop) what f e :
  P e -> at_most P (or_internal E what (change_files E F f [e])).
Proof.
  intros He. eapply answers_weaken; [apply answers_or_internal, emits_on_files|]. cbn beta.
  intros [a|e'] j H; [subst j; right; eauto|]. destruct H as [e0 ->]. by left.
Qed.
End files.

(** * Changing a context file *)

(** The path of a mutation names a file below the directory of the agent. *)
Lemma mutation_parts_Ok cs parts : mutation_parts cs = Ok parts -> cs = map Normal parts.
Proof.
  revert parts. induction cs as [|c cs IH]; intros parts; cbn [mutation_parts]; [by intros [= <-]|].
  destruct c as [| | |p]; try done. destruct (is_empty (trim p)); [done|].
  destruct (mutation_parts cs) as [ps|]; [|done]. intros [= <-]. cbn. by rewrite (IH ps).
Qed.

Lemma join_render l : join "/" l = render l.
Proof.
  unfold join. induction l as [|a l IH]; [done|]. destruct l as [|b l]; [done|].
  change (String.concat "/" (a :: b :: l)) with (a +:+ "/" +:+ String.concat "/" (b :: l)). by rewrite IH.
Qed.

Lemma mutation_path_Ok raw rel : normalize_context_mutation_path raw = Ok rel ->
  exists parts, parts <> [] /\ Forall clean_name parts /\ rel = render parts /\ components (trim raw) = map Normal parts.
Proof.
  unfold normalize_context_mutation_path. destruct (is_empty _); [done|]. destruct (is_absolute _); [done|].
  destruct (mutation_parts _) as [parts|] eqn:H; [|done]. apply mutation_parts_Ok in H.
  destruct parts as [|p ps]; [done|]. intros [= <-]. exists (p :: ps). split_and!; [done| |exact (join_render (p :: ps))|done].
  apply Forall_forall. intros x Hx. apply (components_names (trim raw)). rewrite H. by apply list_elem_of_fmap_2.
Qed.

(** A file that the role may change, and how. *)
Definition permitted_change (role : RolePreset) (max : Z) (dirs : list string) (e : effect) : Prop :=
  exists dir parts m, dir ∈ dirs /\ parts <> [] /\ Forall clean_name parts /\
    let path := path_join dir (render parts) in
    components path = components dir ++ map Normal parts /\
    classify_mutability (render parts) = Some m /\ m <> Immutable /\ role <> Viewer /\ (m = HumanPrimary -> role = Owner) /\
    exists content, len content <= max /\
      ((e = FileWritten path content /\ is_session (render parts) = false) \/
       (e = FileAppended path content /\ m = AgentManaged /\
        (is_session (render parts) = true -> ends_with (String newline "") content = true))).

Lemma mutation_mode_Ok mode rel m : validate_context_mutation_mode mode rel m = Ok tt ->
  (is_append mode = true -> m = AgentManaged) /\ (is_append mode = false -> is_session rel = false).
Proof.
  unfold validate_context_mutation_mode. cbn [bad_requests].
  repeat match goal with |- context [if ?b then _ else _] => destruct b eqn:?; [done|] end. intros _.
  split; intros Ha; rewrite Ha in *; [by destruct m|]. by bool_hyps; destruct (is_session rel).
Qed.

Lemma with_newline_ends s : ends_with (String newline "") (with_newline s) = true.
Proof.
  unfold with_newline. destruct (ends_with _ s) eqn:H; [done|]. unfold ends_with. rewrite strip_suffix_app.
  by apply bool_decide_eq_true.
Qed.

Lemma len_nonneg s : 0 <= len s.
Proof. unfold len. lia. Qed.

Section mutation.
Context {X : Type} `{FH : FileHost X} (E : env) (ac : ApiConfig).
#[local] Abbreviation config := (cs_loader (ap_context ac)).

Definition agent_dirs (tenant : string) (agent : Uuid) : list string :=
  [tenant_agent_dir (env_uuid_text E) config tenant agent; flat_agent_dir (env_uuid_text E) config agent].

Lemma source_dir_silent tenant agent :
  silent (resolve_or_create_agent_context_source_dir (X := X) E (ap_files ac) (ap_context ac) tenant agent)
    (fun dir => dir ∈ agent_dirs tenant agent).
Proof.
  unfold resolve_or_create_agent_context_source_dir. cbn zeta. apply silent_ask. intros now io s.
  destruct (resolve_source_dir _ _ _ _ _) as [dir|] eqn:H.
  - apply silent_ret. unfold resolve_source_dir in H. destruct (path_is_dir _ _); [injection H as <-; left|].
    destruct (path_is_dir _ _); [injection H as <-; right; left|done].
  - eapply silent_andthen; [apply silent_call|]. intros u _. apply silent_ret. left.
Qed.

Lemma current_len_spec {B} P path (k : Z -> handler B) :
  (forall n, 0 <= n -> at_most P (k n)) -> at_most P (bind (current_len (X := X) E (ap_files ac) path) k).
Proof.
  intros Hk w. unfold bind, current_len, ask_files, on_files.
  match goal with |- context [k ?a ?w'] => destruct (Hk a) with (w := w') as (j & Hj & HT) end.
  { unfold metadata_len. destruct (fe_fault _ _ _); [done|]. destruct (file_content _ _); [apply len_nonneg|done]. }
  exists j. split; [|exact HT]. unfold appends in *. rewrite Hj. cbn. by rewrite app_nil_r.
Qed.

Lemma read_back_silent what path : silent (read_back (X := X) E (ap_files ac) (ap_context_calls ac) what path) (fun _ => True).
Proof. eapply silent_andthen; [apply silent_call|]. intros b _. by apply silent_ret. Qed.

Lemma mutate_at_most headers agent req role tenant :
  tenant_from_headers headers = Ok tenant -> role_from_headers (ap_auth ac) headers = Ok role ->
  at_most (permitted_change role (al_max_file_bytes config) (agent_dirs tenant agent))
    (mutate_agent_context_handler (X := X) E (ap_files ac) (ap_context ac) (ap_context_calls ac) (ap_auth ac) headers agent req).
Proof.
  intros Ht Hr. unfold mutate_agent_context_handler. destruct (negb _); [apply at_most_ret|]. rewrite Ht, Hr. cbn [check].
  apply at_most_check. intros mode _. apply at_most_check. intros rel Hrel. apply at_most_check. intros m Hm.
  apply at_most_check. intros u Hrole. apply at_most_check. intros [] Hmode%mutation_mode_Ok.
  eapply at_most_after; [apply source_dir_silent|]. intros dir Hdir. cbn zeta.
  eapply at_most_after; [apply silent_call|]. intros _ _. apply current_len_spec. intros n Hn.
  destruct (_ <? _) eqn:Hlen; [apply at_most_ret|]. apply Z.ltb_ge in Hlen.
  eapply at_most_then; [|intros _; eapply (silent_andthen _ (fun _ => True)); [apply read_back_silent|
    intros [sha bytes] _; by apply silent_ret]].
  apply mutation_path_Ok in Hrel as (parts & Hne & Hclean & -> & _).
  assert (classify_mutability (render parts) = Some m) as Hc
    by (destruct (classify_mutability _); [by injection Hm as <-|done]).
  assert (m <> Immutable /\ role <> Viewer /\ (m = HumanPrimary -> role = Owner)) as (H1 & H2 & H3)
    by (by destruct m, role).
  destruct (is_append mode) eqn:Ha; apply at_most_change; exists dir, parts, m; cbn zeta;
    rewrite components_join by done; split_and!; try done.
  - destruct Hmode as [Hmode _]. eexists. split; [|right; split; [reflexivity|split; [by apply Hmode|]]].
    + cbn [andb] in *. lia.
    + intros ->. apply with_newline_ends.
  - destruct Hmode as [_ Hmode]. eexists. split; [exact Hlen|left]. by split; [|apply Hmode].
Qed.
End mutation.


(** * What it does to the files *)

(** Nothing is removed, and nothing becomes something else. *)
Definition nodes_kept (f f' : fs) : Prop := forall p n, f !! p = Some n -> f' !! p = Some n.

(** Directories may be made; no content changes. *)
Definition still (s s' : file_store) : Prop :=
  nodes_kept (fs_nodes s) (fs_nodes s') /\ fs_cwd s' = fs_cwd s /\ forall p, content_at s' p = content_at s p.

(** At most one file changes, as the effect says: the one that the path led to, if it
    led anywhere. *)
Definition changed_as (path : string) (content : string -> string) (s s' : file_store) : Prop :=
  exists p, is_file (fs_nodes s') p = true /\ (forall q, resolve_path s path = Some q -> q = p) /\
    (forall q, q <> p -> content_at s' q = content_at s q) /\ content_at s' p = content (content_at s p).

Definition one_change (j : list effect) (s s' : file_store) : Prop :=
  nodes_kept (fs_nodes s) (fs_nodes s') /\
  match j with
  | [] => forall p, content_at s' p = content_at s p
  | [FileWritten path c] => changed_as path (fun _ => c) s s'
  | [FileAppended path c] => changed_as path (fun old => old +:+ c) s s'
  | _ => False
  end.

Lemma still_refl s : still s s.
Proof. split_and!; [by intros p n|done|done]. Qed.

Lemma still_trans s1 s2 s3 : still s1 s2 -> still s2 s3 -> still s1 s3.
Proof.
  intros (H1 & H2 & H3) (K1 & K2 & K3). split_and!; [by intros p n ?%H1%K1|congruence|].
  intros p. by rewrite K3, H3.
Qed.

(** A path that leads somewhere leads there in every larger file system. *)
Lemma node_at_kept f f' p n : nodes_kept f f' -> node_at f p = Some n -> node_at f' p = Some n.
Proof. intros Hk. destruct p; [done|apply Hk]. Qed.

Lemma walk_kept f f' links todo d p : nodes_kept f f' -> walk links f todo d = Some p -> walk links f' todo d = Some p.
Proof.
  intros Hk. revert todo d. induction links as [|n IHn]; intros todo; induction todo as [|x rest IH]; intros d;
    cbn [walk]; try done.
  all: destruct (is_empty x || String.eqb x "."); [apply IH|].
  all: destruct (String.eqb x ".."); [apply IH|].
  all: destruct (node_at f (d ++ [x])) as [[| |target]|] eqn:En; try done;
    rewrite (node_at_kept _ _ _ _ Hk En); try done.
  1-2: apply IH.
  apply IHn.
Qed.

Lemma resolve_kept s s' path p : nodes_kept (fs_nodes s) (fs_nodes s') -> fs_cwd s' = fs_cwd s ->
  resolve_path s path = Some p -> resolve_path s' path = Some p.
Proof. intros Hk Hc. unfold resolve_path. rewrite Hc. by apply walk_kept. Qed.

Lemma make_dirs_kept todo f d f' : make_dirs f todo d = Some f' -> nodes_kept f f'.
Proof.
  revert f d. induction todo as [|x rest IH]; intros f d; cbn [make_dirs]; [by intros [= <-] p n|].
  destruct (_ || _); [apply IH|]. destruct (String.eqb x ".."); [apply IH|].
  destruct (node_at f (d ++ [x])) as [[| |t]|] eqn:En; [apply IH|done| |].
  - destruct (walk _ _ _ _); [|done]. destruct (is_dir _ _); [apply IH|done].
  - intros H p n Hp. apply (IH _ _ H). rewrite lookup_insert_ne; [done|]. intros <-.
    destruct (d ++ [x]) eqn:Ed; [by destruct d|]. cbn in En. congruence.
Qed.

Lemma create_dir_all_still io path s s' : create_dir_all io path s = Ok s' -> still s s'.
Proof.
  unfold create_dir_all. destruct (io path); [done|]. destruct (make_dirs _ _ _) eqn:H; [|done]. intros [= <-].
  split_and!; [by apply make_dirs_kept in H|done|done].
Qed.

(** The file that is opened: one that the path leads to, or a new one. *)
Lemma open_target_Ok s path p : open_target s path = Ok p ->
  (forall q, resolve_path s path = Some q -> q = p) /\
  (fs_nodes s !! p = Some File \/ fs_nodes s !! p = None) /\ p <> [].
Proof.
  unfold open_target. destruct (resolve_path s path) as [q|] eqn:Hr.
  - destruct (is_file _ _) eqn:Hf; [|done]. intros [= <-]. unfold is_file in Hf. apply bool_decide_eq_true in Hf.
    destruct q; [done|]. split_and!; [by intros ? [= <-]|by left|done].
  - destruct (rev _) as [|name parents]; [done|]. destruct (walk _ _ _ _) as [d|]; [|done].
    destruct (_ && _) eqn:Hn; [|done]. intros [= <-]. bool_hyps. split_and!; [done| |by destruct d].
    right. destruct (d ++ [name]) eqn:Ed; [by destruct d|]. cbn in H0. apply eq_None_not_Some. by rewrite <- Ed in *.
Qed.

Lemma set_content_changed s path p g : open_target s path = Ok p ->
  let s' := set_content s p (g (content_at s p)) in
  nodes_kept (fs_nodes s) (fs_nodes s') /\ changed_as path g s s'.
Proof.
  intros (Hr & Hn & Hne)%open_target_Ok. cbn. split.
  - intros q n Hq. cbn. destruct (decide (q = p)) as [->|?]; [|by rewrite lookup_insert_ne].
    rewrite lookup_insert_eq. destruct Hn; congruence.
  - exists p. split_and!; [|done| |].
    + unfold is_file. apply bool_decide_eq_true. cbn. destruct p; [done|]. cbn. by rewrite lookup_insert_eq.
    + intros q Hq. unfold content_at. cbn. by rewrite lookup_insert_ne.
    + unfold content_at. cbn. by rewrite lookup_insert_eq.
Qed.

Lemma write_file_change io path c s s' : write_file io path c s = Ok s' -> one_change [FileWritten path c] s s'.
Proof.
  unfold write_file. destruct (io path); [done|]. destruct (open_target s path) as [p|] eqn:H; [|done]. intros [= <-].
  apply (set_content_changed s path p (fun _ => c) H).
Qed.

Lemma append_file_change io path c s s' : append_file io path c s = Ok s' -> one_change [FileAppended path c] s s'.
Proof.
  unfold append_file. destruct (io path); [done|]. destruct (open_target s path) as [p|] eqn:H; [|done]. intros [= <-].
  apply (set_content_changed s path p (fun old => old +:+ c) H).
Qed.

(** What does not touch contents before or after does not matter. *)
Lemma still_change j s1 s2 s3 : still s1 s2 -> one_change j s2 s3 -> one_change j s1 s3.
Proof.
  intros (H1 & H2 & H3) [K1 K2]. split; [by intros p n ?%H1%K1|].
  assert (forall path g, changed_as path g s2 s3 -> changed_as path g s1 s3) as Hc.
  { intros path g (p & Hf & Hr & Ho & Hp). exists p. split_and!; [done| | |by rewrite Hp, H3].
    - intros q Hq. apply Hr. by apply (resolve_kept s1).
    - intros q Hq. by rewrite Ho, H3. }
  destruct j as [|[] [|e' j]]; try done; [intros p; by rewrite K2, H3|by apply Hc..].
Qed.

Lemma change_still j s1 s2 s3 : one_change j s1 s2 -> still s2 s3 -> one_change j s1 s3.
Proof.
  intros [H1 H2] (K1 & K2 & K3). split; [by intros p n ?%H1%K1|].
  assert (forall path g, changed_as path g s1 s2 -> changed_as path g s1 s3) as Hc.
  { intros path g (p & Hf & Hr & Ho & Hp). exists p. split_and!; [|done| |by rewrite K3, Hp].
    - unfold is_file in *. apply bool_decide_eq_true in Hf. apply bool_decide_eq_true. by apply (node_at_kept (fs_nodes s2)).
    - intros q Hq. by rewrite K3, Ho. }
  destruct j as [|[] [|e' j]]; try done; [intros p; by rewrite K3, H2|by apply Hc..].
Qed.

Lemma still_one s s' : still s s' -> one_change [] s s'.
Proof. intros (H1 & H2 & H3). by split. Qed.

Section store.
Context {X : Type} `{FH : FileHost X} `{HL : !FileHostLaws X} (E : env) (ac : ApiConfig).
Context (Hquiet : forall t s, fe_other (ap_files ac) t s = s).
#[local] Abbreviation files w := (host_files (w_ext w)).

(** A computation that leaves the contents alone, one that changes at most one. *)
Definition calm {A} (m : M X A) : Prop := forall w, appends m w [] /\ still (files w) (files (m w).2).
Definition alters {A} (m : M X A) : Prop :=
  forall w, exists j, appends m w j /\ one_change j (files w) (files (m w).2).

Lemma calm_ret {A} (a : A) : calm (ret a).
Proof. intros w. split; [unfold appends; cbn; by rewrite app_nil_r|apply still_refl]. Qed.

Lemma calm_alters {A} (m : M X A) : calm m -> alters m.
Proof. intros H w. destruct (H w) as [? ?]. exists []. split; [done|by apply still_one]. Qed.

Lemma calm_on_files {A} (f : Z -> (string -> option string) -> file_store -> result (file_store * A) string) :
  (forall now io s s' a, f now io s = Ok (s', a) -> still s s') -> calm (on_files E (ap_files ac) f (fun _ => [])).
Proof.
  intros Hf w. unfold appends, on_files. rewrite Hquiet. destruct (f _ _ _) as [[s' a]|e] eqn:H; cbn;
    rewrite app_nil_r, host_files_set; (split; [done|]); [by eapply Hf|apply still_refl].
Qed.

Lemma calm_ask {A} (f : Z -> (string -> option string) -> file_store -> A) : calm (ask_files E (ap_files ac) f).
Proof. apply calm_on_files. intros now io s s' a [= <- _]. apply still_refl. Qed.

Lemma alters_change (f : (string -> option string) -> file_store -> result file_store string) e :
  (forall io s s', f io s = Ok s' -> one_change [e] s s') -> alters (change_files E (ap_files ac) f [e]).
Proof.
  intros Hf w. unfold appends, change_files, on_files. rewrite Hquiet.
  destruct (f _ _) as [s'|e'] eqn:H; cbn; rewrite host_files_set.
  - exists [e]. split; [done|by eapply Hf].
  - exists []. split; [by rewrite app_nil_r|apply still_one, still_refl].
Qed.

Lemma calm_dirs path : calm (change_files E (ap_files ac) (fun io s => create_dir_all io path s) []).
Proof.
  apply calm_on_files. intros now io s s' a. destruct (create_dir_all io path s) as [s1|] eqn:H; [|done].
  intros [= <- _]. by eapply create_dir_all_still.
Qed.

Lemma calm_or_internal {A} what (m : M X A) : calm m -> calm (or_internal E what m).
Proof. intros H w. specialize (H w). unfold appends, or_internal, try in *. by destruct (m w). Qed.

Lemma alters_or_internal {A} what (m : M X A) : alters m -> alters (or_internal E what m).
Proof. intros H w. specialize (H w). unfold appends, or_internal, try in *. by destruct (m w). Qed.

Lemma alters_after {A B} (m : M X A) (k : A -> M X B) : calm m -> (forall a, alters (k a)) -> alters (bind m k).
Proof.
  intros Hm Hk w. destruct (Hm w) as [Hj Hs]. unfold appends, bind in *. destruct (m w) as [[a|e] w1]; cbn in Hj, Hs.
  - destruct (Hk a w1) as (j & Hj' & Hc). exists j. unfold appends in Hj'. rewrite Hj', Hj, app_nil_r.
    split; [done|by eapply still_change].
  - exists []. split; [done|by apply still_one].
Qed.

Lemma alters_then {A B} (m : M X A) (k : A -> M X B) : alters m -> (forall a, calm (k a)) -> alters (bind m k).
Proof.
  intros Hm Hk w. destruct (Hm w) as (j & Hj & Hs). unfold appends, bind in *. destruct (m w) as [[a|e] w1]; cbn in Hj, Hs.
  - destruct (Hk a w1) as [Hj' Hc]. exists j. unfold appends in Hj'. rewrite Hj', Hj, app_nil_r.
    split; [done|by eapply change_still].
  - by exists j.
Qed.

Lemma calm_bind {A B} (m : M X A) (k : A -> M X B) : calm m -> (forall a, calm (k a)) -> calm (bind m k).
Proof.
  intros Hm Hk w. destruct (Hm w) as [Hj Hs]. unfold appends, bind in *. destruct (m w) as [[a|e] w1]; cbn in Hj, Hs; [|done].
  destruct (Hk a w1) as [Hj' Hc]. unfold appends in Hj'. rewrite Hj', Hj, !app_nil_r. split; [done|by eapply still_trans].
Qed.

Lemma calm_check {A B} (r : ApiResult A) (k : A -> handler B) : (forall a, calm (k a)) -> calm (check r k).
Proof. intros H. destruct r; [apply H|apply calm_ret]. Qed.
Lemma alters_check {A B} (r : ApiResult A) (k : A -> handler B) : (forall a, alters (k a)) -> alters (check r k).
Proof. intros H. destruct r; [apply H|apply calm_alters, calm_ret]. Qed.

Lemma calm_andthen {A B} (m : handler A) (k : A -> handler B) : calm m -> (forall a, calm (k a)) -> calm (andthen m k).
Proof. intros Hm Hk. apply calm_bind; [done|]. intros r. by apply calm_check. Qed.

Lemma mutate_alters headers agent req :
  alters (mutate_agent_context_handler (X := X) E (ap_files ac) (ap_context ac) (ap_context_calls ac) (ap_auth ac) headers agent req).
Proof.
  unfold mutate_agent_context_handler. destruct (negb _); [apply calm_alters, calm_ret|].
  do 7 (apply alters_check; intros ?). apply alters_after; [|intros d; apply alters_check; intros dir].
  - unfold resolve_or_create_agent_context_source_dir. apply calm_bind; [apply calm_ask|]. intros [d|e]; [apply calm_ret|].
    apply calm_andthen; [apply calm_or_internal, calm_dirs|]. intros u. apply calm_ret.
  - apply alters_after; [apply calm_or_internal, calm_dirs|]. intros r. apply alters_check. intros u.
    apply alters_after; [apply calm_ask|]. intros n. destruct (_ <? _); [apply calm_alters, calm_ret|].
    apply alters_then.
    + destruct (is_append _); apply alters_or_internal, alters_change; intros io s s';
        [apply append_file_change|apply write_file_change].
    + intros r'. apply calm_check. intros u'. apply calm_andthen; [|intros [sha bytes]; apply calm_ret].
      apply calm_andthen; [|intros b; apply calm_ret]. apply calm_or_internal, calm_on_files.
      intros now io s s' x. destruct (fs_read _ _ _); [|done]. intros [= <- _]. apply still_refl.
Qed.
End store.

(** While no other process touches the files, a request to change a context file
    removes nothing and changes the content of one file at most: the one its path
    led to, if it led to any.  A replacement leaves there what the request carries,
    an appending leaves what was there before followed by it; so with
    [context_mutations_follow_the_classification] a transcript only grows. *)
Theorem context_mutations_change_one_file X `{FH : FileHost X} `{!FileHostLaws X} E ac headers agent req (w : world X) j
    (Hquiet : forall t s, fe_other (ap_files ac) t s = s)
    (Hj : appends (serve E ac headers (MutateAgentContext agent req)) w j) :
  one_change j (host_files (w_ext w)) (host_files (w_ext (serve E ac headers (MutateAgentContext agent req) w).2)).
Proof.
  apply answer_code_appends in Hj. destruct (mutate_alters E ac Hquiet headers agent req w) as (j' & Hj' & H).
  unfold appends in Hj, Hj'. rewrite Hj' in Hj. apply app_inv_head in Hj as ->.
  cbn [serve]. unfold answer_code, andthen, bind. destruct (mutate_agent_context_handler _ _ _ _ _ _ _ _ w) as [[[]|] ?]; exact H.
Qed.

(** * Heartbeats *)

Lemma bad_requests_Ok l : Forall (fun p : bool * string => p.1 = false) l -> bad_requests l = Ok tt.
Proof. induction 1 as [|[b m] l Hb _ IH]; [done|]. cbn in *. by rewrite Hb. Qed.

(** A candidate of the compiler passes the checks of the endpoints that create a
    trigger of its kind, with any number of attempts that the materialisation accepts. *)
Theorem heartbeats_pass_the_trigger_checks cron_error timezone_ok markdown c agent user input requested attempts
    (Hc : c ∈ hr_candidates (compile_heartbeat_markdown cron_error timezone_ok markdown))
    (Hattempts : out_of 1 20 attempts = false) :
  match hc_kind c with
  | Interval => exists n, hc_interval_seconds c = Some n /\
      check_interval_request
        {| ct_agent_id := agent; ct_triggered_by_user_id := user; ct_recipe_id := hc_recipe_id c; ct_input := input;
           ct_requested_capabilities := requested; ct_interval_seconds := n;
           ct_max_inflight_runs := hc_max_inflight_runs c; ct_jitter_seconds := hc_jitter_seconds c |} = Ok tt
  | Cron => exists e, hc_cron_expression c = Some e /\
      check_cron_request
        {| cn_agent_id := agent; cn_triggered_by_user_id := user; cn_recipe_id := hc_recipe_id c; cn_input := input;
           cn_requested_capabilities := requested; cn_cron_expression := e;
           cn_schedule_timezone := default "UTC" (hc_timezone c); cn_max_attempts := attempts;
           cn_max_inflight_runs := hc_max_inflight_runs c; cn_jitter_seconds := hc_jitter_seconds c |} = Ok tt
  end.
Proof.
  destruct (heartbeat_candidates_are_acceptable cron_error timezone_ok markdown) as (Hall & _).
  rewrite Forall_forall in Hall. destruct (Hall c Hc) as [[Hi Hj] Hk].
  assert ((out_of 1 1000 (hc_max_inflight_runs c) = false) /\ (out_of 0 3600 (hc_jitter_seconds c) = false)) as [B1 B2]
    by (unfold out_of; rewrite !orb_false_iff, !Z.ltb_ge; lia).
  destruct (hc_kind c).
  - destruct Hk as (n & -> & Hn & _). exists n. split; [done|]. apply bad_requests_Ok. repeat constructor; try done.
    + apply Z.leb_gt. cbn [ct_interval_seconds]. lia.
    + apply Z.ltb_ge. cbn [ct_interval_seconds]. lia.
  - destruct Hk as (e & z & -> & -> & _ & He & Hne & Hz & Hnz & _). exists e. split; [done|].
    apply bad_requests_Ok. repeat constructor; try done; cbn [fst cn_cron_expression cn_schedule_timezone default].
    + rewrite He. by apply string_eqb_neq.
    + change (is_empty (trim z) = false). rewrite Hz. by apply string_eqb_neq.
Qed.

Section heartbeats.
Context {X : Type} `{FH : FileHost X} (E : env) (ac : ApiConfig).
#[local] Abbreviation compile := (compile_heartbeat_markdown (cc_cron_error (ap_context_calls ac)) (cc_timezone_ok (ap_context_calls ac))).
#[local] Abbreviation materialize := (materialize_agent_heartbeat_handler (X := X) E (ap_files ac) (ap_context ac)
  (ap_context_calls ac) (ap_schedules ac) (ap_jitter_hash ac) (ap_parse_uuid ac) (ap_auth ac) (ap_tenant_max_triggers ac)).

(** ** What a materialisation leaves in the journal *)

(** A trigger for a candidate, or the record that it was materialised. *)
Definition materialized (tenant : string) (agent : Uuid) (role : RolePreset) (user : option Uuid) (requested : json)
    (candidates : list HeartbeatTriggerCandidate) (e : effect) : Prop :=
  match e with
  | TriggerCreated t =>
      exists c granted, c ∈ candidates /\ resolve_granted_capabilities (hc_recipe_id c) role requested = Ok granted /\
        row_of_request tenant agent user (hc_recipe_id c) granted t /\ same_schedule tenant agent c t = true
  | TriggerAudited n => nt_tenant_id n = tenant /\ nt_event_type n = "trigger.materialized"
  | _ => False
  end.

(** The row of a candidate has its schedule. *)
Lemma created_schedule g c granted now (f : Z -> tdb -> result (tdb * TriggerRecord) db_error) s s' t id wall :
  (exists n, hc_kind c = Interval /\ hc_interval_seconds c = Some n /\
     f = (fun now => if on_sqlite (env_pool E) then insert_trigger_sqlite (interval_row (current_timestamp now) (heartbeat_interval g c granted id wall n))
                     else create_interval_trigger now (heartbeat_interval g c granted id wall n))) \/
  (exists e, hc_kind c = Cron /\ hc_cron_expression c = Some e /\
     f = (fun now => if on_sqlite (env_pool E) then insert_trigger_sqlite (cron_row (current_timestamp now) wall (heartbeat_cron g c granted id e))
                     else create_cron_trigger (ap_schedules ac) (ap_jitter_hash ac) wall now (heartbeat_cron g c granted id e))) ->
  f now s = Ok (s', t) ->
  insert_trigger t s = Ok (s', t) /\ same_schedule (hg_tenant_id g) (hg_agent_id g) c t = true /\
  row_of_request (hg_tenant_id g) (hg_agent_id g) (hg_triggered_by_user_id g) (hc_recipe_id c) granted t.
Proof.
  intros [(n & Hk & Hn & ->)|(e & Hk & He & ->)]; destruct (on_sqlite _);
    unfold insert_trigger_sqlite, create_interval_trigger, create_cron_trigger, ensure;
    repeat (destruct (map_err _ _); [|done]);
    match goal with |- context [if ?b then _ else _] => destruct b; [|done] end;
    intros Hi; pose proof (insert_trigger_row _ _ _ _ Hi) as ->; (split; [exact Hi|]); (split; [|by repeat split]);
    unfold same_schedule; cbn; rewrite !String.eqb_refl, !Z.eqb_refl, Hk, ?Hn, ?He; cbn; by rewrite ?bool_decide_eq_true_2.
Qed.

Lemma create_heartbeat_only tenant agent role user requested cands g c granted :
  hg_tenant_id g = tenant -> hg_agent_id g = agent -> hg_triggered_by_user_id g = user ->
  c ∈ cands -> resolve_granted_capabilities (hc_recipe_id c) role requested = Ok granted ->
  only (materialized tenant agent role user requested cands)
    (create_heartbeat_trigger (X := X) E (ap_schedules ac) (ap_jitter_hash ac) g c granted).
Proof.
  intros <- <- <- Hc Hg. unfold create_heartbeat_trigger.
  apply only_bind; [apply only_new_v4|intros id _]. apply only_bind; [apply only_now_utc|intros wall _].
  destruct (hc_kind c) eqn:Hk; apply only_check; intros x Hx; cbn zeta; apply only_or_internal, only_tstmt;
    intros now s s' t F; constructor; [|constructor| |constructor]; exists c, granted; (split; [done|]); (split; [done|]).
  - destruct (hc_interval_seconds c) as [n|] eqn:Hn; [|done]. injection Hx as <-.
    by destruct (created_schedule g c granted now _ s s' t id wall (or_introl (ex_intro _ n (conj Hk (conj Hn eq_refl)))) F) as (_ & ? & ?).
  - destruct (hc_cron_expression c) as [e|] eqn:He; [|done]. injection Hx as <-.
    by destruct (created_schedule g c granted now _ s s' t id wall (or_intror (ex_intro _ e (conj Hk (conj He eq_refl)))) F) as (_ & ? & ?).
Qed.

Lemma apply_candidates_only role g details cands l :
  l ⊆ cands ->
  only (materialized (hg_tenant_id g) (hg_agent_id g) role (hg_triggered_by_user_id g) (hg_requested g) cands)
    (apply_candidates (X := X) E (ap_schedules ac) (ap_jitter_hash ac) (ap_tenant_max_triggers ac) role g details l).
Proof.
  induction l as [|c l IH]; intros Hl; cbn [apply_candidates]; [apply only_ret|].
  apply only_andthen; [|intros item; apply only_andthen; [apply IH; set_solver|intros items; apply only_ret]].
  apply only_andthen; [apply only_check; intros u _; apply only_or_internal, only_tquery|].
  intros [id|]; [apply only_ret|]. apply only_andthen.
  { unfold ensure_tenant_trigger_capacity. destruct (ap_tenant_max_triggers ac); [|apply only_ret].
    apply only_andthen; [apply only_or_internal, only_tquery|]. intros n. destruct (_ <=? _); apply only_ret. }
  intros u. apply only_check. intros granted Hg. apply only_andthen; [eapply create_heartbeat_only; [done..|set_solver|done]|].
  intros t. apply only_andthen; [|intros u'; apply only_ret].
  unfold append_trigger_audit. apply only_bind; [apply only_new_v4|intros n _].
  apply only_or_internal, only_tstmt. intros now s s' a _. by repeat constructor.
Qed.

Lemma load_context_only P tenant agent :
  only P (load_context (X := X) E (ap_files ac) (ap_context ac) (ap_context_calls ac) tenant agent).
Proof.
  unfold load_context. apply only_bind; [by apply only_on_files|]. intros r _. apply only_check. intros s _. apply only_ret.
Qed.

Lemma heartbeat_source_only P tenant agent inline :
  only P (heartbeat_source_of (X := X) E (ap_files ac) (ap_context ac) (ap_context_calls ac) tenant agent inline).
Proof.
  unfold heartbeat_source_of. destruct (trimmed inline); [apply only_ret|].
  apply only_andthen; [apply load_context_only|]. intros s. apply only_check. intros md _. apply only_ret.
Qed.

(** The request that a materialisation has checked. *)
Lemma materialize_request_Ok role actor tenant agent req g :
  materialize_request role actor tenant agent req = Ok g -> mh_apply req = true ->
  mh_approval_confirmed req = true /\ (exists u, actor = Some u) /\ hg_tenant_id g = tenant /\ hg_agent_id g = agent /\
  normalize_requested_capabilities_payload (mh_requested_capabilities req) = Ok (hg_requested g) /\
  resolve_trigger_actor_for_create role actor (mh_triggered_by_user_id req) = Ok (hg_triggered_by_user_id g).
Proof.
  unfold materialize_request. intros H Ha. rewrite Ha in H. cbn [andb] in H.
  destruct (mh_approval_confirmed req); [|done]. destruct actor as [u|]; [|done]. cbn [negb is_some] in H.
  destruct (out_of _ _ _); [done|]. destruct (normalize_requested_capabilities_payload _) as [q|]; [|done].
  destruct (resolve_trigger_actor_for_create _ _ _) as [v|]; [|done]. injection H as <-. split_and!; eauto.
Qed.

Definition approved (headers : HeaderMap) (agent : Uuid) (req : MaterializeHeartbeatRequest) (e : effect) : Prop :=
  exists tenant role u user requested md,
    trigger_caller (ap_parse_uuid ac) (ap_auth ac) headers = Ok (tenant, role, Some u) /\ role <> Viewer /\
    mh_apply req = true /\ mh_approval_confirmed req = true /\
    normalize_requested_capabilities_payload (mh_requested_capabilities req) = Ok requested /\
    (role = Owner -> user = mh_triggered_by_user_id req) /\ (role = Operator -> user = Some u) /\
    hr_issues (compile md) = [] /\ (forall inline, trimmed (mh_heartbeat_markdown req) = Some inline -> md = inline) /\
    materialized tenant agent role user requested (hr_candidates (compile md)) e.

Lemma only_given {A B} P (m : handler (X := X) A) (k : A -> handler B) (Q : A -> Prop) :
  only P m -> (forall w a, (m w).1 = Ok (Ok a) -> Q a) -> (forall a, Q a -> only P (k a)) -> only P (andthen m k).
Proof.
  intros Hm HQ Hk w. destruct (Hm w) as (j1 & Hj1 & HP1). specialize (HQ w).
  unfold appends, andthen, bind in *. destruct (m w) as [[[a|e]|e] w1]; cbn [check] in *; try by exists j1.
  destruct (Hk a (HQ a eq_refl) w1) as (j2 & Hj2 & HP2). exists (j1 ++ j2). unfold appends in Hj2.
  rewrite Hj2. cbn in Hj1. rewrite Hj1, app_assoc. split; [done|by apply Forall_app].
Qed.

Lemma inline_source tenant agent o (w : world X) src :
  (heartbeat_source_of E (ap_files ac) (ap_context ac) (ap_context_calls ac) tenant agent o w).1 = Ok (Ok src) ->
  forall inline, trimmed o = Some inline -> hs_markdown src = inline.
Proof. unfold heartbeat_source_of. intros H inline Hi. rewrite Hi in H. cbn in H. by injection H as <-. Qed.

Lemma materialize_only headers agent req : only (approved headers agent req) (materialize headers agent req).
Proof.
  unfold materialize_agent_heartbeat_handler. apply only_check. intros tenant Ht. apply only_check. intros role Hr.
  apply only_check. intros u Hrole. apply only_check. intros actor Hactor. apply only_check. intros g Hg.
  apply (only_given _ _ _ (fun src => forall inline, trimmed (mh_heartbeat_markdown req) = Some inline -> hs_markdown src = inline));
    [apply heartbeat_source_only|intros w src; apply inline_source|]. intros src Hsrc. cbn zeta.
  destruct (_ && _) eqn:Hissues; [apply only_ret|]. apply only_andthen; [|intros items; apply only_ret].
  destruct (mh_apply req) eqn:Ha; [|apply only_ret].
  destruct (materialize_request_Ok _ _ _ _ _ _ Hg Ha) as (Happ & [v ->] & <- & <- & Hq & Hu).
  eapply only_emits; [apply emits_only, apply_candidates_only; reflexivity|]. cbn beta. intros _ j Hall.
  eapply Forall_impl; [exact Hall|]. intros e He.
  exists (hg_tenant_id g), role, v, (hg_triggered_by_user_id g), (hg_requested g), (hs_markdown src).
  assert (trigger_caller (ap_parse_uuid ac) (ap_auth ac) headers = Ok (hg_tenant_id g, role, Some v)) as Hc.
  { unfold trigger_caller. rewrite Ht, Hr, Hactor, Hrole. done. }
  split_and!; try done.
  - by apply trigger_caller_Ok in Hc as (_ & _ & _ & ?).
  - intros ->. by injection Hu.
  - intros ->. apply resolve_actor_Ok in Hu as [_ Hu]. by destruct (Hu eq_refl) as (v' & [= ->] & ?).
  - cbn in Hissues. by apply bool_decide_eq_false, dec_stable in Hissues.
Qed.
End heartbeats.

(** C7: materialising heartbeats has no effect unless the caller is no viewer, names its
    user, asks to apply and confirms the approval, and the compiled markdown has no
    issue; the markdown is the one in the request, if it carries one.  Then each
    trigger is that of a candidate, with its schedule, for the tenant of the request
    and the agent, with the capabilities that the caller's role resolves for the
    recipe; an operator creates them for itself. *)
Theorem materialized_triggers_are_approved X `{FH : FileHost X} E ac headers agent req (w : world X) j
    (Hj : appends (serve E ac headers (MaterializeAgentHeartbeat agent req)) w j) :
  Forall (approved ac headers agent req) j.
Proof. apply answer_code_appends in Hj. exact (only_appends _ _ w j (materialize_only E ac headers agent req) Hj). Qed.

(** ** Applying twice *)

Definition scheduled (tenant : string) (agent : Uuid) (c : HeartbeatTriggerCandidate) (d : db) : Prop :=
  Exists (fun t => same_schedule tenant agent c t = true) (tt_triggers (d_triggers d)).

(** Other sessions leave a schedule where there is one. *)
Definition keeps_schedules (E : env) : Prop :=
  forall t tables tenant agent c,
    Exists (fun x => same_schedule tenant agent c x = true) (tt_triggers tables) ->
    Exists (fun x => same_schedule tenant agent c x = true) (tt_triggers (env_other_triggers E t tables)).

Lemma lookup_finds E tenant agent c s :
  existing_heartbeat_trigger E tenant agent c s <> None <->
  Exists (fun t => same_schedule tenant agent c t = true) (triggers_of s).
Proof.
  unfold existing_heartbeat_trigger. rewrite Exists_exists.
  set (l := List.filter _ _). split.
  - intros H. destruct (order_by (newest_first E) l) as [|t rest] eqn:Ho; [done|].
    assert (t ∈ l) as Ht by (rewrite <- (elem_of_order_by (newest_first E)), Ho; left).
    apply list_elem_of_In, filter_In in Ht as [Ht Hs]. exists t. by rewrite list_elem_of_In.
  - intros (t & Ht & Hs). assert (t ∈ l) as Hl by (apply list_elem_of_In, filter_In; by rewrite <- list_elem_of_In).
    apply (elem_of_order_by (newest_first E)) in Hl. destruct (order_by _ l); [by inv Hl|done].
Qed.

Section schedules.
Context {X : Type} (E : env) (HE : keeps_schedules E).

Lemma scheduled_observed tenant agent c (w : world X) : scheduled tenant agent c (w_db w) -> scheduled tenant agent c (observed E w).
Proof. unfold scheduled, observed. destruct (env_other_payments E _ _). cbn. apply HE. Qed.

Lemma scheduled_stable tenant agent c : stable (X := X) (scheduled tenant agent c) E.
Proof. intros w. apply scheduled_observed. Qed.

(** Rows are only added. *)
Definition adds_triggers (s s' : tdb) : Prop := exists l, triggers_of s' = triggers_of s ++ l.

Lemma keeps_tstmt {A} tenant agent c (f : Z -> tdb -> result (tdb * A) db_error) log :
  (forall now s s' a, f now s = Ok (s', a) -> adds_triggers s s') ->
  keeps (scheduled tenant agent c) (tstmt (X := X) E f log).
Proof.
  intros Hf. apply keeps_stmt; [apply scheduled_stable|]. intros now d d' a F Hd.
  destruct (f now (trigger_db d)) as [[s' a']|] eqn:Ef; [|done]. injection F as <- _.
  apply Hf in Ef as [l Hl]. unfold scheduled in *. change (tt_triggers (d_triggers (with_trigger_db d s'))) with (triggers_of s').
  rewrite Hl. apply Exists_app. by left.
Qed.

Lemma keeps_tquery {A} tenant agent c (f : tdb -> A) : keeps (scheduled tenant agent c) (tquery (X := X) E f).
Proof. apply keeps_tstmt. intros now s s' a [= <- _]. exists []. by rewrite app_nil_r. Qed.

Lemma keeps_check {A B} I (r : ApiResult A) (k : A -> handler (X := X) B) :
  (forall a, r = Ok a -> keeps I (k a)) -> keeps I (check r k).
Proof. intros Hk. destruct r; [by apply Hk|apply keeps_ret]. Qed.

Lemma keeps_andthen {A B} I (m : handler (X := X) A) (k : A -> handler B) :
  keeps I m -> (forall a, keeps I (k a)) -> keeps I (andthen m k).
Proof. intros Hm Hk. apply keeps_bind; [done|]. intros r. apply keeps_check. auto. Qed.

Lemma keeps_or_internal {A} I what (m : M X A) : keeps I m -> keeps I (or_internal E what m).
Proof. intros Hm. apply keeps_try; [done|]. intros r. apply keeps_ret. Qed.

Lemma insert_adds t s s' r : insert_trigger t s = Ok (s', r) -> triggers_of s' = triggers_of s ++ [t].
Proof. unfold insert_trigger, ensure. destruct (negb _); [|done]. destruct (_ && _); [|done]. by intros [= <- _]. Qed.

(** What holds of the answer and of the database after it, when there is one. *)
Definition ends {A} (P : db -> Prop) (m : handler (X := X) A) (Q : A -> db -> Prop) : Prop :=
  forall w, P (w_db w) -> forall a, (m w).1 = Ok (Ok a) -> Q a (w_db (m w).2).

Lemma ends_andthen {A B} P (R : A -> db -> Prop) Q (m : handler A) (k : A -> handler B) :
  ends P m R -> (forall a, ends (R a) (k a) Q) -> ends P (andthen m k) Q.
Proof.
  intros Hm Hk w Hw b Hb. specialize (Hm w Hw). unfold andthen, bind in *.
  destruct (m w) as [[[a|e]|e] w1]; cbn [check] in *; [|done..]. by apply (Hk a w1 (Hm a eq_refl)).
Qed.

Lemma ends_pure {A B} P Q (a : A) (k : A -> handler (X := X) B) : ends P (k a) Q -> ends P (andthen (ret (Ok a)) k) Q.
Proof. done. Qed.

Lemma ends_check {A B} P Q (r : ApiResult A) (k : A -> handler B) :
  (forall a, r = Ok a -> ends P (k a) Q) -> ends P (check r k) Q.
Proof. intros Hk. destruct r as [a|e]; [by apply Hk|]. by intros w _ b. Qed.

Lemma ends_bind {A B} P Q (m : M X A) (k : A -> handler B) :
  (forall a, ends (fun _ => True) (k a) Q) -> ends P (bind m k) Q.
Proof. intros Hk w _ b. unfold bind. destruct (m w) as [[a|e] w1]; [by apply Hk|done]. Qed.

Lemma ends_keeps {A} I (m : handler (X := X) A) : keeps I m -> ends I m (fun _ => I).
Proof. intros Hm w Hw a _. by apply Hm. Qed.

Lemma ends_tstmt {A} P what (f : Z -> tdb -> result (tdb * A) db_error) log (Q : A -> db -> Prop) :
  (forall now d s' a, f now (trigger_db d) = Ok (s', a) -> Q a (with_trigger_db d s')) ->
  ends P (or_internal E what (tstmt E f log)) Q.
Proof.
  intros Hf w _ a. unfold or_internal, try, tstmt, stmt.
  destruct (env_fault E (w_tick w)) as [[[] m]|]; cbn; [|done|];
    destruct (f _ _) as [[s' a']|] eqn:F; cbn; try done. intros [= <-]. by eapply Hf.
Qed.

Section grant.
Context (ac : ApiConfig) (role : RolePreset) (g : heartbeat_grant) (details : HeartbeatTriggerCandidate -> json).
#[local] Abbreviation sched := (scheduled (hg_tenant_id g) (hg_agent_id g)).
#[local] Abbreviation apply_one := (apply_candidate (X := X) E (ap_schedules ac) (ap_jitter_hash ac) (ap_tenant_max_triggers ac) role g details).
#[local] Abbreviation apply_all := (apply_candidates (X := X) E (ap_schedules ac) (ap_jitter_hash ac) (ap_tenant_max_triggers ac) role g details).

Lemma keeps_capacity c tenant : keeps (sched c) (ensure_tenant_trigger_capacity (X := X) E (ap_tenant_max_triggers ac) tenant).
Proof.
  unfold ensure_tenant_trigger_capacity. destruct (ap_tenant_max_triggers ac); [|apply keeps_ret].
  apply keeps_andthen; [apply keeps_or_internal, keeps_tquery|]. intros n. destruct (_ <=? _); apply keeps_ret.
Qed.

Lemma keeps_audit c tenant id R ty v : keeps (sched c) (append_trigger_audit (X := X) E tenant id R ty v).
Proof.
  unfold append_trigger_audit. apply keeps_bind; [apply keeps_new_v4|intros n]. apply keeps_or_internal, keeps_tstmt.
  intros now s s' a. unfold append_trigger_audit_event, ensure. destruct (negb _); [|done].
  destruct (trigger_exists _ _); [|done]. intros [= <- _]. exists []. by rewrite app_nil_r.
Qed.

(** A creation adds a row, with the schedule of its candidate. *)
Lemma create_heartbeat_schedules c granted :
  ends (fun _ => True) (create_heartbeat_trigger (X := X) E (ap_schedules ac) (ap_jitter_hash ac) g c granted)
    (fun _ d => sched c d).
Proof.
  unfold create_heartbeat_trigger. apply ends_bind. intros id. apply ends_bind. intros wall.
  assert (forall d s' t, insert_trigger t (trigger_db d) = Ok (s', t) ->
    same_schedule (hg_tenant_id g) (hg_agent_id g) c t = true -> sched c (with_trigger_db d s')) as Hins.
  { intros d s' t Hi%insert_adds Hs. unfold scheduled. change (tt_triggers (d_triggers (with_trigger_db d s'))) with (triggers_of s').
    rewrite Hi. apply Exists_app. right. by constructor. }
  destruct (hc_kind c) eqn:Hk; apply ends_check; intros x Hx; cbn zeta; apply ends_tstmt; intros now d s' t F.
  - destruct (hc_interval_seconds c) as [n|] eqn:Hn; [|done]. injection Hx as <-.
    destruct (created_schedule E ac g c granted now _ _ s' t id wall (or_introl (ex_intro _ n (conj Hk (conj Hn eq_refl)))) F) as (? & ? & _).
    by apply (Hins _ _ t).
  - destruct (hc_cron_expression c) as [e|] eqn:He; [|done]. injection Hx as <-.
    destruct (created_schedule E ac g c granted now _ _ s' t id wall (or_intror (ex_intro _ e (conj Hk (conj He eq_refl)))) F) as (? & ? & _).
    by apply (Hins _ _ t).
Qed.

Lemma create_heartbeat_keeps c c' granted :
  keeps (sched c') (create_heartbeat_trigger (X := X) E (ap_schedules ac) (ap_jitter_hash ac) g c granted).
Proof.
  unfold create_heartbeat_trigger. apply keeps_bind; [apply keeps_new_v4|intros id].
  apply keeps_bind; [by intros w|intros wall].
  destruct (hc_kind c) eqn:Hk; apply keeps_check; intros x Hx; cbn zeta; apply keeps_or_internal, keeps_tstmt; intros now s s' t F.
  - destruct (hc_interval_seconds c) as [n|] eqn:Hn; [|done]. injection Hx as <-.
    destruct (created_schedule E ac g c granted now _ _ s' t id wall (or_introl (ex_intro _ n (conj Hk (conj Hn eq_refl)))) F) as (Hi & _).
    exists [t]. by apply insert_adds in Hi.
  - destruct (hc_cron_expression c) as [e|] eqn:He; [|done]. injection Hx as <-.
    destruct (created_schedule E ac g c granted now _ _ s' t id wall (or_intror (ex_intro _ e (conj Hk (conj He eq_refl)))) F) as (Hi & _).
    exists [t]. by apply insert_adds in Hi.
Qed.

Lemma find_existing_keeps c c' : keeps (sched c') (find_existing_heartbeat_trigger_id (X := X) E (hg_tenant_id g) (hg_agent_id g) c).
Proof. apply keeps_check. intros u _. apply keeps_or_internal, keeps_tquery. Qed.

Lemma apply_candidate_keeps c c' : keeps (sched c') (apply_one c).
Proof.
  apply keeps_andthen; [apply find_existing_keeps|]. intros [id|]; [apply keeps_ret|].
  apply keeps_andthen; [apply keeps_capacity|intros u]. apply keeps_check. intros granted _.
  apply keeps_andthen; [apply create_heartbeat_keeps|intros t]. apply keeps_andthen; [apply keeps_audit|intros u'; apply keeps_ret].
Qed.

Lemma apply_candidates_keeps c' l : keeps (sched c') (apply_all l).
Proof.
  induction l as [|c l IH]; cbn [apply_candidates]; [apply keeps_ret|].
  apply keeps_andthen; [apply apply_candidate_keeps|intros item]. apply keeps_andthen; [exact IH|intros items; apply keeps_ret].
Qed.

(** After an answer every candidate has its schedule. *)
Lemma apply_candidate_schedules c : ends (fun _ => True) (apply_one c) (fun _ d => sched c d).
Proof.
  unfold apply_candidate. apply (ends_andthen _ (fun o d => o <> None -> sched c d)).
  - apply ends_check. intros u _. apply ends_tstmt. intros now d s' a [= <- <-] Ha.
    apply lookup_finds in Ha. exact Ha.
  - intros [id|]; [intros w Hw a _; by apply Hw|]. apply (ends_andthen _ (fun _ _ => True)); [done|intros u].
    apply ends_check. intros granted _. apply (ends_andthen _ (fun _ d => sched c d)).
    + intros w _. by apply create_heartbeat_schedules.
    + intros t. apply ends_andthen with (R := fun _ d => sched c d); [apply ends_keeps, keeps_audit|intros u'].
      intros w Hw a _. exact Hw.
Qed.

Lemma apply_candidates_schedule l : ends (fun _ => True) (apply_all l) (fun _ d => Forall (fun c => sched c d) l).
Proof.
  induction l as [|c l IH]; cbn [apply_candidates]; [intros w _ a _; constructor|].
  apply (ends_andthen _ (fun _ d => sched c d)); [apply apply_candidate_schedules|intros item].
  apply (ends_andthen _ (fun _ d => Forall (fun c => sched c d) (c :: l))).
  - intros w Hw a Ha. constructor; [by apply apply_candidates_keeps|by apply (IH w I a)].
  - intros items w Hw a _. exact Hw.
Qed.

(** Where every candidate has its schedule nothing is done. *)
Lemma apply_candidate_idle c (w : world X) : sched c (w_db w) -> appends (apply_one c) w [].
Proof.
  intros Hw%scheduled_observed. unfold apply_candidate, find_existing_heartbeat_trigger_id.
  destruct (candidate_complete c) as [u|e]; cbn [check]; [|unfold appends; cbn; by rewrite app_nil_r].
  unfold appends, andthen, or_internal, tquery, tstmt, bind, try, stmt.
  destruct (env_fault E (w_tick w)) as [[[] m]|]; cbn; rewrite ?app_nil_r; try done.
  destruct (existing_heartbeat_trigger E (hg_tenant_id g) (hg_agent_id g) c (trigger_db (observed E w))) as [id|] eqn:Hf;
    cbn; [by rewrite ?app_nil_r|]. exfalso. by apply (proj2 (lookup_finds E _ _ _ (trigger_db (observed E w))) Hw).
Qed.

Lemma apply_candidates_idle l (w : world X) : Forall (fun c => sched c (w_db w)) l -> appends (apply_all l) w [].
Proof.
  revert w. induction l as [|c l IH]; intros w Hw; cbn [apply_candidates].
  { unfold appends. cbn. by rewrite app_nil_r. }
  inv Hw. pose proof (apply_candidate_idle c w H1) as Hj.
  assert (Forall (fun c' => sched c' (w_db (apply_one c w).2)) l) as Hl.
  { eapply Forall_impl; [exact H2|]. intros c' Hc'. by apply apply_candidate_keeps. }
  unfold appends, andthen, bind in *. destruct (apply_one c w) as [[[item|e]|e] w1]; cbn [check] in *; [|exact Hj..].
  specialize (IH w1 Hl). unfold appends in IH. destruct (apply_all l w1) as [[[items|e]|e] w2]; cbn in *;
    rewrite !app_nil_r in *; congruence.
Qed.
End grant.
End schedules.

(** Once a materialisation that applies is answered, every candidate of its markdown has
    its schedule. *)
Lemma materialize_schedules {X} `{FH : FileHost X} E ac headers agent req md :
  keeps_schedules E -> mh_apply req = true -> trimmed (mh_heartbeat_markdown req) = Some md ->
  ends (X := X) (fun _ => True)
    (materialize_agent_heartbeat_handler E (ap_files ac) (ap_context ac) (ap_context_calls ac) (ap_schedules ac)
       (ap_jitter_hash ac) (ap_parse_uuid ac) (ap_auth ac) (ap_tenant_max_triggers ac) headers agent req)
    (fun _ d => exists tenant, tenant_from_headers headers = Ok tenant /\
       Forall (fun c => scheduled tenant agent c d)
         (hr_candidates (compile_heartbeat_markdown (cc_cron_error (ap_context_calls ac)) (cc_timezone_ok (ap_context_calls ac)) md))).
Proof.
  intros HE Ha Hmd. apply ends_check. intros tenant Ht. apply ends_check. intros role _. apply ends_check. intros _ _.
  apply ends_check. intros actor _. apply ends_check. intros g Hg.
  destruct (materialize_request_Ok _ _ _ _ _ _ Hg Ha) as (_ & _ & <- & <- & _). rewrite Ha.
  unfold heartbeat_source_of. rewrite Hmd. apply ends_pure. cbn zeta. cbn [hs_markdown hs_source].
  destruct (_ && _); [by intros w _ b|]. eapply ends_andthen; [by apply apply_candidates_schedule|].
  intros items w Hs a _. by exists (hg_tenant_id g).
Qed.

