(* ===== verification/ApiContextCases.v ===== *)
(** The endpoints of agent contexts on concrete requests: the theorems of
    [ApiContextProps] applied, and what the code allows that it should not. *)
From stdpp Require Import pretty.
From S2P Require Import Prelude RustStr Json Policy ApiAuth Capabilities Sql Paths FileSystem FileStore.
From S2P Require Import AgentContext AgentContextProps Runs RunQueue LlmTables Tables TriggerTables TriggerDispatch.
From S2P Require Import World ApiRuns ApiRunProps ApiTriggers ApiContext Api ApiTriggerProps ApiContextProps.

(** The world of [user_world] with files. *)
Definition file_world (s : file_store) : world file_store :=
  {| w_db := w_db user_world; w_journal := []; w_tick := 0; w_ext := s; w_routes := ∅; w_llm := no_llm |}.
Definition next_world (w : world file_store) : world file_store :=
  {| w_db := w_db w; w_journal := []; w_tick := w_tick w; w_ext := w_ext w; w_routes := ∅; w_llm := no_llm |}.

Definition as_user (tenant role : string) : HeaderMap :=
  [("x-tenant-id", tenant); ("x-user-role", role); ("x-user-id", "5")].
Definition api (tenant role : string) (request : api_request) : M file_store (ApiResult Z) :=
  serve api_env api_config (as_user tenant role) request.
Definition mutation (path content mode : string) : api_request :=
  MutateAgentContext 7 {| mc_relative_path := path; mc_content := content; mc_mode := mode |}.

(** The directory of agent 7 of tenant t1: identifiers are written [u] here. *)
Definition t1_dir : real_path := ["srv"; "agents"; "t1"; "u"].
Definition t1_files : file_store :=
  demo_files t1_dir [(["BOOTSTRAP.md"], "begin"); (["USER.md"], "hi"); (["sessions"; "a.jsonl"], "one")].

(** * Changes of context files *)

Definition append_session : api_request := mutation "sessions/a.jsonl" "two" "append".
Definition appended : world file_store := (api "t1" "operator" append_session (file_world t1_files)).2.

Example append_session_answers : (api "t1" "operator" append_session (file_world t1_files)).1 = Ok (Ok 200) /\
  file_content (w_ext appended) "agents/t1/u/sessions/a.jsonl" = Some ("onetwo" +:+ String newline "").
Proof. split; vm_compute; reflexivity. Qed.


Lemma context_mutations_change_one_file_witness : one_change (w_journal appended) t1_files (w_ext appended).
Proof.
  apply (context_mutations_change_one_file file_store api_env api_config (as_user "t1" "operator") 7
    {| mc_relative_path := "sessions/a.jsonl"; mc_content := "two"; mc_mode := "append" |} (file_world t1_files) _
    (fun _ _ => eq_refl) (appends_from_empty (api "t1" "operator" append_session) (file_world t1_files) eq_refl)).
Defined.

(** What the roles may not do. *)
Example denied_mutations :
  map (fun '(role, path, mode) => match (api "t1" role (mutation path "x" mode) (file_world t1_files)).1 with
                                  | Ok (Err e) => api_status e | _ => 0 end)
    [("owner", "AGENTS.md", "replace"); ("operator", "USER.md", "replace"); ("viewer", "MEMORY.md", "replace");
     ("owner", "USER.md", "append"); ("operator", "sessions/a.jsonl", "replace"); ("owner", "../USER.md", "replace");
     ("owner", "notes.txt", "replace")] = [403; 403; 403; 400; 400; 400; 400].
Proof. vm_compute. reflexivity. Qed.

(** * Heartbeats *)

Definition heartbeat_request : MaterializeHeartbeatRequest :=
  {| mh_heartbeat_markdown := Some "every 900 recipe=notify_v1 jitter=5"; mh_apply := true; mh_approval_confirmed := true;
     mh_approval_note := None; mh_input := None; mh_requested_capabilities := None; mh_triggered_by_user_id := None;
     mh_cron_max_attempts := None |}.
Definition materialize_heartbeat : api_request := MaterializeAgentHeartbeat 7 heartbeat_request.
Definition materialized_world : world file_store := (api "t1" "operator" materialize_heartbeat (file_world t1_files)).2.

Example materialize_heartbeat_answers :
  (api "t1" "operator" materialize_heartbeat (file_world t1_files)).1 = Ok (Ok 200) /\
  length (w_journal materialized_world) = 2%nat.
Proof. split; vm_compute; reflexivity. Qed.

Lemma materialized_triggers_are_approved_witness :
  Forall (approved api_config (as_user "t1" "operator") 7 heartbeat_request) (w_journal materialized_world).
Proof.
  apply (materialized_triggers_are_approved file_store api_env api_config (as_user "t1" "operator") 7 heartbeat_request
    (file_world t1_files) _ (appends_from_empty (api "t1" "operator" materialize_heartbeat) (file_world t1_files) eq_refl)).
Defined.

Lemma quiet_keeps_schedules : keeps_schedules api_env.
Proof. by intros t tables tenant agent c. Qed.


Lemma heartbeats_pass_the_trigger_checks_witness :
  exists c, c ∈ hr_candidates (compile_heartbeat_markdown (fun _ => None) (fun _ => true) "every 900 recipe=notify_v1 jitter=5") /\
    exists n, hc_interval_seconds c = Some n /\
      check_interval_request
        {| ct_agent_id := 7; ct_triggered_by_user_id := None; ct_recipe_id := hc_recipe_id c; ct_input := JNull;
           ct_requested_capabilities := JNull; ct_interval_seconds := n;
           ct_max_inflight_runs := hc_max_inflight_runs c; ct_jitter_seconds := hc_jitter_seconds c |} = Ok tt.
Proof.
  set (c := {| hc_kind := Interval; hc_recipe_id := "notify_v1"; hc_interval_seconds := Some 900; hc_cron_expression := None;
               hc_timezone := None; hc_max_inflight_runs := 1; hc_jitter_seconds := 5; hc_line := 1;
               hc_source_line := "every 900 recipe=notify_v1 jitter=5" |}).
  assert (c ∈ hr_candidates (compile_heartbeat_markdown (fun _ => None) (fun _ => true) "every 900 recipe=notify_v1 jitter=5")) as Hc.
  { change (c ∈ [c]). left. }
  exists c. split; [exact Hc|].
  exact (heartbeats_pass_the_trigger_checks (fun _ => None) (fun _ => true) "every 900 recipe=notify_v1 jitter=5" c 7 None JNull JNull 3 Hc eq_refl).
Defined.

(** * Directories *)

(** Two tenants without a directory of their own share the one that is named by the
    agent alone: each loads, and may change, the files of the other. *)
Theorem flat_agent_directories_ignore_the_tenant sha uuid_text io s config now t1 t2 agent
    (H1 : path_is_dir s (tenant_agent_dir uuid_text config t1 agent) = false)
    (H2 : path_is_dir s (tenant_agent_dir uuid_text config t2 agent) = false)
    (Hflat : path_is_dir s (flat_agent_dir uuid_text config agent) = true) :
  load_agent_context_snapshot sha uuid_text io s config now t1 agent =
  load_agent_context_snapshot sha uuid_text io s config now t2 agent.
Proof.
  unfold load_agent_context_snapshot. destruct (validate_loader_config config); [|done].
  unfold resolve_source_dir. by rewrite H1, H2, Hflat.
Qed.

Definition flat_files : file_store := demo_files ["srv"; "agents"; "u"] [(["MEMORY.md"], "of t1")].

Lemma flat_agent_directories_ignore_the_tenant_witness :
  load_agent_context_snapshot (fun s => s) (fun _ => "u") (fun _ => None) flat_files (with_defaults "agents") 0 "t1" 7 =
  load_agent_context_snapshot (fun s => s) (fun _ => "u") (fun _ => None) flat_files (with_defaults "agents") 0 "t2" 7.
Proof. by apply (flat_agent_directories_ignore_the_tenant (fun s => s) (fun _ => "u")). Defined.

(** An operator of another tenant overwrites the memory of the agent. *)
Theorem another_tenant_can_change_a_flat_agent_directory :
  (api "t2" "operator" (mutation "MEMORY.md" "of t2" "replace") (file_world flat_files)).1 = Ok (Ok 200) /\
  file_content (w_ext (api "t2" "operator" (mutation "MEMORY.md" "of t2" "replace") (file_world flat_files)).2)
    "agents/u/MEMORY.md" = Some "of t2".
Proof. split; vm_compute; reflexivity. Qed.

(** A tenant identifier is used as a path as it is: an absolute one leaves the root
    of the agents, and the directories on its way are made. *)
Theorem a_tenant_identifier_can_leave_the_root :
  (api "/srv/other" "operator" (mutation "MEMORY.md" "x" "replace") (file_world t1_files)).1 = Ok (Ok 200) /\
  file_content (w_ext (api "/srv/other" "operator" (mutation "MEMORY.md" "x" "replace") (file_world t1_files)).2)
    "/srv/other/u/MEMORY.md" = Some "x".
Proof. split; vm_compute; reflexivity. Qed.

(** * The record of a bootstrap *)

Definition quote : string := String (ascii_of_N 34) "".
Definition quoted (s : string) : string := quote +:+ s +:+ quote.
(** The line of a completion, and the parser on it. *)
Definition completion_line : string :=
  "{" +:+ quoted "completed_at" +:+ ":" +:+ quoted "2026-01-01T00:00:00Z" +:+ "," +:+ quoted "completed_by_user_id" +:+ ":" +:+
  quoted "5" +:+ "," +:+ quoted "status" +:+ ":" +:+ quoted "completed" +:+ "}".
Definition completion_json : json :=
  jobject [("completed_at", JStr "2026-01-01T00:00:00Z"); ("completed_by_user_id", JStr "5"); ("status", JStr "completed")].
Definition record_calls : ContextCalls :=
  {| cc_sha256_hex := fun s => s; cc_to_vec := fun _ => completion_line;
     cc_from_str := fun s => if String.eqb s completion_line then Ok completion_json else Err "expected value";
     cc_parse_rfc3339 := fun _ => Ok 0; cc_format_rfc3339 := fun _ => "2026-01-01T00:00:00Z";
     cc_cron_error := fun _ => None; cc_timezone_ok := fun _ => true |}.

Definition bootstrap_of (w : world file_store) : result (ApiResult (Z * AgentBootstrapInspectResponse)) error :=
  (get_agent_bootstrap_handler api_env quiet_files context_config record_calls (fun _ => Some 5) api_state
     (as_user "t1" "owner") 7 w).1.
Definition status_of (w : world file_store) : option string :=
  match bootstrap_of w with Ok (Ok (_, r)) => Some (bi_status r) | _ => None end.
Definition complete_as (role : string) : M file_store (ApiResult (Z * AgentBootstrapCompleteResponse)) :=
  complete_agent_bootstrap_handler api_env quiet_files context_config record_calls (fun _ => Some 5) api_state
    (as_user "t1" role) 7
    {| cb_identity_markdown := Some "me"; cb_soul_markdown := None; cb_user_markdown := None; cb_heartbeat_markdown := None;
       cb_completion_note := None; cb_force := false |}.
Definition answered {A} (r : result (ApiResult (Z * A)) error) : Z :=
  match r with Ok (Ok (code, _)) => code | Ok (Err e) => api_status e | Err _ => 0 end.

(** The owner completes a pending bootstrap once; only the owner may. *)
Example bootstrap_workflow :
  status_of (file_world t1_files) = Some "pending" /\
  answered (complete_as "operator" (file_world t1_files)).1 = 403 /\
  answered (complete_as "owner" (file_world t1_files)).1 = 200 /\
  status_of (complete_as "owner" (file_world t1_files)).2 = Some "completed" /\
  answered (complete_as "owner" (complete_as "owner" (file_world t1_files)).2).1 = 409.
Proof. split_and!; vm_compute; reflexivity. Qed.

(** But an operator may append to the transcript that holds the record, and so
    complete the bootstrap in the name of anyone: the owner is then refused. *)
Theorem operators_can_forge_a_bootstrap_completion :
  let forge := api "t1" "operator" (mutation "sessions/bootstrap.status.jsonl" completion_line "append") (file_world t1_files) in
  forge.1 = Ok (Ok 200) /\ status_of forge.2 = Some "completed" /\ answered (complete_as "owner" forge.2).1 = 409.
Proof. split_and!; vm_compute; reflexivity. Qed.

(** And a line that is no JSON makes every request on the bootstrap fail. *)
Theorem a_malformed_record_blocks_the_bootstrap :
  let spoil := api "t1" "operator" (mutation "sessions/bootstrap.status.jsonl" "oops" "append") (file_world t1_files) in
  spoil.1 = Ok (Ok 200) /\ answered (bootstrap_of spoil.2) = 500 /\ answered (complete_as "owner" spoil.2).1 = 500.
Proof. split_and!; vm_compute; reflexivity. Qed.

(** With as many newer transcripts as the loader reads, the record is not among them:
    the bootstrap is pending again, and is completed a second time without force. *)
Definition busy_files : file_store :=
  demo_files t1_dir ((["BOOTSTRAP.md"], "begin") ::
    map (fun n => (["sessions"; n +:+ ".jsonl"], "x")) ["c1"; "c2"; "c3"; "c4"; "c5"; "c6"; "c7"; "c8"]).
Theorem a_bootstrap_completion_can_be_forgotten :
  answered (complete_as "owner" (file_world busy_files)).1 = 200 /\
  status_of (complete_as "owner" (file_world busy_files)).2 = Some "pending" /\
  answered (complete_as "owner" (complete_as "owner" (file_world busy_files)).2).1 = 200.
Proof. split_and!; vm_compute; reflexivity. Qed.
