(* ===== verification/ApiMemoryProps.v ===== *)
(** What the endpoints of the memory plane do: what a creation records and for whom,
    that records stay with the runs of their tenant, what the listings and the ranked
    retrieval answer, what a purge deletes, and that a hand-off packet reads back. *)
From Stdlib Require Import SpecFloat.
From S2P Require Import Prelude RustStr Json Redaction Policy ApiAuth Capabilities Sql Runs RunQueue Tables.
From S2P Require Import TriggerTables LlmTables World Memory ApiRuns ApiTriggers ApiContext ApiMemory RunDedupe ApiRunProps Api ApiTriggerProps Upholds MemoryProps MemoryTables MemoryRank.

(** * What the handlers keep *)

(** A handler may answer [a] from a state where [I] holds. *)
Definition may_answer {X A} (I : db -> list effect -> Prop) (m : handler (X := X) A) (a : A) : Prop :=
  exists w, I (w_db w) (w_journal w) /\ (m w).1 = Ok (Ok a).

Lemma upholds_andthen_answer {X A B} (I : db -> list effect -> Prop) (m : handler (X := X) A) (k : A -> handler B) :
  upholds I m -> (forall a, may_answer I m a -> upholds I (k a)) -> upholds I (andthen m k).
Proof.
  intros Hm Hk w Hw. specialize (Hm w Hw). unfold andthen, bind. destruct (m w) as [[[a|e]|e] w1] eqn:F; try done.
  apply Hk; [exists w; by rewrite F|done].
Qed.

Section upholds_memory.
Context {X : Type} (E : env) (I : db -> list effect -> Prop) (HI : forall (w : world X) j, I (w_db w) j -> I (observed E w) j).
Context (Haudit : forall event, upholds (X := X) I (db_append_audit_event E event)).
#[local] Abbreviation ok := (upholds (X := X) I).
#[local] Abbreviation B := (memory_backend E).

Lemma upholds_on_memory {A} (f : Z -> memory_tables -> memory_tables * A) log :
  (forall now d j, I d j -> I (with_memory d (f now (d_memory d)).1) (j ++ log (f now (d_memory d)).2)) -> ok (on_memory E f log).
Proof.
  intros Hf. apply upholds_stmt; [done|]. intros now d d' a j. unfold total. specialize (Hf now d j).
  destruct (f now (d_memory d)). by intros [= <- <-].
Qed.

Lemma with_memory_same d : with_memory d (d_memory d) = d.
Proof. by destruct d. Qed.

Lemma upholds_ask_memory {A} (f : Z -> memory_tables -> A) : ok (ask_memory E f).
Proof. apply upholds_on_memory. intros now d j Hd. cbn. by rewrite app_nil_r, with_memory_same. Qed.

Lemma upholds_run_query tenant id : ok (db_get_run_status E tenant id).
Proof. by apply upholds_query. Qed.
Lemma upholds_step_query tenant run step : ok (stmt E (total (fun _ d => (d, count_steps tenant run step d))) (fun _ => [])).
Proof. by apply upholds_query. Qed.
#[local] Hint Resolve upholds_ask_memory upholds_run_query upholds_step_query : agnt.

Lemma upholds_validation tenant run step : ok (validate_memory_run_and_step E tenant run step).
Proof. unfold validate_memory_run_and_step, validate_run, validate_step. repeat upholds_step. Qed.
Lemma upholds_capacity lim tenant : ok (ensure_tenant_memory_capacity E B lim tenant).
Proof. unfold ensure_tenant_memory_capacity. repeat upholds_step. Qed.
Lemma upholds_audit_memory what ty tenant r payload : ok (audit_memory E what ty tenant r payload).
Proof. unfold audit_memory. repeat upholds_step. Qed.
#[local] Hint Resolve upholds_validation upholds_capacity upholds_audit_memory : agnt.

Lemma upholds_audit_purge tenant as_of deleted impacts : ok (audit_purge E tenant as_of deleted impacts).
Proof. induction impacts as [|[run count] rest IH]; cbn [audit_purge]; repeat upholds_step. Qed.
#[local] Hint Resolve upholds_audit_purge : agnt.

Context (parse_uuid : string -> option Uuid) (to_string : json -> string) (state : AuthState) (lim : option Z) (headers : HeaderMap).

(** The queries. *)
Lemma upholds_list_memory query : ok (list_memory_records_with E B state headers query).
Proof. unfold list_memory_records_with. cbn zeta. repeat upholds_step. Qed.
Lemma upholds_list_handoffs query : ok (list_handoff_packets_with E B parse_uuid state headers query).
Proof. unfold list_handoff_packets_with. cbn zeta. repeat upholds_step. Qed.
Lemma upholds_retrieve query : ok (retrieve_memory_with E B to_string state headers query).
Proof. unfold retrieve_memory_with. cbn zeta. repeat upholds_step. Qed.
Lemma upholds_compaction_stats query : ok (get_memory_compaction_stats_with E B state headers query).
Proof.
  unfold get_memory_compaction_stats_with. cbn zeta. repeat upholds_step. apply upholds_stmt; [done|].
  intros now d d' r j. destruct (mb_stats _ _ _ _); [|done]. intros [= <- <-]. by rewrite app_nil_r.
Qed.

(** The insertions, with what the validation has answered. *)
Definition validated (tenant : string) (run step : option Uuid) : Prop :=
  may_answer I (validate_memory_run_and_step (X := X) E tenant run step) tt.

Lemma upholds_create_memory req :
  (forall tenant kind scope id, memory_writer state headers = Ok tenant -> normalize_memory_kind (cm_memory_kind req) = Some kind ->
     check_memory_scope (cm_scope req) = Ok scope -> validated tenant (cm_run_id req) (cm_step_id req) ->
     ok (record_memory E B "failed creating memory record" (new_memory req tenant kind scope id))) ->
  ok (create_memory_record_with E B state lim headers req).
Proof.
  intros Hrecord. apply upholds_check. intros tenant Ht. apply upholds_andthen; [apply upholds_capacity|intros _].
  apply upholds_check. intros kind Hk. apply upholds_check. intros scope Hs.
  apply upholds_andthen_answer; [apply upholds_validation|]. intros [] Hv. apply upholds_bind; [apply upholds_new_v4|intros id].
  apply upholds_andthen; [|intros r; repeat upholds_step]. apply Hrecord; try done.
  unfold ok_or in Hk. destruct (normalize_memory_kind _); [by injection Hk as ->|done].
Qed.

Lemma upholds_create_handoff req :
  (forall tenant packet_id id, memory_writer state headers = Ok tenant -> validated tenant (hp_run_id req) (hp_step_id req) ->
     ok (record_memory E B (mb_handoff_failed B) (new_handoff E req tenant (trim (hp_title req)) packet_id id))) ->
  ok (create_handoff_packet_with E B parse_uuid state lim headers req).
Proof.
  intros Hrecord. apply upholds_check. intros tenant Ht. apply upholds_andthen; [apply upholds_capacity|intros _].
  cbn zeta. destruct (is_empty _); [apply upholds_ret|].
  apply upholds_andthen_answer; [apply upholds_validation|]. intros [] Hv.
  apply upholds_bind; [apply upholds_new_v4|intros packet_id]. apply upholds_bind; [apply upholds_new_v4|intros id].
  apply upholds_andthen; [by apply Hrecord|intros r; repeat upholds_step].
Qed.

Lemma upholds_purge req :
  (forall tenant as_of, purge_owner state headers = Ok tenant -> ok (on_memory E (fun _ => mb_purge B tenant as_of)
     (fun o => [MemoriesPurged tenant as_of (po_deleted_count o)]))) ->
  ok (purge_memory_records_with E B state headers req).
Proof.
  intros Hpurge. apply upholds_check. intros tenant Ht. apply upholds_bind; [apply upholds_now_utc|intros wall]. cbn zeta.
  apply upholds_andthen; [repeat upholds_step|intros impacts].
  apply upholds_andthen; [by apply upholds_or_internal, Hpurge|intros o; repeat upholds_step].
Qed.
End upholds_memory.

(** A handler of the backend is the one over its statements. *)
Lemma on_backend_rule {A} (E : env) (Q : A -> Prop) (f : MemoryBackend -> A) :
  Q (f (memory_backend E)) ->
  Q (on_backend E (fun text tmax => f (pg_memory (env_uuid_text E) text tmax)) (fun SE => f (sqlite_memory (env_uuid_text E) SE))).
Proof. by rewrite on_backend_memory. Qed.

(** The insertion adds a row, or does nothing. *)
Lemma create_memory_record_row now n d d' r : create_memory_record now n d = Ok (d', r) ->
  d' = add_memory r d /\ r = memory_row now n /\ str_in (nm_memory_kind n) memory_kinds = true /\ is_empty (nm_scope n) = false.
Proof.
  unfold create_memory_record, require. destruct (str_in _ _ && _) eqn:Hc; [|done]. destruct (memory_id_free _ _); [|done].
  destruct (_ && opt_exists step_exists _ _); [|done]. intros [= <- <-]. by apply andb_true_iff in Hc as [Hk Hs%negb_true_iff].
Qed.

Lemma current_timestamp_le now : current_timestamp now <= now.
Proof. unfold current_timestamp. pose proof (Z.mod_pos_bound now 1000000 ltac:(lia)). pose proof (Z.div_mod now 1000000). lia. Qed.

(** The row of a backend, written at its clock. *)
Definition backend_clock (E : env) (now : Z) : Z := by_pool (env_pool E) now (current_timestamp now).

Lemma backend_create E now n d d' r : mb_create (memory_backend E) now n d = Ok (d', r) ->
  d' = add_memory r d /\ r = memory_row (backend_clock E now) n /\
  str_in (nm_memory_kind n) memory_kinds = true /\ is_empty (nm_scope n) = false.
Proof.
  unfold memory_backend, backend_clock. destruct (env_pool E); cbn; apply create_memory_record_row.
Qed.

(** A purge changes the memory tables only. *)
Lemma backend_purge E tenant as_of t : (mb_purge (memory_backend E) tenant as_of t).1 =
  with_records t (List.filter (fun r => negb (@purgeable (pool_engine (env_pool E)) tenant as_of r)) (mt_records t)) /\
  (mb_purge (memory_backend E) tenant as_of t).2 =
  {| po_tenant_id := tenant; po_deleted_count := countb (@purgeable (pool_engine (env_pool E)) tenant as_of) (mt_records t);
     po_as_of := as_of |}.
Proof. unfold memory_backend. by destruct (env_pool E). Qed.

(** * Creation *)

(** The event that follows the record of a run. *)
Definition event_of_memory (n : NewMemoryRecord) (e : NewAuditEvent) : Prop :=
  nm_run_id n = Some (ne_run_id e) /\ ne_step_id e = nm_step_id n /\ ne_tenant_id e = nm_tenant_id n /\
  ne_agent_id e = Some (nm_agent_id n) /\ get_str "scope" (ne_payload_json e) = Some (nm_scope n).

(** The journal of a creation: nothing, or one record and the event of its run. *)
Definition recorded_once {A} (n_ok : NewMemoryRecord -> Prop) (body_of : NewMemoryRecord -> A -> Prop)
    (r : ApiResult (Z * A)) (j : list effect) : Prop :=
  (j = [] /\ is_ok r = false) \/
  exists n events, j = MemoryRecorded n :: events /\ n_ok n /\
    (events = [] \/ exists e, events = [Audited e] /\ event_of_memory n e) /\
    forall a, r = Ok a -> a.1 = 201 /\ body_of n a.2 /\ (events = [] <-> nm_run_id n = None).

Section creation.
Context {X : Type} (E : env) (state : AuthState) (lim : option Z) (headers : HeaderMap).
#[local] Abbreviation B := (memory_backend E).

Lemma validation_effectless tenant run step : effectless (validate_memory_run_and_step (X := X) E tenant run step).
Proof.
  apply effectless_andthen; [destruct run; cbn [validate_run]|intros _; destruct step; cbn [validate_step]]; try apply effectless_ret.
  - apply effectless_andthen; [apply effectless_query|]. intros found. apply effectless_check. intros row _. apply effectless_ret.
  - apply effectless_check. intros id _. apply effectless_andthen; [apply effectless_query|]. intros n. destruct (n =? 0); apply effectless_ret.
Qed.

Lemma capacity_effectless tenant : effectless (ensure_tenant_memory_capacity (X := X) E B lim tenant).
Proof.
  unfold ensure_tenant_memory_capacity. destruct lim; [|apply effectless_ret].
  apply effectless_andthen; [apply effectless_query|]. intros n. destruct (_ <=? n); apply effectless_ret.
Qed.

Lemma record_answers what n :
  answers (record_memory (X := X) E B what n) (fun r j =>
    (j = [] /\ is_ok r = false) \/
    (j = [MemoryRecorded n] /\ str_in (nm_memory_kind n) memory_kinds = true /\
     forall row, r = Ok row -> exists now, row = memory_row now n)).
Proof.
  eapply answers_weaken; [apply answers_stmt|]. cbn beta.
  intros [row|e] j; [intros [-> (now & d & d' & F)]|intros [->|(row & -> & now & d & d' & F)]];
    try (apply backend_create in F as (_ & -> & Hk & _); right; split_and!; try done; intros ? [= <-]; eauto). by left.
Qed.

#[local] Abbreviation event_payload n payload :=
  (jobject (("memory_id", JStr (env_uuid_text E (nm_id n))) :: payload ++
     [("scope", JStr (nm_scope n)); ("redaction_applied", JBool (nm_redaction_applied n));
      ("expires_at", opt_json (env_time_json E) (nm_expires_at n))])).

Lemma audit_answers what ty tenant n now payload : nm_tenant_id n = tenant ->
  get_str "scope" (event_payload n payload) = Some (nm_scope n) ->
  answers (audit_memory (X := X) E what ty tenant (memory_row now n) payload) (fun r j =>
    (j = [] /\ (nm_run_id n = None \/ is_ok r = false)) \/
    exists e, j = [Audited e] /\ event_of_memory n e).
Proof.
  intros Ht Hs. unfold audit_memory. cbn [memory_row mm_new]. destruct (nm_run_id n) as [run|] eqn:Hr.
  - apply answers_new_v4. intros id. eapply answers_weaken; [apply answers_stmt|]. cbn beta.
    intros [u|e] j; [intros [-> _]|intros [->|(u & -> & _)]]; try (by left; split; [|right]);
      right; eexists; (split; [done|]); unfold event_of_memory; cbn [ne_run_id ne_step_id ne_tenant_id ne_agent_id ne_payload_json];
      split_and!; try done; apply Hs.
  - eapply answers_weaken; [apply answers_ret|]. intros r j [-> ->]. left. by split; [|left].
Qed.

(** The record and what follows it. *)
Lemma recording_answers {A} what what' ty tenant n payload (n_ok : NewMemoryRecord -> Prop) (body_of : NewMemoryRecord -> A -> Prop)
    (k : MemoryRecord -> handler (Z * A)) :
  nm_tenant_id n = tenant -> (str_in (nm_memory_kind n) memory_kinds = true -> n_ok n) ->
  (forall now, get_str "scope" (event_payload n (payload (memory_row now n))) = Some (nm_scope n)) ->
  (forall now, answers (k (memory_row now n)) (fun r j => j = [] /\ forall a, r = Ok a -> a.1 = 201 /\ body_of n a.2)) ->
  answers (andthen (record_memory (X := X) E B what n) (fun row => andthen (audit_memory E what' ty tenant row (payload row)) (fun _ => k row)))
    (recorded_once n_ok body_of).
Proof.
  intros Ht Hok Hp Hk. eapply answers_weaken.
  - eapply answers_andthen_ok; [apply record_answers|]. intros row j0.
    instantiate (1 := fun row r j => (j = [] \/ exists e, j = [Audited e] /\ event_of_memory n e) /\
      forall a, r = Ok a -> a.1 = 201 /\ body_of n a.2 /\ (j = [] <-> nm_run_id n = None)).
    intros [[_ ?]|(_ & _ & Hn)]; [done|]. destruct (Hn _ eq_refl) as [now ->].
    eapply answers_weaken; [eapply answers_andthen; [apply (audit_answers _ _ _ n); auto|intros u; by apply Hk]|].
    cbn beta. intros r j [(e & -> & H)|(u & j1 & j2 & -> & H & -> & Ha)].
    + split; [|done]. destruct H as [[-> _]|H]; [by left|by right].
    + rewrite app_nil_r. split; [destruct H as [[-> _]|H]; [by left|by right]|].
      intros a Ho. destruct (Ha a Ho) as [H1 H2]. split_and!; [done..|].
      destruct H as [[-> [Hr|?]]|(e & -> & Hr & _)]; [done..|by rewrite Hr].
  - cbn beta. intros r j [(e & -> & [[-> _]|(-> & Hkind & _)])|(row & j1 & j2 & -> & [[-> ?]|(-> & Hkind & _)] & H1 & H2)]; [by left| |done|].
    + right. exists n, []. split_and!; [done|by apply Hok|by left|done].
    + right. exists n, j2. split_and!; [done|by apply Hok|exact H1|exact H2].
Qed.

(** The checks before the record. *)
Lemma recorded_check {A T} n_ok (body_of : NewMemoryRecord -> A -> Prop) (a : ApiResult T) (k : T -> handler (X := X) (Z * A)) :
  (forall x, a = Ok x -> answers (k x) (recorded_once n_ok body_of)) -> answers (check a k) (recorded_once n_ok body_of).
Proof. intros Hk. apply answers_check; [done|]. by left. Qed.

Lemma recorded_andthen {A T} n_ok (body_of : NewMemoryRecord -> A -> Prop) (m : handler T) (k : T -> handler (X := X) (Z * A)) :
  effectless m -> (forall x, answers (k x) (recorded_once n_ok body_of)) -> answers (andthen m k) (recorded_once n_ok body_of).
Proof.
  intros Hm Hk. eapply answers_weaken; [apply (answers_andthen _ _ _ (fun _ => recorded_once n_ok body_of) Hm Hk)|].
  cbn beta. intros r j [(e & -> & ->)|(a & j1 & j2 & -> & -> & H)]; [by left|done].
Qed.

(** Who may write. *)
Definition memory_author (n : NewMemoryRecord) : Prop :=
  tenant_from_headers headers = Ok (nm_tenant_id n) /\
  exists role, role_from_headers state headers = Ok role /\ role <> Viewer.

Lemma memory_writer_author tenant n : memory_writer state headers = Ok tenant -> nm_tenant_id n = tenant -> memory_author n.
Proof.
  unfold memory_writer, memory_author. intros H ->. destruct (tenant_from_headers headers) as [t|]; [|done]. cbn in H.
  destruct (role_from_headers state headers) as [role|]; [|done]. cbn in H. destruct role; cbn in H; [..|done];
    injection H as ->; split; eauto.
Qed.

(** The record of a request: what it asks for, normalised and redacted. *)
Definition record_of (req : CreateMemoryRecordRequest) (n : NewMemoryRecord) : Prop :=
  (nm_agent_id n, nm_run_id n, nm_step_id n, nm_expires_at n) = (cm_agent_id req, cm_run_id req, cm_step_id req, cm_expires_at req) /\
  normalize_memory_kind (cm_memory_kind req) = Some (nm_memory_kind n) /\ nm_memory_kind n ∈ memory_kinds /\
  nm_scope n = trim (cm_scope req) /\ is_scope_allowed_for_capability "memory.write" (nm_scope n) = true /\
  nm_content_json n = redact_json (cm_content_json req) /\ clean_json (nm_content_json n) /\
  nm_summary_text n = redact_text <$> cm_summary_text req /\ (forall s, nm_summary_text n = Some s -> clean_text s) /\
  (nm_redaction_applied n = false -> nm_content_json n = cm_content_json req /\ nm_summary_text n = cm_summary_text req).

Lemma new_memory_record_of req tenant kind scope id :
  normalize_memory_kind (cm_memory_kind req) = Some kind -> check_memory_scope (cm_scope req) = Ok scope ->
  str_in kind memory_kinds = true -> record_of req (new_memory req tenant kind scope id).
Proof.
  intros Hk Hs Hin. unfold check_memory_scope in Hs. destruct (is_empty _); [done|].
  destruct (is_scope_allowed_for_capability _ _) eqn:Ha; [|done]. injection Hs as <-.
  unfold record_of, new_memory. destruct (redact_memory_content _ _) as [[content summary] auto] eqn:HR. cbn.
  assert (content = redact_json (cm_content_json req) /\ summary = redact_text <$> cm_summary_text req) as [-> ->]
    by (by injection HR as <- <- _).
  split_and!; try done.
  - by apply str_in_spec.
  - apply redact_json_is_clean.
  - intros s (t & _ & ->)%fmap_Some. apply redact_text_is_clean.
  - intros [_ ->]%orb_false_iff. pose proof (proj1 (redact_memory_content_flag (cm_content_json req) (cm_summary_text req))) as H.
    rewrite HR in H. specialize (H eq_refl). by split; [apply (f_equal fst) in H|apply (f_equal snd) in H].
Qed.


(** ** Hand-off packets *)

Section packets.
Context (parse_uuid : string -> option Uuid) (Hparse : forall id, parse_uuid (env_uuid_text E id) = Some id).

(** What a packet says, whatever the clock of the database. *)
Definition packet_of (req : CreateHandoffPacketRequest) (tenant : string) (packet_id : Uuid) (row : MemoryRecord)
    (p : HandoffPacketResponse) : Prop :=
  (ho_packet_id p, ho_memory_id p, ho_tenant_id p) = (packet_id, mm_id row, tenant) /\
  (ho_from_agent_id p, ho_to_agent_id p) = (default (hp_to_agent_id req) (hp_from_agent_id req), hp_to_agent_id req) /\
  (ho_run_id p, ho_step_id p, ho_expires_at p) = (hp_run_id req, hp_step_id req, hp_expires_at req) /\
  ho_scope p = handoff_scope E (hp_to_agent_id req) packet_id /\
  ho_title p = redact_text (trim (hp_title req)) /\ ho_payload_json p = redact_json (hp_payload_json req) /\
  ho_source p = memory_source (hp_source req) /\ ho_created_at p = mm_created_at row /\
  (ho_redaction_applied p = false -> ho_title p = trim (hp_title req) /\ ho_payload_json p = hp_payload_json req).

(** A record that stores a packet reads back as it. *)
Lemma handoff_record_reads_back req tenant packet_id id row :
  mm_new row = new_handoff E req tenant (trim (hp_title req)) packet_id id ->
  exists p, handoff_packet_from_memory_record parse_uuid (env_uuid_text E) row = Ok p /\ packet_of req tenant packet_id row p.
Proof.
  intros Hrow. unfold handoff_packet_from_memory_record. rewrite Hrow. unfold new_handoff.
  pose proof (proj1 (redact_memory_content_flag (hp_payload_json req) (Some (trim (hp_title req))))) as Hflag.
  destruct (redact_memory_content _ _) as [[payload title] auto] eqn:HR. injection HR as <- <- Ha.
  cbn [nm_content_json nm_summary_text nm_id nm_agent_id]. set (content := jobject _).
  assert (get "packet_id" content = Some (JStr (env_uuid_text E packet_id)) /\
          get "from_agent_id" content = Some (JStr (env_uuid_text E (default (hp_to_agent_id req) (hp_from_agent_id req)))) /\
          get "to_agent_id" content = Some (JStr (env_uuid_text E (hp_to_agent_id req))) /\
          get "payload_json" content = Some (redact_json (hp_payload_json req))) as (H1 & H2 & H3 & H4) by done.
  clearbody content. unfold uuid_field, get_str. rewrite H1, H2, H3, H4.
  cbn [mbind option_bind as_str]. rewrite !Hparse. cbn [ok_or mbind option_bind default].
  eexists. split; [done|]. unfold packet_of. rewrite Hrow.
  split_and!; [done..|]. cbn [ho_redaction_applied ho_title ho_payload_json default].
  intros H. specialize (Hflag H). by injection Hflag as -> ->.
Qed.

(** C13: creating a hand-off packet, whatever fails and interferes, records nothing or
    one record of kind handoff for the caller's tenant, with the scope of the packet;
    its title and payload hold no secret; and what the request answers is the packet
    that the listing reads back from the record: the agents, the run, the redacted
    title and payload of the request. *)
Theorem handoff_packet_reads_back req :
  answers (on_backend E (create_handoff_packet_handler (X := X) E parse_uuid state lim headers)
             (create_handoff_packet_sqlite_handler E parse_uuid state lim headers) req)
    (recorded_once
       (fun n => memory_author n /\ nm_memory_kind n = "handoff" /\ clean_json (redact_json (hp_payload_json req)) /\
          exists packet_id, nm_scope n = handoff_scope E (hp_to_agent_id req) packet_id /\
            forall row, mm_new row = n ->
              exists p, handoff_packet_from_memory_record parse_uuid (env_uuid_text E) row = Ok p /\
                packet_of req (nm_tenant_id n) packet_id row p /\ clean_text (ho_title p) /\ clean_json (ho_payload_json p))
       (fun n p => exists row, mm_new row = n /\ handoff_packet_from_memory_record parse_uuid (env_uuid_text E) row = Ok p)).
Proof.
  apply (on_backend_rule E (fun f => answers (f req) _) (fun B => create_handoff_packet_with E B _ _ _ _)).
  apply recorded_check. intros tenant Ht. apply recorded_andthen; [apply capacity_effectless|intros _]. cbn zeta.
  destruct (is_empty _); [by eapply answers_weaken; [apply answers_ret|]; intros r j [-> ->]; left|].
  apply recorded_andthen; [apply validation_effectless|intros _].
  apply answers_new_v4. intros packet_id. apply answers_new_v4. intros id.
  pose proof (handoff_record_reads_back req tenant packet_id id) as Hback.
  assert (nm_tenant_id (new_handoff E req tenant (trim (hp_title req)) packet_id id) = tenant) as Htenant
    by (unfold new_handoff; by destruct (redact_memory_content _ _) as [[]]).
  eapply (recording_answers _ _ _ tenant _ (fun _ => _)); [exact Htenant|..].
  - intros _. split; [by apply (memory_writer_author tenant)|]. rewrite Htenant.
    assert (nm_memory_kind (new_handoff E req tenant (trim (hp_title req)) packet_id id) = "handoff" /\
            nm_scope (new_handoff E req tenant (trim (hp_title req)) packet_id id) = handoff_scope E (hp_to_agent_id req) packet_id)
      as [-> ->] by (unfold new_handoff; by destruct (redact_memory_content _ _) as [[]]).
    split_and!; [done|apply redact_json_is_clean|]. exists packet_id. split; [done|]. intros row Hr.
    destruct (Hback row Hr) as (p & Hp & Hof). exists p. split_and!; [done..| |]; destruct Hof as (_ & _ & _ & _ & -> & -> & _);
      [apply redact_text_is_clean|apply redact_json_is_clean].
  - intros now. cbn. reflexivity.
  - intros now. apply answers_check.
    + intros p Hp. eapply answers_weaken; [apply answers_ret|]. intros r j [-> ->]. split; [done|]. intros a [= <-].
      split_and!; [done|]. by exists (memory_row now (new_handoff E req tenant (trim (hp_title req)) packet_id id)).
    + intros e He. split; [done|]. by intros a [= ].
Qed.
End packets.
End creation.

(** * Records and the runs of their tenants *)

Lemma append_audit_event_rest pool now n d d' : append_audit_event_dual pool now n d = Ok d' ->
  d_core d' = d_core d /\ d_steps d' = d_steps d /\ d_memory d' = d_memory d.
Proof.
  unfold append_audit_event_dual, by_pool, append_audit_event_sqlite, append_audit_event.
  destruct pool; (destruct (require _ UniqueViolation); [|done]);
    (destruct (require _ ForeignKeyViolation); [|done]); by intros [= <-].
Qed.

Section tenants.
(** The tenant that a run or step identifier was given to; a step has a run. *)
Context (run_tenant : Uuid -> option string) (step_run : Uuid -> option Uuid).

Definition placed (tenant : string) (run step : option Uuid) : Prop :=
  (forall r, run = Some r -> run_tenant r = Some tenant) /\
  (forall s, step = Some s -> exists r, run = Some r /\ step_run s = Some r).

(** Runs and steps have the tenants they were given, and the records too. *)
Definition memory_placed (d : db) : Prop :=
  Forall (fun r => run_tenant (r_id r) = Some (r_tenant_id r)) (db_runs (d_core d)) /\
  Forall (fun s => step_run (st_id s) = Some (st_run_id s)) (d_steps d) /\
  Forall (fun m => placed (nm_tenant_id (mm_new m)) (nm_run_id (mm_new m)) (nm_step_id (mm_new m))) (mt_records (d_memory d)).

(** The requests of the memory plane. *)
Definition memory_request (r : api_request) : bool :=
  match r with
  | CreateMemoryRecord _ | CreateHandoffPacket _ | ListHandoffPackets _ | ListMemoryRecords _ | RetrieveMemory _
  | GetMemoryCompactionStats _ | PurgeMemoryRecords _ => true
  | _ => false
  end.

Section request.
Context {X : Type} `{FH : FileHost X} (E : env) (HE : stable (X := X) memory_placed E).
#[local] Abbreviation I := (fun d (_ : list effect) => memory_placed d).
#[local] Abbreviation ok := (upholds (X := X) I).

Lemma placed_observed (w : world X) j : I (w_db w) j -> I (observed E w) j.
Proof. apply HE. Qed.

Lemma placed_audit event : ok (db_append_audit_event E event).
Proof.
  apply upholds_stmt; [exact placed_observed|]. intros now d d' a j F Hd. unfold no_value in F.
  destruct (append_audit_event_dual _ _ _ _) as [d1|] eqn:F1; [|done]. injection F as <- _.
  apply append_audit_event_rest in F1 as (H1 & H2 & H3). unfold memory_placed. by rewrite H1, H2, H3.
Qed.

(** A query answers from a database that has the invariant. *)
Lemma query_from {A} what (f : db -> A) (a : A) :
  may_answer (X := X) I (or_internal E what (stmt E (total (fun _ d => (d, f d))) (fun _ => []))) a ->
  exists d, memory_placed d /\ a = f d.
Proof.
  intros (w & Hw & Ha). unfold or_internal, try, stmt in Ha.
  destruct (env_fault E (w_tick w)) as [[[] m]|]; cbn in Ha; simplify_eq; eauto.
Qed.

Lemma may_andthen {A C} (m : handler (X := X) A) (k : A -> handler C) (c : C) :
  ok m -> may_answer I (andthen m k) c -> exists a, may_answer I m a /\ may_answer I (k a) c.
Proof.
  intros Hm (w & Hw & Ha). specialize (Hm w Hw). unfold andthen, bind in Ha. destruct (m w) as [[[a|e]|e] w1] eqn:F; try done.
  exists a. split; [exists w; by rewrite F|]. by exists w1.
Qed.

Lemma may_check {A C} (r : ApiResult A) (k : A -> handler C) (c : C) :
  may_answer (X := X) I (check r k) c -> exists a, r = Ok a /\ may_answer I (k a) c.
Proof. destruct r as [a|e]; [eauto|]. by intros (w & _ & [= ]). Qed.

Lemma may_ret {A} (r : ApiResult A) (a : A) : may_answer (X := X) I (ret r) a -> r = Ok a.
Proof. by intros (w & _ & [= ->]). Qed.

Lemma validated_placed tenant run step : validated (X := X) E I tenant run step -> placed tenant run step.
Proof.
  intros ([] & Hr & Hs)%may_andthen; [|unfold validate_run; repeat upholds_step; by apply upholds_query, placed_observed].
  split.
  - intros r ->. cbn [validate_run] in Hr. apply may_andthen in Hr as (found & Hq & Hk);
      [|by apply upholds_or_internal, upholds_query, placed_observed].
    apply may_check in Hk as (row & Hrow & _). apply query_from in Hq as (d & Hd & ->).
    unfold get_run_status, has_tenant in Hrow. destruct (List.find _ _) as [x|] eqn:F; [|done].
    apply find_some in F as [Hx Hm%andb_true_iff]. destruct Hm as [Ht%String.eqb_eq <-%Z.eqb_eq]. subst tenant.
    destruct Hd as [Hd _]. rewrite Forall_forall in Hd. by apply Hd, list_elem_of_In.
  - intros s ->. cbn [validate_step] in Hs. apply may_check in Hs as (r & Hrun & Hs). exists r.
    destruct run as [r'|]; [|done]. injection Hrun as ->. split; [done|].
    apply may_andthen in Hs as (n & Hq & Hk); [|by apply upholds_or_internal, upholds_query, placed_observed].
    apply query_from in Hq as (d & Hd & ->). destruct (_ =? 0) eqn:Hn; [by apply may_ret in Hk|].
    unfold count_steps, countb in Hn. destruct (List.filter _ _) as [|x l] eqn:F; [done|].
    assert (x ∈ List.filter (fun s0 => (st_id s0 =? s) && (st_run_id s0 =? r) && String.eqb (st_tenant_id s0) tenant) (d_steps d)) as Hx
      by (rewrite F; left).
    apply elem_of_filterb in Hx as [Hx Hm]. bool_hyps. destruct Hd as (_ & Hd & _). rewrite Forall_forall in Hd.
    specialize (Hd _ Hx). congruence.
Qed.

Lemma placed_record what n : placed (nm_tenant_id n) (nm_run_id n) (nm_step_id n) ->
  ok (record_memory E (memory_backend E) what n).
Proof.
  intros Hn. apply upholds_or_internal, upholds_stmt; [exact placed_observed|]. intros now d d' r j F (H1 & H2 & H3).
  apply backend_create in F as (-> & -> & _). split_and!; [done..|]. cbn. apply Forall_app. split; [done|by constructor].
Qed.

Lemma placed_rows d t :
  Forall (fun m => exists m', m' ∈ mt_records (d_memory d) /\ mm_new m = mm_new m') (mt_records t) ->
  memory_placed d -> memory_placed (with_memory d t).
Proof.
  intros Ht (H1 & H2 & H3). split_and!; [done..|]. cbn. eapply Forall_impl; [exact Ht|].
  intros m (m' & Hm' & ->). rewrite Forall_forall in H3. by apply H3.
Qed.

Lemma serve_placed ac headers request : memory_request request = true -> ok (serve E ac headers request).
Proof.
  pose proof placed_audit as HA. pose proof placed_observed as HI.
  destruct request; try done; intros _; cbn [serve]; (apply upholds_andthen; [|intros; apply upholds_ret]).
  - apply (on_backend_rule E (fun f => ok (f req)) (fun B => create_memory_record_with E B _ _ _)).
    apply upholds_create_memory; [done..|]. intros tenant kind scope id _ _ _ Hv%validated_placed. apply placed_record.
    unfold new_memory. by destruct (redact_memory_content _ _) as [[]].
  - apply (on_backend_rule E (fun f => ok (f req)) (fun B => create_handoff_packet_with E B _ _ _ _)).
    apply upholds_create_handoff; [done..|]. intros tenant packet id _ Hv%validated_placed. apply placed_record.
    unfold new_handoff. by destruct (redact_memory_content _ _) as [[]].
  - apply (on_backend_rule E (fun f => ok (f query)) (fun B => list_handoff_packets_with E B _ _ _)).
    by apply upholds_list_handoffs.
  - apply (on_backend_rule E (fun f => ok (f query)) (fun B => list_memory_records_with E B _ _)).
    by apply upholds_list_memory.
  - apply (on_backend_rule E (fun f => ok (f query)) (fun B => retrieve_memory_with E B _ _ _)).
    by apply upholds_retrieve.
  - apply (on_backend_rule E (fun f => ok (f query)) (fun B => get_memory_compaction_stats_with E B _ _)).
    by apply upholds_compaction_stats.
  - apply (on_backend_rule E (fun f => ok (f req)) (fun B => purge_memory_records_with E B _ _)).
    apply upholds_purge; [done..|]. intros tenant as_of _. apply upholds_on_memory; [exact HI|].
    intros now d j. apply placed_rows. rewrite (proj1 (backend_purge _ _ _ _)). apply Forall_forall.
    intros m [Hm _]%elem_of_filterb. eauto.
Qed.

#[local] Instance placed_compaction : CompactionRules E (fun A (m : M X A) => keeps memory_placed m).
Proof.
  split; intros; auto with agnt.
  - by apply keeps_bind.
  - by intros w Hw.
  - apply keeps_on_memory; [done|]. intros now d Hd. by rewrite with_memory_same.
  - apply keeps_on_memory; [done|]. intros now d. apply placed_rows. cbn. apply Forall_map, Forall_forall.
    intros m Hm. exists m. split; [done|]. by destruct (_ && _).
  - apply keeps_stmt; [done|]. intros now d d' a. unfold no_value. destruct (f now d) as [d1|] eqn:F; [|done].
    intros [= <- _]. destruct (H now d d1 F) as [l ->]. apply placed_rows. cbn. apply Forall_forall. eauto.
Qed.

(** C10: while runs keep the tenants and steps the runs they were given, no request of
    the memory plane and no pass of the compaction, whatever fails, leaves a memory
    record that refers to a run of another tenant, to a step of another run, or to a
    step without its run. *)
Theorem memory_stays_with_its_tenant ac headers request parse_uuid cutoff min_records max_groups (w : world X) :
  memory_placed (w_db w) ->
  (memory_request request = true -> memory_placed (w_db (serve E ac headers request w).2)) /\
  memory_placed (w_db (compact_memory_records_dual E parse_uuid cutoff min_records max_groups w).2).
Proof.
  intros Hw. split; [intros Hr; by apply (serve_placed ac headers request Hr w)|].
  by apply (compaction_rule E parse_uuid (fun A m => keeps memory_placed m)).
Qed.
End request.
End tenants.

(** The run 1 of the tenant t1, and a note of it. *)
Definition run_db_world : world unit :=
  {| w_db := with_core (w_db api_world) demo_db1; w_journal := []; w_tick := 0; w_ext := tt; w_routes := ∅; w_llm := no_llm |}.

Definition note_request : api_request :=
  CreateMemoryRecord {| cm_agent_id := 7; cm_run_id := Some 1; cm_step_id := None; cm_memory_kind := " Semantic ";
                        cm_scope := " memory:notes "; cm_content_json := jobject [("token", JStr "abc")];
                        cm_summary_text := None; cm_source := None; cm_redaction_applied := None; cm_expires_at := None |}.

Example note_created : (serve api_env api_config api_headers note_request run_db_world).1 = Ok (Ok 201).
Proof. vm_compute. reflexivity. Qed.

Lemma memory_stays_with_its_tenant_witness :
  memory_placed (fun id => if id =? 1 then Some "t1" else None) (fun _ => None)
    (w_db (serve api_env api_config api_headers note_request run_db_world).2).
Proof.
  apply (memory_stays_with_its_tenant (fun id => if id =? 1 then Some "t1" else None) (fun _ => None) api_env
    (fun w Hw => Hw) api_config api_headers note_request (fun _ => None) 0 0 0 run_db_world); [|done].
  split_and!; [by repeat constructor|constructor|constructor].
Defined.

(** * Listing and retrieval *)

Section newest.
Context `{Engine}.

Lemma newest_first_total a b : newest_first a b = false -> newest_first b a = true.
Proof. unfold newest_first. lia. Qed.
Lemma newest_first_trans a b c : newest_first a b = true -> newest_first b c = true -> newest_first a c = true.
Proof. unfold newest_first. lia. Qed.

(** The rows of a listing: those that satisfy [p], newest first, all of them or as
    many as the limit, and then none that is left out is newer. *)
Definition newest_rows (p : MemoryRecord -> bool) (lim : Z) (all rows : list MemoryRecord) : Prop :=
  rows ⊆+ all /\ Forall (fun r => p r = true) rows /\ StronglySorted (fun a b => newest_first a b = true) rows /\
  Z.of_nat (length rows) <= lim /\
  forall r, r ∈ all -> p r = true -> ~ r ∈ rows -> Z.of_nat (length rows) = lim /\ Forall (fun x => newest_first x r = true) rows.

Lemma newest_spec p lim all : newest_rows p (clamp 1 1000 lim) all (newest lim (List.filter p all)).
Proof.
  unfold newest_rows, newest. set (n := clamp 1 1000 lim). assert (1 <= n) as Hn by (unfold n, clamp; lia). split_and!.
  - unfold limit. etrans; [apply submseteq_take|]. rewrite order_by_perm. apply filterb_submseteq.
  - apply Forall_forall. intros r Hr%elem_of_limit. rewrite elem_of_order_by in Hr. by apply elem_of_filterb in Hr as [_ ?].
  - apply take_sorted, order_by_sorted; [apply newest_first_total|apply newest_first_trans].
  - pose proof (limit_length n (order_by newest_first (List.filter p all))). lia.
  - intros r Hr Hp Hout. assert (r ∈ drop (Z.to_nat n) (order_by newest_first (List.filter p all))) as Hd.
    { assert (r ∈ order_by newest_first (List.filter p all)) as Hin by (by rewrite elem_of_order_by; apply elem_of_filterb).
      rewrite <- (take_drop (Z.to_nat n)) in Hin. by apply elem_of_app in Hin as [?|?]. }
    split.
    + unfold limit. rewrite length_take.
      assert (length (drop (Z.to_nat n) (order_by newest_first (List.filter p all))) <> 0%nat) as Hl
        by (intros Hz%nil_length_inv; rewrite Hz in Hd; by apply not_elem_of_nil in Hd).
      rewrite length_drop in Hl. lia.
    + apply Forall_forall. intros x Hx. apply (order_by_take_least _ newest_first_total newest_first_trans _ _ _ _ Hx Hd).
Qed.
End newest.

(** A statement that only reads answers from the tables as it finds them. *)
Lemma ask_memory_result {X A} E what (f : Z -> memory_tables -> A) (w : world X) :
  (exists w', or_internal E what (ask_memory E f) w = (Ok (Ok (f (env_clock E (w_tick w)) (d_memory (observed E w)))), w')) \/
  (env_fault E (w_tick w) <> None /\
   exists e w', or_internal E what (ask_memory E f) w = (Ok (Err (internal e)), w')).
Proof.
  unfold or_internal, try, ask_memory, on_memory, stmt, total.
  destruct (env_fault E (w_tick w)) as [[[] m]|]; cbn; [right|right|left]; try split; eauto.
Qed.

Section queries.
Context {X : Type} (E : env) (parse_uuid : string -> option Uuid) (to_string : json -> string) (state : AuthState) (headers : HeaderMap).
#[local] Abbreviation found w := (d_memory (observed E w)).
#[local] Abbreviation clock w := (env_clock E (w_tick w)).

(** The records that a listing of the backend selects. *)
Definition selected (w : world X) (tenant : string) (agent : option Uuid) (kind prefix : option string) : MemoryRecord -> bool :=
  @listed (pool_engine (env_pool E)) (pool_like (env_pool E)) (clock w) tenant agent kind prefix.

Lemma backend_list now tenant agent kind prefix lim t :
  mb_list (memory_backend E) now tenant agent kind prefix lim t =
  @list_memory (pool_engine (env_pool E)) (pool_like (env_pool E)) now tenant agent kind prefix lim t.
Proof. unfold memory_backend. by destruct (env_pool E). Qed.

Lemma clamp_idem lo hi n : lo <= hi -> clamp lo hi (clamp lo hi n) = clamp lo hi n.
Proof. unfold clamp. lia. Qed.
Lemma clamp_narrower lo hi hi' n : lo <= hi -> hi <= hi' -> clamp lo hi' (clamp lo hi n) = clamp lo hi n.
Proof. unfold clamp. lia. Qed.

Lemma list_on_backend :
  on_backend E (list_memory_records_handler (X := X) E state headers) (list_memory_records_sqlite_handler E state headers) =
  list_memory_records_with E (memory_backend E) state headers.
Proof. apply (on_backend_memory E (fun B => list_memory_records_with E B state headers)). Qed.

Lemma retrieve_on_backend :
  on_backend E (retrieve_memory_handler (X := X) E to_string state headers) (retrieve_memory_sqlite_handler E to_string state headers) =
  retrieve_memory_with E (memory_backend E) to_string state headers.
Proof. apply (on_backend_memory E (fun B => retrieve_memory_with E B to_string state headers)). Qed.


(** C16: A retrieval answers at most its limit of records, at most 200, numbered from
    one: records that a listing of the query selects, with a source and a summary as
    the query asks; each score is a number between 0 and 2 and no less than the minimum
    of the query, and the items descend by score, then by age and identifier. *)
Theorem memory_retrieval_is_ranked query (w : world X) tenant kind prefix :
  let retrieve := on_backend E (retrieve_memory_handler (X := X) E to_string state headers)
                    (retrieve_memory_sqlite_handler E to_string state headers) query in
  let tokens := default [] (tokenize_retrieval_query <$> trimmed (rq_query_text query)) in
  context_reader state headers = Ok tenant -> query_kind (rq_memory_kind query) = Ok kind ->
  query_scope_prefix (rq_scope_prefix query) = Ok prefix -> unless_null (rq_min_score query) in_score_range = true ->
  Z.of_nat (length tokens) < 2 ^ 64 ->
  (env_fault E (w_tick w) <> None /\ exists e, (retrieve w).1 = Ok (Err (internal e))) \/
  exists body ranked, (retrieve w).1 = Ok (Ok (200, body)) /\
    rr_items body = imap retrieval_item ranked /\ rr_retrieved_count body = Z.of_nat (length ranked) /\
    rr_tenant body = tenant /\ Z.of_nat (length ranked) <= rr_limit body <= 200 /\
    StronglySorted (fun x y => ranks_before x y = true) ranked /\
    forall r score, (r, score) ∈ ranked ->
      r ∈ mt_records (found w) /\ selected w tenant (rq_agent_id query) kind prefix r = true /\
      retrievable (trimmed (rq_source_prefix query)) (default false (rq_require_summary query)) r = true /\
      proper score /\ SFltb score (f64_of 0) = false /\ SFltb (f64_of 2) score = false /\
      forall least, rq_min_score query = Some least -> SFleb (f64_clamp (f64_of 0) (f64_of 2) least) score = true.
Proof.
  cbn zeta. intros Ht Hk Hp Hs Htok.
  rewrite retrieve_on_backend.
  unfold retrieve_memory_with. rewrite Ht, Hk, Hp, Hs. cbn [check negb]. cbn zeta. set (lim := clamp 1 200 _).
  set (many := if is_some _ || _ || _ || _ then _ else _).
  unfold andthen, bind. destruct (ask_memory_result E (mb_retrieve_failed (memory_backend E)) (fun now => mb_list (memory_backend E) now
    tenant (rq_agent_id query) kind prefix many) w) as [[w' ->]|(Hf & e & w' & ->)];
    [right|left; split; [done|by exists e]].
  cbn [check]. eexists _, _. split; [reflexivity|]. cbn [rr_items rr_retrieved_count rr_tenant rr_limit].
  rewrite length_imap, backend_list. set (rows := List.filter _ _).
  assert (forall r, r ∈ rows -> r ∈ mt_records (found w) /\ selected w tenant (rq_agent_id query) kind prefix r = true /\
    retrievable (trimmed (rq_source_prefix query)) (default false (rq_require_summary query)) r = true) as Hrows.
  { intros r [Hr Hret]%elem_of_filterb.
    destruct (@newest_spec (pool_engine (env_pool E)) (selected w tenant (rq_agent_id query) kind prefix) many (mt_records (found w)))
      as (Hsub & Hall & _). rewrite Forall_forall in Hall. split_and!; [|by apply Hall|done].
    by apply (elem_of_submseteq _ _ _ Hr Hsub). }
  assert (Z.of_nat (length rows) < 2 ^ 64) as Hlen.
  { destruct (@newest_spec (pool_engine (env_pool E)) (selected w tenant (rq_agent_id query) kind prefix) many (mt_records (found w)))
      as (_ & _ & _ & Hl & _).
    eapply Z.le_lt_trans; [apply inj_le, filter_length_le|]. eapply Z.le_lt_trans; [exact Hl|]. unfold clamp. lia. }
  destruct (rank_memory_spec to_string _ rows Htok Hlen (rq_min_score query) lim) as (Hsort & Hn & Hall).
  assert (1 <= lim <= 200) by (unfold lim, clamp; lia).
  split_and!; [done|done|done|by etrans; [exact Hn|lia]|lia|exact Hsort|].
  intros r score Hr. destruct (Hall _ Hr) as (Hin & H1 & H2 & H3 & H4). destruct (Hrows r Hin) as (H5 & H6 & H7).
  by split_and!.
Qed.

(** ** Hand-off packets *)

Lemma handoffs_on_backend :
  on_backend E (list_handoff_packets_handler (X := X) E parse_uuid state headers)
    (list_handoff_packets_sqlite_handler E parse_uuid state headers) =
  list_handoff_packets_with E (memory_backend E) parse_uuid state headers.
Proof. apply (on_backend_memory E (fun B => list_handoff_packets_with E B parse_uuid state headers)). Qed.

Definition selected_handoff (w : world X) (tenant : string) (to_agent from_agent : option Uuid) : MemoryRecord -> bool :=
  @listed_handoff (pool_engine (env_pool E)) (pool_like (env_pool E)) (env_uuid_text E) (clock w) tenant to_agent from_agent.

(** A record with a sender. *)
Definition has_sender (r : MemoryRecord) : bool := is_some (uuid_field parse_uuid "from_agent_id" (nm_content_json (mm_new r))).

Lemma packet_of_record r :
  match handoff_packet_from_memory_record parse_uuid (env_uuid_text E) r with
  | Ok p => has_sender r = true /\ ho_memory_id p = mm_id r
  | Err e => has_sender r = false /\ api_status e = 500
  end.
Proof. unfold handoff_packet_from_memory_record, has_sender. by destruct (uuid_field _ "from_agent_id" _). Qed.

Lemma packets_of_records rows :
  match packets_of parse_uuid (env_uuid_text E) rows with
  | Ok body => forallb has_sender rows = true /\ map ho_memory_id body = record_ids rows
  | Err e => forallb has_sender rows = false /\ api_status e = 500
  end.
Proof.
  induction rows as [|r rows IH]; [done|]. cbn [packets_of forallb map]. pose proof (packet_of_record r) as Hr.
  destruct (handoff_packet_from_memory_record _ _ r) as [p|e]; destruct Hr as [-> Hp]; cbn; [|done].
  destruct (packets_of _ _ rows) as [body|e]; destruct IH as [-> Hb]; cbn; [|done]. by rewrite Hp, Hb.
Qed.

(** C14: the listing of hand-off packets is all or nothing.  It reads the newest live
    packets of the tenant, up to its limit; when each names its sender it answers them
    all, in that order, and one record without a sender, which the endpoint for records
    stores as any other, turns the whole answer into an internal error. *)
Theorem handoff_listing_is_all_or_nothing query (w : world X) tenant :
  let list_ := on_backend E (list_handoff_packets_handler (X := X) E parse_uuid state headers)
                 (list_handoff_packets_sqlite_handler E parse_uuid state headers) query in
  context_reader state headers = Ok tenant ->
  (env_fault E (w_tick w) <> None /\ exists e, (list_ w).1 = Ok (Err (internal e))) \/
  exists rows,
    @newest_rows (pool_engine (env_pool E)) (selected_handoff w tenant (hq_to_agent_id query) (hq_from_agent_id query))
      (clamp 1 1000 (default 100 (hq_limit query))) (mt_records (found w)) rows /\
    if forallb has_sender rows
    then exists body, (list_ w).1 = Ok (Ok (200, body)) /\ map ho_memory_id body = record_ids rows
    else exists e, (list_ w).1 = Ok (Err e) /\ api_status e = 500.
Proof.
  cbn zeta. intros Ht. rewrite handoffs_on_backend. unfold list_handoff_packets_with. rewrite Ht. cbn [check].
  unfold andthen, bind. destruct (ask_memory_result E "failed listing handoff packets" (fun now => mb_handoffs (memory_backend E) now
    tenant (hq_to_agent_id query) (hq_from_agent_id query) (clamp 1 1000 (default 100 (hq_limit query)))) w)
    as [[w' ->]|(Hf & e & w' & ->)]; [right|left; split; [done|by exists e]].
  cbn [check]. eexists. split.
  { rewrite <- (clamp_idem 1 1000 (default 100 (hq_limit query))) by done. apply newest_spec. }
  match goal with |- context [packets_of _ _ ?l] => set (rows := l) end.
  match goal with |- context [forallb _ ?l] => assert (l = rows) as -> end.
  { unfold rows, memory_backend, selected_handoff. by destruct (env_pool E). }
  pose proof (packets_of_records rows) as Hp. destruct (packets_of _ _ rows) as [body|e]; destruct Hp as [-> Hp]; cbn; eauto.
Qed.
End queries.

(** * The purge *)

Section purge.
Context {X : Type} (E : env) (HE : quiet E) (state : AuthState) (headers : HeaderMap).
#[local] Abbreviation B := (memory_backend E).
#[local] Abbreviation memory w := (d_memory (w_db w)).

Lemma purge_on_backend :
  on_backend E (purge_memory_records_handler (X := X) E state headers) (purge_memory_records_sqlite_handler E state headers) =
  purge_memory_records_with E (memory_backend E) state headers.
Proof. apply (on_backend_memory E (fun B => purge_memory_records_with E B state headers)). Qed.

Lemma purge_owner_spec tenant : purge_owner state headers = Ok tenant <->
  tenant_from_headers headers = Ok tenant /\ role_from_headers state headers = Ok Owner.
Proof.
  unfold purge_owner. destruct (tenant_from_headers headers) as [t|]; [|by split; [|intros [? _]]]. cbn.
  destruct (role_from_headers state headers) as [[]|]; cbn; split; try done; try (by intros [= ->]); by intros [[= ->] ?].
Qed.

Definition pool_purgeable (tenant : string) (as_of : Z) : MemoryRecord -> bool :=
  @purgeable (pool_engine (env_pool E)) tenant as_of.

(** The event of a run of which the purge took records. *)
Definition purge_event (tenant : string) (as_of : Z) (rows : list MemoryRecord) (e : effect) : Prop :=
  match e with
  | Audited n =>
      ne_tenant_id n = tenant /\ ne_event_type n = "memory.purged" /\
      exists count, 0 < count /\ get "run_deleted_count" (ne_payload_json n) = Some (jint count) /\
        count = countb (fun r => bool_decide (nm_run_id (mm_new r) = Some (ne_run_id n))) (List.filter (pool_purgeable tenant as_of) rows)
  | _ => False
  end.

Lemma impacts_counts tenant as_of t run count : (run, count) ∈ mb_impacts B tenant as_of t ->
  count = countb (fun r => bool_decide (nm_run_id (mm_new r) = Some run)) (List.filter (pool_purgeable tenant as_of) (mt_records t)).
Proof.
  assert (mb_impacts B tenant as_of t = @purge_run_impacts (pool_engine (env_pool E)) tenant as_of t) as ->
    by (unfold memory_backend; by destruct (env_pool E)).
  unfold purge_run_impacts. by intros (id & [= -> ->] & _)%list_elem_of_fmap.
Qed.

Lemma audit_purge_only tenant as_of deleted t impacts :
  (forall x, x ∈ impacts -> x ∈ mb_impacts B tenant as_of t) ->
  only (X := X) (purge_event tenant as_of (mt_records t)) (audit_purge E tenant as_of deleted impacts).
Proof.
  induction impacts as [|[run count] rest IH]; intros Hin; cbn [audit_purge]; [apply only_ret|].
  assert (only (X := X) (purge_event tenant as_of (mt_records t)) (audit_purge E tenant as_of deleted rest)) as Hrest
    by (apply IH; intros x Hx; apply Hin; by right).
  destruct (count <=? 0) eqn:Hc; [done|]. apply only_andthen; [apply only_try; [apply only_stmt; intros; constructor|intros; apply only_ret]|].
  intros [r|]; [|done]. apply only_bind; [apply only_new_v4|intros id _].
  apply only_andthen; [|done]. apply only_try; [|intros; apply only_ret]. apply only_stmt. intros [].
  repeat constructor; cbn. exists count. split_and!; [lia|done|]. apply impacts_counts, Hin. by left.
Qed.

Lemma audit_purge_keeps tenant as_of deleted impacts (d0 : db) :
  upholds (X := X) (fun d _ => d_memory d = d_memory d0 /\ d_core d = d_core d0 /\ d_steps d = d_steps d0)
    (audit_purge E tenant as_of deleted impacts).
Proof.
  apply upholds_audit_purge.
  - intros w _ Hw. by rewrite (observed_quiet E HE).
  - intros event. apply upholds_stmt; [intros w _ Hw; by rewrite (observed_quiet E HE)|].
    intros now d d' a _ F Hd. unfold no_value in F. destruct (append_audit_event_dual _ _ _ _) as [d1|] eqn:F1; [|done].
    injection F as <- _. by apply append_audit_event_rest in F1 as (-> & -> & ->).
Qed.

(** C17: only an owner purges.  Without failures and interference a purge deletes the
    records of the owner's tenant that expire at its instant or before, and no other,
    touches no run, step or compaction, and answers their number; its events name runs
    of which it took records, with how many. *)
Theorem purge_deletes_exactly_the_expired req (w : world X) :
  let '(r, w') := on_backend E (purge_memory_records_handler (X := X) E state headers)
                    (purge_memory_records_sqlite_handler E state headers) req w in
  match purge_owner state headers with
  | Err e => r = Ok (Err e) /\ w' = w
  | Ok tenant =>
      role_from_headers state headers = Ok Owner /\ exists as_of n events,
        (forall instant, pq_as_of req = Some instant -> as_of = instant) /\
        memory w' = with_records (memory w) (List.filter (fun m => negb (pool_purgeable tenant as_of m)) (mt_records (memory w))) /\
        n = countb (pool_purgeable tenant as_of) (mt_records (memory w)) /\
        d_core (w_db w') = d_core (w_db w) /\ d_steps (w_db w') = d_steps (w_db w) /\
        w_journal w' = w_journal w ++ MemoriesPurged tenant as_of n :: events /\
        Forall (purge_event tenant as_of (mt_records (memory w))) events /\
        forall a, r = Ok (Ok a) -> a = (200, {| po_tenant_id := tenant; po_deleted_count := n; po_as_of := as_of |})
  end.
Proof.
  rewrite purge_on_backend. unfold purge_memory_records_with.
  destruct (purge_owner state headers) as [tenant|e] eqn:Ho; [cbn [check]|done].
  apply purge_owner_spec in Ho as [_ Ho]. unfold bind at 1, now_utc. cbn iota beta.
  set (as_of := default _ (pq_as_of req)).
  erewrite andthen_run by (apply or_internal_run, (stmt_quiet_run E HE); reflexivity).
  erewrite andthen_run by (apply or_internal_run, (stmt_quiet_run E HE); unfold total; cbn [w_db];
    rewrite (surjective_pairing (mb_purge B tenant as_of _)); reflexivity).
  destruct (backend_purge E tenant as_of (d_memory (with_memory (w_db w) (d_memory (w_db w))))) as [-> ->].
  cbn [w_db w_journal w_tick po_deleted_count]. set (w2 := {| w_db := _ |}). set (n := countb _ _).
  set (impacts := mb_impacts B tenant as_of _).
  pose proof (audit_purge_keeps tenant as_of n impacts (w_db w2) w2 (conj eq_refl (conj eq_refl eq_refl))) as (Hm & Hc & Hs).
  destruct (audit_purge_only tenant as_of n (memory w) impacts (fun x Hx => Hx) w2) as (events & Hj & Hall).
  unfold appends in Hj. unfold andthen at 1, bind at 1.
  destruct (audit_purge E tenant as_of n impacts w2) as [[[u|e]|e] w3]; cbn in *;
    (split; [done|]); exists as_of, n, events; rewrite ?Hm, ?Hc, ?Hs, ?Hj, ?app_nil_r, <- ?app_assoc;
    split_and!; try done; try (by intros a [= <-]); intros t Ht; unfold as_of; by rewrite Ht.
Qed.
End purge.

(** * Examples *)

Definition owner_headers : HeaderMap := [("x-tenant-id", "t1"); ("x-user-role", "owner")].

(** A packet for the agent 7, with a secret in its payload. *)
Definition packet_request : CreateHandoffPacketRequest :=
  {| hp_to_agent_id := 7; hp_from_agent_id := Some 8; hp_run_id := None; hp_step_id := None; hp_title := " Findings ";
     hp_payload_json := jobject [("token", JStr "abc"); ("note", JStr "done")]; hp_source := None; hp_expires_at := None |}.

Abbreviation create_packet := (on_backend calm_env (create_handoff_packet_handler (X := unit) calm_env parse_id api_state None api_headers)
  (create_handoff_packet_sqlite_handler calm_env parse_id api_state None api_headers) packet_request).

Example packet_created : match (create_packet (memory_world [])).1 with
  | Ok (Ok (201, p)) => (ho_title p, ho_from_agent_id p, get_str "token" (ho_payload_json p)) = ("Findings", 8, Some "[REDACTED]")
  | _ => False
  end.
Proof. vm_compute. reflexivity. Qed.

Lemma handoff_packet_reads_back_witness :
  match create_packet (memory_world []) with
  | (Ok (Ok a), w') => exists n events, w_journal w' = MemoryRecorded n :: events /\ a.1 = 201 /\ nm_memory_kind n = "handoff"
  | _ => False
  end.
Proof.
  destruct (create_packet (memory_world [])) as [[[a|e]|e] w'] eqn:H; try (vm_compute in H; discriminate).
  destruct (handoff_packet_reads_back calm_env api_state None api_headers parse_id parse_id_text packet_request (memory_world []))
    as (j & Hj & b & Hb & Hjournal).
  unfold appends in Hj. rewrite H in Hb, Hj. injection Hb as <-.
  destruct Hjournal as [[_ Hno]|(n & events & -> & (_ & Hk & _) & _ & Ha)]; [discriminate|].
  exists n, events. split; [exact Hj|]. split; [exact (proj1 (Ha _ eq_refl))|exact Hk].
Defined.

(** A record of kind handoff that names no sender, stored by the endpoint for records. *)
Definition senderless_request : CreateMemoryRecordRequest :=
  {| cm_agent_id := 7; cm_run_id := None; cm_step_id := None; cm_memory_kind := "handoff"; cm_scope := "memory:handoff/x";
     cm_content_json := JObj []; cm_summary_text := None; cm_source := None; cm_redaction_applied := None; cm_expires_at := None |}.

Abbreviation store_senderless := (create_memory_record_handler (X := unit) calm_env api_state None api_headers (fun _ => "") (2 ^ 62)
  senderless_request).
Abbreviation list_packets := (on_backend calm_env (list_handoff_packets_handler (X := unit) calm_env parse_id api_state owner_headers)
  (list_handoff_packets_sqlite_handler calm_env parse_id api_state owner_headers)
  {| hq_limit := None; hq_to_agent_id := None; hq_from_agent_id := None |}).

(** After one packet the listing answers it; after the record it fails. *)
Example senderless_record_blocks_the_listing :
  match create_packet (memory_world []) with
  | (Ok (Ok (201, p)), w1) => is_ok (list_packets w1).1 = true /\ (list_packets w1).1 = Ok (Ok (200, [p])) /\
      match store_senderless w1 with
      | (Ok (Ok (201, _)), w2) => match (list_packets w2).1 with Ok (Err e) => api_status e = 500 | _ => False end
      | _ => False
      end
  | _ => False
  end.
Proof. vm_compute. by split_and!. Qed.

Lemma handoff_listing_is_all_or_nothing_witness :
  exists e, (list_packets (store_senderless (memory_world [])).2).1 = Ok (Err e) /\ api_status e = 500.
Proof.
  destruct (handoff_listing_is_all_or_nothing calm_env parse_id api_state owner_headers
    {| hq_limit := None; hq_to_agent_id := None; hq_from_agent_id := None |} (store_senderless (memory_world [])).2 "t1" eq_refl)
    as [[Hf _]|(rows & _ & Hl)].
  - exfalso. exact (Hf eq_refl).
  - destruct (forallb _ rows).
    + exfalso. destruct Hl as (body & Hb & _). vm_compute in Hb. discriminate.
    + exact Hl.
Defined.

(** The prefix of a listing is a pattern: its wildcards are live, and SQLite ignores the
    case of its letters. *)
Example scope_prefix_is_a_pattern :
  pg_like_prefix "memory:a_c" "memory:abc/x" = true /\ pg_like_prefix "memory:%secret" "memory:team/secret" = true /\
  sqlite_like_prefix "memory:Team" "memory:team/x" = true /\ pg_like_prefix "memory:Team" "memory:team/x" = false.
Proof. vm_compute. by split_and!. Qed.

(** A search for one word, of two notes. *)
Definition retrieve_query : MemoryRetrieveQuery :=
  {| rq_limit := Some 5; rq_agent_id := None; rq_memory_kind := Some "semantic"; rq_scope_prefix := Some "memory:a";
     rq_query_text := Some "note"; rq_min_score := Some (f64_of 0); rq_source_prefix := None; rq_require_summary := None |}.

Abbreviation retrieve_notes := (on_backend calm_env (retrieve_memory_handler (X := unit) calm_env (fun _ => "{}") api_state owner_headers)
  (retrieve_memory_sqlite_handler calm_env (fun _ => "{}") api_state owner_headers) retrieve_query).

Lemma memory_retrieval_is_ranked_witness :
  exists body ranked, (retrieve_notes (memory_world three_notes)).1 = Ok (Ok (200, body)) /\
    rr_items body = imap retrieval_item ranked /\ Z.of_nat (length ranked) <= 200 /\
    StronglySorted (fun x y => ranks_before x y = true) ranked.
Proof.
  destruct (memory_retrieval_is_ranked calm_env (fun _ => "{}") api_state owner_headers retrieve_query (memory_world three_notes)
    "t1" (Some "semantic") (Some "memory:a") eq_refl eq_refl eq_refl eq_refl eq_refl)
    as [[Hf _]|(body & ranked & H1 & H2 & _ & _ & [H3 H4] & H5 & _)].
  - exfalso. exact (Hf eq_refl).
  - exists body, ranked. split_and!; [exact H1|exact H2|by etrans; [exact H3|exact H4]|exact H5].
Defined.

(** The owner purges at 50: the third note goes. *)
Abbreviation purge_notes := (on_backend calm_env (purge_memory_records_handler (X := unit) calm_env api_state owner_headers)
  (purge_memory_records_sqlite_handler calm_env api_state owner_headers) {| pq_as_of := Some 50 |}).

Lemma purge_deletes_exactly_the_expired_witness :
  match purge_notes (memory_world three_notes) with
  | (Ok (Ok a), w') => a = (200, {| po_tenant_id := "t1"; po_deleted_count := 1; po_as_of := 50 |}) /\
      exists as_of, as_of = 50 /\ mt_records (d_memory (w_db w')) =
        List.filter (fun m => negb (pool_purgeable calm_env "t1" as_of m)) three_notes
  | _ => False
  end.
Proof.
  pose proof (purge_deletes_exactly_the_expired calm_env (memory_env_quiet pg 1) api_state owner_headers {| pq_as_of := Some 50 |}
    (memory_world three_notes)) as HP.
  destruct (purge_notes (memory_world three_notes)) as [[[a|e]|e] w'] eqn:H; try (vm_compute in H; discriminate).
  destruct HP as (_ & as_of & n & events & Ht & Hm & Hn & _ & _ & _ & _ & Ha). specialize (Ht 50 eq_refl). subst as_of.
  split; [rewrite (Ha a eq_refl), Hn; vm_compute; reflexivity|]. exists 50. split; [done|]. rewrite Hm. reflexivity.
Defined.
