(* ===== verification/Pipeline.v ===== *)
(** From the API to the worker: the capabilities a run was created with bound what
    is executed for it.  Runs keep what they were granted through every queue
    operation of every worker, and a run that a trigger fires has what the trigger
    was granted, so an action that a cycle executes is one that the role of the
    creator of the run or of its trigger allows. *)
From S2P Require Import Prelude RustStr Json Policy ApiAuth Capabilities Redaction Sql Runs RunQueue.
From S2P Require Import Scheduler Siem Action LlmTables MemoryTables Tables Paths World Memory Messages Worker WorkerProps.
From S2P Require Import TriggerTables TriggerDispatch TriggerSpec TriggerProps TriggerLedger WorkerFrame WorkerCycle.

(** On whose behalf a run or a trigger exists. *)
Record author := { au_tenant : string; au_agent : Uuid; au_user : option Uuid; au_recipe : string }.

Definition run_author (r : run) : author :=
  {| au_tenant := r_tenant_id r; au_agent := r_agent_id r; au_user := r_triggered_by_user_id r;
     au_recipe := r_recipe_id r |}.
Definition lease_author (r : RunLeaseRecord) : author :=
  {| au_tenant := l_tenant_id r; au_agent := l_agent_id r; au_user := l_triggered_by_user_id r;
     au_recipe := l_recipe_id r |}.
Definition trigger_author (t : TriggerRecord) : author :=
  {| au_tenant := t_tenant_id t; au_agent := t_agent_id t; au_user := t_triggered_by_user_id t;
     au_recipe := t_recipe_id t |}.

(** The capabilities are those that the API resolves for the recipe and a role. *)
Definition resolved (recipe : string) (R : RolePreset) (granted : json) : Prop :=
  exists requested, resolve_granted_capabilities recipe R requested = Ok granted.

(** [run_roles id R] says that someone with role [R] created run [id],
    [trigger_roles a R] that someone with role [R] created a trigger on behalf of [a]. *)
Definition roles_of (run_roles : Uuid -> RolePreset -> Prop) (trigger_roles : author -> RolePreset -> Prop)
    (id : Uuid) (a : author) (R : RolePreset) : Prop :=
  run_roles id R \/ trigger_roles a R.

Definition granted_row run_roles trigger_roles (r : run) : Prop :=
  exists R, roles_of run_roles trigger_roles (r_id r) (run_author r) R /\
            resolved (r_recipe_id r) R (r_granted_capabilities r).

Definition granted_lease run_roles trigger_roles (run : RunLeaseRecord) : Prop :=
  exists R, roles_of run_roles trigger_roles (l_id run) (lease_author run) R /\
            resolved (l_recipe_id run) R (l_granted_capabilities run).

Definition granted_trigger (trigger_roles : author -> RolePreset -> Prop) (t : TriggerRecord) : Prop :=
  exists R, trigger_roles (trigger_author t) R /\ resolved (t_recipe_id t) R (t_granted_capabilities t).

Definition queue_inv run_roles trigger_roles (rows : list run) (tt : trigger_tables) : Prop :=
  store_inv rows /\ Forall (granted_row run_roles trigger_roles) rows /\
  Forall (granted_trigger trigger_roles) (tt_triggers tt) /\
  ids_distinct t_id (tt_triggers tt) /\ ids_distinct te_id (tt_events tt).

(** The columns that no operation on runs changes. *)
Lemma row_step_grants `{Engine} r r' : row_step r r' ->
  r_id r' = r_id r /\ run_author r' = run_author r /\ r_granted_capabilities r' = r_granted_capabilities r.
Proof. intros [->|(ev & Hs)]; [done|]. by inv Hs. Qed.

Lemma rows_step_granted `{Engine} run_roles tr rows rows' :
  rows_step rows rows' -> Forall (granted_row run_roles tr) rows -> Forall (granted_row run_roles tr) rows'.
Proof.
  intros Hs HF. apply Forall_forall. intros r' Hr'. apply list_elem_of_lookup in Hr' as [i Hi].
  destruct (Forall2_lookup_r _ _ _ _ _ Hs Hi) as (r & Hr & Hrr).
  rewrite Forall_forall in HF. destruct (HF r) as [R HR]; [apply list_elem_of_lookup; eauto|].
  apply row_step_grants in Hrr as (Hid & Ha & Hg). exists R.
  assert (r_recipe_id r' = r_recipe_id r) as Hrec by (by injection Ha).
  by rewrite Hid, Ha, Hg, Hrec.
Qed.

Lemma history_granted `{Engine} run_roles tr rows rows' :
  history rows rows' -> Forall (granted_row run_roles tr) rows -> Forall (granted_row run_roles tr) rows'.
Proof. induction 1; eauto using rows_step_granted. Qed.

Lemma store_call_queue_inv (S : RunStore) `{!RunStoreLaws S} run_roles tr rows rows' tt :
  store_call S rows rows' -> queue_inv run_roles tr rows tt -> queue_inv run_roles tr rows' tt.
Proof.
  intros Hc (Hi & Hg & Ht). pose proof (store_call_refines S _ _ Hc Hi) as Hh.
  split_and!; [by eapply history_inv|by eapply history_granted|apply Ht..].
Qed.

Lemma granted_authority tr t t' : same_authority t t' -> granted_trigger tr t -> granted_trigger tr t'.
Proof.
  intros (_ & H1 & H2 & H3 & H4 & _ & _ & H5) (R & HR & Hres). exists R.
  unfold trigger_author. by rewrite H1, H2, H3, H4, H5.
Qed.

(** What a transaction adds, and the settings it leaves. *)
Lemma adds_queue_inv run_roles tr runs ledger s s' :
  adds runs ledger s s' -> queue_inv run_roles tr (db_runs (tb_core s)) (tb_tables s) ->
  store_inv (db_runs (tb_core s) ++ runs) -> Forall (granted_row run_roles tr) runs ->
  queue_inv run_roles tr (db_runs (tb_core s')) (tb_tables s').
Proof.
  intros (_ & _ & Hr & _ & Hev & Ha) (Hi & Hg & Ht & Hd & He) Hs HF. unfold queue_inv. rewrite Hr.
  unfold ids_distinct in *. rewrite (authority_ids _ _ Ha), Hev.
  split_and!; [done|by apply Forall_app| |done|done].
  apply Forall_forall. intros t' Ht'. apply list_elem_of_lookup in Ht' as [n Hn].
  destruct (Forall2_lookup_r _ _ _ _ _ Ha Hn) as (t & Htn & Hsame).
  eapply granted_authority; [exact Hsame|]. rewrite Forall_forall in Ht. apply Ht.
  by apply list_elem_of_lookup_2 in Htn.
Qed.

(** One fresh queued run that a trigger fires. *)
Lemma fired_queue_inv run_roles tr t id input key now ledger s s' :
  adds [row_of_new (triggered_run t id input) queued key now] ledger s s' -> granted_trigger tr t ->
  (forall x, x ∈ db_runs (tb_core s) -> r_id x <> id) ->
  queue_inv run_roles tr (db_runs (tb_core s)) (tb_tables s) ->
  queue_inv run_roles tr (db_runs (tb_core s')) (tb_tables s').
Proof.
  intros Hadd Ht Hfresh Hq. eapply adds_queue_inv; [exact Hadd|done| |].
  - apply store_inv_snoc; [apply Hq|apply queued_row_wf|exact Hfresh].
  - constructor; [|done]. destruct Ht as (R & HR & Hres). exists R. split; [by right|exact Hres].
Qed.

Lemma dispatch_queue_inv run_roles tr sc jitter_hash to_vec uuid_text pool k i s s' r :
  dispatch_kind_dual sc jitter_hash to_vec uuid_text pool k i s = Ok (s', r) ->
  queue_inv run_roles tr (db_runs (tb_core s)) (tb_tables s) ->
  queue_inv run_roles tr (db_runs (tb_core s')) (tb_tables s').
Proof.
  intros D Hq. pose proof Hq as (Hi & Hg & Ht & Hd & He). rewrite dispatch_is_spec in D by done.
  apply dispatch_cases in D as [[-> _]|[(f & [(Hin & _) _] & W & Hf)|(x & W & Hx)]]; [done| |].
  - apply write_fire_Ok in W as (Hadd & Hfresh & _); [|done].
    eapply fired_queue_inv; [exact Hadd| |exact Hfresh|done]. rewrite Forall_forall in Ht. by apply Ht.
  - apply write_reject_Ok in W as (Hadd & _); [|done].
    eapply adds_queue_inv; [exact Hadd|done|by rewrite app_nil_r|done].
Qed.

Section pipeline.
Context {X : Type} (E : env) (ext : cycle_externals) (cc : CycleConfig).
Context (run_roles : Uuid -> RolePreset -> Prop) (trigger_roles : author -> RolePreset -> Prop).
#[local] Abbreviation inv_db :=
  (fun d : db => queue_inv run_roles trigger_roles (db_runs (d_core d)) (d_triggers d)).
#[local] Instance pipeline_store : RunStore := dual (env_pool E).

(** Other sessions also only create runs and triggers with capabilities the API has
    resolved. *)
Context (Hother : forall t rows tt, queue_inv run_roles trigger_roles rows tt ->
          queue_inv run_roles trigger_roles (env_other E t rows) (env_other_triggers E t tt)).

#[local] Abbreviation kept := (keeps (X := X) inv_db).

Lemma inv_stable : stable (X := X) inv_db E.
Proof.
  intros w Hw. unfold observed. destruct (env_other_payments E _ _). cbn. by apply Hother.
Qed.

Lemma kept_stmt {A} (f : Z -> db -> result (db * A) db_error) log :
  (forall now d d' a, f now d = Ok (d', a) -> inv_db d -> inv_db d') -> kept (stmt E f log).
Proof. apply keeps_stmt, inv_stable. Qed.

Lemma kept_same_core {A} (f : Z -> db -> result (db * A) db_error) log :
  (forall now d d' a, f now d = Ok (d', a) -> d_core d' = d_core d /\ d_triggers d' = d_triggers d) ->
  kept (stmt E f log).
Proof. intros Hf. apply kept_stmt. intros now d d' a F. by destruct (Hf now d d' a F) as [-> ->]. Qed.

Lemma kept_runs_call {A} (f : (nat -> Z) -> list run -> list run * result A db_error) log :
  (forall clock rows tt, queue_inv run_roles trigger_roles rows tt ->
     queue_inv run_roles trigger_roles (f clock rows).1 tt) -> kept (runs_call E f log).
Proof. intros Hf. apply keeps_runs_call; [apply inv_stable|]. intros clock d Hd. by apply Hf. Qed.

Lemma store_call_kept rows rows' tt :
  store_call (dual (env_pool E)) rows rows' -> queue_inv run_roles trigger_roles rows tt ->
  queue_inv run_roles trigger_roles rows' tt.
Proof. apply store_call_queue_inv. apply _. Qed.

Lemma kept_requeue : kept (db_requeue_expired_runs E cc).
Proof.
  apply kept_runs_call. intros clock rows tt Hr.
  pose proof (call_requeue (dual (env_pool E)) clock (cc_requeue_limit cc) rows) as Hc.
  apply (store_call_kept _ _ tt) in Hc; [|done]. by destruct (rs_requeue _ _ _).
Qed.

Lemma kept_claim : kept (db_claim E cc).
Proof.
  apply kept_runs_call. intros clock rows tt. apply store_call_kept. apply call_claim.
Qed.

Lemma kept_audit n t : kept (append_audit_event_with_trace E n t).
Proof.
  apply kept_same_core. intros now d d' a F. unfold no_value in F.
  destruct (append_audit_event_dual _ _ _ _) as [d1|] eqn:F1; [|done]. injection F as <- <-.
  split; [by apply append_audit_core in F1|by apply append_audit_triggers in F1].
Qed.

Lemma kept_other_event run_id step tenant agent user actor ty payload :
  kept (other_event E cc run_id step tenant agent user actor ty payload).
Proof. apply keeps_bind; [apply keeps_new_v4|]. intros id. apply kept_audit. Qed.

Lemma kept_compact : kept (compact_memory E ext cc).
Proof.
  unfold compact_memory. destruct (cc_memory_compaction_enabled cc); [|apply keeps_ret].
  apply keeps_bind; [apply keeps_bind; [by intros w Hw|intros now; apply keeps_lift]|intros cutoff].
  apply keeps_bind; [by apply keeps_compaction; [apply inv_stable|]|intros stats].
  destruct (0 <? ms_processed_groups stats); [|apply keeps_ret].
  induction (ms_groups stats) as [|g rest IH]; cbn [report_compaction]; [apply keeps_ret|].
  destruct (mg_representative_run_id g); [|done].
  apply keeps_bind; [apply kept_other_event|done].
Qed.

Lemma kept_deliver_siem : kept (deliver_siem E ext cc).
Proof.
  unfold deliver_siem. destruct (cc_siem_delivery_enabled cc); [|apply keeps_ret].
  intros w Hw%inv_stable. unfold siem_pass.
  by destruct (process_compliance_siem_delivery_outbox _ _ _ _ _ _ _) as [rows r].
Qed.

Lemma kept_dispatch : kept (dispatch_next_due_trigger_with_limits_dual E ext cc).
Proof.
  unfold dispatch_next_due_trigger_with_limits_dual.
  induction [WebhookKind; CronKind; IntervalKind] as [|k rest IH]; cbn [dispatch_kinds]; [apply keeps_ret|].
  apply keeps_bind.
  - unfold dispatch_kind. apply keeps_bind; [apply keeps_new_v4|intros run_id].
    apply keeps_bind; [apply keeps_new_v4|intros row_id]. intros w. apply kept_stmt. intros now d d' a F.
    match type of F with match ?m with _ => _ end = _ => destruct m as [[s r]|] eqn:D end; [|done].
    injection F as <- _. intros Hd. exact (dispatch_queue_inv _ _ _ _ _ _ _ _ _ _ _ _ D Hd).
  - intros [t|]; [apply keeps_ret|exact IH].
Qed.

Lemma kept_schedule : kept (schedule_triggers E ext cc).
Proof.
  unfold schedule_triggers. destruct (cc_trigger_scheduler_enabled cc); [|apply keeps_ret].
  apply keeps_bind.
  - unfold should_dispatch. apply keeps_bind.
    + apply kept_same_core. by intros now d d' a [= <- _].
    + intros n. destruct (_ <=? n); [apply keeps_ret|].
      destruct (cc_trigger_scheduler_lease_enabled cc); [|apply keeps_ret].
      intros w. apply kept_same_core. intros now d d' a F.
      destruct (try_acquire_scheduler_lease_dual _ _ _ _) as [[l b]|]; [|done]. by injection F as <- _.
  - intros []; [|apply keeps_ret]. apply keeps_bind; [apply kept_dispatch|].
    intros [t|]; [apply kept_other_event|apply keeps_ret].
Qed.

Lemma claim_yields_granted : yields (X := X) inv_db (db_claim E cc) (claim_yield (granted_lease run_roles trigger_roles)).
Proof.
  intros w Hw%inv_stable. unfold db_claim, appends, runs_call.
  destruct (rs_claim (env_stmt_clock E (w_tick w)) (cf_worker_id (cc_worker cc)) (cc_lease_for cc)
    (cc_claim_max_inflight_runs cc) (cc_trigger_tenant_max_inflight_runs cc)
    (db_runs (d_core (observed E w)))) as [rows' res] eqn:C.
  assert (forall rec, res = Ok (Some rec) -> granted_lease run_roles trigger_roles rec) as HG.
  { intros rec ->. destruct Hw as ([Hd _] & Hg & _).
    apply (claim_law (S := dual (env_pool E))) in C as [_ C].
    destruct (C Hd) as (r & now & started & e & Hr & _ & -> & _).
    rewrite Forall_forall in Hg. exact (Hg r Hr). }
  destruct (env_fault E (w_tick w)) as [[[] m]|]; [|exists []; cbn; rewrite app_nil_r; by repeat constructor|];
    destruct res as [[rec|]|e]; cbn.
  - exists [RunClaimed rec]. by repeat constructor.
  - exists []. rewrite app_nil_r. by repeat constructor.
  - exists []. rewrite app_nil_r. by repeat constructor.
  - exists [RunClaimed rec]. auto.
  - exists []. rewrite app_nil_r. by repeat constructor.
  - exists []. rewrite app_nil_r. by repeat constructor.
Qed.

Lemma kept_run_call {A} (f : (nat -> Z) -> list run -> list run * result A db_error) log :
  (forall clock rows, store_call (dual (env_pool E)) rows (f clock rows).1) -> kept (runs_call E f log).
Proof. intros Hf. apply kept_runs_call. intros clock rows tt. apply store_call_kept, Hf. Qed.

Lemma kept_renew id : kept (db_renew E cc id).
Proof. apply kept_run_call. intros clock rows. apply call_renew. Qed.

Lemma kept_succeed id : kept (db_succeed E cc id).
Proof.
  apply kept_run_call. intros clock rows.
  pose proof (call_succeed (dual (env_pool E)) clock id (cf_worker_id (cc_worker cc)) rows) as Hc.
  by destruct (rs_succeed _ _ _ _).
Qed.

Lemma kept_fail id err : kept (db_fail E cc id err).
Proof.
  apply kept_run_call. intros clock rows.
  pose proof (call_fail (dual (env_pool E)) clock id (cf_worker_id (cc_worker cc)) err rows) as Hc.
  by destruct (rs_fail _ _ _ _ _).
Qed.

Lemma kept_process_claim run n : kept (process_claim E ext cc run n).
Proof.
  set (J := fun core tables => queue_inv run_roles trigger_roles (db_runs core) tables).
  unfold process_claim, lease_renew_failed, claimed_event, finish_run.
  repeat first [apply (kept_run_event E J inv_stable) | apply kept_renew | apply kept_fail | apply kept_succeed
               | apply (kept_process_claimed_run E J inv_stable) | keeps_step].
Qed.

(** A whole cycle keeps the invariant. *)
Lemma kept_process_once : kept (process_once_dual E ext cc).
Proof.
  unfold process_once_dual.
  repeat first [apply kept_requeue | apply kept_compact | apply kept_deliver_siem | apply kept_schedule
               | apply kept_claim | apply kept_process_claim | keeps_step].
Qed.

Lemma process_once_granted : yields inv_db (process_once_dual (X := X) E ext cc) (cycle_journal ext cc (granted_lease run_roles trigger_roles)).
Proof.
  apply process_once_yields; eauto using kept_requeue, kept_compact, kept_deliver_siem, kept_schedule,
    kept_claim, claim_yields_granted.
Qed.
(** What a cycle executes is permitted to a role behind the run. *)
Lemma executed_within_roles w j j1 id a j2 :
  inv_db (w_db w) -> appends (process_once_dual (X := X) E ext cc) w j -> j = j1 ++ Executing id a :: j2 ->
  exists run req R, RunClaimed run ∈ j1 /\
    to_policy_request (x_to_vec (cx_worker ext)) (llm_scope (cx_worker ext) (cc_worker cc)) a = Ok req /\
    roles_of run_roles trigger_roles (l_id run) (lease_author run) R /\
    role_permits R (action_type req) (req_scope req) /\
    scope_in_family (action_type req) (req_scope req) = true /\
    payload_bytes req <= resolve_max_payload_bytes (action_type req) None /\
    forall b, resolve_recipe_capability_bundle (l_recipe_id run) = Some b ->
      exists e, e ∈ b /\ bc_capability e = action_type req /\
                scope_matches (bc_scope e) (req_scope req) = true.
Proof.
  intros Hqueue Hj Hexec.
  apply (yields_appends _ _ _ _ _ process_once_granted Hqueue) in Hj.
  destruct (cycle_execution ext cc _ _ _ j1 id a j2 Hj Hexec)
    as (run & k0 & l & step & -> & (R & HR & requested & HG) & _ & (req & Hreq & Hallow & _) & _).
  destruct (granted_actions_bounded _ _ _ _ _ HG Hallow) as (H1 & H2 & H3 & H4).
  exists run, req, R. split_and!; [set_solver|done..].
Qed.
End pipeline.

(** * A concrete queue *)

Definition operator_grants : json :=
  match resolve_granted_capabilities "show_notes_v1" Operator (JArr []) with Ok g => g | Err _ => JNull end.

Definition write_shownotes : SkillAction :=
  {| sk_action_id := "a-3"; sk_action_type := "object.write";
     sk_args := JObj [("content", JStr "text"); ("path", JStr "shownotes/n.md")];
     sk_justification := "keep"; sk_action_contract_version := None; sk_action_schema_id := None |}.

(** The queue of [WorkerCycle.queued_world], its run created by an operator. *)
Definition operator_world : world unit :=
  {| w_db := with_rows (w_db queued_world)
       [{| r_id := 1; r_tenant_id := "acme"; r_agent_id := 7; r_triggered_by_user_id := None;
           r_recipe_id := "show_notes_v1"; r_status := queued; r_input_json := JObj [];
           r_requested_capabilities := JArr []; r_granted_capabilities := operator_grants;
           r_created_at := 0; r_started_at := None; r_finished_at := None; r_error_json := None;
           r_attempts := 0; r_lease_owner := None; r_lease_expires_at := None;
           r_semantic_dedupe_key := None |}];
     w_journal := []; w_tick := 0; w_ext := tt; w_routes := ∅; w_llm := no_llm |}.

Lemma operator_world_inv :
  queue_inv (fun _ => eq Operator) (fun _ _ => False) (db_runs (d_core (w_db operator_world)))
    (d_triggers (w_db operator_world)).
Proof.
  split_and!; try by constructor.
  - split; [by constructor; [set_solver|constructor]|].
    by constructor; [split; cbn; [lia|done]|].
  - constructor; [|done]. exists Operator. split; [by left|]. exists (JArr []). vm_compute. reflexivity.
Qed.

Definition operator_cycle : M unit WorkerCycleOutcome :=
  process_once_dual demo_env (cycle_ext [write_shownotes]) cycle_cfg.

Definition operator_effects : list effect := w_journal (operator_cycle operator_world).2.

(** * Property *)

(** For a whole cycle of a worker: if every run in the queue and every trigger
    was created with capabilities that the API resolved for its recipe and the
    role of its creator, then whatever happened since, every action that the
    cycle executes belongs to a run claimed in it, and the role of the creator of
    that run, or a role with which a trigger was created on its behalf, permits
    the type of the action on its scope; the scope lies in the family of the
    capability, the payload is within the hard limit, and a recipe with a bundle
    has an entry that covers it. *)
Theorem executed_actions_stay_within_the_callers_role X (E : env) ext (cc : CycleConfig) run_roles trigger_roles
    (w : world X) j j1 id a j2
    (Hother : forall t rows tt, queue_inv run_roles trigger_roles rows tt ->
       queue_inv run_roles trigger_roles (env_other E t rows) (env_other_triggers E t tt))
    (Hqueue : queue_inv run_roles trigger_roles (db_runs (d_core (w_db w))) (d_triggers (w_db w)))
    (Hj : appends (process_once_dual E ext cc) w j)
    (Hexec : j = j1 ++ Executing id a :: j2) :
  exists run req R, RunClaimed run ∈ j1 /\
    to_policy_request (x_to_vec (cx_worker ext)) (llm_scope (cx_worker ext) (cc_worker cc)) a = Ok req /\
    roles_of run_roles trigger_roles (l_id run) (lease_author run) R /\
    role_permits R (action_type req) (req_scope req) /\
    scope_in_family (action_type req) (req_scope req) = true /\
    payload_bytes req <= resolve_max_payload_bytes (action_type req) None /\
    forall b, resolve_recipe_capability_bundle (l_recipe_id run) = Some b ->
      exists e, e ∈ b /\ bc_capability e = action_type req /\
                scope_matches (bc_scope e) (req_scope req) = true.
Proof. by apply (executed_within_roles E ext cc run_roles trigger_roles Hother w j j1 id a j2). Qed.

Lemma executed_actions_stay_within_the_callers_role_witness :
  exists run req R, RunClaimed run ∈ take 13 operator_effects /\
    to_policy_request (fun _ => "{}") (llm_scope (demo_ext [write_shownotes]) (demo_cfg false)) write_shownotes = Ok req /\
    roles_of (fun _ => eq Operator) (fun _ _ => False) (l_id run) (lease_author run) R /\
    role_permits R (action_type req) (req_scope req) /\
    scope_in_family (action_type req) (req_scope req) = true /\
    payload_bytes req <= resolve_max_payload_bytes (action_type req) None /\
    forall b, resolve_recipe_capability_bundle (l_recipe_id run) = Some b ->
      exists e, e ∈ b /\ bc_capability e = action_type req /\
                scope_matches (bc_scope e) (req_scope req) = true.
Proof.
  apply (executed_actions_stay_within_the_callers_role unit demo_env (cycle_ext [write_shownotes])
    cycle_cfg (fun _ => eq Operator) (fun _ _ => False) operator_world operator_effects
    (take 13 operator_effects) 1027 write_shownotes (drop 14 operator_effects)).
  - done.
  - exact operator_world_inv.
  - vm_compute. reflexivity.
  - vm_compute. reflexivity.
Defined.
