(* ===== verification/System.v ===== *)
(** The whole system: an API that serves requests and workers that run cycles, on
    one database.  What a worker executes goes back to a request whose
    authenticated role permits it. *)
From S2P Require Import Prelude RustStr Json Policy ApiAuth Capabilities Sql Runs RunQueue RunDedupe LlmTables Tables.
From S2P Require Import TriggerTables TriggerDispatch TriggerSpec TriggerProps TriggerLedger Action.
From S2P Require Import FileStore AgentContext World Messages Worker WorkerProps WorkerCycle ApiRuns ApiRunProps ApiTriggers ApiContext ApiMemory Api.
From S2P Require Import Upholds ApiTriggerProps ApiMemoryProps Pipeline.

(** * The trigger tables *)

Section tables.
Context (rr : Uuid -> RolePreset -> Prop) (tr : author -> RolePreset -> Prop).
#[local] Abbreviation inv := (fun s : tdb => queue_inv rr tr (db_runs (tb_core s)) (tb_tables s)).

Lemma insert_trigger_queue_inv t s s' r :
  insert_trigger t s = Ok (s', r) -> granted_trigger tr t -> inv s -> inv s'.
Proof.
  intros Hi Ht (H1 & H2 & H3 & H4 & H5). apply insert_trigger_same in Hi as Hs.
  destruct Hs as [[Hc Hl] Htab]. unfold queue_inv. rewrite Hc.
  destruct (Htab (conj H4 H5)) as [H4' H5'].
  split_and!; [done|done| |done|done].
  unfold insert_trigger, ensure in Hi. destruct (negb _); [|done]. destruct (_ && _); [|done].
  injection Hi as <- _. cbn. apply Forall_app. split; [done|by constructor].
Qed.

Lemma update_trigger_queue_inv p f s : keeps_authority f -> inv s -> inv (update_trigger p f s).1.
Proof.
  intros Hf Hs. apply (adds_queue_inv rr tr [] [] s); [|done|by rewrite app_nil_r; apply Hs|done].
  unfold adds. cbn. rewrite !app_nil_r. split_and!; try done. by apply same_authority_map.
Qed.

Lemma update_event_queue_inv p f s : (forall e, te_id (f e) = te_id e) -> inv s -> inv (update_event p f s).1.
Proof.
  intros Hf Hs. apply (adds_queue_inv rr tr [] [] s); [|done|by rewrite app_nil_r; apply Hs|done].
  unfold adds. cbn. rewrite !app_nil_r. split_and!; try done; [by apply event_ids|apply same_authority_refl].
Qed.

Lemma insert_event_queue_inv e s s' b : insert_trigger_event e s = Ok (s', b) -> inv s -> inv s'.
Proof.
  intros Hi (H1 & H2 & H3 & H4 & H5). apply insert_event_same in Hi as Hs. destruct Hs as [[Hc _] Ht].
  destruct (Ht (conj H4 H5)) as [H4' H5']. unfold queue_inv. rewrite Hc. split_and!; [done|done| |done|done].
  unfold insert_trigger_event, ensure in Hi. destruct (existsb _ _); [by injection Hi as <- _|].
  destruct (trigger_exists _ _); [|done]. by injection Hi as <- _.
Qed.

Lemma requeue_queue_inv now tenant id event s s' o :
  requeue_dead_letter_trigger_event now tenant id event s = Ok (s', o) -> inv s -> inv s'.
Proof.
  unfold requeue_dead_letter_trigger_event. destruct (List.find _ _); [|by intros [= <- _]].
  destruct (negb _); [by intros [= <- _]|]. cbn. destruct (_ =? 1); [|done]. intros [= <- _] Hs.
  by apply (update_event_queue_inv (has_event tenant id event) (set_event_requeued now) s).
Qed.

Lemma trigger_audit_queue_inv n s s' : append_trigger_audit_event n s = Ok s' -> inv s -> inv s'.
Proof.
  unfold append_trigger_audit_event, ensure. destruct (negb _); [|done]. destruct (trigger_exists _ _); [|done].
  by intros [= <-].
Qed.

Lemma status_queue_inv now tenant id status s s' a :
  update_trigger_status now tenant id status s = Ok (s', a) -> inv s -> inv s'.
Proof.
  unfold update_trigger_status, ensure. destruct (_ || _); [|done]. intros [= <- _].
  by apply update_trigger_queue_inv.
Qed.

Lemma config_queue_inv now tenant id m next s s' a :
  write_trigger_config now tenant id m next s = Ok (s', a) -> inv s -> inv s'.
Proof.
  unfold write_trigger_config, ensure. destruct (match _ with Some _ => _ | None => _ end); [|done].
  intros [= <- _]. by apply update_trigger_queue_inv.
Qed.

Lemma config_sqlite_queue_inv now tenant id m s s' a :
  write_trigger_config_sqlite now tenant id m s = Ok (s', a) -> inv s -> inv s'.
Proof.
  unfold write_trigger_config_sqlite, ensure. destruct (match _ with Some _ => _ | None => _ end); [|done].
  intros [= <- _]. by apply update_trigger_queue_inv.
Qed.

Lemma manual_queue_inv uuid_text wall now tenant id key payload tenant_max run_id row_id s s' o :
  fire_trigger_manually_with_limits uuid_text wall now tenant id key payload tenant_max run_id row_id s =
    Ok (s', o) -> inv s -> inv s'.
Proof.
  intros [[-> _]|(t & n & row & Hin & _ & _ & _ & -> & -> & Hadd & Hfresh & _)]%manual_cases Hs; [done|].
  eapply fired_queue_inv; [exact Hadd| |exact Hfresh|done].
  destruct Hs as (_ & _ & Ht & _). rewrite Forall_forall in Ht. by apply Ht.
Qed.

Lemma manual_sqlite_queue_inv uuid_text wall now t key payload run_id row_id s s' o :
  fire_manually_sqlite uuid_text wall now t key payload run_id row_id s = Ok (s', o) ->
  granted_trigger tr t -> inv s -> inv s'.
Proof.
  intros [[-> _]|(Hadd & Hfresh & _)]%manual_sqlite_cases Ht Hs; [done|].
  by eapply fired_queue_inv; [exact Hadd|..].
Qed.
End tables.

(** * The history of requests *)

(** A served request and what it did. *)
Record served := { sv_config : ApiConfig; sv_headers : HeaderMap; sv_request : api_request; sv_journal : list effect }.

Definition sv_role (v : served) : ApiResult RolePreset := role_from_headers (ap_auth (sv_config v)) (sv_headers v).

(** Someone with the role created the run, or a trigger for the author. *)
Definition run_created (h : list served) (id : Uuid) (R : RolePreset) : Prop :=
  exists v n, v ∈ h /\ sv_role v = Ok R /\ RunCreated n ∈ sv_journal v /\ n_id n = id.
Definition trigger_created (h : list served) (a : author) (R : RolePreset) : Prop :=
  exists v t, v ∈ h /\ sv_role v = Ok R /\ TriggerCreated t ∈ sv_journal v /\ trigger_author t = a.

Definition traced (h : list served) (d : db) : Prop :=
  queue_inv (run_created h) (trigger_created h) (db_runs (d_core d)) (d_triggers d).

(** Roles behind runs and triggers are never taken back. *)
Lemma queue_inv_mono (rr rr' : Uuid -> RolePreset -> Prop) (tr tr' : author -> RolePreset -> Prop) rows tt :
  (forall id R, rr id R -> rr' id R) -> (forall a R, tr a R -> tr' a R) ->
  queue_inv rr tr rows tt -> queue_inv rr' tr' rows tt.
Proof.
  intros Hr Ht (H1 & H2 & H3 & H4 & H5). split_and!; [done|eapply Forall_impl; [exact H2|]|eapply Forall_impl; [exact H3|]|done|done].
  - intros r (R & [H|H] & ?); exists R; (split; [|done]); [left|right]; auto.
  - intros t (R & H & ?). exists R. auto.
Qed.

(** [h'] has the requests of [h], each with at least its effects. *)
Definition extends (h h' : list served) : Prop :=
  forall v, v ∈ h -> exists v', v' ∈ h' /\ sv_role v' = sv_role v /\ sv_journal v ⊆ sv_journal v'.

Lemma traced_extends h h' d : extends h h' -> traced h d -> traced h' d.
Proof.
  intros He. apply queue_inv_mono; intros x R (v & n & (v' & Hv' & Hr & Hj)%He & HR & Hn & Hx);
    exists v', n; by rewrite Hr; auto.
Qed.

Lemma extends_snoc h v : extends h (h ++ [v]).
Proof. intros u Hu. exists u. set_solver. Qed.

Lemma extends_log h ac headers request j l :
  extends (h ++ [{| sv_config := ac; sv_headers := headers; sv_request := request; sv_journal := j |}])
          (h ++ [{| sv_config := ac; sv_headers := headers; sv_request := request; sv_journal := j ++ l |}]).
Proof.
  intros u [Hu| ->%list_elem_of_singleton]%elem_of_app; [exists u; set_solver|].
  eexists. split; [apply elem_of_app; right; by apply list_elem_of_singleton|]. cbn. set_solver.
Qed.

(** Other sessions create runs and triggers only with capabilities the API has
    resolved. *)
Definition harmless (E : env) : Prop :=
  forall rr tr t rows tables, queue_inv rr tr rows tables ->
    queue_inv rr tr (env_other E t rows) (env_other_triggers E t tables).

(** * Serving a request *)

Section serving.
Context {X : Type} `{FH : FileHost X} (E : env) (ac : ApiConfig) (headers : HeaderMap) (request : api_request) (h : list served).
Context (HE : harmless E).
#[local] Abbreviation handler := (ApiRuns.handler (X := X)).

Lemma traced_observed h' (w : world X) : traced h' (w_db w) -> traced h' (observed E w).
Proof. intros Hw. unfold traced, observed. destruct (env_other_payments E _ _). cbn. by apply HE. Qed.

(** While a request is served its own effects count. *)
Definition serving (d : db) (j : list effect) : Prop :=
  traced (h ++ [{| sv_config := ac; sv_headers := headers; sv_request := request; sv_journal := j |}]) d.
#[local] Abbreviation ok := (upholds (X := X) serving).

Lemma serving_observed (w : world X) j : serving (w_db w) j -> serving (observed E w) j.
Proof. apply traced_observed. Qed.

Lemma serving_log d j l : serving d j -> serving d (j ++ l).
Proof. apply traced_extends, extends_log. Qed.

Lemma serving_tstmt {A} (f : Z -> tdb -> result (tdb * A) db_error) log :
  (forall rr tr now s s' a, f now s = Ok (s', a) -> queue_inv rr tr (db_runs (tb_core s)) (tb_tables s) ->
     queue_inv rr tr (db_runs (tb_core s')) (tb_tables s')) -> ok (tstmt E f log).
Proof.
  intros Hf. apply upholds_tstmt; [apply serving_observed|]. intros now d s' a j F Hd.
  apply (serving_log _ _ (log a)) in Hd. by apply (Hf _ _ _ _ _ _ F).
Qed.

Lemma serving_tquery {A} (f : tdb -> A) : ok (tquery E f).
Proof. apply upholds_tquery, serving_observed. Qed.

Lemma serving_query {A} (f : db -> A) : ok (stmt E (total (fun _ d => (d, f d))) (fun _ => [])).
Proof. apply upholds_query, serving_observed. Qed.

Lemma serving_load tenant id : ok (load_trigger E tenant id).
Proof. apply upholds_or_internal, serving_tquery. Qed.

Lemma serving_audit tenant id role ty details : ok (append_trigger_audit E tenant id role ty details).
Proof.
  unfold append_trigger_audit. apply upholds_bind; [apply upholds_new_v4|intros n].
  apply upholds_or_internal, serving_tstmt. intros rr tr now s s' a F.
  destruct (append_trigger_audit_event _ _) eqn:Fa; [|done]. injection F as <- _. by eapply trigger_audit_queue_inv.
Qed.

Lemma serving_db_audit event : ok (db_append_audit_event E event).
Proof.
  apply upholds_stmt; [apply serving_observed|]. intros now d d' a j F Hd. unfold no_value in F.
  destruct (append_audit_event_dual _ _ _ _) as [d1|] eqn:F1; [|done]. injection F as <- _.
  apply serving_log. unfold serving, traced. by rewrite (append_audit_core _ _ _ _ _ F1), (append_audit_triggers _ _ _ _ _ F1).
Qed.

Lemma serving_answer_code {A} (m : handler (Z * A)) : ok m -> ok (answer_code m).
Proof. intros Hm. apply upholds_andthen; [done|]. intros a. apply upholds_ret. Qed.

(** ** Runs *)

(** What the request says of its own effects. *)
Lemma own_run_created role j n :
  role_from_headers (ap_auth ac) headers = Ok role ->
  run_created (h ++ [{| sv_config := ac; sv_headers := headers; sv_request := request; sv_journal := j ++ [RunCreated n] |}])
    (n_id n) role.
Proof. intros Hr. eexists _, n. split; [apply elem_of_app; right; by apply list_elem_of_singleton|]. cbn. set_solver. Qed.

Lemma own_trigger_created role j t :
  role_from_headers (ap_auth ac) headers = Ok role ->
  trigger_created (h ++ [{| sv_config := ac; sv_headers := headers; sv_request := request; sv_journal := j ++ [TriggerCreated t] |}])
    (trigger_author t) role.
Proof. intros Hr. eexists _, t. split; [apply elem_of_app; right; by apply list_elem_of_singleton|]. cbn. set_solver. Qed.

Lemma serving_insert_run role n key :
  role_from_headers (ap_auth ac) headers = Ok role -> resolved (n_recipe_id n) role (n_granted_capabilities n) ->
  n_status n = "queued" -> ok (db_create_run E n key).
Proof.
  intros HR Hres Hs. apply upholds_stmt; [apply serving_observed|]. intros now d d' a j F Hd.
  unfold create_run_with_semantic_dedupe_key in F. rewrite Hs in F. cbn in F.
  destruct (existsb _ _); [injection F as <- <-; by apply serving_log; destruct d as [[]]|].
  destruct (insert_run _ _) as [core|] eqn:Hi; [|done]. injection F as <- <-.
  apply insert_run_Ok in Hi as [Hrows Hfresh]. apply (serving_log _ _ [RunCreated n]) in Hd.
  unfold serving, traced in *. cbn [d_core with_core d_triggers] in *. rewrite Hrows.
  destruct Hd as (H1 & H2 & H3 & H4 & H5). split_and!; [|apply Forall_app; split; [done|]|done..].
  - apply store_inv_snoc; [done|apply queued_row_wf|exact Hfresh].
  - constructor; [|done]. exists role. split; [left; by apply own_run_created|done].
Qed.

Lemma serving_create_run_common tenant role req :
  role_from_headers (ap_auth ac) headers = Ok role ->
  ok (create_run_common E (ap_to_vec ac) (ap_sha256_hex ac) tenant role req).
Proof.
  intros HR. unfold create_run_common. apply upholds_check. intros granted Hg.
  apply upholds_bind; [apply upholds_new_v4|intros id]. apply upholds_andthen.
  - unfold insert_or_find. apply upholds_andthen.
    + apply upholds_or_internal. apply (serving_insert_run role); [done|by exists (cr_requested_capabilities req)|done].
    + intros [rec|]; [apply upholds_ret|]. apply upholds_andthen; [apply upholds_or_internal, serving_query|].
      intros existing. apply upholds_check. intros x _. apply upholds_ret.
  - intros [[run_id code] new]. apply upholds_andthen.
    + destruct new; [|apply upholds_ret]. apply upholds_bind; [apply upholds_new_v4|intros eid].
      apply upholds_or_internal, serving_db_audit.
    + intros _. apply upholds_andthen; [apply upholds_or_internal, serving_query|].
      intros found. apply upholds_check. intros x _. apply upholds_ret.
Qed.

Lemma serving_create_run req :
  ok (create_run_handler E (ap_to_vec ac) (ap_sha256_hex ac) (ap_auth ac) (ap_tenant_max_inflight_runs ac) headers req).
Proof.
  apply upholds_check. intros tenant _. apply upholds_check. intros role HR.
  destruct (ap_tenant_max_inflight_runs ac); [|by apply serving_create_run_common].
  apply upholds_andthen; [apply upholds_or_internal, serving_query|]. intros count.
  destruct (_ <=? _); [apply upholds_ret|by apply serving_create_run_common].
Qed.

(** ** Triggers *)

Lemma serving_insert_trigger role (f : Z -> tdb -> result (tdb * TriggerRecord) db_error) :
  role_from_headers (ap_auth ac) headers = Ok role ->
  (forall now s s' t, f now s = Ok (s', t) ->
     insert_trigger t s = Ok (s', t) /\ resolved (t_recipe_id t) role (t_granted_capabilities t)) ->
  ok (tstmt E f (fun t => [TriggerCreated t])).
Proof.
  intros HR Hf. apply upholds_tstmt; [apply serving_observed|]. intros now d s' t j [Hi Hres]%Hf Hd.
  apply (serving_log _ _ [TriggerCreated t]) in Hd.
  apply (insert_trigger_queue_inv _ _ _ _ _ _ Hi); [|done]. exists role. split; [by apply own_trigger_created|done].
Qed.

Lemma serving_create_sqlite role what tenant id row :
  role_from_headers (ap_auth ac) headers = Ok role ->
  (forall now, resolved (t_recipe_id (row now)) role (t_granted_capabilities (row now))) ->
  ok (create_and_reload_sqlite E what tenant id row).
Proof.
  intros HR Hrow. apply upholds_andthen.
  - apply upholds_or_internal. apply (serving_insert_trigger role); [done|]. intros now s s' t F.
    unfold insert_trigger_sqlite, ensure in F. destruct (trigger_row_ok _); [|done].
    pose proof (insert_trigger_row _ _ _ _ F) as ->. eauto.
  - intros _. apply upholds_andthen; [apply serving_load|]. intros found. apply upholds_check. intros t _.
    apply upholds_ret.
Qed.

Lemma serving_capacity tenant : ok (ensure_tenant_trigger_capacity E (ap_tenant_max_triggers ac) tenant).
Proof.
  unfold ensure_tenant_trigger_capacity. destruct (ap_tenant_max_triggers ac); [|apply upholds_ret].
  apply upholds_andthen; [apply upholds_or_internal, serving_tquery|]. intros count.
  destruct (_ <=? _); apply upholds_ret.
Qed.

Lemma serving_create_with recipe user requested details (k : string -> option Uuid -> json -> handler TriggerRecord) :
  (forall role tenant u granted, role_from_headers (ap_auth ac) headers = Ok role -> resolved recipe role granted ->
     ok (k tenant u granted)) ->
  ok (create_with E (ap_parse_uuid ac) (ap_auth ac) (ap_tenant_max_triggers ac) headers recipe user requested details k).
Proof.
  intros Hk. apply upholds_check. intros [[tenant role] actor] (_ & HR & _)%trigger_caller_Ok.
  apply upholds_check. intros u _. apply upholds_check. intros granted Hg. apply upholds_andthen.
  - apply serving_capacity.
  - intros _. apply upholds_andthen; [apply (Hk role); [done|by exists requested]|]. intros t.
    apply upholds_andthen; [apply serving_audit|]. intros _. apply upholds_ret.
Qed.

Lemma serving_creation x : trigger_creation request = Some x -> ok (serve E ac headers request).
Proof.
  destruct request; try done; intros _; cbn [serve]; apply serving_answer_code, upholds_check; intros _ _;
    apply serving_create_with; intros role tenant user granted HR Hres;
    (apply upholds_bind; [apply upholds_new_v4|intros id]);
    (apply upholds_bind; [apply upholds_now_utc|intros wall]);
    cbn zeta; destruct (on_sqlite (env_pool E));
    try (by apply (serving_create_sqlite role)); apply upholds_or_internal, (serving_insert_trigger role);
    try done; intros now s s' t.
  - unfold create_interval_trigger, ensure. destruct (_ && _); [|done]. intros F.
    by pose proof (insert_trigger_row _ _ _ _ F) as ->.
  - unfold create_cron_trigger, ensure. destruct (map_err _ _); [|done]. destruct (_ && _); [|done]. intros F.
    by pose proof (insert_trigger_row _ _ _ _ F) as ->.
  - unfold create_webhook_trigger, ensure. destruct (_ && _); [|done]. intros F.
    by pose proof (insert_trigger_row _ _ _ _ F) as ->.
Qed.

(** ** Changes: the trigger they load was created by an earlier request *)

Lemma changing_load {A} tenant id (k : option TriggerRecord -> handler A) (w : world X) :
  traced h (w_db w) ->
  (forall t, granted_trigger (trigger_created h) t -> ok (k (Some t))) -> ok (k None) ->
  serving (w_db (andthen (load_trigger E tenant id) k w).2) (w_journal (andthen (load_trigger E tenant id) k w).2).
Proof.
  intros Hw%traced_observed Hk Hn. assert (serving (observed E w) (w_journal w)) as Hs
    by (eapply traced_extends; [apply extends_snoc|exact Hw]).
  unfold andthen, load_trigger, or_internal, tquery, tstmt, bind, try, stmt.
  destruct (env_fault E (w_tick w)) as [[[] m]|]; cbn; rewrite ?app_nil_r; try done.
  match goal with |- serving (w_db (k ?o ?w1).2) _ => set (found := o); set (w' := w1);
    assert (serving (w_db w') (w_journal w')) as Hw' end.
  { unfold w'. cbn. by rewrite with_trigger_db_same. }
  destruct found as [t|] eqn:F; [|by apply Hn]. apply Hk; [|done].
  destruct Hw as (_ & _ & Ht & _). rewrite Forall_forall in Ht. apply Ht.
  apply find_some in F as [F _]. by apply list_elem_of_In.
Qed.

Lemma changing_owned {A} pre id (k : string -> RolePreset -> TriggerRecord -> handler A) (w : world X) :
  traced h (w_db w) ->
  (forall tenant role t, granted_trigger (trigger_created h) t -> ok (k tenant role t)) ->
  let w' := (with_owned_trigger E (ap_parse_uuid ac) (ap_auth ac) headers pre id k w).2 in
  serving (w_db w') (w_journal w').
Proof.
  intros Hw Hk. cbn zeta. assert (serving (w_db w) (w_journal w)) as Hs
    by (eapply traced_extends; [apply extends_snoc|exact Hw]).
  unfold with_owned_trigger. destruct (trigger_caller _ _ _) as [[[tenant role] actor]|]; [|done].
  cbn [check]. destruct pre; [|done]. cbn [check]. apply changing_load; [done| |].
  - intros t Ht. cbn [ok_or check]. apply upholds_check. intros _ _. by apply Hk.
  - apply upholds_ret.
Qed.

Lemma serving_found what (m : M X (option TriggerRecord)) :
  ok m -> ok (andthen (or_internal E what m) (fun found =>
                check (ok_or found (not_found "trigger not found")) (fun t => ret (Ok t)))).
Proof.
  intros Hm. apply upholds_andthen; [by apply upholds_or_internal|]. intros found. apply upholds_check.
  intros t _. apply upholds_ret.
Qed.

Lemma serving_reload tenant id : ok (reload_changed E tenant id).
Proof. apply upholds_andthen; [apply serving_load|]. intros found. apply upholds_check. intros t _. apply upholds_ret. Qed.

Lemma serving_answer_changed tenant id role ty details t : ok (answer_changed E tenant id role ty details t).
Proof. apply upholds_andthen; [apply serving_audit|]. intros _. apply upholds_ret. Qed.

Lemma serving_status tenant id status :
  ok (tstmt E (fun now => update_trigger_status now tenant id status) changed).
Proof. apply serving_tstmt. intros rr tr now s s' a. apply status_queue_inv. Qed.

Lemma serving_status_change tenant id role status ty :
  ok (andthen
      (if on_sqlite (env_pool E) then
         andthen (or_internal E "failed updating trigger status" (update_status_sqlite E tenant id status))
           (fun updated => if is_some updated then reload_changed E tenant id else fail (not_found "trigger not found"))
       else
         andthen (or_internal E "failed updating trigger status"
                    (tstmt E (fun now => update_trigger_status now tenant id status) changed))
           (fun found => check (ok_or found (not_found "trigger not found")) (fun t => ret (Ok t))))
      (answer_changed E tenant id role ty status_details)).
Proof.
  apply upholds_andthen; [|apply serving_answer_changed]. destruct (on_sqlite _); [|apply serving_found, serving_status].
  apply upholds_andthen.
  - apply upholds_or_internal, serving_tstmt. intros rr tr now s s' a. apply status_queue_inv.
  - intros o. destruct (is_some o); [apply serving_reload|apply upholds_ret].
Qed.

Lemma serving_update tenant id role existing req :
  ok (check (check_schedule_fields (t_trigger_type existing) req) (fun _ =>
       andthen
         (if on_sqlite (env_pool E) then
            andthen (or_internal E "failed updating trigger"
                       (tstmt E (fun now => write_trigger_config_sqlite now tenant id
                                              (merged_params (update_params_sqlite req) existing)) changed))
              (fun _ => reload_changed E tenant id)
          else
            andthen (or_internal E "failed updating trigger"
                       (update_trigger_config E (ap_schedules ac) (ap_jitter_hash ac) tenant id (update_params req)))
              (fun found => check (ok_or found (not_found "trigger not found")) (fun t => ret (Ok t))))
         (answer_changed E tenant id role "trigger.updated" updated_details))).
Proof.
  apply upholds_check. intros _ _. apply upholds_andthen; [|apply serving_answer_changed]. destruct (on_sqlite _).
  - apply upholds_andthen; [|intros _; apply serving_reload]. apply upholds_or_internal, serving_tstmt.
    intros rr tr now s s' a. apply config_sqlite_queue_inv.
  - apply serving_found. apply upholds_bind; [apply serving_tquery|]. intros [t|]; [|apply upholds_ret].
    apply upholds_bind; [apply upholds_now_utc|intros wall]. apply upholds_bind; [apply upholds_lift|intros next].
    apply serving_tstmt. intros rr tr now s s' a. apply config_queue_inv.
Qed.

Lemma serving_replay event_id id (w : world X) :
  traced h (w_db w) ->
  let w' := ((if on_sqlite (env_pool E)
              then replay_trigger_event_sqlite_handler E (ap_parse_uuid ac) (ap_auth ac) headers id event_id
              else replay_trigger_event_handler E (ap_parse_uuid ac) (ap_auth ac) headers id event_id) w).2 in
  serving (w_db w') (w_journal w').
Proof.
  intros Hw. destruct (on_sqlite _); apply changing_owned; try done; intros tenant role t _.
  - apply upholds_andthen.
    + apply upholds_or_internal, serving_tstmt. intros rr tr now s s' n [= <- _]. by apply update_event_queue_inv.
    + intros n. destruct (n =? 1).
      * apply upholds_andthen; [apply serving_audit|]. intros _. apply upholds_ret.
      * apply upholds_andthen; [apply upholds_or_internal, serving_tquery|]. intros o. apply upholds_ret.
  - destruct (negb _); [apply upholds_ret|]. destruct (not_enabled t); [apply upholds_ret|]. apply upholds_andthen.
    + apply upholds_or_internal, serving_tstmt. intros rr tr now s s' o. apply requeue_queue_inv.
    + intros [| |status]; try apply upholds_ret. apply upholds_andthen; [apply serving_audit|].
      intros _. apply upholds_ret.
Qed.

Lemma serving_fire_answer tenant id role key o : ok (answer_fire E tenant id role key o).
Proof.
  destruct o; cbn [answer_fire]; try apply upholds_ret.
  - apply upholds_andthen; [apply serving_audit|intros _]. apply upholds_bind; [apply upholds_new_v4|intros n].
    apply upholds_andthen; [apply upholds_or_internal, serving_db_audit|]. intros _. apply upholds_ret.
  - apply upholds_andthen; [apply serving_audit|]. intros _. apply upholds_ret.
Qed.

(** The SQLite handler fires the trigger it has loaded. *)
Lemma serving_fire id req (w : world X) :
  traced h (w_db w) ->
  let w' := ((if on_sqlite (env_pool E)
              then fire_trigger_sqlite_handler E (ap_parse_uuid ac) (ap_auth ac) headers id req
              else fire_trigger_handler E (ap_parse_uuid ac) (ap_auth ac) headers id req) w).2 in
  serving (w_db w') (w_journal w').
Proof.
  intros Hw. destruct (on_sqlite _); apply changing_owned; try done; intros tenant role t Ht;
    (destruct (not_enabled t); [apply upholds_ret|]).
  - apply upholds_bind; [apply upholds_new_v4|intros run_id]. apply upholds_bind; [apply upholds_new_v4|intros row_id].
    apply upholds_bind; [apply upholds_now_utc|intros wall]. apply upholds_andthen.
    + apply upholds_or_internal, upholds_tstmt; [apply serving_observed|]. intros now d s' o j F Hd.
      apply serving_log. apply (manual_sqlite_queue_inv _ _ _ _ _ _ _ _ _ _ _ _ _ F); [|exact Hd].
      destruct Ht as (R & (v & n & Hv & HR) & Hres). exists R. split; [|done]. exists v, n. split; [set_solver|done].
    + intros o. destruct o; cbn [answer_fire_sqlite]; try apply upholds_ret.
      apply upholds_andthen; [apply serving_audit|]. intros _. apply upholds_ret.
  - apply upholds_andthen; [|intros o; apply serving_fire_answer]. apply upholds_or_internal.
    apply upholds_bind; [apply upholds_new_v4|intros run_id]. apply upholds_bind; [apply upholds_new_v4|intros row_id].
    apply upholds_bind; [apply upholds_now_utc|intros wall]. apply serving_tstmt. intros rr tr now s s' o.
    apply manual_queue_inv.
Qed.

Lemma serving_queue_event tenant id req row_id :
  ok (queue_event E (ap_to_vec ac) (ap_sha256_hex ac) tenant id req row_id).
Proof. apply serving_tstmt. intros rr tr now s s' b. apply insert_event_queue_inv. Qed.

Lemma serving_ingest id req :
  ok (ingest_trigger_event_handler E (ap_to_vec ac) (ap_sha256_hex ac) (ap_resolve_secret ac) headers id req).
Proof.
  apply upholds_check. intros tenant _. apply upholds_check. intros _ _.
  apply upholds_andthen; [apply serving_load|intros found]. apply upholds_check. intros t _.
  destruct (negb _); [apply upholds_ret|]. destruct (not_enabled t); [apply upholds_ret|].
  apply upholds_check. intros _ _. apply upholds_andthen; [|intros [| |reason]; apply upholds_ret].
  apply upholds_or_internal. destruct (on_sqlite _).
  - apply upholds_bind; [apply upholds_new_v4|intros row_id].
    apply upholds_bind; [apply serving_queue_event|intros b; apply upholds_ret].
  - apply upholds_bind; [apply serving_tquery|]. intros [reason|]; [apply upholds_ret|].
    apply upholds_bind; [apply upholds_new_v4|intros row_id].
    apply upholds_bind; [apply serving_queue_event|intros b; apply upholds_ret].
Qed.

Lemma serving_get_run id : ok (get_run_handler E headers id).
Proof.
  apply upholds_check. intros tenant _. apply upholds_andthen; [apply upholds_or_internal, serving_query|].
  intros found. apply upholds_check. intros r _. apply upholds_ret.
Qed.

(** ** Agent contexts *)

Lemma serving_on_files {A} (f : Z -> (string -> option string) -> file_store -> result (file_store * A) string) log :
  ok (on_files E (ap_files ac) f log).
Proof.
  intros w Hw. unfold on_files. destruct (f _ _ _) as [[s a]|e]; cbn; by apply serving_log.
Qed.
#[local] Hint Resolve serving_on_files serving_audit serving_capacity serving_tquery : agnt.
#[local] Hint Extern 1 (upholds _ (ask_files _ _ _)) => apply serving_on_files : agnt.
#[local] Hint Extern 1 (upholds _ (change_files _ _ _ _)) => apply serving_on_files : agnt.
#[local] Ltac context_steps := repeat upholds_step.

Lemma serving_load_context tenant id : ok (load_context E (ap_files ac) (ap_context ac) (ap_context_calls ac) tenant id).
Proof. unfold load_context. context_steps. Qed.
#[local] Hint Resolve serving_load_context : agnt.

Lemma serving_create_parent dir rel : ok (create_parent E (ap_files ac) dir rel).
Proof. unfold create_parent. context_steps. Qed.
Lemma serving_current_len path : ok (current_len E (ap_files ac) path).
Proof. unfold current_len. context_steps. Qed.
Lemma serving_write_context what path bytes : ok (write_context E (ap_files ac) what path bytes).
Proof. unfold write_context. context_steps. Qed.
Lemma serving_append_context path bytes : ok (append_context E (ap_files ac) path bytes).
Proof. unfold append_context. context_steps. Qed.
Lemma serving_read_back what path : ok (read_back E (ap_files ac) (ap_context_calls ac) what path).
Proof. unfold read_back. context_steps. Qed.
#[local] Hint Resolve serving_create_parent serving_current_len serving_write_context serving_append_context serving_read_back : agnt.

Lemma serving_append_line dir rel line : ok (append_context_jsonl_line E (ap_files ac) (ap_context ac) dir rel line).
Proof. unfold append_context_jsonl_line. context_steps. Qed.
Lemma serving_write_updates dir l : ok (write_updates E (ap_files ac) (ap_context ac) (ap_context_calls ac) dir l).
Proof. induction l as [|[rel content] l IH]; cbn [write_updates]; context_steps. Qed.
Lemma serving_heartbeat_source tenant id inline :
  ok (heartbeat_source_of E (ap_files ac) (ap_context ac) (ap_context_calls ac) tenant id inline).
Proof. unfold heartbeat_source_of. context_steps. Qed.
Lemma serving_source_dir tenant id :
  ok (resolve_or_create_agent_context_source_dir E (ap_files ac) (ap_context ac) tenant id).
Proof. unfold resolve_or_create_agent_context_source_dir. context_steps. Qed.
#[local] Hint Resolve serving_append_line serving_write_updates serving_heartbeat_source serving_source_dir : agnt.

Lemma serving_create_heartbeat role g c granted :
  role_from_headers (ap_auth ac) headers = Ok role -> resolved (hc_recipe_id c) role granted ->
  ok (create_heartbeat_trigger E (ap_schedules ac) (ap_jitter_hash ac) g c granted).
Proof.
  intros HR Hres. unfold create_heartbeat_trigger.
  apply upholds_bind; [apply upholds_new_v4|intros id]. apply upholds_bind; [apply upholds_now_utc|intros wall].
  destruct (hc_kind c); apply upholds_check; intros x _; cbn zeta;
    apply upholds_or_internal, (serving_insert_trigger role); try done; intros now s s' t; destruct (on_sqlite _);
    unfold insert_trigger_sqlite, create_interval_trigger, create_cron_trigger, ensure;
    repeat (destruct (map_err _ _); [|done]);
    match goal with |- context [if ?b then _ else _] => destruct b; [|done] end;
    intros Hi; by pose proof (insert_trigger_row _ _ _ _ Hi) as ->.
Qed.

Lemma serving_apply_candidate role g details c :
  role_from_headers (ap_auth ac) headers = Ok role ->
  ok (apply_candidate E (ap_schedules ac) (ap_jitter_hash ac) (ap_tenant_max_triggers ac) role g details c).
Proof.
  intros HR. unfold apply_candidate. apply upholds_andthen.
  - apply upholds_check. intros _ _. apply upholds_or_internal, serving_tquery.
  - intros [id|]; [apply upholds_ret|]. apply upholds_andthen; [apply serving_capacity|intros _].
    apply upholds_check. intros granted Hg. apply upholds_andthen.
    + apply (serving_create_heartbeat role); [done|by exists (hg_requested g)].
    + intros t. context_steps.
Qed.

Lemma serving_apply_candidates role g details l :
  role_from_headers (ap_auth ac) headers = Ok role ->
  ok (apply_candidates E (ap_schedules ac) (ap_jitter_hash ac) (ap_tenant_max_triggers ac) role g details l).
Proof.
  intros HR. induction l as [|c l IH]; cbn [apply_candidates]; [apply upholds_ret|].
  apply upholds_andthen; [by apply serving_apply_candidate|intros item].
  apply upholds_andthen; [done|intros items; apply upholds_ret].
Qed.

Lemma serving_materialize id req :
  ok (materialize_agent_heartbeat_handler E (ap_files ac) (ap_context ac) (ap_context_calls ac) (ap_schedules ac)
        (ap_jitter_hash ac) (ap_parse_uuid ac) (ap_auth ac) (ap_tenant_max_triggers ac) headers id req).
Proof.
  apply upholds_check. intros tenant _. apply upholds_check. intros role HR. apply upholds_check. intros _ _.
  apply upholds_check. intros actor _. apply upholds_check. intros g _.
  apply upholds_andthen; [apply serving_heartbeat_source|intros src]. cbn zeta.
  destruct (_ && _); [apply upholds_ret|]. apply upholds_andthen; [|intros items; apply upholds_ret].
  destruct (mh_apply req); [by apply serving_apply_candidates|apply upholds_ret].
Qed.

Lemma serving_context :
  match request with
  | GetAgentContext _ | MutateAgentContext _ _ | GetAgentBootstrap _ | CompleteAgentBootstrap _ _
  | CompileAgentHeartbeat _ _ => ok (serve E ac headers request)
  | _ => True
  end.
Proof.
  destruct request; try done; cbn [serve]; apply serving_answer_code;
    unfold get_agent_context_handler, mutate_agent_context_handler, get_agent_bootstrap_handler,
      complete_agent_bootstrap_handler, compile_agent_heartbeat_handler; cbn zeta; context_steps.
Qed.

(** ** Memory: the runs and the triggers stay as they are *)

Lemma serving_memory :
  match request with
  | CreateMemoryRecord _ | CreateHandoffPacket _ | ListHandoffPackets _ | ListMemoryRecords _ | RetrieveMemory _
  | GetMemoryCompactionStats _ | PurgeMemoryRecords _ => ok (serve E ac headers request)
  | _ => True
  end.
Proof.
  assert (forall what n, ok (record_memory E (memory_backend E) what n)) as Hrecord.
  { intros what n. apply upholds_or_internal, upholds_stmt; [apply serving_observed|]. intros now d d' r j F Hd.
    apply backend_create in F as (-> & _). by apply serving_log. }
  pose proof serving_observed as HI. pose proof serving_db_audit as HA.
  destruct request; try done; cbn [serve]; apply serving_answer_code.
  - apply (on_backend_rule E (fun f => ok (f req)) (fun B => create_memory_record_with E B _ _ _)).
    by apply upholds_create_memory.
  - apply (on_backend_rule E (fun f => ok (f req)) (fun B => create_handoff_packet_with E B _ _ _ _)).
    by apply upholds_create_handoff.
  - apply (on_backend_rule E (fun f => ok (f query)) (fun B => list_handoff_packets_with E B _ _ _)).
    by apply upholds_list_handoffs.
  - apply (on_backend_rule E (fun f => ok (f query)) (fun B => list_memory_records_with E B _ _)).
    by apply upholds_list_memory.
  - apply (on_backend_rule E (fun f => ok (f query)) (fun B => retrieve_memory_with E B _ _ _)).
    by apply upholds_retrieve.
  - apply (on_backend_rule E (fun f => ok (f query)) (fun B => get_memory_compaction_stats_with E B _ _)).
    by apply upholds_compaction_stats.
  - apply (on_backend_rule E (fun f => ok (f req)) (fun B => purge_memory_records_with E B _ _)).
    apply upholds_purge; [done..|]. intros tenant as_of _. apply upholds_on_memory; [done|].
    intros now d j Hd. by apply serving_log.
Qed.

(** Serving any request keeps runs and triggers traced to requests. *)
Lemma serve_traced (w : world X) :
  traced h (w_db w) -> serving (w_db (serve E ac headers request w).2) (w_journal (serve E ac headers request w).2).
Proof.
  intros Hw. assert (serving (w_db w) (w_journal w)) as Hs by (eapply traced_extends; [apply extends_snoc|exact Hw]).
  destruct (trigger_creation request) as [x|] eqn:Hc; [by apply (serving_creation x)|].
  pose proof serving_context as Hctx. pose proof serving_memory as Hmem.
  destruct request eqn:Hreq; try done; try (by apply Hctx); try (by apply Hmem); cbn [serve]; rewrite answer_code_world.
  - by apply serving_create_run.
  - by apply serving_get_run.
  - apply changing_owned; [done|]. intros tenant role t _. apply serving_update.
  - apply changing_owned; [done|]. intros tenant role t _. apply serving_status_change.
  - apply changing_owned; [done|]. intros tenant role t _. apply serving_status_change.
  - by apply serving_ingest.
  - pose proof (serving_replay event_id trigger_id w Hw). by destruct (on_sqlite _).
  - pose proof (serving_fire trigger_id req w Hw). by destruct (on_sqlite _).
  - by apply serving_materialize.
Qed.
End serving.

(** * The system *)

(** The database, and the requests that have been served. *)
Record system := { sy_db : db; sy_history : list served }.

Definition initial (s : system) : Prop :=
  db_runs (d_core (sy_db s)) = [] /\ tt_triggers (d_triggers (sy_db s)) = [] /\
  tt_events (d_triggers (sy_db s)) = [] /\ sy_history s = [].

Section system.
Context {X : Type} `{FH : FileHost X}.

(** A process meets the database of the system, with whatever is its own: the
    state of its executors, its map of route health, its place in time. *)
Definition meets (w : world X) (s : system) : Prop := w_db w = sy_db s /\ w_journal w = [].

Inductive system_step : system -> system -> Prop :=
| step_request E ac headers request (w : world X) s :
    harmless E -> meets w s ->
    let w' := (serve E ac headers request w).2 in
    system_step s
      {| sy_db := w_db w';
         sy_history := sy_history s ++ [{| sv_config := ac; sv_headers := headers; sv_request := request;
                                           sv_journal := w_journal w' |}] |}
| step_cycle E ext cc (w : world X) s :
    harmless E -> meets w s ->
    system_step s {| sy_db := w_db (process_once_dual E ext cc w).2; sy_history := sy_history s |}.

Lemma initial_traced s : initial s -> traced (sy_history s) (sy_db s).
Proof.
  intros (H1 & H2 & H3 & _). unfold traced, queue_inv, store_inv, ids_distinct. rewrite H1, H2, H3.
  cbn. repeat split; by constructor.
Qed.

Lemma step_traced s s' : system_step s s' -> traced (sy_history s) (sy_db s) -> traced (sy_history s') (sy_db s').
Proof.
  intros [E ac headers request w s0 HE [Hd Hj] w'|E ext cc w s0 HE [Hd Hj]] Hs; cbn; rewrite <- Hd in Hs.
  - by apply (serve_traced E ac headers request (sy_history s0) HE w).
  - refine (kept_process_once E ext cc (run_created (sy_history s0)) (trigger_created (sy_history s0)) _ w Hs).
    intros t rows tt. apply HE.
Qed.

Lemma reachable_traced s0 s : initial s0 -> rtc system_step s0 s -> traced (sy_history s) (sy_db s).
Proof. intros Hi%initial_traced Hs. induction Hs; eauto using step_traced. Qed.
End system.

(** * Property *)

(** C2: the whole system, from an empty queue, through any interleaving of served
    requests (with any headers, on either backend) and worker cycles, under any
    failures, clocks, leases and statement-level interference: an action that a
    worker then executes belongs to a run it has claimed, and that run goes back
    to a request in the history: one that created the run, or one that created a
    trigger for the same tenant, agent, user and recipe.  The role which that
    request authenticated permits the type of the action on its scope; the scope
    lies in the family of the capability, the payload is within the hard limit,
    and a recipe with a bundle has an entry that covers it. *)
Theorem executed_actions_trace_back_to_requests X `{FH : FileHost X} (s0 s : system) (E : env) ext (cc : CycleConfig)
    (w : world X) j j1 id a j2
    (Hinit : initial s0) (Hreach : rtc (system_step (X := X)) s0 s)
    (HE : harmless E) (Hw : meets w s)
    (Hj : appends (process_once_dual E ext cc) w j) (Hexec : j = j1 ++ Executing id a :: j2) :
  exists run v R req, RunClaimed run ∈ j1 /\
    v ∈ sy_history s /\ sv_role v = Ok R /\
    ((exists n, RunCreated n ∈ sv_journal v /\ n_id n = l_id run) \/
     (exists t, TriggerCreated t ∈ sv_journal v /\ trigger_author t = lease_author run)) /\
    to_policy_request (x_to_vec (cx_worker ext)) (llm_scope (cx_worker ext) (cc_worker cc)) a = Ok req /\
    role_permits R (action_type req) (req_scope req) /\
    scope_in_family (action_type req) (req_scope req) = true /\
    payload_bytes req <= resolve_max_payload_bytes (action_type req) None /\
    forall b, resolve_recipe_capability_bundle (l_recipe_id run) = Some b ->
      exists e, e ∈ b /\ bc_capability e = action_type req /\
                scope_matches (bc_scope e) (req_scope req) = true.
Proof.
  pose proof (reachable_traced _ _ Hinit Hreach) as Ht. rewrite <- (proj1 Hw) in Ht.
  destruct (executed_within_roles E ext cc _ _ (fun t rows tt => HE _ _ t rows tt) w j j1 id a j2 Ht Hj Hexec)
    as (run & req & R & Hrun & Hreq & [(v & n & Hv & HR & Hn)|(v & t & Hv & HR & Hn)] & Hrest);
    exists run, v, R, req; split_and!; eauto; apply Hrest.
Qed.

(** An operator creates a run for show notes; a worker executes it. *)
Definition notes_request : api_request :=
  CreateRun {| cr_agent_id := 7; cr_triggered_by_user_id := None; cr_recipe_id := "show_notes_v1";
               cr_input := JObj []; cr_requested_capabilities := JArr [] |}.

Definition empty_system : system := {| sy_db := w_db user_world; sy_history := [] |}.

Definition notes_served : world unit := (serve api_env api_config api_headers notes_request user_world).2.

Definition notes_system : system :=
  {| sy_db := w_db notes_served;
     sy_history := [{| sv_config := api_config; sv_headers := api_headers; sv_request := notes_request;
                       sv_journal := w_journal notes_served |}] |}.

Definition notes_world : world unit :=
  {| w_db := w_db notes_served; w_journal := []; w_tick := 20; w_ext := tt; w_routes := ∅; w_llm := no_llm |}.

Definition notes_effects : list effect := w_journal (operator_cycle notes_world).2.

Lemma quiet_harmless : harmless api_env.
Proof. by intros rr tr t rows tables. Qed.

Lemma executed_actions_trace_back_to_requests_witness :
  exists run v R req, RunClaimed run ∈ take 13 notes_effects /\
    v ∈ sy_history notes_system /\ sv_role v = Ok R /\
    ((exists n, RunCreated n ∈ sv_journal v /\ n_id n = l_id run) \/
     (exists t, TriggerCreated t ∈ sv_journal v /\ trigger_author t = lease_author run)) /\
    to_policy_request (fun _ => "{}") (llm_scope (demo_ext [write_shownotes]) (demo_cfg false)) write_shownotes = Ok req /\
    role_permits R (action_type req) (req_scope req) /\
    scope_in_family (action_type req) (req_scope req) = true /\
    payload_bytes req <= resolve_max_payload_bytes (action_type req) None /\
    forall b, resolve_recipe_capability_bundle (l_recipe_id run) = Some b ->
      exists e, e ∈ b /\ bc_capability e = action_type req /\
                scope_matches (bc_scope e) (req_scope req) = true.
Proof.
  apply (executed_actions_trace_back_to_requests unit empty_system notes_system demo_env
    (cycle_ext [write_shownotes]) cycle_cfg notes_world notes_effects (take 13 notes_effects) 1047
    write_shownotes (drop 14 notes_effects)).
  - done.
  - apply rtc_once. exact (step_request api_env api_config api_headers notes_request user_world empty_system
      quiet_harmless (conj eq_refl eq_refl)).
  - by intros rr tr t rows tables.
  - split; vm_compute; reflexivity.
  - vm_compute. reflexivity.
  - vm_compute. reflexivity.
Defined.
